(* ===== verification/_CoqProject ===== *)
-Q . S2P
Prelude.v
GoInt.v
GoMonad.v
GoFmt.v
Utils.v
BlockDev.v
RingBuffer.v
RingBufferProps.v
Bitmap.v
Blocks.v
Image.v
GoChan.v
Networking.v
Journal.v
JournalCodec.v
JournalSlots.v
JournalSpec.v
JournalOps.v
JournalCheck.v
JournalTypes.v
JournalSafe.v
JournalProps.v
Server.v
ServerReplay.v
ServerJournal.v
ServerSafe.v
ServerFaults.v
ServerProps.v
ServerPaths.v
Session.v
SessionSafety.v
SessionProps.v
SessionScan.v
SessionScanProps.v
SessionFullScan.v
Pause.v
Ioctl.v
Client.v
Chardev.v
Target.v
ClientFacts.v
ClientProps.v
ClientSession.v
ClientSafety.v
ClientSessionProps.v
ClientSends.v
ClientScan.v
ClientFlush.v
ClientSteady.v
ClientRun.v
SessionStream.v
SessionDrain.v
SessionPaths.v
SessionReplication.v
ClientOutput.v
ClientDrain.v
ClientReplication.v
System.v
ClientScanProps.v
EndToEnd.v
FullScan.v
SystemTracked.v
SystemDrain.v
SystemProps.v
Replication.v
Args.v
ClientConfig.v
ServerConfig.v
Bench.v
Report.v
Connections.v
ConnectionsSafety.v
ConnectionsProps.v
DaemonSafe.v
ConnectionsShutdown.v
Boot.v
Startup.v
Reconnect.v
ClientProcess.v
ClientShutdown.v
