(* ===== verification/Prelude.v ===== *)
(** * BDR: verification of a block-device replicator

    BDR mirrors a block device over the network.  A kernel module records every
    write to the source in a ring of entries; the client daemon
    ([src/user/client]) reads the ring and sends the writes to the server daemon
    ([src/user/server]), which applies them to the replica.  When the ring
    overflows or the connection is lost, the two are brought together again by
    a scan: the server sends a hash of every block, the client answers with the
    correct blocks and with the writes made meanwhile, and the server collects
    both in a journal on a separate device ([src/user/journal]) and applies the
    journal when the scan is over, so that a crash leaves either the old
    replica or a journal from which the new one is rebuilt.

    ** Conventions

    A Go function that changes a state [S] and returns a value or an [error] is a
    computation [S -> outcome A * S] ([GoMonad]): return, error or panic, with the
    state surviving an error.  [uint32] and [uint64] are [Z] with the wrap-around
    written out ([GoInt]); slice expressions and divisions that can panic
    return an option.  A block device ([BlockDev]) is its bytes and the list of
    faults its next system calls meet: each call can fail after any number of
    bytes.  Channels ([GoChan]) are bounded buffers whose operations complete,
    block or panic.  Goroutines are step functions on a shared state, and a
    schedule is a list of steps; a theorem about every schedule quantifies over
    that list.

    ** Files

    - [Prelude], [GoInt], [GoMonad], [GoChan]: notation, tactics, hint database
      [bdr], machine integers and byte orders, the monad with its loops, channels.
      [GoFmt] is what [fmt] prints: integers, [float64] with its rounding,
      hexadecimal numbers and durations.
    - [Utils] ([utils.go]: helpers, assertions, error lines), [BlockDev] ([*os.File] on a device, [GetDeviceSize],
      algebra of sequences of writes), [Blocks] (the block loop both daemons
      use), [Image] (copying an image by writes, hash comparison against a
      changing source).
    - [RingBuffer] ([kern/ring-buffer.c], the write path of [kern/main.c]): the
      ring as bytes and descriptor with every operation on it, the queue it
      promises ([aring]) and the relation of the two ([ring_rel]);
      [RingBufferProps] holds its properties.  [Chardev] is the control device
      ([kern/main.c], [kern/ioctl.c]) through which the client reads and resets
      the ring, [Bitmap] ([kern/bitmap.c]) the maps of minor numbers and of
      megabytes written after an overflow, [Target] building and removing a
      target, and loading and unloading the module.
    - [Networking] ([networking.go]): packets, their numbers and payloads.
    - [Journal] ([journal.go]): header, sections, slots and every operation of
      the package.  The Go code writes each operation twice, for buffer writes
      and for correct blocks; here it is one definition over a [section] and two
      names.  [JournalCodec] has closed forms of the codecs and the layout;
      [JournalSlots] shows that the device is two arrays of independent slots;
      [JournalSpec] states what the journal promises, a durable mark and two
      append-only lists ([AJournal]), and relates the two by [jrel];
      [JournalOps] covers clearing, creating and opening; [JournalCheck] decides
      [jrel] for examples; [JournalProps] holds the properties, and
      [JournalTypes] a typing judgement for the package: machine widths and
      aligned offsets.  [JournalSafe] says when its operations do not panic.
    - [Server] ([server.go]): the methods on the journal, the replica and the
      connection, the handlers one packet at a time.  [ServerReplay] and
      [ServerFaults] treat the replay without and with faults, [ServerJournal]
      the filling of the journal; [ServerProps] and [ServerPaths] hold the
      properties and the error paths.  [ServerSafe] lifts [JournalSafe] to the
      handlers.
    - [Session]: [HandleClient] with its goroutines.  A [Session] is the server,
      the packets the decoder will deliver, the channels, the position of the
      main goroutine ([main_pc]) and of the write worker, the blocks that the
      correct-block and replication workers have received and not yet written, the
      numbers of workers, and the hashing: [hash_job] is one [HashDisk] with its
      tasks, readers, hashing workers, senders and the channels between them,
      [strays] are the goroutines that a [HashDisk] which was stopped has left
      running.  [step] is one atomic action, [run] a schedule, [reachable] the
      states some schedule reaches.  [SessionSafety] has the invariants,
      [SessionScan] the invariant of a journalled scan, [SessionFullScan] of a full
      scan and [SessionReplication] of a replication (beside goroutines that do not
      touch the replica), [SessionProps], [SessionScanProps] and [SessionPaths] the
      properties.  [SessionStream] follows a session whose packets arrive while it
      runs ([served]); [SessionDrain] brings such a session to rest.
    - [Connections]: [Run], [HandleConnections] and [Close] as a [Daemon], beside
      the goroutines of the current session and of the sessions that have ended;
      [dstep], [drun] and [dreachable] are its steps and schedules.
      [ConnectionsSafety] has the invariants, [ConnectionsProps] and
      [ConnectionsShutdown] the properties; [DaemonSafe] follows the journal from
      session to session and shows where the daemon panics, and that it does
      nowhere else.
    - [Pause] ([pause.go]): the pause controller, by whole operations and cut at
      its channel accesses.
    - [Client] ([client.go]): the ioctls on the ring of the kernel and reading
      it, sending, the start of scans and replications; [ClientFacts] says what
      a batch in the ring looks like and gives the lemmas, [ClientProps] the
      properties.
    - [ClientSession]: [ListenPackets] with [ReceivePacket] and
      [reconnectToServer], the workers of [InitHashing], [MonitorChanges] and
      [InitReplication] on one [CSession]; [cstep], [crun] and [creachable] are
      as in [Session], with one event of the environment: a write to the source,
      which changes the device and puts its segments into the ring.
      [ClientSafety] has the invariants, [ClientSends] what a step sends and
      receives, [ClientScan] the invariant of the hashing phase of a scan,
      [ClientFlush] of the sending of the writes made meanwhile, [ClientSteady]
      of the time after the scan, when the monitor sends batches,
      [ClientDrain] empties the ring once the writes pause, and [ClientRun] puts
      them together; [ClientReplication] is the same for a replication; [ClientSessionProps] and [ClientScanProps] hold the
      properties.
    - [EndToEnd], [FullScan], [Replication]: the packets of a client, handled by a server, for a
      scan, a full replication and a full scan.  [ClientOutput] brings them into
      the form the server's theorems take.
    - [System]: both daemons as one state ([System]), each packet sent by one
      arriving at the other, steps of both and of the source in any order
      ([sys_step], [sys_run]).  [SystemTracked] ties a state to the packets
      sent so far, [SystemDrain] brings both to rest, [SystemProps] holds the
      properties and a schedule with two scans.
    - [Boot] ([NewClient], [SendInitPacket] and [main] of the client, the server
      from [Accept] to the scan), [Startup] ([main] of the server) and
      [Reconnect] (the end of a session and the next one) lead to the state in
      which [System] starts.  [ClientProcess] is the client from [main] to the end
      of the process, with the signals and what [Run] closes ([Process], [prun]);
      [ClientShutdown] holds its properties.
    - [Ioctl] ([ioctl.go]), [Args], [ClientConfig], [ServerConfig] ([config.go]),
      [Bench] ([benchmark.go]: statistics, timers, the printing goroutine) and
      [Report] (the [Print] methods, [String] of the journal, the log lines of both
      daemons).

    ** What is shown

    - Journal: slots are inside the device, disjoint from the header and from
      each other, and a block written is read back; header and slot codecs are
      inverse; clearing the used prefix is clearing everything; opening recovers
      a journal that is not full; a new journal is emptied by the first scan
      whatever the device held.
    - Replica: replaying applies the correct blocks and then the buffer writes in
      order; a replay that stops at any fault, or a power loss that keeps any
      part of the unsynchronised writes, is completed by the recovery of the
      next start; while a scan fills the journal the replica is untouched.
    - Session, in every schedule: the main goroutine closes no channel twice and
      sends on none that is closed; a full queue always has a worker that can
      take a step; a journalled scan ends with the same replica whatever the
      interleaving, and can be finished from every point.
    - Server daemon, in every schedule and with a signal at any time: at most one
      client is served, and [Connected] says so; a shutdown between two packets
      can complete, whatever the workers have still to do ([shutdown_completes]).
      On a journal device that meets no faults and whose slots can be read, and
      with clients that send packets their own code can send, a schedule panics
      exactly when it reaches one of two situations ([server_panics_only]): the
      first line of [HandleClient] meets a connection that [Close] has taken away,
      or a reader of a stopped [HashDisk] sends its error on the closed result
      channel.
    - Ring: over every sequence of writes, reads and resets it is a queue with a
      batch handed out, which stays in the buffer until the next read; whatever
      is dropped is reported.
    - Client: the ring is read completely, in order and within its bounds; a
      transient send error costs a retry and no packet; after hashing either all
      buffered writes are sent or a new scan starts; a lost connection leads to
      a new scan; the pause controller is a flag as long as its operations do not
      overlap.  In every schedule: the listener closes no channel twice and sends
      on none that is closed, a full hash queue has a worker that can take a
      packet, a scan compares every block exactly once, and every write that the
      ring has taken since the scan began is sent once, in order.  From [main] to
      the end of the process a schedule panics exactly when the listener and [Run]
      both close the termination channel, which [InitiateShutdown] tests without a
      lock ([client_panics_only]); from every other state a shutdown can be
      completed ([client_shutdown_completes]).
    - Both ([replica_follows_source]): from the request of a scan on, in every
      schedule of both daemons, of the packets between them and of the writes to
      the source, a replica that has caught up with what has arrived is the source
      after some prefix of the writes, and the source itself once nothing is
      pending at the client; and once the writes pause the two can always come to
      rest there ([system_catches_up]).  Both hold until the ring overflows and the
      client asks for another scan, as long as the journal has a slot for every
      write sent during the scan, and without faults and collisions; beyond that
      the replica can differ for good ([rescan_diverges],
      [Boot.journal_smaller_than_ring]).  The state in which this begins is reached
      from the start of the processes, whatever the devices hold
      ([daemons_replicate]), and again after a connection is lost while the session
      is idle ([daemons_reconnect]), with the same exceptions.  A full
      replication of a source that is written to converges to it in every schedule
      of both daemons ([full_replication_converges]), and a full scan of a quiet
      source copies it ([full_scan_copies]).
    - Kernel module: a write marks its own megabyte in the bitmap; the
      constructor of a target gives back whatever it took when it fails.
    - What the code does not do: a full journal is not recovered, recovery drops
      write errors, a write past the end is retried for ever, buffer writes of a
      full scan are dropped, an aborted scan is announced as complete, the
      correct-block worker can overtake the end of a full scan, replication
      blocks without a started replication hang the session, a block the server
      cannot read is not repaired, the monitor can take a write out of the
      kernel's buffer and drop it, a waiter can slip through a paused
      controller, the write worker of an ended session still writes, a shutdown
      under load hangs, a put to the ring is visible before its bytes are, and
      a scan after an overflow does not wait for the write worker, so that a
      write it has missed lands on the hashed block ([rescan_diverges]); a client
      stopped at the end of a scan announces it without the writes made meanwhile
      ([stopped_scan_announced]); a journal that cannot be reset is replayed again
      ([reset_error_replays]); a write that a reset of the ring meets between its
      put and its submission is lost ([reset_between_put_and_submit]).

    ** Fuel and bounds

    Loops of the code with a known number of turns are structural in that
    number ([for_range], [process_entries], [block_loop] with the number of
    blocks), so no fuel can run out.  The retry loops ([ioctl_loop],
    [send_loop], [retry_write]) recurse on the list of coming faults or take a
    number of attempts: the theorems either give the number that is enough
    ([write_packet_applied]) or hold for every number ([write_packet_spins]).
    The waiting of a goroutine is not fuel but [Blocked], and the scan theorems
    say that the end can be reached.  Theorems on offsets assume devices below
    [2^63] bytes where Go converts to [int64].

    ** What is given

    The hash function is a parameter; [scan_converges] and
    [replica_follows_source] assume that it does not collide between a block of
    the replica and a version of the same block of the source ([no_collision]),
    and their witnesses take a concrete function.  The gob encoding delivers what
    was sent ([sendable] packets, with the unused rest of a page cut off by
    [trim]).  A write to the source ([write_source]) is one step that puts its
    segments into the ring ([write_put]) and changes the device ([write_submit]), as
    if the kernel did both at once: the schedules of the client and of both daemons
    leave out those in which another step comes between the two, or between the two
    halves of a put.  What such a step can do is in [reset_between_put_and_submit]
    and [put_read_race].  What [Accept] returns is an input of the daemon.

    ** What is not modelled

    Sockets below the packets they deliver; the points at which the daemons log
    (the lines themselves are in [Report]); the clock, an argument of the
    statistics and timers that read it; the mapping of the ring into the
    client's memory, beyond that its use after [Munmap] kills the process.  The
    stages of the client's pools are merged where a stage only passes items on.
    In a [hash_job] the channels between the stages are unbounded, which only adds
    interleavings, and one step are: the read of a block with the send of the
    block or of the error, and the hash of a block with the send of the result; such
    a step stands for the moment of the send.  A journal packet is received and
    written in one step. *)
From stdpp Require Export base list list_numbers numbers options.
From Stdlib Require Export ZArith Lia.

#[global] Open Scope Z_scope.

(** ** Automation *)

Create HintDb bdr.
Create Rewrite HintDb bdr_len.

(** Split the first [match]/[if] scrutinee of the goal and keep its equation. *)
Ltac case_goal :=
  match goal with
  | |- context [match ?x with _ => _ end] =>
      lazymatch x with
      | context [match _ with _ => _ end] => fail
      | _ => let E := fresh "E" in destruct x eqn:E
      end
  end.

(** ** Slices of a list

    [sub off n l] is Go's [l[off : off+n]] as a value; [splice off d l]
    overwrites the elements of [l] from [off] on with [d]. *)
Definition sub {A} (off n : nat) (l : list A) : list A := take n (drop off l).

Definition splice {A} (off : nat) (d l : list A) : list A :=
  take off l ++ d ++ drop (off + length d)%nat l.

Section Slices.
Context {A : Type}.
Implicit Types (l d : list A) (off n i : nat).
Local Open Scope nat_scope.

Lemma length_sub off n l : off + n <= length l -> length (sub off n l) = n.
Proof. intros. unfold sub. rewrite length_take, length_drop. lia. Qed.

Lemma lookup_sub off n l i : i < n -> sub off n l !! i = l !! (off + i).
Proof. intros. unfold sub. rewrite lookup_take_lt by lia. by rewrite lookup_drop. Qed.

Lemma sub_full l n : n = length l -> sub 0 n l = l.
Proof. intros ->. unfold sub. rewrite drop_0. by apply take_ge. Qed.

Lemma length_splice off d l :
  off + length d <= length l -> length (splice off d l) = length l.
Proof. intros. unfold splice. rewrite !length_app, length_take, length_drop. lia. Qed.

Lemma lookup_splice_in off d l i :
  off + length d <= length l -> off <= i < off + length d ->
  splice off d l !! i = d !! (i - off).
Proof.
  intros ? ?. unfold splice.
  rewrite lookup_app_r by (rewrite length_take; lia).
  rewrite length_take, Nat.min_l by lia.
  by rewrite lookup_app_l by lia.
Qed.

Lemma lookup_splice_out off d l i :
  off + length d <= length l -> (i < off \/ off + length d <= i) ->
  splice off d l !! i = l !! i.
Proof.
  intros ? [?|?]; unfold splice.
  - rewrite lookup_app_l by (rewrite length_take; lia). by apply lookup_take_lt.
  - rewrite !lookup_app_r; rewrite ?length_take, ?Nat.min_l by lia; try lia.
    rewrite lookup_drop. f_equal. lia.
Qed.

Lemma splice_nil off l : splice off [] l = l.
Proof. unfold splice. simpl. rewrite Nat.add_0_r. apply take_drop. Qed.

Lemma splice_full d l : length d = length l -> splice 0 d l = d.
Proof. intros H. unfold splice. rewrite take_0, Nat.add_0_l, H, drop_all. apply app_nil_r. Qed.

Lemma sub_splice_same off d l :
  off + length d <= length l -> sub off (length d) (splice off d l) = d.
Proof.
  intros H. apply list_eq. intros i.
  destruct (decide (i < length d)) as [Hi|Hi].
  - rewrite lookup_sub by done. rewrite lookup_splice_in by lia. f_equal. lia.
  - rewrite !lookup_ge_None_2; [done|lia|].
    rewrite length_sub; [lia|]. rewrite length_splice; lia.
Qed.

Lemma sub_splice_disjoint off d l off' n :
  off + length d <= length l -> off' + n <= length l ->
  (off' + n <= off \/ off + length d <= off') ->
  sub off' n (splice off d l) = sub off' n l.
Proof.
  intros H H' Hd. apply list_eq. intros i.
  destruct (decide (i < n)) as [Hi|Hi].
  - rewrite !lookup_sub by done. apply lookup_splice_out; lia.
  - rewrite !lookup_ge_None_2; [done|rewrite length_sub; lia|].
    rewrite length_sub; [lia|]. rewrite length_splice; lia.
Qed.

Lemma sub_sub off n off' n' l :
  off' + n' <= n -> sub off' n' (sub off n l) = sub (off + off') n' l.
Proof.
  intros H. apply list_eq. intros i.
  destruct (decide (i < n')) as [Hi|Hi].
  - rewrite !lookup_sub by lia. f_equal. lia.
  - unfold sub. rewrite !lookup_take_ge by lia. done.
Qed.

Lemma sub_app_l n l l' : n = length l -> sub 0 n (l ++ l') = l.
Proof. intros ->. unfold sub. rewrite drop_0. apply take_app_length. Qed.

Lemma sub_app_r off n l l' :
  length l <= off -> sub off n (l ++ l') = sub (off - length l) n l'.
Proof. intros. unfold sub. by rewrite drop_app_ge by lia. Qed.

Lemma splice_splice_same off d d' l :
  length d = length d' -> off + length d <= length l ->
  splice off d' (splice off d l) = splice off d' l.
Proof.
  intros Hl H. apply list_eq. intros i.
  assert (off + length d' <= length (splice off d l)) by (rewrite length_splice; lia).
  destruct (decide (off <= i < off + length d')).
  - rewrite !lookup_splice_in by lia. done.
  - rewrite !lookup_splice_out by lia. done.
Qed.
End Slices.
