(* ===== verification/GoInt.v ===== *)
(** * Go's machine integers and the [encoding/binary] byte orders

    A [uint32] or [uint64] value is a [Z] between 0 and [2^w - 1]; every Go
    operation that can leave this range is written with the wrap-around
    ([u32], [u64]) of the language.  [i64] is the conversion [int64(x)] of a
    [uint64].  Bytes are the 256-element type of the standard library, so
    whatever is read from a device is a byte by typing.  [be_put]/[be_get] are
    [binary.BigEndian.PutUintN]/[UintN], [le_get] is the little-endian
    [binary.Read] of the client. *)
From S2P Require Import Prelude.
From Stdlib Require Export Strings.Byte.

Abbreviation byte := Byte.byte.

#[global] Instance byte_eq_dec : EqDecision byte.
Proof. intros x y. destruct (Byte.byte_eq_dec x y); [left|right]; done. Defined.

(** ** Widths *)

Definition u8 (z : Z) : Z := z mod 2 ^ 8.
Definition u32 (z : Z) : Z := z mod 2 ^ 32.
Definition u64 (z : Z) : Z := z mod 2 ^ 64.
Definition i64 (z : Z) : Z := if z <? 2 ^ 63 then z else z - 2 ^ 64.

Definition is_u32 (z : Z) : Prop := 0 <= z < 2 ^ 32.
Definition is_u64 (z : Z) : Prop := 0 <= z < 2 ^ 64.

#[global] Instance is_u32_dec z : Decision (is_u32 z).
Proof. unfold is_u32. apply _. Defined.
#[global] Instance is_u64_dec z : Decision (is_u64 z).
Proof. unfold is_u64. apply _. Defined.

(** [width_tac] opens the width predicates and closes the goal with [lia]. *)
Ltac width_tac := unfold is_u32, is_u64, u8, u32, u64, i64 in *; lia.

Lemma u64_small z : is_u64 z -> u64 z = z.
Proof. intros. apply Z.mod_small. width_tac. Qed.

Lemma u32_small z : is_u32 z -> u32 z = z.
Proof. intros. apply Z.mod_small. width_tac. Qed.

Lemma u64_range z : is_u64 (u64 z).
Proof. apply Z.mod_pos_bound. lia. Qed.

Lemma u32_range z : is_u32 (u32 z).
Proof. apply Z.mod_pos_bound. lia. Qed.

Lemma i64_small z : 0 <= z < 2 ^ 63 -> i64 z = z.
Proof. intros. unfold i64. destruct (z <? 2 ^ 63) eqn:E; lia. Qed.

#[export] Hint Resolve u64_range u32_range : bdr.

(** ** Bytes *)

Definition Z_of_byte (b : byte) : Z := Z.of_N (Byte.to_N b).

Definition byte_of_Z (z : Z) : byte :=
  match Byte.of_N (Z.to_N (u8 z)) with Some b => b | None => Byte.x00 end.

Lemma Z_of_byte_range b : 0 <= Z_of_byte b < 256.
Proof. unfold Z_of_byte. pose proof (Byte.to_N_bounded b). lia. Qed.

Lemma Z_of_byte_of_Z z : Z_of_byte (byte_of_Z z) = u8 z.
Proof.
  unfold byte_of_Z. assert (0 <= u8 z < 256) by (apply Z.mod_pos_bound; lia).
  destruct (Byte.of_N (Z.to_N (u8 z))) as [b|] eqn:E.
  - apply Byte.to_of_N in E. unfold Z_of_byte. lia.
  - apply Byte.of_N_None_iff in E. lia.
Qed.

Lemma Z_of_byte_inj b b' : Z_of_byte b = Z_of_byte b' -> b = b'.
Proof.
  unfold Z_of_byte. intros H%N2Z.inj.
  pose proof (Byte.of_to_N b). pose proof (Byte.of_to_N b'). congruence.
Qed.

(** ** Byte orders *)

(** [be_put n z]: the [n] low bytes of [z], most significant first. *)
Fixpoint be_put (n : nat) (z : Z) : list byte :=
  match n with
  | O => []
  | S n => byte_of_Z (Z.shiftr z (8 * Z.of_nat n)) :: be_put n z
  end.

Fixpoint be_get_acc (acc : Z) (l : list byte) : Z :=
  match l with
  | [] => acc
  | b :: l => be_get_acc (Z.lor (Z.shiftl acc 8) (Z_of_byte b)) l
  end.
Definition be_get (l : list byte) : Z := be_get_acc 0 l.

Fixpoint le_get (l : list byte) : Z :=
  match l with
  | [] => 0
  | b :: l => Z.lor (Z_of_byte b) (Z.shiftl (le_get l) 8)
  end.

Fixpoint le_put (n : nat) (z : Z) : list byte :=
  match n with
  | O => []
  | S n => byte_of_Z z :: le_put n (Z.shiftr z 8)
  end.

Lemma length_be_put n z : length (be_put n z) = n.
Proof. induction n; simpl; congruence. Qed.

Lemma length_le_put n z : length (le_put n z) = n.
Proof. revert z. induction n; intros; simpl; f_equal; auto. Qed.

(** Appending a byte below an accumulator is [* 256 +]. *)
Lemma lor_shift8 acc b : 0 <= b < 256 -> Z.lor (Z.shiftl acc 8) b = acc * 256 + b.
Proof.
  intros Hb. rewrite Z.shiftl_mul_pow2 by lia. change (2 ^ 8) with 256.
  rewrite <- Z.lxor_lor, <- Z.add_nocarry_lxor; [done| |];
    (apply Z.bits_inj'; intros i Hi; rewrite Z.land_spec, Z.bits_0;
     change 256 with (2 ^ 8); destruct (decide (i < 8));
     [ by rewrite Z.mul_pow2_bits_low by lia
     | rewrite (Z.bits_above_log2 b i), andb_false_r; [done|lia|];
       destruct (decide (b = 0)) as [->|]; [simpl; lia|];
       apply Z.log2_lt_pow2; [lia|]; apply Z.lt_le_trans with (2 ^ 8); [lia|];
       apply Z.pow_le_mono_r; lia ]).
Qed.

Lemma u8_shiftr z n : 0 <= n -> u8 (Z.shiftr z n) = z / 2 ^ n mod 256.
Proof. intros. unfold u8. by rewrite Z.shiftr_div_pow2. Qed.

Lemma be_get_acc_put n acc z :
  be_get_acc acc (be_put n z) = acc * 256 ^ Z.of_nat n + z mod 256 ^ Z.of_nat n.
Proof.
  revert acc. induction n as [|n IH]; intros acc; simpl.
  - rewrite Z.mod_1_r. lia.
  - rewrite IH, Z_of_byte_of_Z, u8_shiftr by lia.
    rewrite lor_shift8 by (apply Z.mod_pos_bound; lia).
    replace (2 ^ (8 * Z.of_nat n)) with (256 ^ Z.of_nat n)
      by (change 256 with (2 ^ 8); rewrite <- Z.pow_mul_r by lia; done).
    replace (Z.of_nat (S n)) with (Z.of_nat n + 1) by lia.
    rewrite Z.pow_add_r, Z.pow_1_r by lia.
    pose proof (Z.pow_pos_nonneg 256 (Z.of_nat n) ltac:(lia) ltac:(lia)).
    rewrite (Z.rem_mul_r z (256 ^ Z.of_nat n) 256) by lia. ring.
Qed.

(** The big-endian write of a [8n]-bit value is read back. *)
Lemma be_get_put n z : 0 <= z < 256 ^ Z.of_nat n -> be_get (be_put n z) = z.
Proof. intros. unfold be_get. rewrite be_get_acc_put, Z.mod_small; lia. Qed.

Lemma be_get_put_u64 z : is_u64 z -> be_get (be_put 8 z) = z.
Proof. intros. apply be_get_put. change (256 ^ Z.of_nat 8) with (2 ^ 64). width_tac. Qed.

Lemma be_get_put_u32 z : is_u32 z -> be_get (be_put 4 z) = z.
Proof. intros. apply be_get_put. change (256 ^ Z.of_nat 4) with (2 ^ 32). width_tac. Qed.

Lemma be_get_acc_bound acc l :
  0 <= acc -> 0 <= be_get_acc acc l < (acc + 1) * 256 ^ Z.of_nat (length l).
Proof.
  revert acc. induction l as [|b l IH]; intros acc Hacc; simpl.
  - lia.
  - pose proof (Z_of_byte_range b). rewrite lor_shift8 by done.
    specialize (IH (acc * 256 + Z_of_byte b) ltac:(lia)).
    replace (Z.of_nat (S (length l))) with (Z.of_nat (length l) + 1) by lia.
    rewrite Z.pow_add_r, Z.pow_1_r by lia. nia.
Qed.

Lemma be_get_u64 l : length l = 8%nat -> is_u64 (be_get l).
Proof.
  intros H. pose proof (be_get_acc_bound 0 l ltac:(lia)) as B.
  rewrite H in B. change (256 ^ Z.of_nat 8) with (2 ^ 64) in B. unfold be_get. width_tac.
Qed.

Lemma be_get_u32 l : length l = 4%nat -> is_u32 (be_get l).
Proof.
  intros H. pose proof (be_get_acc_bound 0 l ltac:(lia)) as B.
  rewrite H in B. change (256 ^ Z.of_nat 4) with (2 ^ 32) in B. unfold be_get. width_tac.
Qed.

Lemma le_get_cons b l : le_get (b :: l) = Z_of_byte b + 256 * le_get l.
Proof.
  simpl. rewrite Z.lor_comm, lor_shift8 by apply Z_of_byte_range. lia.
Qed.

Lemma le_get_put n z : 0 <= z < 256 ^ Z.of_nat n -> le_get (le_put n z) = z.
Proof.
  revert z. induction n as [|n IH]; intros z Hz.
  - simpl in *. lia.
  - cbn [le_put]. rewrite le_get_cons, Z_of_byte_of_Z.
    replace (Z.of_nat (S n)) with (Z.of_nat n + 1) in Hz by lia.
    rewrite Z.pow_add_r, Z.pow_1_r in Hz by lia.
    rewrite Z.shiftr_div_pow2 by lia. change (2 ^ 8) with 256.
    rewrite IH; [unfold u8; change (2 ^ 8) with 256; pose proof (Z.div_mod z 256); lia|].
    split; [apply Z.div_pos; lia|]. apply Z.div_lt_upper_bound; lia.
Qed.

Lemma le_get_nonneg l : 0 <= le_get l.
Proof.
  induction l as [|b l IH]; [simpl; lia|].
  rewrite le_get_cons. pose proof (Z_of_byte_range b). lia.
Qed.

Lemma le_get_bound l : le_get l < 256 ^ Z.of_nat (length l).
Proof.
  induction l as [|b l IH]; [simpl; lia|]. rewrite le_get_cons. pose proof (Z_of_byte_range b).
  cbn [length]. replace (Z.of_nat (S (length l))) with (Z.of_nat (length l) + 1) by lia.
  rewrite Z.pow_add_r, Z.pow_1_r by lia. lia.
Qed.

Lemma le_get_u32 l : length l = 4%nat -> is_u32 (le_get l).
Proof.
  intros H. pose proof (le_get_bound l) as B. pose proof (le_get_nonneg l).
  rewrite H in B. change (256 ^ Z.of_nat 4) with (2 ^ 32) in B. width_tac.
Qed.

(** All-zero bytes decode to 0. *)
Lemma be_get_zeros n : be_get (replicate n Byte.x00) = 0.
Proof. unfold be_get. induction n; simpl; [done|]. exact IHn. Qed.

#[export] Hint Rewrite length_be_put length_le_put : bdr_len.
