(* ===== verification/GoMonad.v ===== *)
(** * Go functions as a state, error and panic monad

    A Go function that mutates a state of type [S] and returns a value of
    type [A] or an [error] is a function [S -> outcome A * S].  [Ret a] is
    a return with a [nil] error, [Err e] a return with a non-nil error, [Panic]
    the run-time panic of an out-of-range slice expression or a division by
    zero.  The state survives an error return, as in Go. *)
From S2P Require Import Prelude.
From stdpp Require Export strings.
Open Scope Z_scope.

(** ** Errors

    [ErrMsg] is what [errors.New] and [fmt.Errorf] with [%v] produce (only the
    text survives), [ErrWrap] what [fmt.Errorf] with [%w] produces. *)
Inductive error :=
| IoEOF
| ErrMsg (msg : string)
| ErrWrap (msg : string) (e : error).

#[global] Instance error_eq_dec : EqDecision error.
Proof. solve_decision. Defined.

(** The [Error()] method. *)
Fixpoint Error (e : error) : string :=
  match e with
  | IoEOF => "EOF"
  | ErrMsg m => m
  | ErrWrap m e => m +:+ Error e
  end.

(** [errors.Is(e, io.EOF)]: [io.EOF] itself or a [%w] chain ending in it. *)
Fixpoint IsEOF (e : error) : bool :=
  match e with IoEOF => true | ErrMsg _ => false | ErrWrap _ e => IsEOF e end.

(** [fmt.Errorf("prefix%v", e)]. *)
Definition Errorf_v (prefix : string) (e : error) : error := ErrMsg (prefix +:+ Error e).

(** ** The monad *)

Inductive outcome (A : Type) :=
| Ret (a : A)
| Err (e : error)
| Panic.
Arguments Ret {A} a.
Arguments Err {A} e.
Arguments Panic {A}.

Definition M (S A : Type) : Type := S -> outcome A * S.

Definition ret {S A} (a : A) : M S A := fun s => (Ret a, s).
Definition throw {S A} (e : error) : M S A := fun s => (Err e, s).
Definition panic {S A} : M S A := fun s => (Panic, s).
Definition gets {S A} (f : S -> A) : M S A := fun s => (Ret (f s), s).
Definition modify {S} (f : S -> S) : M S unit := fun s => (Ret tt, f s).

Definition bind {S A B} (m : M S A) (f : A -> M S B) : M S B := fun s =>
  match m s with
  | (Ret a, s') => f a s'
  | (Err e, s') => (Err e, s')
  | (Panic, s') => (Panic, s')
  end.

(** [v, err := m]: the caller looks at the error itself. *)
Definition catch {S A} (m : M S A) : M S (A + error) := fun s =>
  match m s with
  | (Ret a, s') => (Ret (inl a), s')
  | (Err e, s') => (Ret (inr e), s')
  | (Panic, s') => (Panic, s')
  end.

(** [if err != nil { return f(err) }]. *)
Definition map_err {S A} (f : error -> error) (m : M S A) : M S A := fun s =>
  match m s with
  | (Err e, s') => (Err (f e), s')
  | r => r
  end.

(** A call whose results are discarded. *)
Definition ignore {S A} (m : M S A) : M S unit := bind (catch m) (fun _ => ret tt).

(** A pure computation that may panic. *)
Definition lift_opt {S A} (o : option A) : M S A :=
  match o with Some a => ret a | None => panic end.

(** Run a computation on a component of the state. *)
Definition zoom {S T A} (get : S -> T) (put : T -> S -> S) (m : M T A) : M S A := fun s =>
  let '(r, t) := m (get s) in (r, put t s).

Declare Scope go_scope.
Delimit Scope go_scope with go.
Notation "x <- m ;; k" := (bind m (fun x => k))
  (at level 100, m at next level, right associativity) : go_scope.
Notation "m ;;; k" := (bind m (fun _ => k))
  (at level 100, right associativity) : go_scope.
#[global] Open Scope go_scope.

(** [for i := i0; ...; i++ { body }], [n] times. *)
Fixpoint for_range {S} (n : nat) (i : Z) (body : Z -> M S unit) : M S unit :=
  match n with
  | O => ret tt
  | Datatypes.S n => body i ;;; for_range n (i + 1) body
  end.

(** ** Equations *)

Section Equations.
Context {S A B : Type}.
Implicit Types (m : M S A) (f : A -> M S B) (s : S).

Lemma bind_Ret m f s a s' : m s = (Ret a, s') -> bind m f s = f a s'.
Proof. intros H. unfold bind. by rewrite H. Qed.

Lemma bind_Err m f s e s' : m s = (Err e, s') -> bind m f s = (Err e, s').
Proof. intros H. unfold bind. by rewrite H. Qed.

Lemma bind_Panic m f s s' : m s = (Panic, s') -> bind m f s = (Panic, s').
Proof. intros H. unfold bind. by rewrite H. Qed.

Lemma map_err_Ret (g : error -> error) m s a s' :
  m s = (Ret a, s') -> map_err g m s = (Ret a, s').
Proof. intros H. unfold map_err. by rewrite H. Qed.

Lemma ignore_Ret m s a s' : m s = (Ret a, s') -> ignore m s = (Ret tt, s').
Proof. intros H. unfold ignore, bind, catch. by rewrite H. Qed.

Lemma ignore_Err m s e s' : m s = (Err e, s') -> ignore m s = (Ret tt, s').
Proof. intros H. unfold ignore, bind, catch. by rewrite H. Qed.

Lemma catch_Ret m s a s' : m s = (Ret a, s') -> catch m s = (Ret (inl a), s').
Proof. intros H. unfold catch. by rewrite H. Qed.

(** Inversion of a successful sequence. *)
Lemma bind_inv_Ret m f s b s' :
  bind m f s = (Ret b, s') -> exists a s1, m s = (Ret a, s1) /\ f a s1 = (Ret b, s').
Proof. unfold bind. destruct (m s) as [[a|e|] s1]; intros; simplify_eq; eauto. Qed.
End Equations.

(** ** Invariants across every outcome

    [preserves I m]: whatever [m] returns (a value, an error, a panic), a state
    satisfying [I] is left in a state satisfying [I].  The rules follow the
    syntax of the monad, so such goals are proved by [eauto with preserves]. *)
Definition preserves {S A} (I : S -> Prop) (m : M S A) : Prop := forall s, I s -> I (m s).2.

Create HintDb preserves.
Create HintDb calm.

Section Preserves.
Context {S : Type} (I : S -> Prop).

Lemma preserves_ret {A} (a : A) : preserves I (ret a).
Proof. by intros s. Qed.
Lemma preserves_throw {A} e : preserves I (@throw S A e).
Proof. by intros s. Qed.
Lemma preserves_panic {A} : preserves I (@panic S A).
Proof. by intros s. Qed.
Lemma preserves_gets {A} (f : S -> A) : preserves I (gets f).
Proof. by intros s. Qed.
Lemma preserves_modify f : (forall s, I s -> I (f s)) -> preserves I (modify f).
Proof. intros H s Hs. simpl. auto. Qed.
Lemma preserves_bind {A B} (m : M S A) (f : A -> M S B) :
  preserves I m -> (forall a, preserves I (f a)) -> preserves I (bind m f).
Proof.
  intros Hm Hf s Hs. specialize (Hm s Hs). unfold bind.
  destruct (m s) as [[a|e|] s']; simpl in *; [by apply Hf|done|done].
Qed.
Lemma preserves_catch {A} (m : M S A) : preserves I m -> preserves I (catch m).
Proof. intros Hm s Hs. specialize (Hm s Hs). unfold catch. by destruct (m s) as [[] ?]. Qed.
Lemma preserves_map_err {A} g (m : M S A) : preserves I m -> preserves I (map_err g m).
Proof. intros Hm s Hs. specialize (Hm s Hs). unfold map_err. by destruct (m s) as [[] ?]. Qed.
Lemma preserves_ignore {A} (m : M S A) : preserves I m -> preserves I (ignore m).
Proof.
  intros. unfold ignore. apply preserves_bind; [by apply preserves_catch|].
  intros. apply preserves_ret.
Qed.
Lemma preserves_lift_opt {A} (o : option A) : preserves I (lift_opt o).
Proof. by destruct o; intros s. Qed.
Lemma preserves_if {A} (b : bool) (m1 m2 : M S A) :
  preserves I m1 -> preserves I m2 -> preserves I (if b then m1 else m2).
Proof. by destruct b. Qed.
Lemma preserves_for_range n i body :
  (forall i, preserves I (body i)) -> preserves I (for_range n i body).
Proof.
  intros H. revert i. induction n as [|n IH]; intros i; simpl.
  - apply preserves_ret.
  - apply preserves_bind; auto.
Qed.
End Preserves.

#[export] Hint Resolve preserves_ret preserves_throw preserves_panic preserves_gets
  preserves_modify preserves_bind preserves_catch preserves_map_err preserves_ignore
  preserves_lift_opt preserves_if preserves_for_range : preserves.

(** [calm I m]: [m] keeps [I] and does not panic.  The rules are in the
    database [calm]. *)
Definition calm {S A} (I : S -> Prop) (m : M S A) : Prop :=
  forall s, I s -> I (m s).2 /\ (m s).1 <> Panic.

Section Calm.
Context {S : Type} (I : S -> Prop).

Lemma calm_ret {A} (a : A) : calm I (ret a).
Proof. by intros s. Qed.
Lemma calm_gets {A} (f : S -> A) : calm I (gets f).
Proof. by intros s. Qed.
Lemma calm_modify f : (forall s, I s -> I (f s)) -> calm I (modify f).
Proof. intros H s Hs. simpl. auto. Qed.
Lemma calm_bind {A B} (m : M S A) (f : A -> M S B) :
  calm I m -> (forall a, calm I (f a)) -> calm I (bind m f).
Proof.
  intros Hm Hf s Hs. destruct (Hm s Hs) as [H1 H2]. unfold bind.
  destruct (m s) as [[a|e|] s']; simpl in *; [by apply Hf|done|done].
Qed.
Lemma calm_catch {A} (m : M S A) : calm I m -> calm I (catch m).
Proof. intros Hm s Hs. destruct (Hm s Hs) as [H1 H2]. unfold catch. by destruct (m s) as [[] ?]. Qed.
Lemma calm_ignore {A} (m : M S A) : calm I m -> calm I (ignore m).
Proof. intros. unfold ignore. apply calm_bind; [by apply calm_catch|]. intros. apply calm_ret. Qed.
Lemma calm_if {A} (b : bool) (m1 m2 : M S A) : calm I m1 -> calm I m2 -> calm I (if b then m1 else m2).
Proof. by destruct b. Qed.
Lemma calm_preserves {A} (m : M S A) : calm I m -> preserves I m.
Proof. intros H s Hs. by apply H. Qed.
Lemma calm_throw {A} e : calm I (@throw S A e).
Proof. by intros s. Qed.
Lemma calm_map_err {A} g (m : M S A) : calm I m -> calm I (map_err g m).
Proof. intros Hm s Hs. destruct (Hm s Hs) as [H1 H2]. unfold map_err. by destruct (m s) as [[] ?]. Qed.
Lemma calm_for_range n i body : (forall j, i <= j -> calm I (body j)) -> calm I (for_range n i body).
Proof.
  revert i. induction n as [|n IH]; intros i H; cbn [for_range]; [apply calm_ret|].
  apply calm_bind; [apply H; lia|]. intros _. apply IH. intros j Hj. apply H. lia.
Qed.

(** The same, with a property of the value that is returned. *)
Definition calm_with {A} (P : A -> Prop) (m : M S A) : Prop :=
  forall s, I s -> I (m s).2 /\ match (m s).1 with Ret a => P a | Err _ => True | Panic => False end.

Lemma calm_bind_with {A B} (P : A -> Prop) (m : M S A) (f : A -> M S B) :
  calm_with P m -> (forall a, P a -> calm I (f a)) -> calm I (bind m f).
Proof.
  intros Hm Hf s Hs. destruct (Hm s Hs) as [H1 H2]. unfold bind.
  destruct (m s) as [[a|e|] s']; simpl in *; [by apply Hf|done|done].
Qed.
Lemma calm_with_map_err {A} (P : A -> Prop) g (m : M S A) : calm_with P m -> calm_with P (map_err g m).
Proof. intros Hm s Hs. destruct (Hm s Hs) as [H1 H2]. unfold map_err. by destruct (m s) as [[] ?]. Qed.
End Calm.

#[export] Hint Resolve calm_ret calm_gets calm_modify calm_bind calm_catch calm_ignore calm_if calm_throw
  calm_map_err : calm.

(** [sure I P m]: [m] keeps [I] and returns, with a value that satisfies [P].  The
    rules are in the database [sure]. *)
Definition sure {S A} (I : S -> Prop) (P : A -> Prop) (m : M S A) : Prop :=
  forall s, I s -> exists a s', m s = (Ret a, s') /\ I s' /\ P a.

Definition anything {A : Type} (_ : A) : Prop := True.

Create HintDb sure.

Section Sure.
Context {S : Type} (I : S -> Prop).

Lemma sure_ret {A} (P : A -> Prop) a : P a -> sure I P (ret a).
Proof. intros Ha s Hs. by exists a, s. Qed.
Lemma sure_gets {A} (f : S -> A) : sure I anything (gets f).
Proof. intros s Hs. by exists (f s), s. Qed.
Lemma sure_modify f : (forall s, I s -> I (f s)) -> sure I anything (modify f).
Proof. intros H s Hs. exists tt, (f s). by split; [|split; [apply H|]]. Qed.
Lemma sure_bind {A B} (Q : A -> Prop) (P : B -> Prop) (m : M S A) (f : A -> M S B) :
  sure I Q m -> (forall a, Q a -> sure I P (f a)) -> sure I P (bind m f).
Proof.
  intros Hm Hf s Hs. destruct (Hm s Hs) as (a & s' & E & Hs' & Ha).
  rewrite (bind_Ret _ _ _ _ _ E). by apply Hf.
Qed.
Lemma sure_catch {A} (m : M S A) : calm I m -> sure I anything (catch m).
Proof.
  intros Hm s Hs. destruct (Hm s Hs) as [H1 H2]. unfold catch.
  destruct (m s) as [[a|e|] s']; [by exists (inl a), s'|by exists (inr e), s'|done].
Qed.
Lemma sure_if {A} (P : A -> Prop) (b : bool) (m1 m2 : M S A) :
  sure I P m1 -> sure I P m2 -> sure I P (if b then m1 else m2).
Proof. by destruct b. Qed.
Lemma sure_weaken {A} (P : A -> Prop) (m : M S A) : sure I P m -> sure I anything m.
Proof. intros H s Hs. destruct (H s Hs) as (a & s' & E & Hs' & _). by exists a, s'. Qed.
Lemma sure_seq {A B} (P : B -> Prop) (m : M S A) (f : A -> M S B) :
  sure I anything m -> (forall a, sure I P (f a)) -> sure I P (bind m f).
Proof. intros Hm Hf. eapply sure_bind; [done|auto]. Qed.
Lemma sure_calm {A} (P : A -> Prop) (m : M S A) : sure I P m -> calm I m.
Proof. intros H s Hs. by destruct (H s Hs) as (a & s' & -> & Hs' & _). Qed.
End Sure.

#[export] Hint Resolve sure_gets sure_modify sure_seq sure_catch sure_if : sure.
#[export] Hint Extern 1 (sure _ _ (ret _)) => apply sure_ret; first [exact I|done] : sure.

(** A loop whose body succeeds at every index, each time transforming the
    state by [step], composes the steps. *)
Fixpoint iter_range {S} (n : nat) (i : Z) (step : Z -> S -> S) (s : S) : S :=
  match n with
  | O => s
  | Datatypes.S n => iter_range n (i + 1) step (step i s)
  end.

Lemma for_range_Ret {S} (I : Z -> S -> Prop) n i body step (s : S) :
  I i s ->
  (forall j t, i <= j < i + Z.of_nat n -> I j t ->
     body j t = (Ret tt, step j t) /\ I (j + 1) (step j t)) ->
  for_range n i body s = (Ret tt, iter_range n i step s)
  /\ I (i + Z.of_nat n) (iter_range n i step s).
Proof.
  revert i s. induction n as [|n IH]; intros i s Hs Hb; cbn [for_range iter_range].
  - replace (i + Z.of_nat 0) with i by lia. done.
  - destruct (Hb i s ltac:(lia) Hs) as [E HI].
    rewrite (bind_Ret _ _ _ _ _ E).
    destruct (IH (i + 1) (step i s) HI) as [E' HI'].
    { intros j t Hj. apply Hb. lia. }
    split; [done|]. by replace (i + Z.of_nat (Datatypes.S n)) with (i + 1 + Z.of_nat n) by lia.
Qed.
