(* ===== verification/GoFmt.v ===== *)
(** * Numbers and durations as Go prints them

    What the reports of both daemons use of packages [fmt], [strconv] and
    [time]: the verbs [%d], [%016X], [%.2f] and [%v] of a [time.Duration], the
    conversion of an integer to [float64], and its arithmetic.  A [float64] is an
    IEEE binary64 number of [SpecFloat]: 53 bits of mantissa, exponents below
    1024, every operation rounded to nearest, ties to even. *)
From S2P Require Import Prelude GoInt.
From stdpp Require Import pretty.
From Stdlib Require Import SpecFloat.
Open Scope Z_scope.

(** ** Arithmetic of [float64] *)

Definition float64 : Type := spec_float.
Definition float64_of (z : Z) : float64 := binary_normalize 53 1024 z 0 false.
Definition fadd : float64 -> float64 -> float64 := SFadd 53 1024.
Definition fmul : float64 -> float64 -> float64 := SFmul 53 1024.
Definition fdiv : float64 -> float64 -> float64 := SFdiv 53 1024.
(** [0 < x]; false on a NaN. *)
Definition fpos (x : float64) : bool := SFltb (S754_zero false) x.

(** ** Verbs *)

Definition upper_digit (d : Z) : string :=
  nth (Z.to_nat d) ["0";"1";"2";"3";"4";"5";"6";"7";"8";"9";"A";"B";"C";"D";"E";"F"]%string ""%string.

(** [%0wX] of a number of at most [w] digits. *)
Fixpoint fmt_X (w : nat) (x : Z) : string :=
  match w with O => ""%string | S w => fmt_X w (x / 16) +:+ upper_digit (x mod 16) end.

(** The last [w] decimal digits of [x], with leading zeros. *)
Fixpoint fmt_digits (w : nat) (x : Z) : string :=
  match w with O => ""%string | S w => fmt_digits w (x / 10) +:+ upper_digit (x mod 10) end.

(** [m * 2^e] in hundredths, to the nearest, ties to even: [strconv] rounds the
    exact decimal expansion. *)
Definition hundredths (m : positive) (e : Z) : Z :=
  let n := Z.pos m * 100 in
  if 0 <=? e then n * 2 ^ e
  else
    let q := n / 2 ^ (- e) in
    match 2 * (n mod 2 ^ (- e)) ?= 2 ^ (- e) with
    | Lt => q
    | Eq => if Z.even q then q else q + 1
    | Gt => q + 1
    end.

(** [%.2f]. *)
Definition fmt_f2 (x : float64) : string :=
  let sign (s : bool) : string := if s then "-"%string else ""%string in
  match x with
  | S754_nan => "NaN"
  | S754_infinity s => if s then "-Inf" else "+Inf"
  | S754_zero s => sign s +:+ "0.00"
  | S754_finite s m e =>
      let h := hundredths m e in
      sign s +:+ pretty (h / 100) +:+ "." +:+ fmt_digits 2 (h mod 100)
  end.

(** ** [time.Duration]: nanoseconds in an [int64] *)

Definition Second : Z := 1000000000.
Definition minDuration : Z := - 2 ^ 63.
Definition maxDuration : Z := 2 ^ 63 - 1.

(** [now.Sub(start)]: the difference, saturated. *)
Definition Since (now start : Z) : Z := Z.max minDuration (Z.min maxDuration (now - start)).

(** [Duration.Seconds]: integer division truncates towards zero. *)
Definition Seconds (d : Z) : float64 :=
  fadd (float64_of (Z.quot d Second)) (fdiv (float64_of (Z.rem d Second)) (float64_of 1000000000)).

(** [fmtFrac]: the fraction [v / 10^prec] without trailing zeros, and no point
    when it is zero. *)
Fixpoint fmtFrac (prec : nat) (v : Z) (print : bool) : string :=
  match prec with
  | O => if print then "."%string else ""%string
  | S prec =>
      let digit := v mod 10 in
      let print := print || negb (digit =? 0) in
      fmtFrac prec (v / 10) print +:+ (if print then upper_digit digit else ""%string)
  end.
Definition frac_unit (u : Z) (prec : nat) : string :=
  pretty (u / 10 ^ Z.of_nat prec) +:+ fmtFrac prec u false.

(** [Duration.String]. *)
Definition Duration_String (d : Z) : string :=
  let u := Z.abs d in
  let body : string :=
    if u <? Second then
      if u =? 0 then "0s"
      else if u <? 1000 then pretty u +:+ "ns"
      else if u <? 1000000 then frac_unit u 3 +:+ "µs"
      else frac_unit u 6 +:+ "ms"
    else
      let s := u / Second in
      let m := s / 60 in
      let h := m / 60 in
      (if m =? 0 then ""%string
       else (if h =? 0 then ""%string else pretty h +:+ "h") +:+ pretty (m mod 60) +:+ "m") +:+
      pretty (s mod 60) +:+ fmtFrac 9 u false +:+ "s" in
  if (d <? 0) then "-" +:+ body else body.

(** [fmt.Sprintln] without its newline: the operands separated by spaces. *)
Fixpoint Sprintln (args : list string) : string :=
  match args with
  | [] => ""
  | [a] => a
  | a :: args => a +:+ " " +:+ Sprintln args
  end.

(** ** Facts *)

(** Rounding never makes a NaN of a non-negative mantissa. *)
Lemma shr_1_nonneg x : 0 <= shr_m x -> 0 <= shr_m (shr_1 x).
Proof. destruct x as [[|[?|?|]|?] r s]; cbn; lia. Qed.

Lemma iter_shr_nonneg p x : 0 <= shr_m x -> 0 <= shr_m (iter_pos shr_1 p x).
Proof. revert x. induction p; intros x H; cbn; auto using shr_1_nonneg. Qed.

Lemma shr_fexp_nonneg m e l : 0 <= m -> 0 <= shr_m (shr_fexp 53 1024 m e l).1.
Proof.
  intros H. unfold shr_fexp, shr.
  assert (0 <= shr_m (shr_record_of_loc m l)) by (by destruct l as [|[]]).
  destruct (_ - _); cbn; auto using iter_shr_nonneg.
Qed.

Lemma round_not_nan s m e l : 0 <= m -> binary_round_aux 53 1024 s m e l <> S754_nan.
Proof.
  intros H. unfold binary_round_aux.
  pose proof (shr_fexp_nonneg m e l H) as H1. destruct (shr_fexp _ _ m e l) as [r1 e1]. cbn [fst] in H1.
  set (m2 := round_nearest_even _ _).
  assert (H2 : 0 <= m2). { subst m2. destruct (loc_of_shr_record r1) as [|[]]; cbn; repeat case_match; lia. }
  pose proof (shr_fexp_nonneg m2 e1 loc_Exact H2) as H3.
  destruct (shr_fexp _ _ m2 e1 _) as [r2 e2]. cbn [fst] in H3.
  destruct (shr_m r2); [done| |lia]. by destruct (_ <=? _).
Qed.

Lemma float64_of_not_nan z : float64_of z <> S754_nan.
Proof.
  unfold float64_of, binary_normalize, binary_round.
  destruct z; [done| |]; destruct (shl_align _ _ _); by apply round_not_nan.
Qed.

Example Seconds_example : fmt_f2 (Seconds 1234567890) = "1.23"%string.
Proof. vm_compute. reflexivity. Qed.
Example f2_ties : fmt_f2 (fdiv (float64_of 1) (float64_of 8)) = "0.12"%string /\ fmt_f2 (fdiv (float64_of 3) (float64_of 8)) = "0.38"%string.
Proof. split; vm_compute; reflexivity. Qed.
Example f2_rounds : fmt_f2 (fdiv (float64_of 2) (float64_of 3)) = "0.67"%string /\ fmt_f2 (float64_of (2 ^ 64)) = "18446744073709551616.00"%string.
Proof. split; vm_compute; reflexivity. Qed.
Example Duration_examples :
  Duration_String 0 = "0s"%string /\ Duration_String 1500 = "1.5µs"%string /\
  Duration_String 1100000 = "1.1ms"%string /\ Duration_String 2200000000 = "2.2s"%string /\
  Duration_String (5 * 60 * Second + 3 * Second) = "5m3s"%string /\
  Duration_String (-(3600 * Second + 1)) = "-1h0m0.000000001s"%string.
Proof. by vm_compute. Qed.
