(* ===== verification/Utils.v ===== *)
(** * [utils.go]: helpers shared by both daemons *)
From S2P Require Import Prelude GoInt GoMonad GoFmt.
From Stdlib Require Strings.String.
From stdpp Require Import pretty.
Open Scope Z_scope.

(** [Bit(nr) = 1 << nr], an [uint32]: a shift of 32 or more gives 0. *)
Definition Bit (nr : Z) : Z := u32 (Z.shiftl 1 nr).

(** [strings.Contains(s, substr)]. *)
Definition Contains (s substr : string) : bool :=
  match String.index 0 substr s with Some _ => true | None => false end.

Definition IsConnectionClosed (err : option error) : bool :=
  match err with
  | None => false
  | Some err =>
      let errStr := Error err in
      Contains errStr "connection reset by peer" ||
      Contains errStr "broken pipe" ||
      Contains errStr "connection refused" ||
      Contains errStr "use of closed network connection" ||
      IsEOF err
  end.

(** [PrintBitmap]: the bits of each byte from the most significant one, a space
    after every 64. *)
Fixpoint print_bits (n : nat) (i maxBlocks : Z) (bitmap : list byte) : string :=
  match n with
  | O => ""%string
  | S n =>
      let b := nth (Z.to_nat (i / 8)) bitmap Byte.x00 in
      (if Z.land (Z_of_byte b) (Z.shiftl 1 (7 - i mod 8)) =? 0 then "0"%string else "1"%string) +:+
      (if ((i + 1) mod 64 =? 0) && (i + 1 <? maxBlocks) then " "%string else ""%string) +:+
      print_bits n (i + 1) maxBlocks bitmap
  end.

Definition PrintBitmap (bitmap : list byte) (maxBlocks : Z) : string :=
  let all := Z.of_nat (length bitmap) * 8 in
  let maxBlocks := if (maxBlocks =? 0) || (all <? maxBlocks) then all else maxBlocks in
  print_bits (Z.to_nat maxBlocks) 0 maxBlocks bitmap.

(** [HexDump]: a line per 16 bytes, with the offset, the bytes in hexadecimal
    (blanks past the end) and the printable characters among them. *)
Definition hexDigit (d : Z) : string :=
  nth (Z.to_nat d) ["0";"1";"2";"3";"4";"5";"6";"7";"8";"9";"a";"b";"c";"d";"e";"f"]%string ""%string.
Fixpoint hexWidth (w : nat) (x : Z) : string :=
  match w with O => ""%string | S w => hexWidth w (x / 16) +:+ hexDigit (x mod 16) end.

Definition bytesPerLine : nat := 16.

Definition dump_hex (b : option byte) : string :=
  match b with Some b => hexWidth 2 (Z_of_byte b) +:+ " " | None => "   "%string end.
Definition dump_char (b : option byte) : string :=
  match b with
  | Some b =>
      if (32 <=? Z_of_byte b) && (Z_of_byte b <=? 126)
      then String.String (Ascii.ascii_of_byte b) String.EmptyString else "."%string
  | None => ""%string
  end.
Definition dump_line (data : list byte) (i : nat) : string :=
  let line := (fun j => data !! (i + j)%nat) <$> seq 0 bytesPerLine in
  hexWidth 8 (Z.of_nat i) +:+ "  " +:+ foldr String.append ""%string (dump_hex <$> line) +:+ " " +:+
  foldr String.append ""%string (dump_char <$> line).

(** Each turn moves [i] past 16 bytes, so [length data] turns are enough. *)
Fixpoint dump_lines (fuel : nat) (data : list byte) (i : nat) : list string :=
  match fuel with
  | O => []
  | S fuel =>
      if (i <? length data)%nat then dump_line data i :: dump_lines fuel data (i + bytesPerLine) else []
  end.
Definition HexDump (data : list byte) : list string := dump_lines (length data) data 0.

(** [PrintOnError] and [ExitOnError]: the lines on the standard error, and the
    exit status of a process that ends there ([None] when it goes on).
    [Fprintln] puts a space between its operands, after the one of the prefix. *)
Definition error_line (err : error) : string := Sprintln ["[ERROR]: "%string; Error err].
Definition PrintOnError (err : option error) : list string :=
  match err with Some err => [error_line err] | None => [] end.
Definition ExitOnError (err : option error) : list string * option Z :=
  match err with Some err => ([error_line err], Some 1) | None => ([], None) end.

(** The assertions of the tests: the message of a failure. *)
Definition AssertEqual (expected actual : Z) (msg : string) : option string :=
  if negb (expected =? actual)
  then Some (msg +:+ ": expected " +:+ pretty expected +:+ ", got " +:+ pretty actual) else None.
Definition AssertInRange (value min max : Z) (name : string) : option string :=
  if (value <? min) || (max <? value)
  then Some (name +:+ " (" +:+ pretty value +:+ ") not in range [" +:+ pretty min +:+ ", " +:+ pretty max +:+ "]")
  else None.

(** ** Facts *)

(** Every byte is on a line: there are as many lines as it takes. *)
Lemma dump_lines_length fuel data i :
  (length data <= i + fuel * bytesPerLine)%nat ->
  length (dump_lines fuel data i) = ((length data - i + 15) / 16)%nat.
Proof.
  unfold bytesPerLine. revert i. induction fuel as [|fuel IH]; intros i H; cbn [dump_lines].
  - replace (length data - i)%nat with 0%nat by lia. done.
  - destruct (i <? length data)%nat eqn:E.
    + apply Nat.ltb_lt in E. cbn [length]. unfold bytesPerLine. rewrite IH by lia.
      destruct (decide (i + 16 <= length data)%nat).
      * replace (length data - i + 15)%nat with (length data - (i + 16) + 15 + 1 * 16)%nat by lia.
        rewrite Nat.div_add by lia. lia.
      * replace (length data - (i + 16))%nat with 0%nat by lia.
        replace (length data - i + 15)%nat with (length data - i - 1 + 1 * 16)%nat by lia.
        rewrite Nat.div_add, (Nat.div_small (_ - _ - _)%nat) by lia. done.
    + apply Nat.ltb_ge in E. replace (length data - i)%nat with 0%nat by lia. done.
Qed.

Lemma HexDump_length data : length (HexDump data) = ((length data + 15) / 16)%nat.
Proof. unfold HexDump. rewrite dump_lines_length; [by rewrite Nat.sub_0_r|unfold bytesPerLine; lia]. Qed.

Example HexDump_example :
  HexDump [Byte.x41; Byte.x00] =
  ["00000000  41 00                                            A."%string].
Proof. reflexivity. Qed.


Lemma Bit_small nr : 0 <= nr < 32 -> Bit nr = 2 ^ nr.
Proof.
  intros H. unfold Bit. rewrite Z.shiftl_1_l. apply u32_small. unfold is_u32.
  split; [apply Z.pow_nonneg; lia|]. apply Z.pow_lt_mono_r; lia.
Qed.

(** A send error that wraps [io.EOF] with [%v] is no longer recognised. *)
Example closed_direct : IsConnectionClosed (Some IoEOF) = true.
Proof. reflexivity. Qed.
Example closed_pipe :
  IsConnectionClosed (Some (Errorf_v "SendPacket failed: " (ErrMsg "write: broken pipe"))) = true.
Proof. reflexivity. Qed.
Example closed_eof_wrapped : IsConnectionClosed (Some (Errorf_v "SendPacket failed: " IoEOF)) = false.
Proof. reflexivity. Qed.
Example bitmap_example : PrintBitmap [Byte.xa5; Byte.x01] 12 = "101001010000"%string.
Proof. reflexivity. Qed.

(** [ExitOnError] ends the process exactly on an error, and both print the same. *)
Lemma ExitOnError_iff err : (ExitOnError err).2 <> None <-> err <> None.
Proof. by destruct err. Qed.
Lemma ExitOnError_prints err : (ExitOnError err).1 = PrintOnError err.
Proof. by destruct err. Qed.
Lemma AssertInRange_ok value min max name : AssertInRange value min max name = None <-> min <= value <= max.
Proof.
  unfold AssertInRange. destruct (value <? min) eqn:E1, (max <? value) eqn:E2; cbn;
    (split; [intros ?; try done|intros ?; try done]); lia.
Qed.
