(* ===== verification/BlockDev.v ===== *)
(** * Block devices: [os.File] on a device node

    The journal device and the target device are both [*os.File]s opened
    read-write on a block device.  A device is its bytes and a list of faults
    still to come: every system call ([open], [ioctl], [pread], [pwrite],
    [fsync]) takes the next element of the list, and a call past the end of the
    list succeeds.  [Fault n e] makes the call fail with [e] after [n] bytes of a
    transfer.  A block device does not grow: a write beyond its end transfers
    what fits and then fails with [ENOSPC], a read returns what is left with
    [io.EOF].

    The second half is the algebra of sequences of writes on a device image,
    which the recovery and scan theorems use: what a byte holds after a
    sequence of writes, that a replay absorbs whatever a crash left on the
    bytes it covers, and that pairwise disjoint writes commute. *)
From S2P Require Import Prelude GoInt GoMonad.
Open Scope Z_scope.

(** ** Devices *)

Inductive fault :=
| NoFault
| Fault (n : nat) (e : error).

Record Dev := mkDev {
  content : list byte;
  faults : list fault;
}.

Definition dev_size (d : Dev) : Z := Z.of_nat (length (content d)).

(** A device on which every system call succeeds. *)
Definition healthy (d : Dev) : Prop := faults d = [].

Definition set_content (c : list byte) (d : Dev) : Dev :=
  {| content := c; faults := faults d |}.

(** Write bytes that are known to fit. *)
Definition poke (off : Z) (b : list byte) (d : Dev) : Dev :=
  set_content (splice (Z.to_nat off) b (content d)) d.

(** Outcome of the next system call. *)
Definition syscall (d : Dev) : fault * Dev :=
  match faults d with
  | [] => (NoFault, d)
  | f :: fs => (f, {| content := content d; faults := fs |})
  end.

Definition ErrNegativeOffset : error := ErrMsg "negative offset".
Definition ENOSPC : error := ErrMsg "no space left on device".

(** A system call without a transfer: [open], [fsync]. *)
Definition sys_unit : M Dev unit := fun d =>
  match syscall d with
  | (NoFault, d) => (Ret tt, d)
  | (Fault _ e, d) => (Err e, d)
  end.

Definition OpenFile : M Dev unit := sys_unit.
Definition Sync : M Dev unit := sys_unit.

(** [File.WriteAt].  An empty buffer makes no system call. *)
Definition WriteAt (b : list byte) (off : Z) : M Dev unit := fun d =>
  if off <? 0 then (Err ErrNegativeOffset, d)
  else match b with
  | [] => (Ret tt, d)
  | _ =>
    let '(f, d) := syscall d in
    let avail := Z.to_nat (dev_size d - off) in
    match f with
    | Fault n e => (Err e, poke off (take (Nat.min n avail) b) d)
    | NoFault =>
        if (length b <=? avail)%nat then (Ret tt, poke off b d)
        else (Err ENOSPC, poke off (take avail b) d)
    end
  end.

(** [File.ReadAt] into a buffer of [n] bytes: the bytes transferred and the
    error, which is [io.EOF] for a short read. *)
Definition ReadAt (n : nat) (off : Z) : M Dev (list byte * option error) := fun d =>
  if off <? 0 then (Ret ([], Some ErrNegativeOffset), d)
  else match n with
  | O => (Ret ([], None), d)
  | _ =>
    let '(f, d) := syscall d in
    let got := sub (Z.to_nat off) n (content d) in
    match f with
    | Fault k e => (Ret (take k got, Some e), d)
    | NoFault => (Ret (got, if (length got <? n)%nat then Some IoEOF else None), d)
    end
  end.

(** [utils.GetDeviceSize]: an [open] and a [BLKGETSIZE64] ioctl. *)
Definition GetDeviceSize : M Dev Z := fun d =>
  (OpenFile ;;; fun d =>
    match syscall d with
    | (NoFault, d) => (Ret (dev_size d), d)
    | (Fault _ e, d) => (Err (Errorf_v "ioctl failed: " e), d)
    end) d.

(** [utils.GetSectorSize]: the same with [BLKSSZGET]; [sectorSize] is what the
    ioctl stores.  [utils.GetDeviceSizeForTest]: an [open] and a [stat]. *)
Definition GetSectorSize (sectorSize : Z) : M Dev Z := fun d =>
  (OpenFile ;;; fun d =>
    match syscall d with
    | (NoFault, d) => (Ret (u32 sectorSize), d)
    | (Fault _ e, d) => (Err (Errorf_v "ioctl failed: " e), d)
    end) d.
Definition GetDeviceSizeForTest : M Dev Z := fun d =>
  (OpenFile ;;; fun d =>
    match syscall d with
    | (NoFault, d) => (Ret (dev_size d), d)
    | (Fault _ e, d) => (Err e, d)
    end) d.

(** No call on a device panics. *)
Lemma sys_unit_no_panic d : (sys_unit d).1 <> Panic.
Proof. unfold sys_unit. by destruct (syscall d) as [[] ?]. Qed.
Lemma GetDeviceSize_no_panic d : (GetDeviceSize d).1 <> Panic.
Proof.
  unfold GetDeviceSize, OpenFile, sys_unit, bind.
  destruct (syscall d) as [[] d1]; [|done]. by destruct (syscall d1) as [[] ?].
Qed.
Lemma ReadAt_no_panic n off d : (ReadAt n off d).1 <> Panic.
Proof.
  unfold ReadAt. destruct (off <? 0); [done|]. destruct n; [done|].
  destruct (syscall d) as [[] ?]; done.
Qed.
Lemma WriteAt_no_panic b off d : (WriteAt b off d).1 <> Panic.
Proof using.
  unfold WriteAt. destruct (_ <? _); [done|]. destruct b; [done|].
  destruct (syscall d) as [[] ?]; [by destruct (_ <=? _)%nat|done].
Qed.

(** ** System calls on a healthy device *)

Lemma syscall_healthy d : healthy d -> syscall d = (NoFault, d).
Proof. unfold healthy, syscall. by intros ->. Qed.

Lemma healthy_poke off b d : healthy d -> healthy (poke off b d).
Proof. done. Qed.

Lemma sys_unit_healthy d : healthy d -> sys_unit d = (Ret tt, d).
Proof. intros H. unfold sys_unit. by rewrite syscall_healthy. Qed.

Lemma GetDeviceSize_healthy d : healthy d -> GetDeviceSize d = (Ret (dev_size d), d).
Proof.
  intros H. unfold GetDeviceSize, OpenFile. rewrite (bind_Ret _ _ _ tt d).
  - by rewrite syscall_healthy.
  - by apply sys_unit_healthy.
Qed.

Lemma WriteAt_healthy b off d :
  healthy d -> 0 <= off -> off + Z.of_nat (length b) <= dev_size d ->
  WriteAt b off d = (Ret tt, poke off b d).
Proof.
  intros Hd Hoff Hb. unfold WriteAt. destruct (off <? 0) eqn:E; [lia|].
  destruct b as [|x b].
  { unfold poke, set_content. rewrite splice_nil. by destruct d. }
  rewrite syscall_healthy by done.
  destruct (_ <=? _)%nat eqn:E'; [done|]. apply Nat.leb_gt in E'. lia.
Qed.

Lemma ReadAt_healthy n off d :
  healthy d -> 0 <= off -> off + Z.of_nat n <= dev_size d ->
  ReadAt n off d = (Ret (sub (Z.to_nat off) n (content d), None), d).
Proof.
  intros Hd Hoff Hn. unfold ReadAt. destruct (off <? 0) eqn:E; [lia|].
  destruct n as [|n]; [done|].
  rewrite syscall_healthy by done. rewrite length_sub by (unfold dev_size in *; lia).
  destruct (_ <? _)%nat eqn:E'; [|done]. apply Nat.ltb_lt in E'. lia.
Qed.

Lemma dev_size_poke off b d :
  0 <= off -> off + Z.of_nat (length b) <= dev_size d ->
  dev_size (poke off b d) = dev_size d.
Proof. intros. unfold dev_size, poke in *. simpl. rewrite length_splice; lia. Qed.

(** No call ever changes the size of a device, whatever fails. *)
Lemma length_poke_take off k b d :
  0 <= off ->
  length (content (poke off (take (Nat.min k (Z.to_nat (dev_size d - off))) b) d)) =
  length (content d).
Proof.
  intros H. unfold poke. simpl. destruct (decide (off <= dev_size d)) as [Hs|Hs].
  - apply length_splice. rewrite length_take. unfold dev_size in *. lia.
  - replace (Z.to_nat (dev_size d - off)) with 0%nat by lia.
    rewrite Nat.min_0_r, take_0, splice_nil. done.
Qed.

Lemma WriteAt_size b off d : dev_size (WriteAt b off d).2 = dev_size d.
Proof.
  unfold WriteAt. destruct (off <? 0) eqn:E; [done|].
  destruct b as [|x b]; [done|].
  assert (Hc : content (syscall d).2 = content d)
    by (unfold syscall; by destruct (faults d)).
  destruct (syscall d) as [f d']; simpl in Hc.
  assert (Hs : dev_size d' = dev_size d) by (unfold dev_size; by rewrite Hc).
  rewrite <- Hs. destruct f as [|n e].
  - destruct (_ <=? _)%nat eqn:E'.
    + apply Nat.leb_le in E'. cbn [snd]. apply dev_size_poke; cbn [length] in *; lia.
    + simpl. unfold dev_size at 1.
      rewrite <- (Nat.min_id (Z.to_nat (dev_size d' - off))), length_poke_take by lia. done.
  - simpl. unfold dev_size at 1. rewrite length_poke_take by lia. done.
Qed.

(** ** Sequences of writes on a device image *)

Definition write : Type := nat * list byte.

Definition fits (n : nat) (w : write) : Prop := (w.1 + length w.2 <= n)%nat.
Definition covers (w : write) (p : nat) : Prop := (w.1 <= p < w.1 + length w.2)%nat.
Definition covered (ws : list write) (p : nat) : Prop := Exists (fun w => covers w p) ws.

#[global] Instance fits_dec n w : Decision (fits n w).
Proof. unfold fits. apply _. Defined.
#[global] Instance covers_dec w p : Decision (covers w p).
Proof. unfold covers. apply _. Defined.
#[global] Instance covered_dec ws p : Decision (covered ws p).
Proof. unfold covered. apply _. Defined.

Definition apply_write (c : list byte) (w : write) : list byte := splice w.1 w.2 c.
Definition apply_writes (ws : list write) (c : list byte) : list byte :=
  foldl apply_write c ws.

Lemma length_apply_write c w : fits (length c) w -> length (apply_write c w) = length c.
Proof. apply length_splice. Qed.

Lemma length_apply_writes ws c :
  Forall (fits (length c)) ws -> length (apply_writes ws c) = length c.
Proof.
  revert c. induction ws as [|w ws IH]; intros c H; [done|].
  apply Forall_cons in H as [Hw Hws]. simpl.
  rewrite IH; rewrite length_apply_write; done.
Qed.

Lemma apply_writes_app ws1 ws2 c :
  apply_writes (ws1 ++ ws2) c = apply_writes ws2 (apply_writes ws1 c).
Proof. apply foldl_app. Qed.

Lemma apply_write_in c w p :
  fits (length c) w -> covers w p -> apply_write c w !! p = w.2 !! (p - w.1)%nat.
Proof. intros. by apply lookup_splice_in. Qed.

Lemma apply_write_out c w p :
  fits (length c) w -> ~ covers w p -> apply_write c w !! p = c !! p.
Proof. intros Hf Hc. apply lookup_splice_out; [done|]. unfold covers in Hc. lia. Qed.

Lemma apply_writes_out ws c p :
  Forall (fits (length c)) ws -> ~ covered ws p -> apply_writes ws c !! p = c !! p.
Proof.
  revert c. induction ws as [|w ws IH]; intros c H Hc; [done|].
  apply Forall_cons in H as [Hw Hws]. unfold covered in Hc.
  rewrite Exists_cons in Hc. simpl.
  rewrite IH; [|by rewrite length_apply_write|tauto].
  apply apply_write_out; tauto.
Qed.

(** Two images that agree at [p], or differ there but are overwritten at [p],
    agree at [p] afterwards. *)
Lemma apply_writes_agree ws c1 c2 p :
  length c1 = length c2 -> Forall (fits (length c1)) ws ->
  (~ covered ws p -> c1 !! p = c2 !! p) ->
  apply_writes ws c1 !! p = apply_writes ws c2 !! p.
Proof.
  revert c1 c2. induction ws as [|w ws IH]; intros c1 c2 Hl H Hp; simpl.
  { apply Hp. by intros ?%Exists_nil. }
  apply Forall_cons in H as [Hw Hws].
  assert (Hw2 : fits (length c2) w) by (by rewrite <- Hl).
  apply IH.
  - by rewrite !length_apply_write.
  - by rewrite length_apply_write.
  - intros Hn. destruct (decide (covers w p)).
    + by rewrite !apply_write_in.
    + rewrite !apply_write_out by done. apply Hp.
      unfold covered. rewrite Exists_cons. tauto.
Qed.

(** Images of one size that agree wherever [ws] does not write. *)
Definition agree_outside (ws : list write) (c1 c2 : list byte) : Prop :=
  length c1 = length c2 /\ forall p, ~ covered ws p -> c1 !! p = c2 !! p.

#[global] Instance agree_outside_equiv ws : Equivalence (agree_outside ws).
Proof.
  split.
  - by intros c.
  - intros c1 c2 [Hl H]. split; [done|]. intros p Hp. by rewrite H.
  - intros c1 c2 c3 [Hl H] [Hl' H']. split; [congruence|].
    intros p Hp. by rewrite H, H'.
Qed.

(** A replay absorbs any difference on the bytes it writes. *)
Lemma apply_writes_absorb ws c1 c2 :
  Forall (fits (length c1)) ws -> agree_outside ws c1 c2 ->
  apply_writes ws c1 = apply_writes ws c2.
Proof. intros H [Hl Hp]. apply list_eq. intros p. by apply apply_writes_agree; auto. Qed.

(** Part of the writes already done, in any order and any number of times,
    is a difference on covered bytes only. *)
Lemma agree_outside_partial ws part c :
  Forall (fits (length c)) ws -> part ⊆ ws -> agree_outside ws c (apply_writes part c).
Proof.
  intros H Hsub.
  assert (Hpart : Forall (fits (length c)) part).
  { apply Forall_forall. intros w Hw. rewrite Forall_forall in H. auto. }
  split; [by rewrite length_apply_writes|].
  intros p Hp. symmetry. apply apply_writes_out; [done|].
  intros (w & Hw & Hc)%Exists_exists. apply Hp, Exists_exists. eauto.
Qed.

(** ** Disjoint writes commute *)

Definition disjoint_writes (w1 w2 : write) : Prop :=
  forall p, covers w1 p -> covers w2 p -> False.

Lemma apply_write_comm c w1 w2 :
  fits (length c) w1 -> fits (length c) w2 -> disjoint_writes w1 w2 ->
  apply_write (apply_write c w1) w2 = apply_write (apply_write c w2) w1.
Proof.
  intros H1 H2 Hd. apply list_eq. intros p.
  assert (F12 : fits (length (apply_write c w1)) w2) by (by rewrite length_apply_write).
  assert (F21 : fits (length (apply_write c w2)) w1) by (by rewrite length_apply_write).
  destruct (decide (covers w1 p)), (decide (covers w2 p)).
  - exfalso. eauto.
  - rewrite (apply_write_out _ w2), !(apply_write_in _ w1); done.
  - rewrite (apply_write_out _ w1 p F21), !(apply_write_in _ w2); done.
  - by rewrite !apply_write_out.
Qed.

(** The order in which pairwise disjoint writes reach the device is irrelevant. *)
Lemma apply_writes_perm ws1 ws2 c :
  ws1 ≡ₚ ws2 -> Forall (fits (length c)) ws1 ->
  (forall i j w1 w2, i <> j -> ws1 !! i = Some w1 -> ws1 !! j = Some w2 ->
     disjoint_writes w1 w2) ->
  apply_writes ws1 c = apply_writes ws2 c.
Proof.
  intros Hp. revert c. induction Hp as [|w ws1 ws2 Hp IH|w w' ws|ws1 ws2 ws3 Hp1 IH1 Hp2 IH2];
    intros c Hf Hd; simpl.
  - done.
  - apply Forall_cons in Hf as [Hw Hf]. apply IH.
    + by rewrite length_apply_write.
    + intros i j w1 w2 Hij Hi Hj. apply (Hd (S i) (S j)); [congruence|done|done].
  - apply Forall_cons in Hf as [Hw Hf]. apply Forall_cons in Hf as [Hw' Hf].
    f_equal. symmetry. apply apply_write_comm; [done|done|].
    apply (Hd 1%nat 0%nat); done.
  - rewrite IH1 by done. apply IH2.
    + by rewrite <- Hp1.
    + intros i j w1 w2 Hij Hi Hj.
      symmetry in Hp1. apply Permutation_inj in Hp1 as (Hl & f & Hinj & Hl').
      apply (Hd (f i) (f j)).
      * intros E. apply Hij, Hinj, E.
      * by rewrite <- Hl'.
      * by rewrite <- Hl'.
Qed.
