(* ===== verification/RingBuffer.v ===== *)
(** * The ring buffer of the kernel module ([kern/ring-buffer.c], [main.c])

    The device mapper target puts every write to the source into a ring of
    [max_writes] entries that the client has mapped into its memory.  The client
    reads without a lock: one ioctl hands it a description of the entries put
    since the last one, and the kernel keeps off them until the next one.

    First the operations on the ring, each under its spin lock, as the C code
    has them: [buffer_info] is the descriptor, [buffer] the mapped bytes, and an
    entry is [struct bdr_write_info], a little-endian sector and size before a
    page of data.  Then what the ring promises: the entries handed out by the
    last read ([a_held]), those put since ([a_pending]), and whether one was lost
    ([a_lost]).  [ring_rel] relates the two, and each operation refines its
    abstract counterpart. *)
From S2P Require Import Prelude GoInt.
Open Scope Z_scope.

(** [struct bdr_buffer_info], as the kernel and the client both declare it. *)
Record BufferInfo := mkBufferInfo {
  biOffset : Z;
  biLength : Z;
  biLast : Z;
  biFlags : Z;
  biMaxWrites : Z;
}.

Definition BDR_OVERFLOWN_BUFFER_FLAG : Z := 1.

Record bdr_ring_buffer := mkRing {
  buffer : list byte;
  buffer_info : BufferInfo;
}.

(** ** The descriptor *)

Definition is_overflown (b : BufferInfo) : bool :=
  negb (Z.land (biFlags b) BDR_OVERFLOWN_BUFFER_FLAG =? 0).

Definition bdr_ring_buffer_is_empty (rb : bdr_ring_buffer) : bool :=
  biLast (buffer_info rb) =? biOffset (buffer_info rb).
Definition bdr_ring_buffer_get_info (rb : bdr_ring_buffer) : BufferInfo := buffer_info rb.
Definition bdr_ring_buffer_is_full (rb : bdr_ring_buffer) : bool := is_overflown (buffer_info rb).

Definition set_info (b : BufferInfo) (rb : bdr_ring_buffer) : bdr_ring_buffer :=
  mkRing (buffer rb) b.

Definition bdr_ring_buffer_update_unsafe (b : BufferInfo) : BufferInfo :=
  let length := u64 (biLength b + 1) in
  let buffer_offset := u64 (biOffset b + length) mod biMaxWrites b in
  mkBufferInfo (biOffset b) length (biLast b)
    (if buffer_offset =? biLast b then Z.lor (biFlags b) BDR_OVERFLOWN_BUFFER_FLAG else biFlags b)
    (biMaxWrites b).

Definition bdr_ring_buffer_reset (rb : bdr_ring_buffer) : bdr_ring_buffer :=
  set_info (mkBufferInfo 0 0 0 0 (biMaxWrites (buffer_info rb))) rb.

Definition advance (b : BufferInfo) : BufferInfo :=
  mkBufferInfo (u64 (biOffset b + biLength b) mod biMaxWrites b) 0 (biOffset b) (biFlags b) (biMaxWrites b).

(** The descriptor returned to the caller, and the ring after the call. *)
Definition bdr_buffer_read_routine (rb : bdr_ring_buffer) : BufferInfo * bdr_ring_buffer :=
  let b := buffer_info rb in
  (b, if is_overflown b then rb else set_info (advance b) rb).

Definition bdr_ring_buffer_read (rb : bdr_ring_buffer) : bdr_ring_buffer :=
  set_info (advance (buffer_info rb)) rb.

Section Ring.
Context (PAGE_SIZE : nat).

Definition BDR_WRITE_INFO_SIZE : nat := 8 + PAGE_SIZE.
Definition bdr_ring_buffer_get_byte_size (rb : bdr_ring_buffer) : Z :=
  u64 (biMaxWrites (buffer_info rb) * Z.of_nat BDR_WRITE_INFO_SIZE).

(** ** Allocation *)

Inductive errno := EINVAL | ENOMEM | ENOSPC | EFAULT | ENOTTY.

(** [vmalloc] is the allocation: the bytes it returns are not cleared. *)
Definition bdr_ring_buffer_init (vmalloc : option (list byte)) (max_writes : Z) : errno + bdr_ring_buffer :=
  if max_writes =? 0 then inl EINVAL
  else match vmalloc with
       | None => inl ENOMEM
       | Some buf => inr (mkRing buf (mkBufferInfo 0 0 0 0 max_writes))
       end.

(** ** Putting a write *)

(** Copying an entry into its slot, after the lock has been released; what the
    data does not fill of the page keeps its old bytes. *)
Definition fill (slot : Z) (sector size : Z) (data : list byte) (rb : bdr_ring_buffer) : bdr_ring_buffer :=
  mkRing (splice (Z.to_nat (slot * Z.of_nat BDR_WRITE_INFO_SIZE))
            (le_put 4 sector ++ le_put 4 size ++ data) (buffer rb)) (buffer_info rb).

(** The part under the lock: the slot of the entry. *)
Definition reserve (rb : bdr_ring_buffer) : option Z * bdr_ring_buffer :=
  let b := buffer_info rb in
  if is_overflown b then (None, rb)
  else
    let rb := set_info (bdr_ring_buffer_update_unsafe b) rb in
    if is_overflown (buffer_info rb) then (None, rb)
    else (Some (u64 (biOffset b + biLength b) mod biMaxWrites b), rb).

Definition bdr_ring_buffer_put (sector size : Z) (page : list byte) (page_offset length : Z)
  (rb : bdr_ring_buffer) : option errno * bdr_ring_buffer :=
  match reserve rb with
  | (None, rb) => (Some ENOSPC, rb)
  | (Some slot, rb) =>
      let copy_len := Z.min length (Z.of_nat PAGE_SIZE - page_offset) in
      (None, fill slot sector size (sub (Z.to_nat page_offset) (Z.to_nat copy_len) page) rb)
  end.

(** ** A write of the device mapper target *)

(** A [bio_vec] with the sector the iterator is at: some bytes of a page. *)
Record segment := mkSegment {
  bi_sector : Z;
  bv_page : list byte;
  bv_offset : Z;
  bv_len : Z;
}.

(** The loop of [bdr_put_write_to_buffer]; each turn takes at least a byte off
    [seg_len], so [bv_len] turns are enough. *)
Fixpoint put_loop (fuel : nat) (seg_page : list byte) (seg_sec seg_page_off seg_len : Z)
  (rb : bdr_ring_buffer) : bdr_ring_buffer :=
  match fuel with
  | O => rb
  | S fuel =>
      if 0 <? seg_len then
        let size_to_copy := Z.min seg_len (Z.of_nat PAGE_SIZE - seg_page_off) in
        match bdr_ring_buffer_put seg_sec size_to_copy seg_page seg_page_off seg_len rb with
        | (Some _, rb) => rb
        | (None, rb) => put_loop fuel seg_page (u32 (seg_sec + 1)) 0 (seg_len - size_to_copy) rb
        end
      else rb
  end.

(** The sector is an [unsigned int] there, whatever the device's size. *)
Definition bdr_put_write_to_buffer (seg : segment) (rb : bdr_ring_buffer) : bdr_ring_buffer :=
  put_loop (Z.to_nat (bv_len seg)) (bv_page seg) (u32 (bi_sector seg)) (bv_offset seg) (bv_len seg) rb.

Definition bdr_submit_bio (bio : list segment) (rb : bdr_ring_buffer) : bdr_ring_buffer :=
  foldl (fun rb seg => bdr_put_write_to_buffer seg rb) rb bio.

(** What [bdr_target_map] does to the ring for a write, before it submits it to
    the device. *)
Definition bdr_target_map (bio : list segment) (rb : bdr_ring_buffer) : bdr_ring_buffer :=
  if bdr_ring_buffer_is_full rb then rb else bdr_submit_bio bio rb.

(** ** What the ring promises *)

(** An entry: a sector and the bytes written there. *)
Definition entry : Type := Z * list byte.

Record aring := mkARing {
  a_held : list entry;
  a_pending : list entry;
  a_lost : bool;
}.

Definition a_size (a : aring) : nat := length (a_held a) + length (a_pending a).

(** One of the [n] slots always stays free. *)
Definition a_put (n : nat) (e : entry) (a : aring) : aring :=
  if a_lost a then a
  else if (S (a_size a) =? n)%nat then mkARing (a_held a) (a_pending a) true
  else mkARing (a_held a) (a_pending a ++ [e]) false.

Definition a_read (a : aring) : aring :=
  if a_lost a then a else mkARing (a_pending a) [] false.

Definition a_reset : aring := mkARing [] [] false.

(** ** Slots *)

Definition slot (k : nat) (buf : list byte) : list byte := sub (k * BDR_WRITE_INFO_SIZE) BDR_WRITE_INFO_SIZE buf.

Definition holds (b : list byte) (e : entry) : Prop :=
  sub 0 4 b = le_put 4 e.1 /\ sub 4 4 b = le_put 4 (Z.of_nat (length e.2)) /\ sub 8 (length e.2) b = e.2.

(** The slot of the [i]-th entry, counted from the oldest one that is kept. *)
Definition index (n : nat) (b : BufferInfo) (i : nat) : nat := Z.to_nat ((biLast b + Z.of_nat i) mod Z.of_nat n).

Record ring_rel (n : nat) (rb : bdr_ring_buffer) (a : aring) : Prop := {
  rr_n : (0 < n)%nat;
  rr_width : Z.of_nat n < 2 ^ 32;
  rr_len : length (buffer rb) = (n * BDR_WRITE_INFO_SIZE)%nat;
  rr_max : biMaxWrites (buffer_info rb) = Z.of_nat n;
  rr_room : (a_size a < n)%nat;
  rr_last : 0 <= biLast (buffer_info rb) < Z.of_nat n;
  rr_offset : biOffset (buffer_info rb) = (biLast (buffer_info rb) + Z.of_nat (length (a_held a))) mod Z.of_nat n;
  rr_length : biLength (buffer_info rb) = Z.of_nat (length (a_pending a) + if a_lost a then 1 else 0);
  rr_flags : biFlags (buffer_info rb) = if a_lost a then 1 else 0;
  rr_slots : forall i e, (a_held a ++ a_pending a) !! i = Some e ->
    holds (slot (index n (buffer_info rb) i) (buffer rb)) e;
}.

(** An entry fits into a slot. *)
Definition fits_slot (e : entry) : Prop := (length e.2 <= PAGE_SIZE)%nat.

(** ** Slots of the ring *)

Lemma mod_inj n x i j : 0 <= i < n -> 0 <= j < n -> (x + i) mod n = (x + j) mod n -> i = j.
Proof using.
  intros Hi Hj E. assert (n <> 0) by lia.
  pose proof (Z.div_mod (x + i) n ltac:(lia)) as E1. pose proof (Z.div_mod (x + j) n ltac:(lia)) as E2.
  assert (D : i - j = n * ((x + i) / n - (x + j) / n)) by lia.
  assert ((x + i) / n - (x + j) / n = 0) by nia. lia.
Qed.

Lemma index_lt n b i : (0 < n)%nat -> (index n b i < n)%nat.
Proof using. intros. unfold index. pose proof (Z.mod_pos_bound (biLast b + Z.of_nat i) (Z.of_nat n) ltac:(lia)). lia. Qed.

Lemma index_inj n b i j : (i < n)%nat -> (j < n)%nat -> index n b i = index n b j -> i = j.
Proof using.
  intros Hi Hj E. unfold index in E. apply Z2Nat.inj in E; [|apply Z.mod_pos_bound; lia..].
  apply mod_inj in E; lia.
Qed.

Lemma length_slot_data k n (buf : list byte) :
  (k < n)%nat -> length buf = (n * BDR_WRITE_INFO_SIZE)%nat -> length (slot k buf) = BDR_WRITE_INFO_SIZE.
Proof using. intros Hk Hl. unfold slot. apply length_sub. nia. Qed.

(** A filled slot holds the entry; the others are as before. *)
Lemma fill_slots n k rb e :
  (k < n)%nat -> length (buffer rb) = (n * BDR_WRITE_INFO_SIZE)%nat -> fits_slot e ->
  let rb' := fill (Z.of_nat k) e.1 (Z.of_nat (length e.2)) e.2 rb in
  length (buffer rb') = length (buffer rb) /\ holds (slot k (buffer rb')) e /\
  forall k', (k' < n)%nat -> k' <> k -> slot k' (buffer rb') = slot k' (buffer rb).
Proof using.
  intros Hk Hl Hf. unfold fits_slot in Hf. cbn [fill buffer].
  replace (Z.to_nat (Z.of_nat k * Z.of_nat BDR_WRITE_INFO_SIZE)) with (k * BDR_WRITE_INFO_SIZE)%nat by lia.
  set (d := le_put 4 e.1 ++ le_put 4 (Z.of_nat (length e.2)) ++ e.2).
  assert (Hd : length d = (8 + length e.2)%nat) by (unfold d; rewrite !length_app, !length_le_put; lia).
  assert (Hw : (length d <= BDR_WRITE_INFO_SIZE)%nat) by (unfold BDR_WRITE_INFO_SIZE; lia).
  assert (Hin : (k * BDR_WRITE_INFO_SIZE + length d <= length (buffer rb))%nat) by nia.
  split; [by apply length_splice|]. split.
  - assert (S : forall o m, (o + m <= length d)%nat ->
      sub o m (slot k (splice (k * BDR_WRITE_INFO_SIZE) d (buffer rb))) = sub o m d).
    { intros o m Ho. unfold slot. rewrite sub_sub by lia.
      apply list_eq. intros j. destruct (decide (j < m)%nat) as [Hj|Hj].
      - rewrite !lookup_sub by done. rewrite lookup_splice_in by lia. f_equal. lia.
      - unfold sub. rewrite !lookup_take_ge by lia. done. }
    unfold holds. rewrite !S by lia. unfold d. split; [|split].
    + by apply sub_app_l.
    + rewrite sub_app_r by (rewrite length_le_put; lia). rewrite length_le_put. by apply sub_app_l.
    + rewrite sub_app_r by (rewrite length_le_put; lia). rewrite length_le_put.
      rewrite sub_app_r by (rewrite length_le_put; lia). rewrite length_le_put. by apply sub_full.
  - intros k' Hk' Hne. unfold slot. apply sub_splice_disjoint; [lia|nia|].
    destruct (decide (k' < k)%nat); [left|right]; nia.
Qed.

(** ** The operations refine their abstract counterparts *)

Section Refinement.
Context (n : nat) (rb : bdr_ring_buffer) (a : aring) (R : ring_rel n rb a).

Lemma overflown_lost : is_overflown (buffer_info rb) = a_lost a.
Proof using R. unfold is_overflown. rewrite (rr_flags _ _ _ R). by destruct (a_lost a). Qed.

(** The next free slot, and when it is the last one. *)
Lemma next_slot k :
  (biOffset (buffer_info rb) + Z.of_nat (length (a_pending a)) + k) mod Z.of_nat n =
  (biLast (buffer_info rb) + (Z.of_nat (a_size a) + k)) mod Z.of_nat n.
Proof using R.
  rewrite (rr_offset _ _ _ R), <- Z.add_assoc, Zplus_mod_idemp_l. f_equal. unfold a_size. lia.
Qed.

Lemma last_slot : a_lost a = false ->
  (biOffset (buffer_info rb) + (biLength (buffer_info rb) + 1)) mod Z.of_nat n = biLast (buffer_info rb) <->
  S (a_size a) = n.
Proof using R.
  intros Hl. pose proof (rr_room _ _ _ R). pose proof (rr_last _ _ _ R) as HL.
  rewrite (rr_length _ _ _ R), Hl, Nat.add_0_r, Z.add_assoc, next_slot. split.
  - intros E. destruct (decide (S (a_size a) = n)) as [|Hn]; [done|]. exfalso.
    rewrite <- (Z.mod_small (biLast (buffer_info rb)) (Z.of_nat n)) in E at 2 by done.
    rewrite <- (Z.add_0_r (biLast (buffer_info rb))) in E at 2. apply mod_inj in E; lia.
  - intros E. replace (Z.of_nat (a_size a) + 1) with (1 * Z.of_nat n) by lia.
    rewrite Z.mod_add by lia. by apply Z.mod_small.
Qed.

Lemma update_width :
  u64 (biLength (buffer_info rb) + 1) = biLength (buffer_info rb) + 1 /\
  u64 (biOffset (buffer_info rb) + (biLength (buffer_info rb) + 1)) =
    biOffset (buffer_info rb) + (biLength (buffer_info rb) + 1) /\
  u64 (biOffset (buffer_info rb) + biLength (buffer_info rb)) =
    biOffset (buffer_info rb) + biLength (buffer_info rb).
Proof using R.
  pose proof (rr_room _ _ _ R). pose proof (rr_width _ _ _ R). pose proof (rr_n _ _ _ R).
  unfold a_size in *. rewrite (rr_length _ _ _ R), (rr_offset _ _ _ R).
  pose proof (Z.mod_pos_bound (biLast (buffer_info rb) + Z.of_nat (length (a_held a))) (Z.of_nat n) ltac:(lia)).
  destruct (a_lost a); repeat split; apply u64_small; width_tac.
Qed.

(** Reserving a slot: refused once an entry has been lost, and from then on. *)
Lemma reserve_refines :
  a_lost a = false ->
  match reserve rb with
  | (Some k, rb') =>
      k = Z.of_nat (index n (buffer_info rb) (a_size a)) /\ (S (a_size a) < n)%nat /\
      buffer rb' = buffer rb /\
      buffer_info rb' = mkBufferInfo (biOffset (buffer_info rb)) (biLength (buffer_info rb) + 1)
                          (biLast (buffer_info rb)) 0 (Z.of_nat n)
  | (None, rb') => S (a_size a) = n /\ ring_rel n rb' (mkARing (a_held a) (a_pending a) true)
  end.
Proof using R.
  intros Hl. destruct update_width as (U1 & U2 & U3).
  pose proof (rr_room _ _ _ R). pose proof (rr_n _ _ _ R).
  unfold reserve. rewrite overflown_lost, Hl.
  unfold bdr_ring_buffer_update_unsafe. rewrite (rr_max _ _ _ R), (rr_flags _ _ _ R), Hl, U1, U2, U3.
  cbn [set_info buffer_info buffer].
  destruct (_ =? biLast _) eqn:E; cbn.
  - apply Z.eqb_eq, last_slot in E; [|done]. split; [done|]. destruct R. split; cbn; try done.
    rewrite Hl in *. lia.
  - apply Z.eqb_neq in E. rewrite last_slot in E by done.
    split; [|split; [lia|done]]. rewrite (rr_length _ _ _ R), Hl, Nat.add_0_r.
    rewrite <- (Z.add_0_r (_ + Z.of_nat (length _))), next_slot, Z.add_0_r. unfold index.
    rewrite Z2Nat.id; [done|]. apply Z.mod_pos_bound. lia.
Qed.

Lemma put_refines sector size page off len :
  0 <= off -> 0 <= size -> off + size <= Z.of_nat PAGE_SIZE -> off + size <= Z.of_nat (length page) ->
  size = Z.min len (Z.of_nat PAGE_SIZE - off) ->
  ring_rel n (bdr_ring_buffer_put sector size page off len rb).2
    (a_put n (sector, sub (Z.to_nat off) (Z.to_nat size) page) a).
Proof using R.
  intros Ho Hlen Hp Hpg Hsz. unfold bdr_ring_buffer_put, a_put.
  destruct (a_lost a) eqn:Hl.
  { unfold reserve. rewrite overflown_lost, Hl. exact R. }
  pose proof (reserve_refines Hl) as Hr. destruct (reserve rb) as [[k|] rb'].
  2:{ destruct Hr as [-> R']. by rewrite Nat.eqb_refl. }
  destruct Hr as (-> & Hn & Hb & Hi). destruct (_ =? n)%nat eqn:E; [apply Nat.eqb_eq in E; lia|]. cbn [snd].
  rewrite <- Hsz. set (data := sub (Z.to_nat off) (Z.to_nat size) page).
  assert (Hd : Z.of_nat (length data) = size) by (unfold data; rewrite length_sub; lia).
  rewrite <- Hd.
  pose proof (index_lt n (buffer_info rb) (a_size a) (rr_n _ _ _ R)) as Hidx.
  destruct (fill_slots n (index n (buffer_info rb) (a_size a)) rb' (sector, data)) as (F1 & F2 & F3);
    [done|by rewrite Hb; apply R|unfold fits_slot; cbn [snd]; lia|]. cbn [fst snd] in F1, F2, F3.
  rewrite Hb in F1, F3. destruct R. split; cbn [a_held a_pending a_lost buffer_info fill]; rewrite ?Hi; try done.
  - by rewrite F1.
  - unfold a_size in *. cbn. rewrite length_app. cbn. lia.
  - cbn [biLength]. rewrite rr_length0, Hl, length_app. cbn. lia.
  - intros i e Hin. unfold a_size in *. rewrite app_assoc in Hin.
    replace (index n _ i) with (index n (buffer_info rb) i) by done.
    apply lookup_app_Some in Hin as [Hin|[Hge Hin]].
    + pose proof (lookup_lt_Some _ _ _ Hin) as Hlt. rewrite length_app in Hlt.
      rewrite F3; [by apply rr_slots0|by apply index_lt|].
      intros Eq. apply index_inj in Eq; lia.
    + apply list_lookup_singleton_Some in Hin as [Hz <-]. rewrite length_app in Hge, Hz.
      replace i with (length (a_held a) + length (a_pending a))%nat by lia. exact F2.
Qed.
End Refinement.

(** *** Segments and bios *)

(** A segment of a bio lies in one page ([bio_for_each_segment] splits at page
    boundaries), below the sector that fits the 32 bits of an entry. *)
Record wf_segment (seg : segment) : Prop := {
  ws_sector : is_u32 (bi_sector seg);
  ws_off : 0 <= bv_offset seg;
  ws_len : 0 < bv_len seg;
  ws_page : bv_offset seg + bv_len seg <= Z.of_nat PAGE_SIZE;
  ws_data : bv_offset seg + bv_len seg <= Z.of_nat (length (bv_page seg));
}.

Definition seg_entry (seg : segment) : entry :=
  (bi_sector seg, sub (Z.to_nat (bv_offset seg)) (Z.to_nat (bv_len seg)) (bv_page seg)).

(** The loop of [bdr_put_write_to_buffer] makes one turn. *)
Lemma put_write_once seg rb :
  wf_segment seg ->
  bdr_put_write_to_buffer seg rb =
  (bdr_ring_buffer_put (bi_sector seg) (bv_len seg) (bv_page seg) (bv_offset seg) (bv_len seg) rb).2.
Proof using.
  intros [W1 W2 W3 W4 W5]. unfold bdr_put_write_to_buffer. rewrite u32_small by done.
  destruct (Z.to_nat (bv_len seg)) as [|fuel] eqn:Ef; [lia|]. cbn [put_loop].
  destruct (0 <? bv_len seg) eqn:E; [|apply Z.ltb_ge in E; lia].
  rewrite Z.min_l by lia. destruct (bdr_ring_buffer_put _ _ _ _ _ _) as [[e|] rb']; [done|]. cbn [snd].
  rewrite Z.sub_diag. by destruct fuel.
Qed.

Lemma put_write_refines n rb a seg :
  ring_rel n rb a -> wf_segment seg ->
  ring_rel n (bdr_put_write_to_buffer seg rb) (a_put n (seg_entry seg) a).
Proof using.
  intros R W. rewrite put_write_once by done. destruct W. apply (put_refines n rb a R); lia.
Qed.

Lemma submit_refines n bio rb a :
  ring_rel n rb a -> Forall wf_segment bio ->
  ring_rel n (bdr_submit_bio bio rb) (foldl (fun a seg => a_put n (seg_entry seg) a) a bio).
Proof using.
  intros R W. revert rb a R. induction W as [|seg bio Hs W IH]; intros rb a R; [done|].
  cbn. apply IH. by apply put_write_refines.
Qed.

Lemma puts_lost n (es : list entry) a : a_lost a = true -> foldl (fun a e => a_put n e a) a es = a.
Proof using. intros H. induction es as [|e es IH]; [done|]. cbn. unfold a_put at 2. by rewrite H. Qed.

(** Puts that do not overflow the ring are all pending. *)
Lemma puts_pending n (es : list entry) a :
  a_lost (foldl (fun a e => a_put n e a) a es) = false ->
  a_lost a = false /\ a_pending (foldl (fun a e => a_put n e a) a es) = a_pending a ++ es.
Proof.
  revert a. induction es as [|e es IH]; intros a Hl; [by rewrite app_nil_r|]. cbn in *.
  destruct (IH _ Hl) as [H ->]. clear Hl IH. unfold a_put in *. destruct (a_lost a) eqn:El; [congruence|].
  destruct (_ =? _)%nat; [done|]. split; [done|]. cbn. by rewrite <- app_assoc.
Qed.

Lemma target_map_refines n bio rb a :
  ring_rel n rb a -> Forall wf_segment bio ->
  ring_rel n (bdr_target_map bio rb) (foldl (fun a e => a_put n e a) a (seg_entry <$> bio)).
Proof using.
  intros R W. unfold bdr_target_map, bdr_ring_buffer_is_full. rewrite (overflown_lost n rb a R).
  destruct (a_lost a) eqn:Hl; [by rewrite puts_lost|].
  rewrite foldl_fmap. by apply submit_refines.
Qed.

(** *** Reading and resetting *)

(** [b] describes the entries [es] in the buffer [buf]. *)
Record handed (n : nat) (b : BufferInfo) (es : list entry) (buf : list byte) : Prop := {
  hd_max : biMaxWrites b = Z.of_nat n;
  hd_off : 0 <= biOffset b < Z.of_nat n;
  hd_len : biLength b = Z.of_nat (length es);
  hd_slots : forall i e, es !! i = Some e ->
    holds (slot (Z.to_nat ((biOffset b + Z.of_nat i) mod Z.of_nat n)) buf) e;
}.

Lemma read_refines n rb a :
  ring_rel n rb a ->
  let '(b, rb') := bdr_buffer_read_routine rb in
  ring_rel n rb' (a_read a) /\ buffer rb' = buffer rb /\ is_overflown b = a_lost a /\
  (a_lost a = false -> biLast (buffer_info rb') = biOffset b /\ handed n b (a_pending a) (buffer rb)).
Proof using.
  intros R. pose proof (overflown_lost n rb a R) as Ho. unfold bdr_buffer_read_routine, a_read.
  destruct (update_width n rb a R) as (_ & _ & U). rewrite Ho.
  destruct (a_lost a) eqn:Hl; [by split_and!|].
  pose proof (rr_n _ _ _ R) as Hn. pose proof (rr_length _ _ _ R) as HL. rewrite Hl, Nat.add_0_r in HL.
  assert (Hoff : 0 <= biOffset (buffer_info rb) < Z.of_nat n).
  { rewrite (rr_offset _ _ _ R). apply Z.mod_pos_bound. lia. }
  assert (Hs : forall i e, a_pending a !! i = Some e ->
    holds (slot (Z.to_nat ((biOffset (buffer_info rb) + Z.of_nat i) mod Z.of_nat n)) (buffer rb)) e).
  { intros i e Hi. pose proof (rr_slots _ _ _ R (length (a_held a) + i) e) as H.
    rewrite lookup_app_r, Nat.add_sub_swap, Nat.sub_diag in H by lia. specialize (H Hi).
    unfold index in H. rewrite (rr_offset _ _ _ R), Zplus_mod_idemp_l.
    by replace (biLast (buffer_info rb) + Z.of_nat (length (a_held a)) + Z.of_nat i)
      with (biLast (buffer_info rb) + Z.of_nat (length (a_held a) + i)) by lia. }
  split_and!; [|done|done|by intros _; split; [|split; [apply R|..]]].
  pose proof (rr_max _ _ _ R) as Hmax. pose proof (rr_flags _ _ _ R) as Hf. rewrite Hl in Hf.
  pose proof (rr_room _ _ _ R) as Hroom. unfold a_size in Hroom.
  split; cbn [a_held a_pending a_lost set_info buffer buffer_info advance biLast biOffset biLength biFlags biMaxWrites];
    try done; try apply R.
  - unfold a_size; cbn. lia.
  - by rewrite U, HL, Hmax.
  - intros i e Hi. rewrite app_nil_r in Hi. unfold index. by apply Hs.
Qed.

Lemma reset_refines n rb a : ring_rel n rb a -> ring_rel n (bdr_ring_buffer_reset rb) a_reset.
Proof using.
  intros R. destruct R. split; cbn; try done; try lia.
Qed.

Lemma init_refines n buf :
  (0 < n)%nat -> Z.of_nat n < 2 ^ 32 -> length buf = (n * BDR_WRITE_INFO_SIZE)%nat ->
  exists rb, bdr_ring_buffer_init (Some buf) (Z.of_nat n) = inr rb /\ ring_rel n rb a_reset.
Proof using.
  intros Hn Hw Hl. unfold bdr_ring_buffer_init. destruct (_ =? 0) eqn:E; [lia|].
  eexists. split; [done|]. split; cbn; try done; try lia.
Qed.

(** A read that hands out its batch leaves nothing pending. *)
Lemma bdr_read_length rb :
  is_overflown (buffer_info rb) = false -> biLength (buffer_info (bdr_buffer_read_routine rb).2) = 0.
Proof using. intros H. unfold bdr_buffer_read_routine. by rewrite H. Qed.

(** Puts leave alone what the last read has handed out. *)
Lemma puts_held n (es : list entry) a :
  a_held (foldl (fun a e => a_put n e a) a es) = a_held a.
Proof using.
  revert a. induction es as [|e es IH]; intros a; [done|]. cbn. rewrite IH. unfold a_put.
  destruct (a_lost a); [done|]. by destruct (_ =? _)%nat.
Qed.

Lemma held_handed n rb a b :
  ring_rel n rb a -> biMaxWrites b = Z.of_nat n -> biOffset b = biLast (buffer_info rb) ->
  biLength b = Z.of_nat (length (a_held a)) -> handed n b (a_held a) (buffer rb).
Proof using.
  intros R Hm Hb Hl. split; [done|rewrite Hb; apply R|done|].
  intros i e Hi. rewrite Hb. apply (rr_slots _ _ _ R i e). by apply lookup_app_l_Some.
Qed.

Lemma put_write_last seg rb :
  wf_segment seg -> biLast (buffer_info (bdr_put_write_to_buffer seg rb)) = biLast (buffer_info rb).
Proof using.
  intros W. rewrite put_write_once by done. unfold bdr_ring_buffer_put, reserve.
  destruct (is_overflown _); [done|]. destruct (is_overflown _); done.
Qed.

Lemma target_map_last bio rb :
  Forall wf_segment bio -> biLast (buffer_info (bdr_target_map bio rb)) = biLast (buffer_info rb).
Proof using.
  intros W. unfold bdr_target_map. destruct (bdr_ring_buffer_is_full _); [done|].
  unfold bdr_submit_bio. revert rb. induction W as [|seg bio Hs W IH]; intros rb; [done|].
  cbn. rewrite IH. by apply put_write_last.
Qed.
End Ring.
