(* ===== verification/RingBufferProps.v ===== *)
(** * Properties of the kernel's ring buffer *)
From S2P Require Import Prelude GoInt RingBuffer.
Open Scope Z_scope.

Section Props.
Context (PAGE_SIZE : nat).

(** What happens to the ring: a bio of the target, a read of the client, a
    reset of the client. *)
Inductive ring_op :=
| RBio (bio : list segment)
| RRead
| RReset.

Definition ring_step (rb : bdr_ring_buffer) (op : ring_op) : bdr_ring_buffer :=
  match op with
  | RBio bio => bdr_target_map PAGE_SIZE bio rb
  | RRead => (bdr_buffer_read_routine rb).2
  | RReset => bdr_ring_buffer_reset rb
  end.

Definition wf_op (op : ring_op) : Prop :=
  match op with RBio bio => Forall (wf_segment PAGE_SIZE) bio | _ => True end.

(** The abstract ring with the entries handed out and those put since the last
    reset. *)
Record alog := mkLog { l_ring : aring; l_out : list entry; l_put : list entry }.

Definition log_step (n : nat) (x : alog) (op : ring_op) : alog :=
  match op with
  | RBio bio => mkLog (foldl (fun a e => a_put n e a) (l_ring x) (seg_entry <$> bio)) (l_out x)
                  (l_put x ++ (seg_entry <$> bio))
  | RRead => mkLog (a_read (l_ring x))
               (if a_lost (l_ring x) then l_out x else l_out x ++ a_pending (l_ring x)) (l_put x)
  | RReset => mkLog a_reset [] []
  end.

(** Everything put is handed out, pending, or known to be lost, in order. *)
Definition accounted (x : alog) : Prop :=
  exists lost, l_out x ++ a_pending (l_ring x) ++ lost = l_put x /\
    (a_lost (l_ring x) = true <-> lost <> []).

Lemma accounted_put n e x :
  accounted x -> accounted (mkLog (a_put n e (l_ring x)) (l_out x) (l_put x ++ [e])).
Proof using.
  intros (lost & H & Hl). unfold a_put. destruct (a_lost (l_ring x)) eqn:El.
  - exists (lost ++ [e]). cbn. rewrite El. split; [by rewrite <- H, <- !app_assoc|].
    split; [|done]. intros _ [_ K]%app_nil. done.
  - assert (lost = []) as -> by (destruct lost as [|x' lost]; [done|]; by pose proof (proj2 Hl ltac:(done))).
    rewrite app_nil_r in H. destruct (_ =? n)%nat; cbn.
    + exists [e]. split; [by rewrite <- H, <- !app_assoc|done].
    + exists []. split; [by rewrite <- H, app_nil_r, <- !app_assoc|done].
Qed.

Lemma accounted_step n x op : accounted x -> accounted (log_step n x op).
Proof using.
  intros A. destruct op as [bio| |]; cbn [log_step].
  - generalize (seg_entry <$> bio). intros es. revert x A.
    induction es as [|e es IH]; intros x A; [destruct x; cbn; by rewrite app_nil_r|].
    cbn. rewrite cons_middle, app_assoc. apply (IH (mkLog _ _ _)). by apply accounted_put.
  - destruct A as (lost & H & Hl). unfold a_read. destruct (a_lost (l_ring x)) eqn:El; exists lost; cbn.
    + by rewrite El.
    + split; [by rewrite <- H, <- app_assoc|done].
  - by exists [].
Qed.

Lemma ring_step_refines n rb x op :
  ring_rel PAGE_SIZE n rb (l_ring x) -> wf_op op ->
  ring_rel PAGE_SIZE n (ring_step rb op) (l_ring (log_step n x op)).
Proof using.
  intros R W. destruct op as [bio| |]; cbn [ring_step log_step l_ring].
  - by apply target_map_refines.
  - pose proof (read_refines PAGE_SIZE n rb _ R) as H.
    destruct (bdr_buffer_read_routine rb) as [b rb']. by destruct H.
  - by eapply reset_refines.
Qed.

(** C12: the ring of the kernel keeps its promise over every sequence of bios,
    reads and resets, for every size: bytes and descriptor describe the entries
    handed out by the last read and those put since, and of everything put since
    the last reset, in order, what is neither handed out nor pending is lost with
    the overflow flag set: nothing is lost silently. *)
Theorem ring_buffer_refines n buf ops :
  (0 < n)%nat -> Z.of_nat n < 2 ^ 32 -> length buf = (n * BDR_WRITE_INFO_SIZE PAGE_SIZE)%nat ->
  Forall wf_op ops ->
  exists rb, bdr_ring_buffer_init (Some buf) (Z.of_nat n) = inr rb /\
    let x := foldl (log_step n) (mkLog a_reset [] []) ops in
    ring_rel PAGE_SIZE n (foldl ring_step rb ops) (l_ring x) /\ accounted x.
Proof using.
  intros Hn Hw Hl Hops. destruct (init_refines PAGE_SIZE n buf Hn Hw Hl) as (rb & E & R).
  exists rb. split; [done|]. change a_reset with (l_ring (mkLog a_reset [] [])) in R.
  assert (A : accounted (mkLog a_reset [] [])) by (by exists []).
  generalize dependent (mkLog a_reset [] []). clear E. revert rb.
  induction Hops as [|op ops W Hops IH]; intros rb x R A; [done|].
  cbn. apply IH; [by apply ring_step_refines|by apply accounted_step].
Qed.

(** C22: what a read hands out stays in the buffer until the next read: however
    many writes the kernel puts meanwhile, the descriptor the client holds
    describes exactly the entries that were pending, in order, whether or not the
    ring overflows. *)
Theorem read_batch_stable n rb a bios :
  ring_rel PAGE_SIZE n rb a -> a_lost a = false -> Forall (Forall (wf_segment PAGE_SIZE)) bios ->
  let '(b, rb1) := bdr_buffer_read_routine rb in
  is_overflown b = false /\
  handed PAGE_SIZE n b (a_pending a)
    (buffer (foldl (fun rb bio => bdr_target_map PAGE_SIZE bio rb) rb1 bios)).
Proof using.
  intros R Hl W. pose proof (read_refines PAGE_SIZE n rb a R) as H.
  destruct (bdr_buffer_read_routine rb) as [b rb1]. destruct H as (R1 & _ & Ho & H).
  rewrite Hl in Ho. split; [done|]. destruct (H Hl) as [Hb [D1 D2 D3 _]].
  unfold a_read in R1. rewrite Hl in R1.
  assert (K : exists a2, ring_rel PAGE_SIZE n (foldl (fun rb bio => bdr_target_map PAGE_SIZE bio rb) rb1 bios) a2 /\
    a_held a2 = a_pending a /\
    biLast (buffer_info (foldl (fun rb bio => bdr_target_map PAGE_SIZE bio rb) rb1 bios)) = biOffset b).
  { rewrite <- Hb. assert (Ha : a_held (mkARing (a_pending a) [] false) = a_pending a) by done.
    clear H D1 D2 D3 Ho Hb. revert R1 Ha. generalize (mkARing (a_pending a) [] false). revert rb1.
    induction W as [|bio bios Hs W IH]; intros rb1 a1 R1 Ha; [by exists a1|]. cbn.
    rewrite <- (target_map_last PAGE_SIZE bio rb1 Hs). eapply IH; [by apply target_map_refines|].
    by rewrite puts_held. }
  destruct K as (a2 & R2 & Hh & Hlast). rewrite <- Hh in D3 |- *. by eapply held_handed.
Qed.

(** The entry of a put is copied after the lock has been released: a read that
    comes in between is told of one entry more than the buffer holds, and finds
    in its slot whatever was there before. *)
Theorem put_read_race n rb a :
  ring_rel PAGE_SIZE n rb a -> a_lost a = false -> (S (a_size a) < n)%nat ->
  exists k rb1, reserve rb = (Some k, rb1) /\
    let '(b, rb2) := bdr_buffer_read_routine rb1 in
    is_overflown b = false /\ biLength b = Z.of_nat (S (length (a_pending a))) /\
    buffer rb2 = buffer rb /\
    k = (biOffset b + (biLength b - 1)) mod biMaxWrites b.
Proof using.
  intros R Hl Hn. pose proof (reserve_refines PAGE_SIZE n rb a R Hl) as H.
  destruct (reserve rb) as [[k|] rb1]; [|lia]. destruct H as (-> & _ & Hb & Hi).
  exists (Z.of_nat (index n (buffer_info rb) (a_size a))), rb1. split; [done|].
  assert (Ho : is_overflown (buffer_info rb1) = false) by by rewrite Hi.
  unfold bdr_buffer_read_routine. rewrite Ho. cbn [set_info buffer]. rewrite Hi, Hb.
  cbn [biLength biOffset biMaxWrites]. rewrite (rr_length _ _ _ _ R), Hl, Nat.add_0_r.
  split; [by rewrite Hi in Ho|]. split; [lia|]. split; [done|].
  rewrite Z.add_simpl_r, <- (Z.add_0_r (_ + Z.of_nat (length _))), (next_slot PAGE_SIZE n rb a R), Z.add_0_r.
  unfold index. rewrite Z2Nat.id; [done|]. apply Z.mod_pos_bound. lia.
Qed.
End Props.

(** ** A ring of three entries with pages of two bytes *)

Definition demo_seg (sec : Z) (x : byte) : segment := mkSegment sec [x; x] 1 1.
Definition demo_ops : list ring_op :=
  [RBio [demo_seg 0 Byte.x0a]; RRead; RBio [demo_seg 1 Byte.x0b; demo_seg 2 Byte.x0c]; RRead; RReset;
   RBio [demo_seg 3 Byte.x0d]].
Definition demo_ring : bdr_ring_buffer := mkRing (replicate 30 Byte.x00) (mkBufferInfo 0 0 0 0 3).

Lemma demo_segments bio : Forall (fun s => exists sec x, 0 <= sec < 8 /\ s = demo_seg sec x) bio ->
  Forall (wf_segment 2) bio.
Proof.
  apply Forall_impl. intros s (sec & x & Hs & ->). split; cbn; try lia. width_tac.
Qed.

Lemma demo_wf_ops : Forall (wf_op 2) demo_ops.
Proof.
  repeat apply Forall_cons; split_and?; try done; apply demo_segments; repeat apply Forall_cons; split_and?;
    try apply Forall_nil; try done; do 2 eexists; (split; [|reflexivity]); lia.
Qed.

Lemma ring_buffer_refines_witness :
  exists rb, bdr_ring_buffer_init (Some (replicate 30 Byte.x00)) 3 = inr rb /\
    let x := foldl (log_step 3) (mkLog a_reset [] []) demo_ops in
    ring_rel 2 3 (foldl (ring_step 2) rb demo_ops) (l_ring x) /\ accounted x.
Proof.
  apply (ring_buffer_refines 2 3 (replicate 30 Byte.x00) demo_ops);
    [lia|lia|reflexivity|exact demo_wf_ops].
Defined.

Lemma demo_ring_rel : ring_rel 2 3 demo_ring a_reset.
Proof.
  destruct (init_refines 2 3 (replicate 30 Byte.x00)) as (rb & [= <-] & R); [lia|lia|reflexivity|exact R].
Qed.

Definition demo_ring1 : bdr_ring_buffer := bdr_target_map 2 [demo_seg 5 Byte.x0a] demo_ring.
Definition demo_aring1 : aring := mkARing [] [(5, [Byte.x0a])] false.
Lemma demo_ring1_rel : ring_rel 2 3 demo_ring1 demo_aring1.
Proof.
  apply (target_map_refines 2 3 [demo_seg 5 Byte.x0a] demo_ring a_reset demo_ring_rel).
  apply demo_segments, Forall_singleton. do 2 eexists. split; [|reflexivity]. lia.
Qed.

(** Three more writes overflow the ring; the batch of one entry is still there. *)
Lemma read_batch_stable_witness :
  let '(b, rb1) := bdr_buffer_read_routine demo_ring1 in
  is_overflown b = false /\
  handed 2 3 b [(5, [Byte.x0a])]
    (buffer (foldl (fun rb bio => bdr_target_map 2 bio rb) rb1
      [[demo_seg 1 Byte.x0b]; [demo_seg 2 Byte.x0c]; [demo_seg 3 Byte.x0d]])).
Proof.
  apply (read_batch_stable 2 3 demo_ring1 demo_aring1); [exact demo_ring1_rel|reflexivity|].
  repeat apply Forall_cons; split_and?; try apply Forall_nil; try done; apply demo_segments, Forall_singleton;
    do 2 eexists; (split; [|reflexivity]); lia.
Defined.

Lemma put_read_race_witness :
  exists k rb1, reserve demo_ring1 = (Some k, rb1) /\
    let '(b, rb2) := bdr_buffer_read_routine rb1 in
    is_overflown b = false /\ biLength b = 2 /\ buffer rb2 = buffer demo_ring1 /\
    k = (biOffset b + (biLength b - 1)) mod biMaxWrites b.
Proof. apply (put_read_race 2 3 demo_ring1 demo_aring1); [exact demo_ring1_rel|reflexivity|cbn; lia]. Defined.
