(* ===== verification/Bitmap.v ===== *)
(** * The bitmaps of the kernel module ([kern/bitmap.c])

    The module keeps two: one of the minor numbers that are taken, and per target
    one of the megabytes that were written after the ring had overflown.  A bitmap
    is an array of [unsigned long]; the kernel's [set_bit], [clear_bit] and
    [test_bit] address a word of it by the number of the bit, without a bound, so
    an access outside the allocation is an outcome of its own ([None]). *)
From S2P Require Import Prelude GoInt RingBuffer.
Open Scope Z_scope.

Definition BDR_BLOCK_SIZE_SHIFT : Z := 11.
Definition BITS_PER_LONG : Z := 64.
Definition BITS_TO_LONGS (nr : Z) : Z := (nr + BITS_PER_LONG - 1) / BITS_PER_LONG.

(** [bitmap] is [None] for a null pointer. *)
Record bdr_bitmap := mkBitmap {
  bitmap : option (list Z);
  max_bits : Z;
}.

(** ** Bits of an array of words *)

Definition word_of (nr : Z) : nat := Z.to_nat (nr / BITS_PER_LONG).
Definition bit_of (nr : Z) : Z := nr mod BITS_PER_LONG.

Definition test_bit (nr : Z) (ws : list Z) : option bool :=
  (fun w => Z.testbit w (bit_of nr)) <$> ws !! word_of nr.
Definition update_bit (b : bool) (nr : Z) (ws : list Z) : option (list Z) :=
  match ws !! word_of nr with
  | None => None
  | Some w =>
      Some (<[word_of nr := if b then Z.setbit w (bit_of nr) else Z.clearbit w (bit_of nr)]> ws)
  end.
Definition set_bit (nr : Z) (ws : list Z) : option (list Z) := update_bit true nr ws.
Definition clear_bit (nr : Z) (ws : list Z) : option (list Z) := update_bit false nr ws.

(** The first [nr < size] whose bit is clear, or [size]. *)
Fixpoint first_zero (n : nat) (nr : Z) (ws : list Z) : option Z :=
  match n with
  | O => Some nr
  | S n => match test_bit nr ws with
           | None => None
           | Some true => first_zero n (nr + 1) ws
           | Some false => Some nr
           end
  end.
Definition find_first_zero_bit (ws : list Z) (size : Z) : option Z := first_zero (Z.to_nat size) 0 ws.

(** ** The operations *)

(** [kzalloc] says whether the allocation succeeds; [max_bits] is an
    [unsigned int] here, whatever the caller computed. *)
Definition bdr_bitmap_init (kzalloc : bool) (max_bits : Z) : errno + bdr_bitmap :=
  let max_bits := u32 max_bits in
  if max_bits =? 0 then inl EINVAL
  else if negb kzalloc then inl ENOMEM
  else inr (mkBitmap (Some (replicate (Z.to_nat (BITS_TO_LONGS max_bits)) 0)) max_bits).

Definition bdr_bitmap_get_byte_size (bm : bdr_bitmap) : Z :=
  match bitmap bm with None => 0 | Some _ => u32 ((max_bits bm + 7) / 8) end.

Definition set_words (ws : list Z) (bm : bdr_bitmap) : bdr_bitmap := mkBitmap (Some ws) (max_bits bm).

Definition bdr_bitmap_allocate (bm : bdr_bitmap) : option ((errno + Z) * bdr_bitmap) :=
  match bitmap bm with
  | None => Some (inl EINVAL, bm)
  | Some ws =>
      match find_first_zero_bit ws (max_bits bm) with
      | None => None
      | Some bit =>
          if max_bits bm <=? bit then Some (inl ENOSPC, bm)
          else (fun ws => (inr bit, set_words ws bm)) <$> set_bit bit ws
      end
  end.

Definition bdr_bitmap_update (b : bool) (bit : Z) (bm : bdr_bitmap) : option bdr_bitmap :=
  match bitmap bm with
  | None => Some bm
  | Some ws => if max_bits bm <=? bit then Some bm else (fun ws => set_words ws bm) <$> update_bit b bit ws
  end.
Definition bdr_bitmap_free (bit : Z) (bm : bdr_bitmap) : option bdr_bitmap := bdr_bitmap_update false bit bm.
Definition bdr_bitmap_set (bit : Z) (bm : bdr_bitmap) : option bdr_bitmap := bdr_bitmap_update true bit bm.

Definition bdr_bitmap_clear (bm : bdr_bitmap) : bdr_bitmap :=
  match bitmap bm with
  | None => bm
  | Some _ => set_words (replicate (Z.to_nat (BITS_TO_LONGS (max_bits bm))) 0) bm
  end.

(** No check of the block against [max_bits], and none of the pointer. *)
Definition bdr_bitmap_set_sector (sector : Z) (bm : bdr_bitmap) : option bdr_bitmap :=
  match bitmap bm with
  | None => None
  | Some ws => (fun ws => set_words ws bm) <$> set_bit (Z.shiftr sector BDR_BLOCK_SIZE_SHIFT) ws
  end.

(** The bitmap of a target whose disk has [device_size] sectors
    ([bdr_target_ctr]). *)
Definition overflow_bm (kzalloc : bool) (device_size : Z) : errno + bdr_bitmap :=
  bdr_bitmap_init kzalloc (Z.shiftr device_size BDR_BLOCK_SIZE_SHIFT).

(** What [bdr_target_map] does for a write after the ring has overflown. *)
Definition mark_bio (bio : list segment) (bm : bdr_bitmap) : option bdr_bitmap :=
  foldl (fun bm seg => bm ≫= bdr_bitmap_set_sector (bi_sector seg)) (Some bm) bio.

(** ** Facts *)

(** As many words as the bits need. *)
Definition wf_bitmap (ws : list Z) (bm : bdr_bitmap) : Prop :=
  bitmap bm = Some ws /\ Z.of_nat (length ws) = BITS_TO_LONGS (max_bits bm) /\ 0 < max_bits bm.

Definition bit_at (bm : bdr_bitmap) (nr : Z) : option bool := bitmap bm ≫= test_bit nr.

Lemma word_of_lt nr n : 0 <= nr -> nr < BITS_PER_LONG * Z.of_nat n <-> (word_of nr < n)%nat.
Proof.
  intros H. unfold word_of, BITS_PER_LONG.
  pose proof (Z.div_mod nr 64 ltac:(lia)). pose proof (Z.mod_pos_bound nr 64 ltac:(lia)).
  assert (0 <= nr / 64) by (apply Z.div_pos; lia). lia.
Qed.

Lemma word_bit_inj a b : 0 <= a -> 0 <= b -> word_of a = word_of b -> bit_of a = bit_of b -> a = b.
Proof.
  intros Ha Hb Hw Hbit. unfold word_of, bit_of, BITS_PER_LONG in *.
  apply Z2Nat.inj in Hw; [|apply Z.div_pos; lia..].
  rewrite (Z.div_mod a 64), (Z.div_mod b 64) by lia. by rewrite Hw, Hbit.
Qed.

Lemma update_bit_in b nr ws : (word_of nr < length ws)%nat -> exists ws', update_bit b nr ws = Some ws'.
Proof. intros H. unfold update_bit. destruct (lookup_lt_is_Some_2 ws _ H) as [w ->]. by eexists. Qed.

(** An update changes its bit and no other. *)
Lemma update_bit_spec b nr ws ws' :
  0 <= nr -> update_bit b nr ws = Some ws' ->
  length ws' = length ws /\ test_bit nr ws' = Some b /\
  forall k, 0 <= k -> k <> nr -> test_bit k ws' = test_bit k ws.
Proof.
  intros Hnr E. unfold update_bit in E. destruct (ws !! word_of nr) as [w|] eqn:Ew; [|done].
  injection E as <-. assert (Hb : 0 <= bit_of nr) by (apply Z.mod_pos_bound; done).
  pose proof (lookup_lt_Some _ _ _ Ew) as Hl. split; [by rewrite length_insert|]. split.
  - unfold test_bit. rewrite list_lookup_insert_eq by done. cbn. f_equal.
    destruct b; [by apply Z.setbit_eq|by apply Z.clearbit_eq].
  - intros k Hk Hne. unfold test_bit. destruct (decide (word_of k = word_of nr)) as [Hw|Hw].
    + rewrite Hw, list_lookup_insert_eq, Ew by done. cbn. f_equal.
      assert (bit_of nr <> bit_of k) by (intros Eb; by apply Hne, word_bit_inj).
      destruct b; [by apply Z.setbit_neq|by apply Z.clearbit_neq].
    + by rewrite list_lookup_insert_ne.
Qed.

Lemma init_wf kzalloc n bm : bdr_bitmap_init kzalloc n = inr bm ->
  exists ws, wf_bitmap ws bm /\ max_bits bm = u32 n.
Proof.
  unfold bdr_bitmap_init. destruct (u32 n =? 0) eqn:E; [done|]. destruct kzalloc; [|done]. intros [= <-].
  apply Z.eqb_neq in E. assert (B : 0 <= u32 n) by (apply Z.mod_pos_bound; lia).
  eexists. split; [|done]. split; [done|]. cbn. rewrite length_replicate. split; [|lia].
  apply Z2Nat.id. apply Z.div_pos; unfold BITS_PER_LONG; lia.
Qed.

(** The words cover [max_bits] bits, rounded up to a word. *)
Lemma word_in_range ws bm nr : wf_bitmap ws bm -> 0 <= nr ->
  (word_of nr < length ws)%nat <-> nr < BITS_PER_LONG * BITS_TO_LONGS (max_bits bm).
Proof. intros (_ & <- & _) H. symmetry. by apply word_of_lt. Qed.

Lemma bits_covered n : 0 <= n -> n <= BITS_PER_LONG * BITS_TO_LONGS n < n + BITS_PER_LONG.
Proof.
  intros H. unfold BITS_TO_LONGS, BITS_PER_LONG.
  pose proof (Z.div_mod (n + 64 - 1) 64 ltac:(lia)). pose proof (Z.mod_pos_bound (n + 64 - 1) 64 ltac:(lia)). lia.
Qed.

(** ** Marking a sector *)

(** C29: a write to a sector of the disk marks its megabyte and no other, unless it
    falls into the last, incomplete megabyte of a disk whose number of complete
    ones is a multiple of 64: the bitmap has a bit for each complete megabyte
    only, and then the mark is set in memory behind the bitmap. *)
Theorem set_sector_bounds kzalloc device_size bm sector :
  device_size < 2 ^ 43 -> 0 <= sector < device_size -> overflow_bm kzalloc device_size = inr bm ->
  let block := Z.shiftr sector BDR_BLOCK_SIZE_SHIFT in
  match bdr_bitmap_set_sector sector bm with
  | None => max_bits bm mod BITS_PER_LONG = 0 /\ block = max_bits bm
  | Some bm' =>
      (max_bits bm mod BITS_PER_LONG <> 0 \/ block < max_bits bm) /\ max_bits bm' = max_bits bm /\
      bit_at bm' block = Some true /\ forall k, 0 <= k -> k <> block -> bit_at bm' k = bit_at bm k
  end.
Proof.
  intros Hcap Hs E block. destruct (init_wf _ _ _ E) as (ws & W & Em). pose proof W as (Ew & _ & Hpos).
  assert (Hmax : max_bits bm = device_size / 2 ^ 11).
  { rewrite Em, Z.shiftr_div_pow2 by done. apply u32_small. split; [apply Z.div_pos; lia|].
    apply Z.div_lt_upper_bound; lia. }
  assert (Hb : block = sector / 2 ^ 11) by (unfold block; by rewrite Z.shiftr_div_pow2).
  assert (Hle : 0 <= block <= max_bits bm)
    by (rewrite Hb, Hmax; split; [apply Z.div_pos; lia|apply Z.div_le_mono; lia]).
  pose proof (word_in_range ws bm block W (proj1 Hle)) as Hin.
  pose proof (Z.div_mod (max_bits bm) 64 ltac:(lia)) as D. pose proof (Z.mod_pos_bound (max_bits bm) 64 ltac:(lia)).
  pose proof (bits_covered (max_bits bm) ltac:(lia)) as C. unfold BITS_TO_LONGS, BITS_PER_LONG in *.
  unfold bdr_bitmap_set_sector. rewrite Ew. fold block. unfold set_bit.
  destruct (update_bit true block ws) as [ws'|] eqn:Eu; cbn.
  - destruct (update_bit_spec _ _ _ _ (proj1 Hle) Eu) as (_ & Ht & Ho). unfold bit_at. rewrite Ew. cbn.
    split; [|done]. unfold update_bit in Eu. destruct (ws !! word_of block) eqn:El; [|done].
    apply lookup_lt_Some, Hin in El. destruct (decide (block < max_bits bm)); [by right|left].
    intros Hm. rewrite Hm in D. replace block with (max_bits bm) in El by lia.
    replace (max_bits bm + 64 - 1) with (max_bits bm / 64 * 64 + 63) in El by lia.
    rewrite Z.div_add_l in El by lia. change (63 / 64) with 0 in El. lia.
  - assert (Hout : ~ (word_of block < length ws)%nat)
      by (intros Hlt; destruct (update_bit_in true block ws Hlt) as [? E']; by rewrite Eu in E').
    rewrite Hin in Hout. split; [|lia]. destruct (decide (max_bits bm mod 64 = 0)); [done|].
    replace (max_bits bm + 64 - 1) with (max_bits bm / 64 * 64 + (max_bits bm mod 64 + 63)) in * by lia.
    rewrite Z.div_add_l in * by lia.
    assert (1 <= (max_bits bm mod 64 + 63) / 64) by (apply Z.div_le_lower_bound; lia). lia.
Qed.

(** A disk of 64 megabytes and a sector. *)
Lemma set_sector_bounds_witness :
  let device_size := 64 * 2048 + 1 in
  exists bm, overflow_bm true device_size = inr bm /\ max_bits bm mod BITS_PER_LONG = 0 /\
    Z.shiftr (64 * 2048) BDR_BLOCK_SIZE_SHIFT = max_bits bm.
Proof.
  pose proof (fun bm => set_sector_bounds true (64 * 2048 + 1) bm (64 * 2048)) as H.
  eexists. split; [vm_compute; reflexivity|].
  apply (H _ ltac:(reflexivity) ltac:(lia) eq_refl).
Defined.

(** A bio marks the megabytes its segments start in, and no other. *)
Lemma mark_bio_spec bio bm bm' :
  Forall (fun seg => 0 <= bi_sector seg) bio -> mark_bio bio bm = Some bm' ->
  forall k, 0 <= k -> bit_at bm' k =
    if bool_decide (k ∈ (fun seg => Z.shiftr (bi_sector seg) BDR_BLOCK_SIZE_SHIFT) <$> bio)
    then Some true else bit_at bm k.
Proof.
  unfold mark_bio. revert bm'. induction bio as [|seg bio IH] using rev_ind; intros bm' Hs E k Hk.
  { injection E as <-. done. }
  apply Forall_app in Hs as [Hs Hseg]. rewrite Forall_singleton in Hseg. rewrite foldl_app in E. cbn in E.
  apply bind_Some in E as (bm1 & E1 & E). pose proof (IH bm1 Hs E1 k Hk) as H.
  unfold bdr_bitmap_set_sector in E. destruct (bitmap bm1) as [ws|] eqn:Ew; [|done].
  apply fmap_Some in E as (ws' & Eu & ->). assert (Hb : 0 <= Z.shiftr (bi_sector seg) BDR_BLOCK_SIZE_SHIFT)
    by (by apply Z.shiftr_nonneg).
  destruct (update_bit_spec _ _ _ _ Hb Eu) as (_ & Ht & Ho). unfold bit_at at 1. cbn.
  destruct (decide (k = Z.shiftr (bi_sector seg) BDR_BLOCK_SIZE_SHIFT)) as [->|Hne].
  - rewrite Ht, bool_decide_eq_true_2; [done|]. rewrite fmap_app, elem_of_app. right. cbn. by left.
  - rewrite Ho by done. unfold bit_at in H at 1. rewrite Ew in H. cbn in H. rewrite H, fmap_app.
    do 2 case_bool_decide; [done| | |done]; exfalso.
    + by rewrite elem_of_app in *; intuition.
    + rewrite elem_of_app in *. cbn in *. rewrite list_elem_of_singleton in *. naive_solver.
Qed.

(** ** Minor numbers *)

Lemma first_zero_spec n nr ws :
  0 <= nr -> (forall k, nr <= k < nr + Z.of_nat n -> test_bit k ws <> None) ->
  exists m, first_zero n nr ws = Some m /\ nr <= m <= nr + Z.of_nat n /\
    (forall k, nr <= k < m -> test_bit k ws = Some true) /\
    (m < nr + Z.of_nat n -> test_bit m ws = Some false).
Proof.
  revert nr. induction n as [|n IH]; intros nr Hnr H.
  - exists nr. cbn. split_and!; [done|lia|lia|intros; lia|intros; lia].
  - cbn [first_zero]. destruct (test_bit nr ws) as [[|]|] eqn:E; [|exists nr; split_and!; [done|lia|lia|intros; lia|done]|].
    + destruct (IH (nr + 1)) as (m & E1 & Hm & H1 & H2); [lia|intros k Hk; apply H; lia|].
      exists m. split_and!; [done|lia|lia| |intros; apply H2; lia].
      intros k Hk. destruct (decide (k = nr)) as [->|]; [done|]. apply H1. lia.
    + exfalso. apply (H nr); [lia|done].
Qed.

(** A bit of the bitmap is set or cleared, and no other. *)
Lemma bitmap_update_spec b bit ws bm :
  wf_bitmap ws bm -> 0 <= bit < max_bits bm ->
  exists bm' ws', bdr_bitmap_update b bit bm = Some bm' /\ wf_bitmap ws' bm' /\ max_bits bm' = max_bits bm /\
    bit_at bm' bit = Some b /\ forall k, 0 <= k -> k <> bit -> bit_at bm' k = bit_at bm k.
Proof.
  intros W Hb. pose proof W as (Ew & Hl & Hpos). pose proof (bits_covered (max_bits bm) ltac:(lia)) as C.
  destruct (update_bit_in b bit ws) as [ws' Eu]; [apply (word_in_range ws bm bit W); lia|].
  destruct (update_bit_spec b bit ws ws' ltac:(lia) Eu) as (Hl' & Hs & Ho).
  exists (set_words ws' bm), ws'. unfold bdr_bitmap_update, bit_at. rewrite Ew, (proj2 (Z.leb_gt _ _)) by lia. rewrite Eu.
  split_and!; try done. unfold wf_bitmap. cbn. by rewrite Hl'.
Qed.

(** An allocation takes the lowest number that is free, if there is one, and
    marks it; a number that was freed can be taken again; all others keep their
    state. *)
Theorem allocate_lowest ws bm :
  wf_bitmap ws bm ->
  exists r bm', bdr_bitmap_allocate bm = Some (r, bm') /\
  match r with
  | inl e => e = ENOSPC /\ bm' = bm /\ forall k, 0 <= k < max_bits bm -> bit_at bm k = Some true
  | inr bit =>
      0 <= bit < max_bits bm /\ bit_at bm bit = Some false /\ bit_at bm' bit = Some true /\
      (forall k, 0 <= k < bit -> bit_at bm k = Some true) /\
      (forall k, 0 <= k -> k <> bit -> bit_at bm' k = bit_at bm k) /\
      exists bm2, bdr_bitmap_free bit bm' = Some bm2 /\ forall k, 0 <= k -> bit_at bm2 k = bit_at bm k
  end.
Proof.
  intros W. pose proof W as (Ew & Hl & Hpos). pose proof (bits_covered (max_bits bm) ltac:(lia)) as C.
  assert (Hin : forall k, 0 <= k < max_bits bm -> (word_of k < length ws)%nat)
    by (intros k Hk; apply (word_in_range ws bm k W); lia).
  destruct (first_zero_spec (Z.to_nat (max_bits bm)) 0 ws) as (m & E & Hm & Ht & Hf); [done| |].
  { intros k Hk. unfold test_bit. destruct (lookup_lt_is_Some_2 ws (word_of k)) as [w ->]; [|done]. apply Hin. lia. }
  unfold bdr_bitmap_allocate, find_first_zero_bit, bit_at. rewrite Ew, E. cbn.
  destruct (max_bits bm <=? m) eqn:El.
  { apply Z.leb_le in El. do 2 eexists. split; [done|]. split_and!; [done|done|]. intros k Hk. rewrite ?Ew. cbn. apply Ht. lia. }
  apply Z.leb_gt in El. destruct (update_bit_in true m ws) as [ws' Eu]; [apply Hin; lia|].
  unfold set_bit. rewrite Eu. cbn. do 2 eexists. split; [done|]. cbn.
  destruct (update_bit_spec true m ws ws' ltac:(lia) Eu) as (Hl' & Hs & Ho).
  split_and!; [lia|lia|apply Hf; lia|done|intros k Hk; apply Ht; lia|done|].
  destruct (update_bit_in false m ws') as [ws2 Eu2]; [rewrite Hl'; apply Hin; lia|].
  exists (set_words ws2 (set_words ws' bm)). split.
  { unfold bdr_bitmap_free, bdr_bitmap_update, set_words. cbn. rewrite (proj2 (Z.leb_gt _ _) El). by rewrite Eu2. }
  destruct (update_bit_spec false m ws' ws2 ltac:(lia) Eu2) as (_ & Hc & Ho2). cbn.
  intros k Hk. destruct (decide (k = m)) as [->|Hne]; [rewrite Hc; symmetry; apply Hf; lia|].
  by rewrite Ho2, Ho.
Qed.

Lemma allocate_spec ws bm :
  wf_bitmap ws bm ->
  exists r bm', bdr_bitmap_allocate bm = Some (r, bm') /\
  match r with
  | inl _ => bm' = bm
  | inr bit =>
      0 <= bit < max_bits bm /\ max_bits bm' = max_bits bm /\ (exists ws', wf_bitmap ws' bm') /\
      bit_at bm bit = Some false /\ bit_at bm' bit = Some true /\
      forall k, 0 <= k -> k <> bit -> bit_at bm' k = bit_at bm k
  end.
Proof.
  intros W. destruct (allocate_lowest ws bm W) as (r & bm' & E & H). exists r, bm'. split; [done|].
  destruct r as [e|bit]; [by destruct H as (_ & -> & _)|]. destruct H as (Hb & Hf & Hs & _ & Ho & _).
  destruct (bitmap_update_spec true bit ws bm W Hb) as (bm2 & ws' & E2 & W2 & M2 & _).
  assert (bm' = bm2) as ->; [|split; [exact Hb|]; split_and!; by try exists ws'].
  unfold bdr_bitmap_allocate in E. destruct W as (Ew & _). unfold bdr_bitmap_update in E2. rewrite Ew in E, E2.
  destruct (find_first_zero_bit _ _) as [b|]; [|done]. destruct (max_bits bm <=? b) eqn:Eb; [done|].
  unfold set_bit in E. destruct (update_bit true b ws) as [ws1|] eqn:Eu; [|done]. cbn in E. injection E as -> <-.
  rewrite Eb, Eu in E2. by injection E2 as <-.
Qed.

Lemma allocate_lowest_witness :
  exists bm bm', bdr_bitmap_init true 64 = inr bm /\ bdr_bitmap_allocate bm = Some (inr 0, bm').
Proof.
  destruct (bdr_bitmap_init true 64) as [e|bm] eqn:E; [discriminate E|].
  destruct (init_wf _ _ _ E) as (ws & W & _). exists bm.
  destruct (allocate_lowest ws bm W) as (r & bm' & Ea & _). exists bm'. split; [reflexivity|].
  rewrite Ea. injection E as <-. vm_compute in Ea. by injection Ea as <- <-.
Defined.
