(* ===== verification/Blocks.v ===== *)
(** * The block loop of both daemons

    [for offset := 0; offset < total; offset += step] enumerates the blocks of
    a disk: [HashDisk] on the server, [InitReplication] on the client. *)
From S2P Require Import Prelude GoInt GoMonad BlockDev.
From Stdlib Require Import Sorting.Sorted.
Open Scope Z_scope.

Fixpoint block_loop (fuel : nat) (offset total step : Z) : list Z :=
  match fuel with
  | O => []
  | S fuel => if offset <? total then offset :: block_loop fuel (u64 (offset + step)) total step else []
  end.

(** One turn per block and one more for the final test. *)
Definition block_offsets (total step : Z) : list Z :=
  block_loop (S (Z.to_nat (total / step))) 0 total step.

Section Offsets.
Context (total step : Z).
Context (Hstep : 0 < step) (Hw : 0 <= total) (Hmax : total + step <= 2 ^ 64).

(** The loop has ended by itself: more fuel changes nothing. *)
Lemma block_loop_spec fuel k :
  0 <= k -> (Z.to_nat (total / step) < fuel + Z.to_nat k)%nat ->
  forall o, o ∈ block_loop fuel (k * step) total step <->
    exists i, k <= i /\ o = i * step /\ o < total.
Proof using Hstep Hw Hmax.
  revert k. induction fuel as [|fuel IH]; intros k Hk Hf o; cbn [block_loop].
  - split; [by intros ?%not_elem_of_nil|]. intros (i & Hi & -> & Ho). exfalso.
    assert (i <= total / step) by (apply Z.div_le_lower_bound; lia).
    lia.
  - destruct (k * step <? total) eqn:E.
    + rewrite elem_of_cons. replace (u64 (k * step + step)) with ((k + 1) * step)
        by (rewrite u64_small by (unfold is_u64; nia); lia).
      rewrite IH by lia. split.
      * intros [->|(i & Hi & -> & Ho)]; [exists k; lia|exists i; lia].
      * intros (i & Hi & -> & Ho). destruct (decide (i = k)) as [->|]; [by left|].
        right. exists i. lia.
    + split; [by intros ?%not_elem_of_nil|]. intros (i & Hi & -> & Ho). nia.
Qed.

Lemma block_loop_sorted fuel k :
  0 <= k -> StronglySorted Z.lt (block_loop fuel (k * step) total step).
Proof using Hstep Hw Hmax.
  revert k. induction fuel as [|fuel IH]; intros k Hk; cbn [block_loop]; [constructor|].
  destruct (k * step <? total) eqn:E; [|constructor].
  replace (u64 (k * step + step)) with ((k + 1) * step)
    by (rewrite u64_small by (unfold is_u64; nia); lia).
  constructor; [apply IH; lia|]. apply Forall_forall. intros o Ho.
  assert (B : forall f k' o, k + 1 <= k' -> o ∈ block_loop f (k' * step) total step -> k * step < o).
  { clear -Hstep Hw Hmax Hk. induction f as [|f IHf]; intros k' o Hk' Ho; cbn [block_loop] in Ho;
      [by apply not_elem_of_nil in Ho|].
    destruct (k' * step <? total) eqn:E'; [|by apply not_elem_of_nil in Ho].
    apply elem_of_cons in Ho as [->|Ho]; [nia|].
    replace (u64 (k' * step + step)) with ((k' + 1) * step) in Ho
      by (rewrite u64_small by (unfold is_u64; nia); lia).
    apply (IHf (k' + 1)); [lia|done]. }
  by apply (B fuel (k + 1)).
Qed.

Lemma block_offsets_elem o :
  o ∈ block_offsets total step <-> exists i, 0 <= i /\ o = i * step /\ o < total.
Proof using Hstep Hw Hmax. apply (block_loop_spec _ 0); lia. Qed.

Lemma block_offsets_sorted : StronglySorted Z.lt (block_offsets total step).
Proof using Hstep Hw Hmax. apply (block_loop_sorted _ 0). lia. Qed.

(** Every byte of the disk is in exactly one block. *)
Lemma block_offsets_cover p :
  0 <= p < total -> exists! o, o ∈ block_offsets total step /\ o <= p < o + step.
Proof using Hstep Hw Hmax.
  intros Hp. exists (p / step * step).
  pose proof (Z.div_mod p step ltac:(lia)). pose proof (Z.mod_pos_bound p step Hstep).
  split.
  - split; [|lia]. apply block_offsets_elem. exists (p / step).
    split; [apply Z.div_pos; lia|]. lia.
  - intros o [(i & Hi & -> & Ho)%block_offsets_elem Hb]. f_equal. nia.
Qed.
End Offsets.

Lemma block_offsets_nodup total step :
  0 < step -> 0 <= total -> total + step <= 2 ^ 64 -> NoDup (block_offsets total step).
Proof.
  intros H1 H2 H3. pose proof (block_offsets_sorted total step H1 H2 H3) as S.
  induction S as [|o l Hs IH Hf]; constructor; [|done].
  intros Hin. rewrite Forall_forall in Hf. specialize (Hf o Hin). lia.
Qed.
