(* ===== verification/Image.v ===== *)
(** * Copying an image by writes

    Writes whose data come from an image, or from several versions of it, and
    what they leave on another image of the same size.  Order and repetition do
    not matter: it is a statement per byte. *)
From S2P Require Import Prelude GoInt GoMonad BlockDev.

(** At [p] the write, if it covers [p], has the byte [v]. *)
Definition writes_at (v : option byte) (p : nat) (w : write) : Prop :=
  covers w p -> w.2 !! (p - w.1)%nat = v.

Lemma apply_writes_point ws c p v :
  Forall (fits (length c)) ws -> Forall (writes_at v p) ws ->
  (covered ws p -> apply_writes ws c !! p = v) /\
  (~ covered ws p -> apply_writes ws c !! p = c !! p).
Proof.
  intros Hf Hv. split; [|by apply apply_writes_out].
  revert c Hf. induction ws as [|w ws IH]; intros c Hf Hc; [by apply Exists_nil in Hc|].
  apply Forall_cons in Hf as [Hw Hf]. apply Forall_cons in Hv as [Hwv Hv]. cbn.
  assert (Hf' : Forall (fits (length (apply_write c w))) ws) by (by rewrite length_apply_write).
  destruct (decide (covered ws p)) as [Hr|Hr]; [by apply IH|].
  change (apply_writes ws (apply_write c w) !! p = v). rewrite apply_writes_out by done.
  apply Exists_cons in Hc as [Hc|Hc]; [|done]. rewrite apply_write_in by done. by apply Hwv.
Qed.

(** The write of a part of an image. *)
Definition part (img : list byte) (o n : nat) : write := (o, sub o n img).

Lemma part_fits img o n : fits (length img) (part img o n) \/ (length img < o)%nat.
Proof.
  unfold fits, part, sub; cbn. rewrite length_take, length_drop. lia.
Qed.

Lemma part_at img o n p : writes_at (img !! p) p (part img o n).
Proof.
  intros [H1 H2]. unfold part, sub in *; cbn in *. rewrite length_take, length_drop in H2.
  rewrite lookup_take_lt, lookup_drop by lia. f_equal. lia.
Qed.

Lemma part_covers img o n p :
  (o <= p < o + n)%nat -> (p < length img)%nat -> covers (part img o n) p.
Proof. intros H1 H2. unfold covers, part, sub; cbn. rewrite length_take, length_drop. lia. Qed.

(** Writing parts that cover an image, in any order, copies it. *)
Lemma copy_parts img c (os : list (nat * nat)) :
  length c = length img ->
  (forall p, (p < length img)%nat -> exists o n, (o, n) ∈ os /\ (o <= p < o + n)%nat) ->
  (forall o n, (o, n) ∈ os -> (o <= length img)%nat) ->
  apply_writes ((fun on => part img on.1 on.2) <$> os) c = img.
Proof.
  intros Hl Hc Ho.
  assert (Hf : Forall (fits (length c)) ((fun on => part img on.1 on.2) <$> os)).
  { apply Forall_fmap, Forall_forall. intros [o n] Hin. rewrite Hl. cbn.
    specialize (Ho o n Hin). destruct (part_fits img o n); [done|lia]. }
  apply list_eq. intros p. destruct (decide (p < length img)%nat) as [Hp|Hp].
  - apply (apply_writes_point _ c p (img !! p) Hf).
    + apply Forall_fmap, Forall_forall. intros [o n] _. apply part_at.
    + destruct (Hc p Hp) as (o & n & Hin & Hr). apply Exists_exists.
      exists (part img o n). split; [by apply (list_elem_of_fmap_2 (fun on => part img on.1 on.2) os (o, n))|].
      by apply part_covers.
  - rewrite !lookup_ge_None_2; [done|lia|]. rewrite length_apply_writes by done. lia.
Qed.

(** ** A scan of an image that changes while it is read

    [W] are the writes to the source since the scan began, [src t] the source
    after the first [t] of them. *)
Definition src (S0 : list byte) (W : list write) (t : nat) : list byte := apply_writes (take t W) S0.

(** A block the scan has looked at: where, how long, and when it was read. *)
Record look := mkLook { l_off : nat; l_len : nat; l_time : nat }.

Definition seen (S0 : list byte) (W : list write) (l : look) : list byte :=
  sub (l_off l) (l_len l) (src S0 W (l_time l)).

(** Corrections [cs] made for [looks] against the replica [R]: each is what was
    seen at one of the looks, and every look without a correction saw what the
    replica has. *)
Record corrects (S0 : list byte) (W : list write) (R : list byte) (looks : list look)
  (cs : list write) : Prop := {
  co_from : forall w, w ∈ cs -> exists l, l ∈ looks /\ w = (l_off l, seen S0 W l);
  co_rest : forall l, l ∈ looks -> (l_off l, seen S0 W l) ∈ cs \/ sub (l_off l) (l_len l) R = seen S0 W l;
}.

Lemma src_length S0 W t : Forall (fits (length S0)) W -> length (src S0 W t) = length S0.
Proof. intros H. apply length_apply_writes. by apply Forall_take. Qed.

Lemma src_untouched S0 W t p :
  Forall (fits (length S0)) W -> ~ covered W p -> src S0 W t !! p = S0 !! p.
Proof.
  intros H Hp. apply apply_writes_out; [by apply Forall_take|].
  intros Hc. apply Hp. unfold covered in *. rewrite <- (take_drop t W). apply Exists_app. by left.
Qed.

(** Applying the corrections and then all the writes gives the source as it is
    at the end, whatever it was when each block was read. *)
Lemma fuzzy_scan S0 W R looks cs :
  length R = length S0 -> Forall (fits (length S0)) W ->
  (forall p, (p < length S0)%nat -> exists l, l ∈ looks /\ (l_off l <= p < l_off l + l_len l)%nat) ->
  (forall l, l ∈ looks -> (l_off l <= length S0)%nat) ->
  corrects S0 W R looks cs ->
  apply_writes (cs ++ W) R = apply_writes W S0.
Proof.
  intros Hl HW Hcov Hoff [Cf Cr].
  assert (Hcs : Forall (fits (length R)) cs).
  { apply Forall_forall. intros w (l & Hin & ->)%Cf. rewrite Hl, <- (src_length S0 W (l_time l) HW).
    destruct (part_fits (src S0 W (l_time l)) (l_off l) (l_len l)) as [|Hlt]; [done|].
    rewrite src_length in Hlt by done. specialize (Hoff l Hin). lia. }
  rewrite apply_writes_app. set (X := apply_writes cs R).
  assert (HX : length X = length S0) by (unfold X; by rewrite length_apply_writes).
  apply list_eq. intros p. apply apply_writes_agree; [done|by rewrite HX|]. intros Hp.
  destruct (decide (p < length S0)%nat) as [Hlt|Hge].
  2:{ rewrite !lookup_ge_None_2; [done|lia|lia]. }
  destruct (apply_writes_point cs R p (S0 !! p) Hcs) as [H1 H2].
  { apply Forall_forall. intros w (l & Hin & ->)%Cf. rewrite <- (src_untouched S0 W (l_time l) p HW Hp).
    apply part_at. }
  destruct (decide (covered cs p)) as [Hc|Hc]; [by apply H1|].
  unfold X. rewrite H2 by done. destruct (Hcov p Hlt) as (l & Hin & Hr).
  destruct (Cr l Hin) as [Hw|He].
  - exfalso. apply Hc, Exists_exists. exists (l_off l, seen S0 W l). split; [done|].
    apply part_covers; [done|]. by rewrite src_length.
  - rewrite <- (src_untouched S0 W (l_time l) p HW Hp).
    assert (E : sub (l_off l) (l_len l) R !! (p - l_off l)%nat = seen S0 W l !! (p - l_off l)%nat) by (by rewrite He).
    unfold seen, sub in E. rewrite !lookup_take_lt, !lookup_drop in E by lia.
    by replace (l_off l + (p - l_off l))%nat with p in E by lia.
Qed.
