(* ===== verification/GoChan.v ===== *)
(** * Go channels

    A buffered channel is its buffer, its capacity and whether it is closed.
    Each operation either completes, blocks, or panics: a send on a closed
    channel and a second [close] panic; a receive from a closed channel
    delivers what is still buffered first. *)
From S2P Require Import Prelude.

Record chan (A : Type) := mkChan {
  cbuf : list A;
  ccap : nat;
  cclosed : bool;
}.
Arguments mkChan {A} cbuf ccap cclosed.
Arguments cbuf {A} c.
Arguments ccap {A} c.
Arguments cclosed {A} c.

(** What an attempt at a channel operation gives. *)
Inductive attempt (A : Type) :=
| Done (a : A)
| Blocked
| Crash.
Arguments Done {A} a.
Arguments Blocked {A}.
Arguments Crash {A}.

Definition make_chan {A} (n : nat) : chan A := mkChan [] n false.

Definition abind {A B} (m : attempt A) (k : A -> attempt B) : attempt B :=
  match m with Done a => k a | Blocked => Blocked | Crash => Crash end.

(** [close(c)]. *)
Definition chan_close {A} (c : chan A) : attempt (chan A) :=
  if cclosed c then Crash else Done (mkChan (cbuf c) (ccap c) true).

(** [c <- v]. *)
Definition chan_send {A} (v : A) (c : chan A) : attempt (chan A) :=
  if cclosed c then Crash
  else if (length (cbuf c) <? ccap c)%nat then Done (mkChan (cbuf c ++ [v]) (ccap c) false)
  else Blocked.

(** [v, ok := <-c]: [None] when the channel is closed and empty. *)
Definition chan_recv {A} (c : chan A) : attempt (option A * chan A) :=
  match cbuf c with
  | v :: vs => Done (Some v, mkChan vs (ccap c) (cclosed c))
  | [] => if cclosed c then Done (None, c) else Blocked
  end.

(** A [select] with a receive and a [default] takes the [default] exactly when
    the receive would block. *)
Definition ChanHasTerminated {A} (termChan : chan A) : bool :=
  match chan_recv termChan with Done _ => true | _ => false end.

(** [DrainChannel]: the number of buffered values; each turn of its loop
    removes one, so [length (cbuf ch)] turns are enough. *)
Fixpoint drain {A} (fuel : nat) (count : nat) (ch : chan A) : nat * chan A :=
  match fuel with
  | O => (count, ch)
  | S fuel =>
      match chan_recv ch with
      | Done (Some _, ch) => drain fuel (S count) ch
      | _ => (count, ch)
      end
  end.
Definition DrainChannel {A} (ch : chan A) : nat * chan A := drain (S (length (cbuf ch))) 0 ch.

(** ** Laws *)

Definition open {A} (c : chan A) : Prop := cclosed c = false.

Lemma close_open {A} (c : chan A) :
  open c -> chan_close c = Done (mkChan (cbuf c) (ccap c) true).
Proof. intros H. unfold chan_close. by rewrite H. Qed.

Lemma send_cases {A} (v : A) c :
  open c ->
  (chan_send v c = Blocked /\ (ccap c <= length (cbuf c))%nat) \/
  (chan_send v c = Done (mkChan (cbuf c ++ [v]) (ccap c) false) /\ (length (cbuf c) < ccap c)%nat).
Proof.
  intros H. unfold chan_send. rewrite H. destruct (_ <? _)%nat eqn:E.
  - right. split; [done|]. by apply Nat.ltb_lt.
  - left. split; [done|]. by apply Nat.ltb_ge.
Qed.

Lemma abind_Done {A B} (m : attempt A) (k : A -> attempt B) b :
  abind m k = Done b -> exists a, m = Done a /\ k a = Done b.
Proof. destruct m; simpl; naive_solver. Qed.

Lemma recv_Done {A} (c : chan A) o c' :
  chan_recv c = Done (o, c') ->
  ccap c' = ccap c /\ cclosed c' = cclosed c /\
  match o with
  | Some v => cbuf c = v :: cbuf c'
  | None => cbuf c = [] /\ cclosed c = true /\ c' = c
  end.
Proof.
  unfold chan_recv. destruct (cbuf c) as [|v vs] eqn:E.
  - destruct (cclosed c) eqn:Ec; [|done]. intros [= <- <-]. done.
  - by intros [= <- <-].
Qed.

(** No operation changes the capacity. *)
Lemma recv_cap {A} (c : chan A) o c' : chan_recv c = Done (o, c') -> ccap c' = ccap c.
Proof. by intros (? & _)%recv_Done. Qed.

Lemma close_cap {A} (c c' : chan A) : chan_close c = Done c' -> ccap c' = ccap c.
Proof. unfold chan_close. destruct (cclosed c); [done|]. by intros [= <-]. Qed.

Lemma send_cap {A} (v : A) (c c' : chan A) : chan_send v c = Done c' -> ccap c' = ccap c.
Proof. unfold chan_send. destruct (cclosed c); [done|]. destruct (_ <? _)%nat; [|done]. by intros [= <-]. Qed.

Lemma full_recv {A} (c : chan A) : cbuf c <> [] -> exists v vs, chan_recv c = Done (Some v, vs).
Proof. unfold chan_recv. destruct (cbuf c); [done|]. eauto. Qed.

Lemma terminated_iff {A} (c : chan A) : ChanHasTerminated c = true <-> cclosed c = true \/ cbuf c <> [].
Proof.
  unfold ChanHasTerminated, chan_recv.
  destruct (cbuf c), (cclosed c); (split; [(intros; done) || auto|intros [?|?]; done]).
Qed.

(** The fuel of [DrainChannel] is enough: the channel is left empty, and the
    count is the number of values that were buffered. *)
Lemma drain_all {A} n k (vs : list A) cap cl :
  (length vs < n)%nat -> drain n k (mkChan vs cap cl) = (k + length vs, mkChan [] cap cl)%nat.
Proof.
  revert n k. induction vs as [|v vs IH]; intros [|n] k Hn; simpl in Hn; try lia.
  - simpl. rewrite Nat.add_0_r. by destruct cl.
  - simpl. unfold chan_recv. cbn [cbuf ccap cclosed]. rewrite IH by lia. simpl. f_equal. lia.
Qed.

Lemma DrainChannel_eq {A} (c : chan A) :
  DrainChannel c = (length (cbuf c), mkChan [] (ccap c) (cclosed c)).
Proof. destruct c as [vs cap cl]. unfold DrainChannel. rewrite drain_all; [done|]. simpl. lia. Qed.
