(* ===== verification/Networking.v ===== *)
(** * Package [networking]: the packets both daemons exchange

    [WriteInfo], [CorrectBlockInfo] and [ReplicationBlockInfo] have the same
    three fields; they are one record type here, and the payload constructors
    keep them apart as their Go types do.  The gob transport delivers a payload
    as the registered value type (a pointer is flattened), so a decoded packet is
    the packet that was sent. *)
From S2P Require Import Prelude GoInt.
Open Scope Z_scope.

Definition HashedBlockSize : Z := 1.
Definition HashedSpaceBase : Z := 1024 * 256 * HashedBlockSize.
Definition HashSizeSha256 : Z := 32.
Definition RepairBlockSize : Z := 1048576.
Definition WriteInfoSize : Z := 4108.

(** Offset, size and hashed space. *)
Definition CorrectBlockByteSize : Z := 8 + 4 + HashedSpaceBase.

(** ** Packet types, in the order of the [iota] block *)
Definition PacketTypeCmdStartHashing : Z := 0.
Definition PacketTypeCmdStartFullScan : Z := 1.
Definition PacketTypeCmdStartFullReplication : Z := 2.
Definition PacketTypeInfoHashingCompleted : Z := 3.
Definition PacketTypeInfoStartHashing : Z := 4.
Definition PacketTypeInfoInit : Z := 5.
Definition PacketTypeInfoReplicationCompleted : Z := 6.
Definition PacketTypeInfoStartReplication : Z := 7.
Definition PacketTypeErrInit : Z := 8.
Definition PacketTypeErrInvalidSizes : Z := 9.
Definition PacketTypeErrHash : Z := 10.
Definition PacketTypeErrJournalCreate : Z := 11.
Definition PacketTypeErrJournalOverflow : Z := 12.
Definition PacketTypePayloadBufferWrite : Z := 13.
Definition PacketTypePayloadHash : Z := 14.
Definition PacketTypePayloadCorrectBlock : Z := 15.
Definition PacketTypePayloadReplicationBlock : Z := 16.

(** ** Payloads *)

Record BlockInfo := mkBlock {
  Offset : Z;          (* uint64, bytes *)
  Size : Z;            (* uint32 *)
  Data : list byte;
}.

Definition ReplicationBlockInfo : Type := BlockInfo.
Definition CorrectBlockInfo : Type := BlockInfo.
Definition WriteInfo : Type := BlockInfo.

(** [WriteInfo.IsValid] and [CorrectBlockInfo.IsValid]. *)
Definition IsValid (b : BlockInfo) : bool := negb (Size b =? 0).

Record HashInfo := mkHash {
  hOffset : Z;
  hSize : Z;
  hHash : Z;
}.

Record InitInfo := mkInit {
  DeviceSize : Z;
  iWriteInfoSize : Z;
  BufferByteSize : Z;
}.

Inductive payload :=
| PNil
| PWriteInfo (w : WriteInfo)
| PHashInfo (h : HashInfo)
| PInitInfo (i : InitInfo)
| PCorrectBlockInfo (c : CorrectBlockInfo)
| PReplicationBlockInfo (r : ReplicationBlockInfo).

Record Packet := mkPacket {
  PacketType : Z;
  Payload : payload;
}.

(** [CreateInfoPacket] of both daemons. *)
Definition CreateInfoPacket (packetType : Z) : Packet :=
  {| PacketType := packetType; Payload := PNil |}.

(** ** Well-formed blocks: what both daemons build and the journal can hold *)

(** Machine widths, and as many bytes of data as the size says. *)
Definition wf_block (b : BlockInfo) : Prop :=
  is_u64 (Offset b) /\ is_u32 (Size b) /\ Z.of_nat (length (Data b)) = Size b.

#[global] Instance wf_block_dec b : Decision (wf_block b).
Proof. unfold wf_block. apply _. Defined.

(** What a receiver uses of a block: [Data[:Size]].  The client always sends a
    page of data with a buffer write, however short the write is. *)
Definition trim (b : BlockInfo) : BlockInfo :=
  {| Offset := Offset b; Size := Size b; Data := take (Z.to_nat (Size b)) (Data b) |}.

Definition sendable (b : BlockInfo) : Prop :=
  is_u64 (Offset b) /\ is_u32 (Size b) /\ Size b <= Z.of_nat (length (Data b)) < 2 ^ 32.

#[global] Instance sendable_dec b : Decision (sendable b).
Proof. unfold sendable. apply _. Defined.

Lemma trim_wf b : sendable b -> wf_block (trim b).
Proof.
  intros (Ho & Hs & Hd). split_and!; [done|done|]. unfold trim, is_u32 in *; cbn [Data Size].
  rewrite length_take. lia.
Qed.

Lemma trim_id b : wf_block b -> trim b = b.
Proof. intros (_ & _ & Hd). unfold trim. rewrite take_ge by lia. by destruct b. Qed.
