(* ===== verification/Journal.v ===== *)
(** * Package [journal]: the on-disk journal of the server

    Layout of the journal device: a 64-byte header, a section of buffer writes
    and a section of correct blocks, each an array of fixed-size slots.  A slot
    holds a block as offset (8 bytes), size (4 bytes), data; a slot with size 0 is
    free.  [Journal.WriteOffset]/[CorrectOffset] count the used slots.

    The operations on the two sections are textual copies of each other in the
    Go code; here each is written once over a [section] and named for both. *)
From S2P Require Import Prelude GoInt GoMonad BlockDev Networking.
Open Scope Z_scope.

Definition BdrMagic : Z := 0x4244525F52504C43.
Definition JournalValidFlag : Z := Z.shiftl 1 0.

Definition ErrInvalidMagic : error := ErrMsg "invalid magic bytes in journal header".
Definition ErrInvalidSize : error := ErrMsg "invalid section size".
Definition ErrIOFailure : error := ErrMsg "I/O operation failed".

Record Header := mkHeader {
  magic : Z;
  bufWriteByteSize : Z;
  bufWritesCount : Z;
  bufWritesStartOffset : Z;
  corrBlockByteSize : Z;
  corrBlocksCount : Z;
  corrBlocksStartOffset : Z;
  flags : Z;
}.

#[global] Instance Header_eq_dec : EqDecision Header.
Proof. solve_decision. Defined.

(** The [disk] field is the device of the state below. *)
Record Journal := mkJournal {
  diskSize : Z;
  WriteOffset : Z;
  CorrectOffset : Z;
  header : Header;
}.

(** State of the methods of [*Journal]: the device behind [j.disk] and the struct. *)
Record JState := mkJState {
  jdev : Dev;
  jrn : Journal;
}.

Definition set_jdev (d : Dev) (s : JState) : JState := {| jdev := d; jrn := jrn s |}.
Definition set_header (h : Header) (j : Journal) : Journal :=
  {| diskSize := diskSize j; WriteOffset := WriteOffset j;
     CorrectOffset := CorrectOffset j; header := h |}.
Definition set_offsets (w c : Z) (j : Journal) : Journal :=
  {| diskSize := diskSize j; WriteOffset := w; CorrectOffset := c; header := header j |}.
Definition set_jrn (f : Journal -> Journal) (s : JState) : JState :=
  {| jdev := jdev s; jrn := f (jrn s) |}.
Definition set_flags (f : Z) (h : Header) : Header :=
  {| magic := magic h;
     bufWriteByteSize := bufWriteByteSize h;
     bufWritesCount := bufWritesCount h;
     bufWritesStartOffset := bufWritesStartOffset h;
     corrBlockByteSize := corrBlockByteSize h;
     corrBlocksCount := corrBlocksCount h;
     corrBlocksStartOffset := corrBlocksStartOffset h;
     flags := f |}.

(** A call on [j.disk]. *)
Definition on_dev {A} (m : M Dev A) : M JState A := zoom jdev set_jdev m.

(** ** Header *)

Definition GetBufWriteSectionByteSize (h : Header) : Z :=
  u64 (bufWriteByteSize h * bufWritesCount h).
Definition GetCorrBlockSectionByteSize (h : Header) : Z :=
  u64 (corrBlockByteSize h * corrBlocksCount h).

Definition setValidFlag (h : Header) : Header :=
  set_flags (Z.lor (flags h) JournalValidFlag) h.

(** [^uint64(JournalValidFlag)] is the 64-bit complement. *)
Definition setInvalidFlag (h : Header) : Header :=
  set_flags (Z.land (flags h) (2 ^ 64 - 1 - JournalValidFlag)) h.

Definition Header_IsValid (h : Header) : bool :=
  negb (Z.land (flags h) JournalValidFlag =? 0).
Definition Journal_IsValid (j : Journal) : bool := Header_IsValid (header j).

(** [disk] is never nil once a journal exists. *)
Definition Close : M JState unit := on_dev sys_unit.

(** Both headers are non-nil in every call of the program. *)
Definition Equals (j journal : Journal) : bool :=
  (magic (header j) =? magic (header journal)) &&
  (bufWriteByteSize (header j) =? bufWriteByteSize (header journal)) &&
  (bufWritesCount (header j) =? bufWritesCount (header journal)) &&
  (bufWritesStartOffset (header j) =? bufWritesStartOffset (header journal)) &&
  (corrBlockByteSize (header j) =? corrBlockByteSize (header journal)) &&
  (corrBlocksCount (header j) =? corrBlocksCount (header journal)) &&
  (corrBlocksStartOffset (header j) =? corrBlocksStartOffset (header journal)).

(** [unsafe.Sizeof(Header{})]: eight [uint64]s. *)
Definition GetHeaderByteSize : Z := 64.

Definition VerifyMagic (m : Z) : bool := u64 BdrMagic =? m.

(** The [headerBytes] buffer of [WriteHeader]. *)
Definition header_bytes (h : Header) : list byte :=
  be_put 8 (magic h) ++
  be_put 8 (bufWriteByteSize h) ++ be_put 8 (bufWritesCount h) ++
  be_put 8 (bufWritesStartOffset h) ++
  be_put 8 (corrBlockByteSize h) ++ be_put 8 (corrBlocksCount h) ++
  be_put 8 (corrBlocksStartOffset h) ++
  be_put 8 (flags h).

Definition WriteHeader : M JState unit :=
  h <- gets (fun s => header (jrn s)) ;;
  map_err (fun _ => ErrIOFailure) (on_dev (WriteAt (header_bytes h) 0)) ;;;
  map_err (fun _ => ErrIOFailure) (on_dev Sync).

Definition decode_header (b : list byte) : Header :=
  {| magic := be_get (sub 0 8 b);
     bufWriteByteSize := be_get (sub 8 8 b);
     bufWritesCount := be_get (sub 16 8 b);
     bufWritesStartOffset := be_get (sub 24 8 b);
     corrBlockByteSize := be_get (sub 32 8 b);
     corrBlocksCount := be_get (sub 40 8 b);
     corrBlocksStartOffset := be_get (sub 48 8 b);
     flags := be_get (sub 56 8 b) |}.

Definition ReadHeader : M Dev Header :=
  r <- ReadAt (Z.to_nat GetHeaderByteSize) 0 ;;
  match r with
  | (_, Some _) => throw ErrIOFailure
  | (headerBytes, None) => ret (decode_header headerBytes)
  end.

Definition Invalidate : M JState unit :=
  modify (set_jrn (fun j => set_header (setInvalidFlag (header j)) j)) ;;; WriteHeader.

Definition Validate : M JState unit :=
  modify (set_jrn (fun j => set_header (setValidFlag (header j)) j)) ;;; WriteHeader.

(** ** Slots *)

(** [b[lo:hi]] of a slice with [cap = len]; [None] is the run-time panic. *)
Definition slice (b : list byte) (lo hi : Z) : option (list byte) :=
  if (0 <=? lo) && (lo <=? hi) && (hi <=? Z.of_nat (length b))
  then Some (sub (Z.to_nat lo) (Z.to_nat (hi - lo)) b) else None.

(** [copy(b[lo:hi], src)] (and [PutUintN(b[lo:hi], v)] for an [src] of the
    slice's length). *)
Definition copy_into (b : list byte) (lo hi : Z) (src : list byte) : option (list byte) :=
  if (0 <=? lo) && (lo <=? hi) && (hi <=? Z.of_nat (length b))
  then Some (splice (Z.to_nat lo) (take (Z.to_nat (hi - lo)) src) b) else None.

(** [serializeWriteInfo], [serializeCorrectBlockInfo]. *)
Definition serialize (info : BlockInfo) (buffer : list byte) : option (list byte) :=
  b1 ← copy_into buffer 0 8 (be_put 8 (Offset info));
  b2 ← copy_into b1 8 12 (be_put 4 (Size info));
  if (0 <? Size info) && (0 <? Z.of_nat (length (Data info))) then
    let dataSize := u32 (Z.of_nat (length (Data info))) in
    let dataSize := if Size info <? dataSize then Size info else dataSize in
    d ← slice (Data info) 0 dataSize;
    copy_into b2 12 (u32 (12 + dataSize)) d
  else Some b2.

Definition serializeCorrectBlockInfo (info : CorrectBlockInfo) (buffer : list byte)
  : option (list byte) := serialize info buffer.
Definition serializeWriteInfo (info : WriteInfo) (buffer : list byte)
  : option (list byte) := serialize info buffer.

(** [deserializeWriteInfo], [deserializeCorrectBlockInfo]. *)
Definition deserialize (buffer : list byte) : option BlockInfo :=
  o ← slice buffer 0 8;
  z ← slice buffer 8 12;
  let size := be_get z in
  if 0 <? size then
    d ← slice buffer 12 (u32 (12 + size));
    data ← copy_into (replicate (Z.to_nat size) Byte.x00) 0 size d;
    Some {| Offset := be_get o; Size := size; Data := data |}
  else Some {| Offset := be_get o; Size := size; Data := [] |}.

Definition deserializeCorrectBlockInfo (buffer : list byte) : option CorrectBlockInfo :=
  deserialize buffer.
Definition deserializeWriteInfo (buffer : list byte) : option WriteInfo :=
  deserialize buffer.

(** ** Creation *)

Definition NewJournal (sectionBufWritesSize bufWriteByteSize corrBlockByteSize : Z)
  : M Dev Journal :=
  OpenFile ;;;
  diskSize <- GetDeviceSize ;;
  let headerSize := GetHeaderByteSize in
  if (u64 (diskSize - headerSize) <? sectionBufWritesSize) || (sectionBufWritesSize =? 0)
  then throw ErrInvalidSize
  else if (corrBlockByteSize =? 0) || (bufWriteByteSize =? 0)
  then throw ErrInvalidSize
  else
    let sectionCorBlocksSize := u64 (u64 (diskSize - headerSize) - sectionBufWritesSize) in
    ret {| diskSize := diskSize;
           WriteOffset := sectionBufWritesSize / bufWriteByteSize;
           CorrectOffset := sectionCorBlocksSize / corrBlockByteSize;
           header :=
             {| magic := BdrMagic;
                bufWriteByteSize := bufWriteByteSize;
                bufWritesCount := sectionBufWritesSize / bufWriteByteSize;
                bufWritesStartOffset := headerSize;
                corrBlockByteSize := corrBlockByteSize;
                corrBlocksCount := sectionCorBlocksSize / corrBlockByteSize;
                corrBlocksStartOffset := u64 (headerSize + sectionBufWritesSize);
                flags := 0 |} |}.

(** ** Sections *)

Inductive section := BufWrites | CorrBlocks.

Definition slotSize (h : Header) (x : section) : Z :=
  match x with BufWrites => bufWriteByteSize h | CorrBlocks => corrBlockByteSize h end.
Definition slotCount (h : Header) (x : section) : Z :=
  match x with BufWrites => bufWritesCount h | CorrBlocks => corrBlocksCount h end.
Definition sectionStart (h : Header) (x : section) : Z :=
  match x with BufWrites => bufWritesStartOffset h | CorrBlocks => corrBlocksStartOffset h end.

(** [start + index*size], the byte offset of a slot. *)
Definition slotOffset (h : Header) (x : section) (i : Z) : Z :=
  u64 (sectionStart h x + u64 (i * slotSize h x)).

Definition GetInvalidBlock : BlockInfo := {| Offset := 0; Size := 0; Data := [] |}.
Definition GetInvalidCorrectBlock : CorrectBlockInfo := GetInvalidBlock.
Definition GetInvalidWrite : WriteInfo := GetInvalidBlock.

Definition zeros (n : Z) : list byte := replicate (Z.to_nat n) Byte.x00.

Definition WriteSlot (x : section) (index : Z) (block : BlockInfo) : M JState unit :=
  h <- gets (fun s => header (jrn s)) ;;
  if slotCount h x <=? index then throw ErrInvalidSize
  else
    data <- lift_opt (serialize block (zeros (slotSize h x))) ;;
    map_err (fun _ => ErrIOFailure) (on_dev (WriteAt data (i64 (slotOffset h x index)))) ;;;
    on_dev Sync.

Definition ReadSlot (x : section) (index : Z) : M JState BlockInfo :=
  h <- gets (fun s => header (jrn s)) ;;
  if slotCount h x <=? index then throw ErrInvalidSize
  else
    r <- on_dev (ReadAt (Z.to_nat (slotSize h x)) (i64 (slotOffset h x index))) ;;
    match r with
    | (_, Some _) => throw ErrIOFailure
    | (data, None) => lift_opt (deserialize data)
    end.

(** Overwrite the first [n] slots with the invalid block. *)
Definition clear_slots (x : section) (n : Z) : M JState unit :=
  h <- gets (fun s => header (jrn s)) ;;
  data <- lift_opt (serialize GetInvalidBlock (zeros (slotSize h x))) ;;
  for_range (Z.to_nat n) 0 (fun i =>
    map_err (fun _ => ErrIOFailure) (on_dev (WriteAt data (i64 (slotOffset h x i))))).

Definition ClearSectionTo (x : section) (off : Z) : M JState unit :=
  h <- gets (fun s => header (jrn s)) ;;
  if slotCount h x <? off then throw ErrInvalidSize else clear_slots x off.

Definition ClearSection (x : section) : M JState unit :=
  h <- gets (fun s => header (jrn s)) ;; clear_slots x (slotCount h x).

Definition WriteCorrectBlock : Z -> CorrectBlockInfo -> M JState unit := WriteSlot CorrBlocks.
Definition ReadCorrectBlock : Z -> M JState CorrectBlockInfo := ReadSlot CorrBlocks.
Definition WriteBufferWrite : Z -> WriteInfo -> M JState unit := WriteSlot BufWrites.
Definition ReadBufferWrite : Z -> M JState WriteInfo := ReadSlot BufWrites.
Definition ClearCorrectBlockSectionTo : Z -> M JState unit := ClearSectionTo CorrBlocks.
Definition ClearWriteSectionTo : Z -> M JState unit := ClearSectionTo BufWrites.
Definition ClearCorrectBlockSection : M JState unit := ClearSection CorrBlocks.
Definition ClearWriteSection : M JState unit := ClearSection BufWrites.

Definition ResetTo (bufferWriteOff correctBlockOff : Z) : M JState unit :=
  Invalidate ;;;
  ClearWriteSectionTo bufferWriteOff ;;;
  ClearCorrectBlockSectionTo correctBlockOff ;;;
  modify (set_jrn (set_offsets 0 0)).

Definition Reset : M JState unit :=
  Invalidate ;;;
  ClearWriteSection ;;;
  ClearCorrectBlockSection ;;;
  modify (set_jrn (set_offsets 0 0)).

Definition InitWithoutClearing : M JState unit := Invalidate.

Definition Init : M JState unit :=
  ClearWriteSection ;;; ClearCorrectBlockSection ;;; Invalidate.

(** ** Opening an existing journal *)

Definition ErrNoSlots (x : section) : error :=
  match x with
  | BufWrites => ErrMsg "no available buffer write slots"
  | CorrBlocks => ErrMsg "no available correct block slots"
  end.

(** The scan [for i := ...; i < count; i++], [n] slots left. *)
Fixpoint find_available (x : section) (n : nat) (i : Z) : M JState Z :=
  match n with
  | O => throw (ErrNoSlots x)
  | S n =>
      b <- ReadSlot x i ;;
      if negb (IsValid b) then ret i else find_available x n (i + 1)
  end.

Definition FindFirstAvailable (x : section) : M JState Z :=
  h <- gets (fun s => header (jrn s)) ;;
  find_available x (Z.to_nat (slotCount h x)) 0.

Definition FindFirstAvailableBufferWrite : M JState Z := FindFirstAvailable BufWrites.
Definition FindFirstAvailableCorrectBlock : M JState Z := FindFirstAvailable CorrBlocks.

(** Run a method on a journal struct that is not yet shared; the result
    carries the struct back. *)
Definition with_journal {A} (j : Journal) (m : M JState A) : M Dev (A * Journal) := fun d =>
  let '(r, s) := m {| jdev := d; jrn := j |} in
  (match r with Ret a => Ret (a, jrn s) | Err e => Err e | Panic => Panic end, jdev s).

Definition OpenJournal : M Dev Journal :=
  OpenFile ;;;
  h <- ReadHeader ;;
  if negb (VerifyMagic (magic h)) then throw ErrInvalidMagic
  else
    diskSize <- GetDeviceSize ;;
    let j := {| diskSize := diskSize; WriteOffset := 0; CorrectOffset := 0; header := h |} in
    w <- with_journal j FindFirstAvailableBufferWrite ;;
    c <- with_journal j FindFirstAvailableCorrectBlock ;;
    ret (set_offsets w.1 c.1 j).

Definition ValidateJournal (journal : Journal) : M Dev (bool * Journal) :=
  readJournal <- OpenJournal ;;
  ret (Equals journal readJournal, readJournal).
