(* ===== verification/JournalCodec.v ===== *)
(** * Journal slots and header as bytes

    Closed forms of [serialize], [deserialize] and the header codec, with the
    exact condition under which a slot expression panics, and the layout of the
    device: slots lie inside the device, after the header, and do not overlap. *)
From S2P Require Import Prelude GoInt GoMonad BlockDev Networking Journal.
Open Scope Z_scope.

(** ** Buffers of zeros *)

Lemma length_zeros n : length (zeros n) = Z.to_nat n.
Proof. apply length_replicate. Qed.

Lemma splice_zeros (a d : list byte) (m : nat) :
  (length d <= m)%nat ->
  splice (length a) d (a ++ replicate m Byte.x00) = a ++ d ++ replicate (m - length d) Byte.x00.
Proof.
  intros H. unfold splice. rewrite take_app_length. f_equal. f_equal.
  rewrite drop_app_ge by lia. rewrite drop_replicate. f_equal. lia.
Qed.

Lemma slice_Some b lo hi :
  0 <= lo <= hi -> hi <= Z.of_nat (length b) ->
  slice b lo hi = Some (sub (Z.to_nat lo) (Z.to_nat (hi - lo)) b).
Proof. intros. unfold slice. by destruct (_ && _ && _) eqn:E; [|lia]. Qed.

Lemma slice_None b lo hi :
  hi < lo \/ Z.of_nat (length b) < hi -> slice b lo hi = None.
Proof. intros. unfold slice. by destruct (_ && _ && _) eqn:E; [lia|]. Qed.

Lemma copy_into_Some b lo hi src :
  0 <= lo <= hi -> hi <= Z.of_nat (length b) ->
  copy_into b lo hi src = Some (splice (Z.to_nat lo) (take (Z.to_nat (hi - lo)) src) b).
Proof. intros. unfold copy_into. by destruct (_ && _ && _) eqn:E; [|lia]. Qed.

Lemma copy_into_None b lo hi src :
  hi < lo \/ Z.of_nat (length b) < hi -> copy_into b lo hi src = None.
Proof. intros. unfold copy_into. by destruct (_ && _ && _) eqn:E; [lia|]. Qed.

(** ** Slots *)

(** The bytes of a block that reach the slot. *)
Definition slot_data (b : BlockInfo) : list byte := take (Z.to_nat (Size b)) (Data b).

Definition slot_head (b : BlockInfo) : list byte := be_put 8 (Offset b) ++ be_put 4 (Size b).

(** The image of a block in a slot of [n] bytes. *)
Definition slot_bytes (n : Z) (b : BlockInfo) : list byte :=
  slot_head b ++ slot_data b ++ replicate (Z.to_nat n - 12 - length (slot_data b)) Byte.x00.

Lemma length_slot_head b : length (slot_head b) = 12%nat.
Proof. unfold slot_head. by rewrite length_app, !length_be_put. Qed.

Lemma length_slot_data_wf b : wf_block b -> length (slot_data b) = Z.to_nat (Size b).
Proof. intros (_ & _ & H). unfold slot_data. rewrite length_take. lia. Qed.

Lemma slot_data_wf b : wf_block b -> slot_data b = Data b.
Proof. intros (_ & _ & H). unfold slot_data. apply take_ge. lia. Qed.

Lemma length_slot_bytes n b :
  12 + Z.of_nat (length (slot_data b)) <= n -> length (slot_bytes n b) = Z.to_nat n.
Proof.
  intros. unfold slot_bytes. rewrite !length_app, length_replicate, length_slot_head. lia.
Qed.

(** The two integer fields always fit a slot of at least 12 bytes. *)
Lemma serialize_head b n :
  12 <= n ->
  (b1 ← copy_into (zeros n) 0 8 (be_put 8 (Offset b));
   copy_into b1 8 12 (be_put 4 (Size b))) =
  Some (slot_head b ++ replicate (Z.to_nat n - 12) Byte.x00).
Proof.
  intros Hn. rewrite copy_into_Some by (rewrite ?length_zeros; lia).
  rewrite take_ge by (by rewrite length_be_put).
  change (splice (Z.to_nat 0) (be_put 8 (Offset b)) (zeros n))
    with (splice (length (@nil byte)) (be_put 8 (Offset b)) ([] ++ zeros n)).
  unfold zeros. rewrite splice_zeros by (rewrite length_be_put; lia).
  cbn [mbind option_bind app]. rewrite copy_into_Some
    by (rewrite ?length_app, ?length_be_put, ?length_replicate; lia).
  rewrite take_ge by (by rewrite length_be_put).
  replace (Z.to_nat 8) with (length (be_put 8 (Offset b))) by (by rewrite length_be_put).
  rewrite splice_zeros by (rewrite !length_be_put; lia).
  unfold slot_head. rewrite <- app_assoc, !length_be_put. do 4 f_equal. lia.
Qed.

(** [dataSize] of the source is the number of bytes that reach the slot. *)
Lemma serialize_dataSize b :
  is_u32 (Size b) -> is_u32 (Z.of_nat (length (Data b))) ->
  let dataSize := u32 (Z.of_nat (length (Data b))) in
  (if Size b <? dataSize then Size b else dataSize) = Z.of_nat (length (slot_data b)).
Proof.
  intros H1 H2. simpl. rewrite u32_small by done. unfold slot_data. rewrite length_take.
  unfold is_u32 in *. destruct (_ <? _) eqn:E; lia.
Qed.

Lemma serialize_eq b n :
  12 <= n -> is_u32 (Size b) -> is_u32 (Z.of_nat (length (Data b))) ->
  serialize b (zeros n) =
  if decide (slot_data b = []) then Some (slot_bytes n b)
  else copy_into (slot_head b ++ replicate (Z.to_nat n - 12) Byte.x00) 12
         (u32 (12 + Z.of_nat (length (slot_data b)))) (slot_data b).
Proof.
  intros Hn Hs Hd. pose proof (serialize_head b n Hn) as Hh.
  pose proof (serialize_dataSize b Hs Hd) as Hds. unfold serialize.
  destruct (copy_into (zeros n) 0 8 _) as [b1|]; simpl in *; [|done].
  rewrite Hh. simpl. rewrite Hds.
  assert (Hz : slot_data b = [] <-> (0 <? Size b) && (0 <? Z.of_nat (length (Data b))) = false).
  { unfold slot_data, is_u32 in *. rewrite <- length_zero_iff_nil, length_take. lia. }
  case_decide as Hc.
  - apply Hz in Hc as Hc'. rewrite Hc'. unfold slot_bytes. rewrite Hc.
    cbn [length app]. by rewrite Nat.sub_0_r.
  - destruct (_ && _) eqn:E; [|by exfalso; apply Hc, Hz].
    rewrite slice_Some by (unfold slot_data; rewrite ?length_take; lia). simpl.
    f_equal. rewrite Z.sub_0_r, Nat2Z.id. unfold sub. rewrite drop_0.
    unfold slot_data. rewrite length_take.
    destruct (Nat.le_ge_cases (Z.to_nat (Size b)) (length (Data b))).
    + by rewrite Nat.min_l.
    + rewrite Nat.min_r, !take_ge by lia. done.
Qed.

Lemma serialize_Some b n :
  is_u32 (Size b) -> is_u32 (Z.of_nat (length (Data b))) ->
  12 + Z.of_nat (length (slot_data b)) <= n < 2 ^ 32 ->
  serialize b (zeros n) = Some (slot_bytes n b).
Proof.
  intros Hs Hd Hn. rewrite serialize_eq by (done || lia). case_decide; [done|].
  rewrite u32_small by width_tac.
  rewrite copy_into_Some
    by (rewrite ?length_app, ?length_slot_head, ?length_replicate; lia).
  rewrite take_ge by lia.
  replace (Z.to_nat 12) with (length (slot_head b)) by (by rewrite length_slot_head).
  by rewrite splice_zeros by lia.
Qed.

Lemma serialize_None b n :
  is_u32 (Size b) -> is_u32 (Z.of_nat (length (Data b))) ->
  12 <= n < 2 ^ 32 -> n < 12 + Z.of_nat (length (slot_data b)) ->
  serialize b (zeros n) = None.
Proof.
  intros Hs Hd Hn Hlt. rewrite serialize_eq by (done || lia).
  case_decide as Hc; [rewrite Hc in Hlt; simpl in Hlt; lia|].
  apply copy_into_None. rewrite length_app, length_slot_head, length_replicate.
  assert (Z.of_nat (length (slot_data b)) < 2 ^ 32).
  { unfold slot_data, is_u32 in *. rewrite length_take. lia. }
  destruct (decide (12 + Z.of_nat (length (slot_data b)) < 2 ^ 32)).
  - rewrite u32_small by width_tac. lia.
  - left. unfold u32. rewrite <- (Z.mod_unique_pos _ _ 1
      (12 + Z.of_nat (length (slot_data b)) - 2 ^ 32)); lia.
Qed.

(** ** Reading a slot back *)

(** What [deserialize] sees in a buffer: the offset, the size and, when the
    size is positive, that many bytes of data. *)
Definition slot_size (b : list byte) : Z := be_get (sub 8 4 b).
Definition slot_off (b : list byte) : Z := be_get (sub 0 8 b).

Lemma slot_size_range b : (12 <= length b)%nat -> is_u32 (slot_size b).
Proof. intros. apply be_get_u32. rewrite length_sub; lia. Qed.

Lemma deserialize_eq b :
  (12 <= length b)%nat -> Z.of_nat (length b) < 2 ^ 32 ->
  deserialize b =
  if decide (12 + slot_size b <= Z.of_nat (length b)) then
    Some {| Offset := slot_off b; Size := slot_size b;
            Data := sub 12 (Z.to_nat (slot_size b)) b |}
  else None.
Proof.
  intros Hl Hl'. unfold deserialize.
  rewrite !slice_Some by lia. cbn [mbind option_bind].
  change (be_get (sub (Z.to_nat 8) (Z.to_nat (12 - 8)) b)) with (slot_size b).
  change (be_get (sub (Z.to_nat 0) (Z.to_nat (8 - 0)) b)) with (slot_off b).
  pose proof (slot_size_range b Hl) as Hs.
  case_decide as Hc; destruct (0 <? slot_size b) eqn:E.
  - rewrite u32_small by width_tac.
    rewrite slice_Some by lia. cbn [mbind option_bind].
    rewrite copy_into_Some by (rewrite ?length_replicate; lia). cbn [mbind option_bind].
    rewrite Z.sub_0_r. replace (12 + slot_size b - 12) with (slot_size b) by lia.
    change (Z.to_nat 12) with 12%nat. change (Z.to_nat 0) with 0%nat.
    rewrite take_ge by (rewrite length_sub; lia).
    rewrite splice_full by (rewrite length_sub, length_replicate; lia). done.
  - by replace (slot_size b) with 0 by width_tac.
  - rewrite slice_None; [done|].
    destruct (decide (12 + slot_size b < 2 ^ 32)).
    + rewrite u32_small by width_tac. lia.
    + left. unfold u32. rewrite <- (Z.mod_unique_pos _ _ 1 (12 + slot_size b - 2 ^ 32)); width_tac.
  - exfalso. width_tac.
Qed.

Section SlotFields.
Context (n : Z) (b : BlockInfo) (Hwf : wf_block b) (Hn : 12 + Size b <= n).

Lemma slot_size_bytes : slot_size (slot_bytes n b) = Size b.
Proof using Hwf.
  unfold slot_size, slot_bytes, slot_head. rewrite <- !app_assoc.
  rewrite sub_app_r by (rewrite length_be_put; lia). rewrite length_be_put.
  rewrite sub_app_l by (by rewrite length_be_put).
  apply be_get_put_u32. apply Hwf.
Qed.

Lemma slot_off_bytes : slot_off (slot_bytes n b) = Offset b.
Proof using Hwf.
  unfold slot_off, slot_bytes, slot_head. rewrite <- !app_assoc.
  rewrite sub_app_l by (by rewrite length_be_put).
  apply be_get_put_u64. apply Hwf.
Qed.

Lemma slot_data_bytes : sub 12 (Z.to_nat (Size b)) (slot_bytes n b) = Data b.
Proof using Hwf.
  unfold slot_bytes. rewrite sub_app_r by (rewrite length_slot_head; lia).
  rewrite length_slot_head, Nat.sub_diag.
  rewrite sub_app_l by (by rewrite length_slot_data_wf). by apply slot_data_wf.
Qed.

Lemma length_slot_bytes_wf : length (slot_bytes n b) = Z.to_nat n.
Proof using Hwf Hn.
  apply length_slot_bytes. rewrite length_slot_data_wf by done.
  destruct Hwf as (_ & Hs & _). width_tac.
Qed.
End SlotFields.

Lemma serialize_wf n b :
  wf_block b -> 12 + Size b <= n < 2 ^ 32 -> serialize b (zeros n) = Some (slot_bytes n b).
Proof.
  intros Hwf Hn. pose proof Hwf as (_ & Hs & Hd). apply serialize_Some; [done| |].
  - width_tac.
  - rewrite length_slot_data_wf by done. width_tac.
Qed.

Lemma deserialize_slot_bytes n b :
  wf_block b -> 12 + Size b <= n < 2 ^ 32 -> deserialize (slot_bytes n b) = Some b.
Proof.
  intros Hwf Hn. pose proof Hwf as (_ & Hs & _). unfold is_u32 in Hs.
  rewrite deserialize_eq; rewrite length_slot_bytes_wf by (done || lia); [|lia|lia].
  rewrite slot_size_bytes, slot_off_bytes, slot_data_bytes by done.
  case_decide; [by destruct b|lia].
Qed.

(** ** Header *)

Definition wf_header (h : Header) : Prop :=
  is_u64 (magic h) /\ is_u64 (bufWriteByteSize h) /\ is_u64 (bufWritesCount h) /\
  is_u64 (bufWritesStartOffset h) /\ is_u64 (corrBlockByteSize h) /\
  is_u64 (corrBlocksCount h) /\ is_u64 (corrBlocksStartOffset h) /\ is_u64 (flags h).

#[global] Instance wf_header_dec h : Decision (wf_header h).
Proof. unfold wf_header. apply _. Defined.

Lemma length_header_bytes h : length (header_bytes h) = 64%nat.
Proof. unfold header_bytes. by rewrite !length_app, !length_be_put. Qed.

(** The [k]-th big-endian word of a concatenation of words. *)
Lemma sub_be_put_skip v rest off n :
  (8 <= off)%nat -> sub off n (be_put 8 v ++ rest) = sub (off - 8) n rest.
Proof. intros. rewrite sub_app_r by (by rewrite length_be_put). by rewrite length_be_put. Qed.

Lemma sub_be_put_here v rest off : off = 0%nat -> sub off 8 (be_put 8 v ++ rest) = be_put 8 v.
Proof. intros ->. apply sub_app_l. by rewrite length_be_put. Qed.

Lemma decode_header_bytes h : wf_header h -> decode_header (header_bytes h) = h.
Proof.
  intros (H1 & H2 & H3 & H4 & H5 & H6 & H7 & H8).
  unfold decode_header, header_bytes. rewrite <- (app_nil_r (be_put 8 (flags h))).
  destruct h; f_equal; repeat (rewrite sub_be_put_skip by lia);
    rewrite sub_be_put_here by lia; by apply be_get_put_u64.
Qed.

Lemma decode_header_wf b : (64 <= length b)%nat -> wf_header (decode_header b).
Proof.
  intros H. unfold wf_header, decode_header; simpl.
  repeat apply conj; apply be_get_u64; rewrite length_sub; lia.
Qed.

(** ** Data past the size is not stored *)

Lemma serialize_trim b buffer : sendable b -> serialize (trim b) buffer = serialize b buffer.
Proof.
  intros (_ & Hs & Hd). unfold serialize, trim; cbn [Offset Size Data].
  destruct (copy_into buffer 0 8 _) as [b1|]; [|done]. cbn [mbind option_bind].
  destruct (copy_into b1 8 12 _) as [b2|]; [|done]. cbn [mbind option_bind].
  unfold is_u32 in Hs. rewrite length_take.
  replace (Z.of_nat (Z.to_nat (Size b) `min` length (Data b))) with (Size b) by lia.
  rewrite (u32_small (Size b)), (u32_small (Z.of_nat (length (Data b)))) by (unfold is_u32; lia).
  rewrite Z.ltb_irrefl.
  replace (if Size b <? Z.of_nat (length (Data b)) then Size b else Z.of_nat (length (Data b)))
    with (Size b) by (destruct (_ <? _) eqn:E; lia).
  destruct (0 <? Size b) eqn:E; [|done].
  replace (0 <? Z.of_nat (length (Data b))) with true by lia. cbn [andb].
  rewrite !slice_Some by (rewrite ?length_take; lia). cbn [mbind option_bind].
  unfold sub. rewrite !drop_0, take_take, Z.sub_0_r, Nat.min_id. done.
Qed.
