(* ===== verification/JournalSlots.v ===== *)
(** * The journal device as two arrays of slots

    Under the layout that [NewJournal] computes, slots are disjoint regions of
    the device behind the header, so [ReadSlot]/[WriteSlot] behave as reads and
    writes of independent cells: a write is read back, and neither another slot,
    the other section nor the header changes. *)
From S2P Require Import Prelude GoInt GoMonad BlockDev Networking Journal JournalCodec.
Open Scope Z_scope.

(** ** Layout *)

Record wf_layout (h : Header) (n : Z) : Prop := {
  wl_dev : n < 2 ^ 63;
  wl_slot : forall x, 12 <= slotSize h x < 2 ^ 32;
  wl_count : forall x, 0 <= slotCount h x;
  wl_buf : GetHeaderByteSize <= sectionStart h BufWrites;
  wl_corr : sectionStart h BufWrites + slotCount h BufWrites * slotSize h BufWrites
            <= sectionStart h CorrBlocks;
  wl_end : sectionStart h CorrBlocks + slotCount h CorrBlocks * slotSize h CorrBlocks <= n;
}.

(** Byte offset of slot [i], without the wrap-around of the code. *)
Definition slot_pos (h : Header) (x : section) (i : Z) : Z :=
  sectionStart h x + i * slotSize h x.

Definition in_range (h : Header) (x : section) (i : Z) : Prop := 0 <= i < slotCount h x.

Section Layout.
Context (h : Header) (n : Z) (W : wf_layout h n).

Lemma slot_bounds x i :
  in_range h x i ->
  GetHeaderByteSize <= slot_pos h x i /\ slot_pos h x i + slotSize h x <= n.
Proof using W.
  destruct W as [_ Hs Hc Hb Hm He]. unfold in_range, slot_pos. intros Hi.
  assert (i * slotSize h x + slotSize h x <= slotCount h x * slotSize h x)
    by (specialize (Hs x); nia).
  assert (0 <= i * slotSize h x) by (specialize (Hs x); nia).
  pose proof (Hs BufWrites). pose proof (Hs CorrBlocks).
  pose proof (Hc BufWrites). pose proof (Hc CorrBlocks).
  assert (0 <= slotCount h BufWrites * slotSize h BufWrites) by nia.
  assert (0 <= slotCount h CorrBlocks * slotSize h CorrBlocks) by nia.
  destruct x; lia.
Qed.

(** The offset computed by the code does not wrap, neither in [uint64] nor in
    the conversion to [int64]. *)
Lemma slotOffset_pos x i : in_range h x i -> i64 (slotOffset h x i) = slot_pos h x i.
Proof using W.
  intros Hi. pose proof (slot_bounds x i Hi) as [H1 H2].
  pose proof (wl_dev _ _ W). pose proof (wl_slot _ _ W x).
  unfold in_range in Hi. unfold GetHeaderByteSize, slot_pos in *.
  assert (0 <= i * slotSize h x) by nia.
  assert (0 <= sectionStart h x).
  { destruct W as [_ Hs Hc Hb Hm He]. unfold GetHeaderByteSize in Hb.
    pose proof (Hs BufWrites). pose proof (Hc BufWrites). destruct x; nia. }
  unfold slotOffset. rewrite (u64_small (i * slotSize h x)) by width_tac.
  rewrite u64_small by width_tac. apply i64_small. lia.
Qed.

Lemma slots_disjoint x i y k :
  in_range h x i -> in_range h y k -> (x, i) <> (y, k) ->
  slot_pos h x i + slotSize h x <= slot_pos h y k \/
  slot_pos h y k + slotSize h y <= slot_pos h x i.
Proof using W.
  destruct W as [_ Hs Hc Hb Hm He]. unfold in_range, slot_pos. intros Hi Hk Hne.
  pose proof (Hs BufWrites). pose proof (Hs CorrBlocks).
  destruct x, y.
  - destruct (decide (i < k)); [left; nia|]. right.
    assert (k < i) by (destruct (decide (i = k)); [congruence|lia]). nia.
  - left. nia.
  - right. nia.
  - destruct (decide (i < k)); [left; nia|]. right.
    assert (k < i) by (destruct (decide (i = k)); [congruence|lia]). nia.
Qed.
End Layout.

(** [NewJournal] computes such a layout on any device that holds the header and
    the write section. *)
Lemma NewJournal_eq sec bsz csz d :
  healthy d -> GetHeaderByteSize <= dev_size d < 2 ^ 63 ->
  0 < sec <= dev_size d - GetHeaderByteSize -> 0 < bsz -> 0 < csz ->
  let corr := dev_size d - GetHeaderByteSize - sec in
  NewJournal sec bsz csz d =
  (Ret {| diskSize := dev_size d;
          WriteOffset := sec / bsz; CorrectOffset := corr / csz;
          header := {| magic := BdrMagic;
                       bufWriteByteSize := bsz; bufWritesCount := sec / bsz;
                       bufWritesStartOffset := GetHeaderByteSize;
                       corrBlockByteSize := csz; corrBlocksCount := corr / csz;
                       corrBlocksStartOffset := GetHeaderByteSize + sec;
                       flags := 0 |} |}, d).
Proof.
  intros Hd Hn Hsec Hb Hc corr. unfold GetHeaderByteSize in *. unfold NewJournal.
  rewrite (bind_Ret _ _ _ tt d) by (by apply sys_unit_healthy).
  rewrite (bind_Ret _ _ _ (dev_size d) d) by (by apply GetDeviceSize_healthy).
  unfold GetHeaderByteSize. rewrite (u64_small (dev_size d - 64)) by width_tac.
  destruct (_ || (sec =? 0)) eqn:E; [lia|].
  destruct (_ || (bsz =? 0)) eqn:E'; [lia|].
  rewrite !u64_small by width_tac. done.
Qed.

Lemma NewJournal_layout sec bsz csz d j d' :
  healthy d -> GetHeaderByteSize <= dev_size d < 2 ^ 63 ->
  0 < sec <= dev_size d - GetHeaderByteSize -> 12 <= bsz < 2 ^ 32 -> 12 <= csz < 2 ^ 32 ->
  NewJournal sec bsz csz d = (Ret j, d') ->
  d' = d /\ wf_layout (header j) (dev_size d) /\ wf_header (header j) /\
  WriteOffset j = slotCount (header j) BufWrites /\
  CorrectOffset j = slotCount (header j) CorrBlocks /\
  diskSize j = dev_size d /\ magic (header j) = BdrMagic /\ flags (header j) = 0.
Proof.
  intros Hd Hn Hsec Hb Hc E. rewrite NewJournal_eq in E by (done || lia).
  unfold GetHeaderByteSize in *.
  injection E as <- <-. split; [done|].
  pose proof (Z.mul_div_le sec bsz ltac:(lia)).
  pose proof (Z.mul_div_le (dev_size d - 64 - sec) csz ltac:(lia)).
  pose proof (Z.div_pos sec bsz ltac:(lia) ltac:(lia)).
  pose proof (Z.div_pos (dev_size d - 64 - sec) csz ltac:(lia) ltac:(lia)).
  assert (sec / bsz <= sec) by (apply Z.div_le_upper_bound; nia).
  assert ((dev_size d - 64 - sec) / csz <= dev_size d - 64 - sec)
    by (apply Z.div_le_upper_bound; nia).
  generalize dependent (sec / bsz). intros qb **.
  generalize dependent ((dev_size d - 64 - sec) / csz). intros qc **.
  split; [|split; [|done]].
  - split; try match goal with |- forall _ : section, _ => intros [] end;
      cbn [header slotSize slotCount sectionStart bufWriteByteSize bufWritesCount
           bufWritesStartOffset corrBlockByteSize corrBlocksCount corrBlocksStartOffset];
      unfold GetHeaderByteSize; lia.
  - unfold wf_header, is_u64, BdrMagic; simpl. repeat apply conj; lia.
Qed.

(** ** Slots of a state *)

Definition wf_js (s : JState) : Prop :=
  healthy (jdev s) /\ wf_layout (header (jrn s)) (dev_size (jdev s)).

(** The bytes of a slot, and the block they decode to. *)
Definition slot (s : JState) (x : section) (i : Z) : list byte :=
  let h := header (jrn s) in
  sub (Z.to_nat (slot_pos h x i)) (Z.to_nat (slotSize h x)) (content (jdev s)).

Definition entry (s : JState) (x : section) (i : Z) : option BlockInfo :=
  deserialize (slot s x i).

Definition head_bytes (s : JState) : list byte :=
  sub 0 (Z.to_nat GetHeaderByteSize) (content (jdev s)).

Definition put_slot (x : section) (i : Z) (b : list byte) (s : JState) : JState :=
  set_jdev (poke (slot_pos (header (jrn s)) x i) b (jdev s)) s.

Definition put_head (b : list byte) (s : JState) : JState :=
  set_jdev (poke 0 b (jdev s)) s.

Definition fits_slot (s : JState) (x : section) (b : BlockInfo) : Prop :=
  wf_block b /\ 12 + Size b <= slotSize (header (jrn s)) x.

Section Slots.
Context (s : JState) (W : wf_js s).
Local Abbreviation h := (header (jrn s)).

Lemma dev_slot x i (b : list byte) :
  in_range h x i -> Z.of_nat (length b) = slotSize h x ->
  (Z.to_nat (slot_pos h x i) + length b <= length (content (jdev s)))%nat.
Proof using W.
  intros Hi Hb. destruct W as [_ WL].
  pose proof (slot_bounds _ _ WL x i Hi) as [? ?].
  unfold GetHeaderByteSize, dev_size in *. lia.
Qed.

Lemma length_slot x i : in_range h x i -> length (slot s x i) = Z.to_nat (slotSize h x).
Proof using W.
  intros Hi. destruct W as [_ WL]. pose proof (slot_bounds _ _ WL x i Hi) as [? ?].
  pose proof (wl_slot _ _ WL x).
  unfold GetHeaderByteSize, dev_size in *. apply length_sub. lia.
Qed.

Lemma wf_put_slot x i (b : list byte) :
  in_range h x i -> Z.of_nat (length b) = slotSize h x -> wf_js (put_slot x i b s).
Proof using W.
  intros Hi Hb. pose proof (dev_slot x i b Hi Hb). destruct W as [Hh WL]. split; [done|].
  unfold put_slot, set_jdev; simpl. unfold dev_size, poke; simpl.
  by rewrite length_splice.
Qed.

Lemma slot_put_same x i (b : list byte) :
  in_range h x i -> Z.of_nat (length b) = slotSize h x ->
  slot (put_slot x i b s) x i = b.
Proof using W.
  intros Hi Hb. unfold slot, put_slot, poke; simpl.
  replace (Z.to_nat (slotSize h x)) with (length b) by lia.
  apply sub_splice_same. by apply dev_slot.
Qed.

Lemma slot_put_other x i (b : list byte) y k :
  in_range h x i -> in_range h y k -> (x, i) <> (y, k) ->
  Z.of_nat (length b) = slotSize h x ->
  slot (put_slot x i b s) y k = slot s y k.
Proof using W.
  intros Hi Hk Hne Hb. pose proof (dev_slot x i b Hi Hb). destruct W as [_ WL].
  pose proof (slots_disjoint _ _ WL x i y k Hi Hk Hne).
  pose proof (slot_bounds _ _ WL y k Hk). pose proof (slot_bounds _ _ WL x i Hi).
  pose proof (wl_slot _ _ WL x). pose proof (wl_slot _ _ WL y).
  unfold GetHeaderByteSize, dev_size in *. unfold slot, put_slot, poke; simpl.
  apply sub_splice_disjoint; lia.
Qed.

Lemma head_put_slot x i (b : list byte) :
  in_range h x i -> Z.of_nat (length b) = slotSize h x ->
  head_bytes (put_slot x i b s) = head_bytes s.
Proof using W.
  intros Hi Hb. pose proof (dev_slot x i b Hi Hb). destruct W as [_ WL].
  pose proof (slot_bounds _ _ WL x i Hi). pose proof (wl_slot _ _ WL x).
  unfold GetHeaderByteSize in *. unfold head_bytes, put_slot, poke; simpl.
  apply sub_splice_disjoint; unfold GetHeaderByteSize; lia.
Qed.

(** Reads and writes of slots. *)
Lemma ReadSlot_eq x i :
  in_range h x i ->
  ReadSlot x i s = (match entry s x i with Some b => Ret b | None => Panic end, s).
Proof using W.
  intros Hi. destruct W as [Hh WL]. pose proof (slot_bounds _ _ WL x i Hi) as [H1 H2].
  pose proof (wl_slot _ _ WL x). unfold in_range, GetHeaderByteSize in *.
  unfold ReadSlot. erewrite bind_Ret by done. destruct (_ <=? i) eqn:E; [lia|].
  rewrite (slotOffset_pos _ _ WL) by done.
  rewrite (bind_Ret _ _ _ (slot s x i, None) s).
  - unfold entry. by destruct (deserialize (slot s x i)).
  - unfold on_dev, zoom. rewrite ReadAt_healthy by (done || lia). by destruct s.
Qed.

Lemma WriteSlot_eq x i b :
  in_range h x i -> fits_slot s x b ->
  WriteSlot x i b s = (Ret tt, put_slot x i (slot_bytes (slotSize h x) b) s).
Proof using W.
  intros Hi [Hwf Hfit]. destruct W as [Hh WL].
  pose proof (slot_bounds _ _ WL x i Hi) as [H1 H2].
  pose proof (wl_slot _ _ WL x). unfold in_range, GetHeaderByteSize in *.
  unfold WriteSlot. erewrite bind_Ret by done. destruct (_ <=? i) eqn:E; [lia|].
  rewrite serialize_wf by (done || lia). simpl. erewrite bind_Ret by done.
  rewrite (slotOffset_pos _ _ WL) by done.
  rewrite (bind_Ret _ _ _ tt (put_slot x i (slot_bytes (slotSize h x) b) s)).
  - unfold on_dev, zoom, Sync. rewrite sys_unit_healthy by done. done.
  - apply map_err_Ret. unfold on_dev, zoom. rewrite WriteAt_healthy; [done|done|lia|].
    rewrite length_slot_bytes_wf by (done || lia). lia.
Qed.

Lemma WriteSlot_full x i b :
  slotCount h x <= i -> WriteSlot x i b s = (Err ErrInvalidSize, s).
Proof.
  intros. unfold WriteSlot. erewrite bind_Ret by done. by destruct (_ <=? i) eqn:E; [|lia].
Qed.

Lemma entry_put_same x i b :
  in_range h x i -> fits_slot s x b ->
  entry (put_slot x i (slot_bytes (slotSize h x) b) s) x i = Some b.
Proof using W.
  intros Hi [Hwf Hfit]. destruct W as [Hh WL]. pose proof (wl_slot _ _ WL x).
  unfold entry. rewrite slot_put_same.
  - apply deserialize_slot_bytes; [done|lia].
  - done.
  - rewrite length_slot_bytes_wf by (done || lia). lia.
Qed.

Lemma length_slot_image x b :
  fits_slot s x b -> Z.of_nat (length (slot_bytes (slotSize h x) b)) = slotSize h x.
Proof using W.
  intros [Hwf Hfit]. destruct W as [Hh WL]. pose proof (wl_slot _ _ WL x).
  rewrite length_slot_bytes_wf by (done || lia). lia.
Qed.

(** The header write leaves every slot alone. *)
Lemma slot_put_head (b : list byte) x i :
  in_range h x i -> length b = Z.to_nat GetHeaderByteSize ->
  slot (put_head b s) x i = slot s x i.
Proof using W.
  intros Hi Hb. destruct W as [_ WL]. pose proof (slot_bounds _ _ WL x i Hi).
  pose proof (wl_slot _ _ WL x).
  unfold GetHeaderByteSize, dev_size in *. unfold slot, put_head, poke; simpl.
  apply sub_splice_disjoint; lia.
Qed.

Lemma dev_holds_head : GetHeaderByteSize <= dev_size (jdev s).
Proof using W.
  destruct W as [_ [_ Hs Hc Hb Hm He]].
  pose proof (Hs BufWrites). pose proof (Hs CorrBlocks).
  pose proof (Hc BufWrites). pose proof (Hc CorrBlocks). nia.
Qed.

Lemma wf_put_head (b : list byte) : length b = Z.to_nat GetHeaderByteSize -> wf_js (put_head b s).
Proof using W.
  intros Hb. pose proof dev_holds_head. destruct W as [Hh WL]. split; [done|].
  unfold put_head, GetHeaderByteSize in *; simpl. rewrite dev_size_poke by lia. done.
Qed.

Lemma head_put_head (b : list byte) : length b = Z.to_nat GetHeaderByteSize -> head_bytes (put_head b s) = b.
Proof using W.
  intros Hb. pose proof dev_holds_head. unfold head_bytes, put_head, poke, dev_size in *; simpl.
  change (Z.to_nat 0) with 0%nat. rewrite <- Hb. apply sub_splice_same.
  unfold GetHeaderByteSize in *. lia.
Qed.

Lemma WriteHeader_eq : WriteHeader s = (Ret tt, put_head (header_bytes h) s).
Proof using W.
  pose proof dev_holds_head. destruct W as [Hh WL]. unfold GetHeaderByteSize in *.
  unfold WriteHeader. erewrite bind_Ret by done.
  rewrite (bind_Ret _ _ _ tt (put_head (header_bytes h) s)).
  - apply map_err_Ret. unfold on_dev, zoom, Sync. by rewrite sys_unit_healthy.
  - apply map_err_Ret. unfold on_dev, zoom.
    rewrite WriteAt_healthy by (rewrite ?length_header_bytes; done || lia). done.
Qed.
End Slots.
