(* ===== verification/JournalSpec.v ===== *)
(** * What the journal promises: a durable pair of lists

    Abstractly a journal is a validity mark and two lists of blocks, the buffer
    writes and the correct blocks, to which blocks are appended, which are
    emptied together, and which survive a restart ([OpenJournal]).  [jrel] relates
    a device and a [Journal] struct to that abstract value; the lemmas show that
    each operation of the package implements the abstract one. *)
From S2P Require Import Prelude GoInt GoMonad BlockDev Networking Journal JournalCodec JournalSlots.
Open Scope Z_scope.

(** ** The abstract journal *)

Record AJournal := mkA {
  a_valid : bool;
  a_writes : list BlockInfo;
  a_blocks : list BlockInfo;
}.

Definition a_sec (a : AJournal) (x : section) : list BlockInfo :=
  match x with BufWrites => a_writes a | CorrBlocks => a_blocks a end.

Definition a_append (x : section) (b : BlockInfo) (a : AJournal) : AJournal :=
  match x with
  | BufWrites => mkA (a_valid a) (a_writes a ++ [b]) (a_blocks a)
  | CorrBlocks => mkA (a_valid a) (a_writes a) (a_blocks a ++ [b])
  end.

Definition a_empty : AJournal := mkA false [] [].
Definition a_mark (v : bool) (a : AJournal) : AJournal := mkA v (a_writes a) (a_blocks a).

(** ** The journal in memory and on disk *)

Definition used (j : Journal) (x : section) : Z :=
  match x with BufWrites => WriteOffset j | CorrBlocks => CorrectOffset j end.

Definition bump (x : section) (j : Journal) : Journal :=
  match x with
  | BufWrites => set_offsets (u64 (WriteOffset j + 1)) (CorrectOffset j) j
  | CorrBlocks => set_offsets (WriteOffset j) (u64 (CorrectOffset j + 1)) j
  end.

Definition free (s : JState) (x : section) (i : Z) : Prop :=
  exists b, entry s x i = Some b /\ IsValid b = false.

(** The invariant of a journal in use: a well-formed layout, the header in
    memory is the header on disk, and the slots past the used ones are free. *)
Record journal_inv (s : JState) : Prop := {
  ji_wf : wf_js s;
  ji_header : wf_header (header (jrn s));
  ji_magic : magic (header (jrn s)) = BdrMagic;
  ji_disk : decode_header (head_bytes s) = header (jrn s);
  ji_size : diskSize (jrn s) = dev_size (jdev s);
  ji_used : forall x, 0 <= used (jrn s) x <= slotCount (header (jrn s)) x;
  ji_tail : forall x i, used (jrn s) x <= i < slotCount (header (jrn s)) x -> free s x i;
}.

(** The used slots of a section hold the list [l]. *)
Definition holds (s : JState) (x : section) (l : list BlockInfo) : Prop :=
  used (jrn s) x = Z.of_nat (length l) /\
  forall i b, l !! i = Some b -> entry s x (Z.of_nat i) = Some b /\ IsValid b = true.

Definition jrel (s : JState) (a : AJournal) : Prop :=
  journal_inv s /\ Journal_IsValid (jrn s) = a_valid a /\ forall x, holds s x (a_sec a x).

(** ** Flags *)

Lemma land_flag_1 f : Z.land f JournalValidFlag = f mod 2.
Proof. change JournalValidFlag with (Z.ones 1). by rewrite Z.land_ones by lia. Qed.

Lemma Header_IsValid_mod h : Header_IsValid h = (flags h mod 2 =? 1).
Proof.
  unfold Header_IsValid. rewrite land_flag_1.
  pose proof (Z.mod_pos_bound (flags h) 2). destruct (_ =? 0) eqn:E; destruct (_ =? 1) eqn:E'; lia.
Qed.

Lemma is_u64_testbit f : 0 <= f -> (forall i, 64 <= i -> Z.testbit f i = false) -> is_u64 f.
Proof.
  intros Hf Hb. split; [done|]. destruct (decide (f < 2 ^ 64)) as [|Hge]; [done|].
  assert (Hl : 64 <= Z.log2 f) by (apply Z.log2_le_pow2; lia).
  specialize (Hb (Z.log2 f) Hl). rewrite Z.bit_log2 in Hb by lia. done.
Qed.

Lemma testbit_u64 f i : is_u64 f -> 64 <= i -> Z.testbit f i = false.
Proof.
  intros [H1 H2] Hi. destruct (decide (f = 0)) as [->|]; [apply Z.bits_0|].
  apply Z.bits_above_log2; [done|]. apply Z.log2_lt_pow2; [lia|].
  apply Z.lt_le_trans with (2 ^ 64); [done|]. apply Z.pow_le_mono_r; lia.
Qed.

Lemma flag_or_u64 f : is_u64 f -> is_u64 (Z.lor f JournalValidFlag).
Proof.
  intros H. apply is_u64_testbit.
  - apply Z.lor_nonneg. split; [apply H|done].
  - intros i Hi. rewrite Z.lor_spec, (testbit_u64 f i), (testbit_u64 JournalValidFlag i); done.
Qed.

Lemma flag_and_u64 f m : is_u64 f -> is_u64 (Z.land f m).
Proof.
  intros H. apply is_u64_testbit.
  - apply Z.land_nonneg. left. apply H.
  - intros i Hi. by rewrite Z.land_spec, (testbit_u64 f i).
Qed.

Lemma setValidFlag_IsValid h : Header_IsValid (setValidFlag h) = true.
Proof.
  rewrite Header_IsValid_mod. unfold setValidFlag; simpl.
  rewrite <- Z.bit0_mod, Z.lor_spec, orb_true_r. done.
Qed.

Lemma setInvalidFlag_IsValid h : Header_IsValid (setInvalidFlag h) = false.
Proof.
  rewrite Header_IsValid_mod. unfold setInvalidFlag; simpl.
  rewrite <- Z.bit0_mod, Z.land_spec, andb_false_r. done.
Qed.

(** Marking a journal changes the flags only, so the layout stays. *)
Lemma slotSize_set_flags f h x : slotSize (set_flags f h) x = slotSize h x.
Proof. by destruct x. Qed.
Lemma slotCount_set_flags f h x : slotCount (set_flags f h) x = slotCount h x.
Proof. by destruct x. Qed.
Lemma slot_pos_set_flags f h x i : slot_pos (set_flags f h) x i = slot_pos h x i.
Proof. by destruct x. Qed.

Lemma wf_layout_set_flags f h n : wf_layout h n -> wf_layout (set_flags f h) n.
Proof. by intros [H1 H2 H3 H4 H5 H6]. Qed.

Lemma wf_header_set_flags f h : wf_header h -> is_u64 f -> wf_header (set_flags f h).
Proof. unfold wf_header; simpl. tauto. Qed.

(** ** Marking: [Validate] and [Invalidate] *)

Definition mark (f : Z) (s : JState) : JState :=
  let h := set_flags f (header (jrn s)) in
  put_head (header_bytes h) (set_jrn (fun j => set_header h j) s).

Section Mark.
Context (s : JState) (f : Z) (Hf : is_u64 f) (W : wf_js s).

Lemma wf_mark_mem : wf_js (set_jrn (fun j => set_header (set_flags f (header (jrn s))) j) s).
Proof using W. destruct W as [Hh WL]. split; [done|]. by apply wf_layout_set_flags. Qed.

Lemma wf_mark : wf_js (mark f s).
Proof using W. apply wf_put_head; [apply wf_mark_mem|apply length_header_bytes]. Qed.

Lemma slot_mark x i : in_range (header (jrn s)) x i -> slot (mark f s) x i = slot s x i.
Proof using W.
  intros Hi. unfold mark. rewrite slot_put_head.
  - unfold slot; simpl. by rewrite slot_pos_set_flags, slotSize_set_flags.
  - apply wf_mark_mem.
  - simpl. unfold in_range. by rewrite slotCount_set_flags.
  - apply length_header_bytes.
Qed.

Lemma head_mark : head_bytes (mark f s) = header_bytes (header (jrn (mark f s))).
Proof using W. unfold mark. rewrite head_put_head; [done|apply wf_mark_mem|apply length_header_bytes]. Qed.
End Mark.

Lemma Validate_eq s :
  wf_js s -> Validate s = (Ret tt, mark (Z.lor (flags (header (jrn s))) JournalValidFlag) s).
Proof. intros W. unfold Validate. erewrite bind_Ret by done. by rewrite WriteHeader_eq by (by apply wf_mark_mem). Qed.

Lemma Invalidate_eq s :
  wf_js s ->
  Invalidate s = (Ret tt, mark (Z.land (flags (header (jrn s))) (2 ^ 64 - 1 - JournalValidFlag)) s).
Proof. intros W. unfold Invalidate. erewrite bind_Ret by done. by rewrite WriteHeader_eq by (by apply wf_mark_mem). Qed.

Lemma free_mark s f x i :
  wf_js s -> in_range (header (jrn s)) x i -> free s x i -> free (mark f s) x i.
Proof. intros W Hi (b & Hb & Hv). exists b. unfold entry. by rewrite slot_mark. Qed.

Lemma journal_inv_mark s f : is_u64 f -> journal_inv s -> journal_inv (mark f s).
Proof.
  intros Hf [W H1 H2 H3 H4 H5 H6]. pose proof (dev_holds_head _ W).
  assert (Hwf : wf_header (header (jrn (mark f s)))) by (by apply wf_header_set_flags).
  split.
  - by apply wf_mark.
  - done.
  - done.
  - rewrite head_mark by done. by apply decode_header_bytes.
  - unfold mark, put_head, set_jdev; simpl. rewrite dev_size_poke; [done|lia|].
    rewrite length_header_bytes. unfold GetHeaderByteSize in *. simpl. lia.
  - intros x. unfold mark; simpl. rewrite slotCount_set_flags.
    pose proof (H5 x) as Hx. by destruct x.
  - intros x i Hi. unfold mark in Hi; simpl in Hi. rewrite slotCount_set_flags in Hi.
    assert (Hi' : used (jrn s) x <= i < slotCount (header (jrn s)) x) by (by destruct x).
    apply free_mark; [done| |by apply H6]. specialize (H5 x). unfold in_range. lia.
Qed.

Lemma holds_mark s f x l :
  wf_js s -> used (jrn s) x <= slotCount (header (jrn s)) x ->
  holds s x l -> holds (mark f s) x l.
Proof.
  intros W Hle [Hu Hl]. split.
  - rewrite <- Hu. by destruct x.
  - intros i b Hi. destruct (Hl i b Hi) as [He Hv]. split; [|done].
    unfold entry. rewrite slot_mark; [done|done|].
    apply lookup_lt_Some in Hi. unfold in_range. lia.
Qed.

(** [Validate] and [Invalidate] implement the abstract mark. *)
Lemma mark_jrel s a f v :
  is_u64 f -> (f mod 2 =? 1) = v -> jrel s a -> jrel (mark f s) (a_mark v a).
Proof.
  intros Hf Hv (I & Ha & Hh). split; [by apply journal_inv_mark|]. split.
  - unfold Journal_IsValid. rewrite Header_IsValid_mod. done.
  - intros x. destruct I as [W _ _ _ _ Hu _].
    specialize (Hh x). replace (a_sec (a_mark v a) x) with (a_sec a x) by (by destruct x).
    apply holds_mark; [done|apply Hu|done].
Qed.

Lemma Validate_jrel s a :
  jrel s a -> exists s', Validate s = (Ret tt, s') /\ jrel s' (a_mark true a).
Proof.
  intros J. pose proof J as ([W Hwf _ _ _ _ _] & _ & _).
  eexists. split; [by apply Validate_eq|]. apply mark_jrel; [|..|done].
  - apply flag_or_u64. apply Hwf.
  - pose proof (setValidFlag_IsValid (header (jrn s))) as E.
    by rewrite Header_IsValid_mod in E.
Qed.

Lemma Invalidate_jrel s a :
  jrel s a -> exists s', Invalidate s = (Ret tt, s') /\ jrel s' (a_mark false a).
Proof.
  intros J. pose proof J as ([W Hwf _ _ _ _ _] & _ & _).
  eexists. split; [by apply Invalidate_eq|]. apply mark_jrel; [|..|done].
  - apply flag_and_u64. apply Hwf.
  - pose proof (setInvalidFlag_IsValid (header (jrn s))) as E.
    by rewrite Header_IsValid_mod in E.
Qed.

(** ** Appending *)

#[global] Instance section_eq_dec : EqDecision section.
Proof. solve_decision. Defined.

Lemma bump_used x y j :
  is_u64 (used j x + 1) ->
  used (bump x j) y = if decide (x = y) then used j x + 1 else used j y.
Proof. intros H. destruct x, y; simpl in *; by rewrite ?u64_small by done. Qed.


Lemma bump_header x j : header (bump x j) = header j.
Proof. by destruct x. Qed.
Lemma bump_diskSize x j : diskSize (bump x j) = diskSize j.
Proof. by destruct x. Qed.

Section Append.
Context (s : JState) (x : section) (b : BlockInfo).
Context (I : journal_inv s) (Hfit : fits_slot s x b).
Context (Hroom : used (jrn s) x < slotCount (header (jrn s)) x).
Local Abbreviation h := (header (jrn s)).
Local Abbreviation img := (slot_bytes (slotSize h x) b).

(** Write the first free slot, then count it. *)
Definition appended : JState := set_jrn (bump x) (put_slot x (used (jrn s) x) img s).

Lemma append_in_range : in_range h x (used (jrn s) x).
Proof using I Hroom. pose proof (ji_used _ I x). unfold in_range. lia. Qed.

Lemma append_u64 : is_u64 (used (jrn s) x + 1).
Proof using I Hroom Hfit.
  pose proof append_in_range as Hr. destruct I as [[_ WL] Hh _ _ _ Hu _].
  pose proof (Hu x) as Hx. unfold is_u64.
  assert (Hc : is_u64 (slotCount h x)) by (unfold wf_header in Hh; destruct x; apply Hh).
  unfold is_u64 in Hc. lia.
Qed.

Lemma append_jrn : header (jrn appended) = h /\ diskSize (jrn appended) = diskSize (jrn s).
Proof. unfold appended; simpl. by rewrite bump_header, bump_diskSize. Qed.

Lemma append_slot y k : slot appended y k = slot (put_slot x (used (jrn s) x) img s) y k.
Proof. unfold slot, appended; simpl. by rewrite bump_header. Qed.

Lemma append_slot_other y k :
  in_range h y k -> (x, used (jrn s) x) <> (y, k) -> slot appended y k = slot s y k.
Proof using I Hroom Hfit.
  intros Hk Hne. rewrite append_slot. apply slot_put_other; try done.
  - apply I.
  - apply append_in_range.
  - apply length_slot_image; [apply I|done].
Qed.

Lemma append_entry : entry appended x (used (jrn s) x) = Some b.
Proof using I Hroom Hfit.
  unfold entry. rewrite append_slot. apply entry_put_same; [apply I|apply append_in_range|done].
Qed.

Lemma append_wf : wf_js appended.
Proof using I Hroom Hfit.
  pose proof (wf_put_slot s (ji_wf _ I) x _ img append_in_range
    (length_slot_image s (ji_wf _ I) x b Hfit)) as [H1 H2].
  split; [done|]. unfold appended; simpl. by rewrite bump_header.
Qed.

Lemma append_inv : journal_inv appended.
Proof using I Hroom Hfit.
  destruct append_jrn as [Ej Es]. pose proof append_wf as Wf. destruct I as [W H1 H2 H3 H4 H5 H6].
  split; rewrite ?Ej; try done.
  - change (head_bytes appended) with (head_bytes (put_slot x (used (jrn s) x) img s)).
    rewrite head_put_slot; [done|done|apply append_in_range|by apply length_slot_image].
  - rewrite Es, H4. unfold appended; simpl. symmetry. apply dev_size_poke.
    + pose proof (slot_bounds _ _ (proj2 W) x _ append_in_range) as [? _].
      unfold GetHeaderByteSize in *. lia.
    + rewrite length_slot_image by done. apply (slot_bounds _ _ (proj2 W)), append_in_range.
  - intros y. unfold appended; simpl. rewrite bump_used by apply append_u64.
    pose proof (H5 y). case_decide; [subst; lia|done].
  - intros y k Hk. unfold appended in Hk; simpl in Hk.
    rewrite bump_used in Hk by apply append_u64.
    assert (Hk' : used (jrn s) y <= k < slotCount h y /\ (x, used (jrn s) x) <> (y, k)).
    { case_decide; [subst; split; [lia|intros E; injection E; lia]|]. split; [done|congruence]. }
    destruct Hk' as [Hk' Hne]. destruct (H6 y k Hk') as (b' & Hb' & Hv). exists b'.
    unfold entry. rewrite append_slot_other; [done| |done].
    pose proof (H5 y). unfold in_range. lia.
Qed.

Lemma append_holds y l :
  IsValid b = true -> holds s y l ->
  holds appended y (if decide (x = y) then l ++ [b] else l).
Proof using I Hroom Hfit.
  intros Hv [Hu Hl]. split.
  - unfold appended; simpl. rewrite bump_used by apply append_u64.
    case_decide; [subst; rewrite length_app; simpl; lia|done].
  - assert (Hold : forall i b', l !! i = Some b' ->
      entry appended y (Z.of_nat i) = Some b' /\ IsValid b' = true).
    { intros i b' Hi. destruct (Hl i b' Hi) as [He Hv']. split; [|done].
      apply lookup_lt_Some in Hi. pose proof (ji_used _ I y).
      unfold entry. rewrite append_slot_other; [done|unfold in_range; lia|].
      intros E. injection E as -> Hi'. lia. }
    case_decide as Hxy; [|done]. subst y. intros i b' Hi.
    apply lookup_app_Some in Hi as [Hi|[Hge Hi]]; [by apply Hold|].
    apply list_lookup_singleton_Some in Hi as [Hi <-]. split; [|done].
    replace (Z.of_nat i) with (used (jrn s) x) by lia. apply append_entry.
Qed.
End Append.

Lemma append_jrel s a x b :
  jrel s a -> fits_slot s x b -> IsValid b = true ->
  used (jrn s) x < slotCount (header (jrn s)) x ->
  WriteSlot x (used (jrn s) x) b s =
    (Ret tt, put_slot x (used (jrn s) x) (slot_bytes (slotSize (header (jrn s)) x) b) s) /\
  jrel (appended s x b) (a_append x b a).
Proof.
  intros (I & Ha & Hh) Hfit Hv Hroom. split.
  - apply WriteSlot_eq; [apply I|by apply append_in_range|done].
  - split; [by apply append_inv|]. split.
    + unfold Journal_IsValid. rewrite (proj1 (append_jrn s x b)).
      replace (a_valid (a_append x b a)) with (a_valid a) by (by destruct x). done.
    + intros y. pose proof (append_holds s x b I Hfit Hroom y (a_sec a y) Hv (Hh y)) as H.
      destruct x, y; done.
Qed.
