(* ===== verification/JournalOps.v ===== *)
(** * Clearing, creating and reopening a journal

    [ResetTo] with the current offsets clears only the used prefix of each
    section and still empties the whole journal; a journal created on a device
    with arbitrary old content is emptied by its first [ResetTo], because
    [NewJournal] starts with both offsets at the section sizes; [OpenJournal]
    recovers both lists of a journal that is not full, and refuses a full one. *)
From S2P Require Import Prelude GoInt GoMonad BlockDev Networking.
From S2P Require Import Journal JournalCodec JournalSlots JournalSpec.
Open Scope Z_scope.

(** ** Clearing *)

Record cleared (x : section) (n : Z) (s s' : JState) : Prop := {
  cl_wf : wf_js s';
  cl_jrn : jrn s' = jrn s;
  cl_head : head_bytes s' = head_bytes s;
  cl_size : dev_size (jdev s') = dev_size (jdev s);
  cl_done : forall i, 0 <= i < n -> entry s' x i = Some GetInvalidBlock;
  cl_rest : forall y k, in_range (header (jrn s)) y k -> (y = x -> n <= k) ->
    slot s' y k = slot s y k;
}.

Lemma fits_invalid s x : wf_js s -> fits_slot s x GetInvalidBlock.
Proof.
  intros [_ WL]. pose proof (wl_slot _ _ WL x). split; [|simpl; lia].
  unfold wf_block, is_u64, is_u32; simpl. lia.
Qed.

Lemma cleared_step x j s t :
  wf_js s -> in_range (header (jrn s)) x j -> cleared x j s t ->
  cleared x (j + 1) s
    (put_slot x j (slot_bytes (slotSize (header (jrn t)) x) GetInvalidBlock) t).
Proof.
  intros W Hj [Wt Ej Eh Es Hd Hr]. rewrite <- Ej in Hj.
  pose proof (fits_invalid t x Wt) as Hfit.
  pose proof (length_slot_image t Wt x _ Hfit) as Hlen.
  split.
  - by apply wf_put_slot.
  - done.
  - by rewrite head_put_slot.
  - rewrite <- Es. unfold put_slot; simpl. apply dev_size_poke.
    + pose proof (slot_bounds _ _ (proj2 Wt) x j Hj) as [? _]. unfold GetHeaderByteSize in *. lia.
    + rewrite Hlen. by apply (slot_bounds _ _ (proj2 Wt)).
  - intros i Hi. destruct (decide (i = j)) as [->|Hne]; [by apply entry_put_same|].
    unfold entry. rewrite slot_put_other; try done.
    + apply Hd. lia.
    + unfold in_range in *. lia.
    + congruence.
  - intros y k Hk Hyk. rewrite <- Ej in Hk. rewrite slot_put_other; try done.
    + rewrite <- Hr; [done|by rewrite <- Ej|]. intros ->. specialize (Hyk eq_refl). lia.
    + intros E. injection E as <- <-. specialize (Hyk eq_refl). lia.
Qed.

Lemma clear_slots_spec s x n :
  wf_js s -> 0 <= n <= slotCount (header (jrn s)) x ->
  exists s', clear_slots x n s = (Ret tt, s') /\ cleared x n s s'.
Proof.
  intros W Hn. unfold clear_slots. erewrite bind_Ret by done.
  pose proof (wl_slot _ _ (proj2 W) x) as Hsz.
  rewrite serialize_wf by (apply (fits_invalid s x W) || (simpl; lia)).
  erewrite bind_Ret by done.
  destruct (for_range_Ret (fun j t => 0 <= j /\ cleared x j s t) (Z.to_nat n) 0
    (fun i => map_err (fun _ => ErrIOFailure)
       (on_dev (WriteAt (slot_bytes (slotSize (header (jrn s)) x) GetInvalidBlock)
                        (i64 (slotOffset (header (jrn s)) x i)))))
    (fun j t => put_slot x j (slot_bytes (slotSize (header (jrn t)) x) GetInvalidBlock) t) s)
    as [E I].
  - split; [lia|]. split; try done. lia.
  - intros j t Hj [H0 C]. assert (Hr : in_range (header (jrn s)) x j) by (unfold in_range; lia).
    split; [|split; [lia|by apply cleared_step]].
    pose proof C as [Wt Ej _ _ _ _]. rewrite <- Ej in *.
    apply map_err_Ret. unfold on_dev, zoom.
    rewrite (slotOffset_pos _ _ (proj2 Wt)) by done.
    pose proof (slot_bounds _ _ (proj2 Wt) x j Hr) as [? ?]. unfold GetHeaderByteSize in *.
    rewrite WriteAt_healthy; [done|apply Wt|lia|].
    rewrite length_slot_image by (done || by apply fits_invalid). lia.
  - eexists. split; [exact E|]. destruct I as [_ I]. by rewrite Z.add_0_l, Z2Nat.id in I by lia.
Qed.

Lemma ClearSectionTo_spec s x n :
  wf_js s -> 0 <= n <= slotCount (header (jrn s)) x ->
  exists s', ClearSectionTo x n s = (Ret tt, s') /\ cleared x n s s'.
Proof.
  intros W Hn. unfold ClearSectionTo. erewrite bind_Ret by done.
  destruct (_ <? n) eqn:E; [lia|]. by apply clear_slots_spec.
Qed.

(** Clearing the used prefixes of both sections frees every slot. *)
Lemma clear_both_free s s1 s2 :
  journal_inv s ->
  cleared BufWrites (used (jrn s) BufWrites) s s1 ->
  cleared CorrBlocks (used (jrn s) CorrBlocks) s1 s2 ->
  forall x i, in_range (header (jrn s)) x i -> free s2 x i.
Proof.
  intros I C1 C2 x i Hi. pose proof (cl_jrn _ _ _ _ C1) as E1.
  assert (Hfree : forall t, entry t x i = Some GetInvalidBlock -> free t x i)
    by (intros t Ht; by exists GetInvalidBlock).
  destruct x.
  - assert (slot s2 BufWrites i = slot s1 BufWrites i) as E.
    { apply (cl_rest _ _ _ _ C2); [by rewrite E1|done]. }
    destruct (decide (i < used (jrn s) BufWrites)).
    + apply Hfree. unfold entry. rewrite E. apply (cl_done _ _ _ _ C1). unfold in_range in Hi. lia.
    + destruct (ji_tail _ I BufWrites i) as (b & Hb & Hv); [unfold in_range in Hi; lia|].
      exists b. unfold entry. rewrite E, (cl_rest _ _ _ _ C1); [done|done|lia].
  - destruct (decide (i < used (jrn s) CorrBlocks)).
    + apply Hfree. apply (cl_done _ _ _ _ C2). unfold in_range in Hi. lia.
    + destruct (ji_tail _ I CorrBlocks i) as (b & Hb & Hv); [unfold in_range in Hi; lia|].
      exists b. unfold entry. rewrite (cl_rest _ _ _ _ C2), (cl_rest _ _ _ _ C1);
        [done|done|done|by rewrite E1|lia].
Qed.

(** A state whose slots are all free is an empty journal once its offsets are reset. *)
Lemma jrel_empty s s2 :
  journal_inv s -> Journal_IsValid (jrn s) = false ->
  wf_js s2 -> jrn s2 = jrn s -> head_bytes s2 = head_bytes s ->
  dev_size (jdev s2) = dev_size (jdev s) ->
  (forall x i, in_range (header (jrn s)) x i -> free s2 x i) ->
  jrel (set_jrn (set_offsets 0 0) s2) a_empty.
Proof.
  intros [W H1 H2 H3 H4 H5 H6] Hv W2 Ej Eh Es Hfree.
  split; [|split; [unfold Journal_IsValid; simpl; by rewrite Ej|]].
  - split; simpl; rewrite ?Ej; try done.
    + change (head_bytes (set_jrn (set_offsets 0 0) s2)) with (head_bytes s2). by rewrite Eh.
    + congruence.
    + intros x. pose proof (H5 x). destruct x; simpl in *; lia.
    + intros x i Hi. apply Hfree. unfold in_range. destruct x; simpl in *; lia.
  - intros x. split; [by destruct x|]. intros i b Hi. by destruct x.
Qed.

Lemma ResetTo_jrel s :
  journal_inv s ->
  exists s', ResetTo (used (jrn s) BufWrites) (used (jrn s) CorrBlocks) s = (Ret tt, s') /\
    jrel s' a_empty /\
    jrn s' = set_offsets 0 0 (set_header (setInvalidFlag (header (jrn s))) (jrn s)).
Proof.
  intros I. pose proof (ji_wf _ I) as W.
  set (f := Z.land (flags (header (jrn s))) (2 ^ 64 - 1 - JournalValidFlag)).
  assert (Hf : is_u64 f) by (apply flag_and_u64; apply (ji_header _ I)).
  pose proof (journal_inv_mark s f Hf I) as I0. pose proof (ji_wf _ I0) as W0.
  assert (Hu : forall x, used (jrn (mark f s)) x = used (jrn s) x) by (by intros []).
  pose proof (ji_used _ I0) as Hb. unfold ResetTo.
  rewrite (bind_Ret _ _ _ tt (mark f s)) by (by apply Invalidate_eq). rewrite <- !Hu.
  destruct (ClearSectionTo_spec (mark f s) BufWrites _ W0 (Hb BufWrites)) as (s1 & E1 & C1).
  unfold ClearWriteSectionTo. rewrite (bind_Ret _ _ _ _ _ E1).
  assert (Hb1 : 0 <= used (jrn (mark f s)) CorrBlocks <= slotCount (header (jrn s1)) CorrBlocks)
    by (rewrite (cl_jrn _ _ _ _ C1); apply Hb).
  destruct (ClearSectionTo_spec s1 CorrBlocks _ (cl_wf _ _ _ _ C1) Hb1) as (s2 & E2 & C2).
  unfold ClearCorrectBlockSectionTo. rewrite (bind_Ret _ _ _ _ _ E2).
  eexists. split; [done|]. split.
  2:{ simpl. by rewrite (cl_jrn _ _ _ _ C2), (cl_jrn _ _ _ _ C1). }
  apply (jrel_empty (mark f s)); [done|..].
  - apply setInvalidFlag_IsValid.
  - apply C2.
  - rewrite (cl_jrn _ _ _ _ C2). apply C1.
  - rewrite (cl_head _ _ _ _ C2). apply C1.
  - rewrite (cl_size _ _ _ _ C2). apply C1.
  - by apply (clear_both_free _ s1).
Qed.

(** ** Creation *)

(** [NewJournal] followed by [InitWithoutClearing], as [CreateJournal] of the
    server runs them, satisfies the invariant whatever the device held. *)
Definition created (j : Journal) (d : Dev) : JState :=
  mark (Z.land (flags (header j)) (2 ^ 64 - 1 - JournalValidFlag)) {| jdev := d; jrn := j |}.

Lemma created_inv sec bsz csz d j d' :
  healthy d -> GetHeaderByteSize <= dev_size d < 2 ^ 63 ->
  0 < sec <= dev_size d - GetHeaderByteSize -> 12 <= bsz < 2 ^ 32 -> 12 <= csz < 2 ^ 32 ->
  NewJournal sec bsz csz d = (Ret j, d') ->
  InitWithoutClearing {| jdev := d'; jrn := j |} = (Ret tt, created j d) /\
  journal_inv (created j d) /\ Journal_IsValid (jrn (created j d)) = false /\
  forall x, used (jrn (created j d)) x = slotCount (header (jrn (created j d))) x.
Proof.
  intros Hd Hn Hsec Hb Hc E.
  destruct (NewJournal_layout _ _ _ _ _ _ Hd Hn Hsec Hb Hc E) as (-> & WL & Hw & Hu1 & Hu2 & Hs & Hm & Hf).
  assert (W : wf_js {| jdev := d; jrn := j |}) by done.
  split; [by apply Invalidate_eq|].
  assert (Hsame : forall x, used (jrn (created j d)) x = slotCount (header (jrn (created j d))) x)
    by (by intros []).
  split; [|split; [apply setInvalidFlag_IsValid|done]].
  assert (Hu64 : is_u64 (Z.land (flags (header j)) (2 ^ 64 - 1 - JournalValidFlag)))
    by (rewrite Hf, Z.land_0_l; width_tac).
  split.
  - by apply wf_mark.
  - by apply wf_header_set_flags.
  - done.
  - unfold created. rewrite head_mark by done. apply decode_header_bytes.
    by apply wf_header_set_flags.
  - unfold created, mark, put_head; simpl. rewrite dev_size_poke; [done|lia|].
    rewrite length_header_bytes. unfold GetHeaderByteSize in *. lia.
  - intros x. rewrite Hsame. split; [|done]. apply (wl_count _ _ (proj2 (wf_mark _ _ W))).
  - intros x i Hi. rewrite Hsame in Hi. lia.
Qed.

(** ** Reopening *)

Definition taken (s : JState) (x : section) (i : Z) : Prop :=
  exists b, entry s x i = Some b /\ IsValid b = true.

Section Find.
Context (s : JState) (x : section) (W : wf_js s).
Local Abbreviation h := (header (jrn s)).

(** The scan returns the first free slot ... *)
Lemma find_available_hit n i k :
  0 <= i <= k -> k < i + Z.of_nat n -> i + Z.of_nat n <= slotCount h x ->
  (forall j, i <= j < k -> taken s x j) -> free s x k ->
  find_available x n i s = (Ret k, s).
Proof using W.
  revert i. induction n as [|n IH]; intros i Hik Hkn Hn Ht Hf; [lia|].
  cbn [find_available].
  assert (Hr : in_range h x i) by (unfold in_range; lia).
  pose proof (ReadSlot_eq s W x i Hr) as E.
  destruct (decide (i = k)) as [->|Hne].
  - destruct Hf as (b & Hb & Hv). rewrite Hb in E. rewrite (bind_Ret _ _ _ _ _ E).
    by rewrite Hv.
  - destruct (Ht i) as (b & Hb & Hv); [lia|]. rewrite Hb in E.
    rewrite (bind_Ret _ _ _ _ _ E), Hv. simpl.
    apply IH; try lia; [|done]. intros j Hj. apply Ht. lia.
Qed.

(** ... fails when there is none ... *)
Lemma find_available_full n i :
  0 <= i -> i + Z.of_nat n <= slotCount h x ->
  (forall j, i <= j < i + Z.of_nat n -> taken s x j) ->
  find_available x n i s = (Err (ErrNoSlots x), s).
Proof using W.
  revert i. induction n as [|n IH]; intros i Hi Hn Ht; [done|].
  cbn [find_available].
  assert (Hr : in_range h x i) by (unfold in_range; lia).
  pose proof (ReadSlot_eq s W x i Hr) as E.
  destruct (Ht i) as (b & Hb & Hv); [lia|]. rewrite Hb in E.
  rewrite (bind_Ret _ _ _ _ _ E), Hv. simpl.
  apply IH; [lia|lia|]. intros j Hj. apply Ht. lia.
Qed.
End Find.

Lemma FindFirstAvailable_hit s x k :
  wf_js s -> in_range (header (jrn s)) x k ->
  (forall j, 0 <= j < k -> taken s x j) -> free s x k ->
  FindFirstAvailable x s = (Ret k, s).
Proof.
  intros W Hk Ht Hf. unfold FindFirstAvailable. erewrite bind_Ret by done.
  pose proof (wl_count _ _ (proj2 W) x). unfold in_range in Hk.
  apply find_available_hit; try done; lia.
Qed.

Lemma FindFirstAvailable_full s x :
  wf_js s -> (forall j, in_range (header (jrn s)) x j -> taken s x j) ->
  FindFirstAvailable x s = (Err (ErrNoSlots x), s).
Proof.
  intros W Ht. unfold FindFirstAvailable. erewrite bind_Ret by done.
  pose proof (wl_count _ _ (proj2 W) x). unfold in_range in Ht.
  apply find_available_full; try done; try lia. intros j Hj. apply Ht. lia.
Qed.

(** The struct [OpenJournal] builds before the scan. *)
Definition opening (s : JState) : JState :=
  {| jdev := jdev s;
     jrn := {| diskSize := dev_size (jdev s); WriteOffset := 0; CorrectOffset := 0;
               header := header (jrn s) |} |}.

Lemma opening_wf s : wf_js s -> wf_js (opening s).
Proof. done. Qed.
Lemma opening_slot s x i : slot (opening s) x i = slot s x i.
Proof. done. Qed.

(** A scan does not change the device. *)
Lemma find_available_state s x n i :
  wf_js s -> 0 <= i -> i + Z.of_nat n <= slotCount (header (jrn s)) x ->
  (find_available x n i s).2 = s.
Proof.
  intros W. revert i. induction n as [|n IH]; intros i Hi Hn; [done|].
  cbn [find_available]. unfold bind.
  rewrite ReadSlot_eq by (done || (unfold in_range; lia)).
  destruct (entry s x i) as [b|]; [|done].
  destruct (negb (IsValid b)); [done|]. apply IH; lia.
Qed.

Definition obind {A B} (o : outcome A) (f : A -> outcome B) : outcome B :=
  match o with Ret a => f a | Err e => Err e | Panic => Panic end.

Lemma with_journal_find s x :
  wf_js s ->
  with_journal (jrn s) (FindFirstAvailable x) (jdev s) =
  (obind (FindFirstAvailable x s).1 (fun i => Ret (i, jrn s)), jdev s).
Proof.
  intros W. unfold with_journal. replace {| jdev := jdev s; jrn := jrn s |} with s by (by destruct s).
  pose proof (wl_count _ _ (proj2 W) x).
  assert (E : (FindFirstAvailable x s).2 = s).
  { unfold FindFirstAvailable. erewrite bind_Ret by done. apply find_available_state; [done|lia|lia]. }
  destruct (FindFirstAvailable x s) as [r t]; simpl in *. subst t. by destruct r.
Qed.

(** [OpenJournal] on the device of a journal is the header check and two scans. *)
Lemma OpenJournal_eq s :
  wf_js s -> magic (header (jrn s)) = BdrMagic ->
  decode_header (head_bytes s) = header (jrn s) ->
  OpenJournal (jdev s) =
  (obind (FindFirstAvailable BufWrites (opening s)).1 (fun w =>
   obind (FindFirstAvailable CorrBlocks (opening s)).1 (fun c =>
   Ret (set_offsets w c (jrn (opening s))))), jdev s).
Proof.
  intros W Hm Hd. pose proof (dev_holds_head _ W) as Hs. pose proof (proj1 W) as Hh.
  unfold OpenJournal. rewrite (bind_Ret _ _ _ tt (jdev s)) by (by apply sys_unit_healthy).
  rewrite (bind_Ret _ _ _ (header (jrn s)) (jdev s)).
  2:{ unfold ReadHeader. rewrite (bind_Ret _ _ _ (head_bytes s, None) (jdev s)).
      - unfold ret. by rewrite Hd.
      - apply ReadAt_healthy; [done|lia|]. unfold GetHeaderByteSize in *. lia. }
  rewrite Hm. replace (VerifyMagic BdrMagic) with true by done. cbn [negb].
  rewrite (bind_Ret _ _ _ (dev_size (jdev s)) (jdev s)) by (by apply GetDeviceSize_healthy).
  pose proof (with_journal_find (opening s) BufWrites W) as E1.
  pose proof (with_journal_find (opening s) CorrBlocks W) as E2.
  unfold FindFirstAvailableBufferWrite, FindFirstAvailableCorrectBlock.
  change {| diskSize := dev_size (jdev s); WriteOffset := 0; CorrectOffset := 0;
            header := header (jrn s) |} with (jrn (opening s)).
  change (jdev (opening s)) with (jdev s) in E1, E2. unfold bind. rewrite E1.
  destruct (FindFirstAvailable BufWrites (opening s)).1 as [w|e|]; cbn [obind]; [|done|done].
  rewrite E2. by destruct (FindFirstAvailable CorrBlocks (opening s)).1 as [c|e|].
Qed.

Lemma holds_taken s x l i :
  holds s x l -> 0 <= i < used (jrn s) x -> taken s x i.
Proof.
  intros [Hu Hl] Hi. destruct (lookup_lt_is_Some_2 l (Z.to_nat i)) as [b Hb]; [lia|].
  exists b. specialize (Hl _ _ Hb). by rewrite Z2Nat.id in Hl by lia.
Qed.

(** A journal with a free slot in both sections is recovered as it was. *)
Lemma OpenJournal_jrel s a :
  jrel s a ->
  (forall x, used (jrn s) x < slotCount (header (jrn s)) x) ->
  OpenJournal (jdev s) = (Ret (jrn s), jdev s).
Proof.
  intros (I & _ & Hh) Hroom. pose proof (ji_wf _ I) as W.
  rewrite OpenJournal_eq by (apply I).
  assert (F : forall x, FindFirstAvailable x (opening s) = (Ret (used (jrn s) x), opening s)).
  { intros x. apply FindFirstAvailable_hit; [done| | |].
    - pose proof (ji_used _ I x). unfold in_range. simpl. specialize (Hroom x). lia.
    - intros j Hj. by apply (holds_taken s x (a_sec a x)).
    - apply (ji_tail _ I). specialize (Hroom x). lia. }
  rewrite !F. simpl. unfold set_offsets; simpl. rewrite <- (ji_size _ I). by destruct (jrn s).
Qed.

(** A journal with a full section is not recovered at all. *)
Lemma OpenJournal_full s a x :
  jrel s a -> used (jrn s) x = slotCount (header (jrn s)) x ->
  exists e, OpenJournal (jdev s) = (Err e, jdev s).
Proof.
  intros (I & _ & Hh) Hfull. pose proof (ji_wf _ I) as W.
  rewrite OpenJournal_eq by (apply I).
  assert (F : forall y, (exists i, FindFirstAvailable y (opening s) = (Ret i, opening s)) \/
      FindFirstAvailable y (opening s) = (Err (ErrNoSlots y), opening s)).
  { intros y. pose proof (ji_used _ I y) as Hu.
    destruct (decide (used (jrn s) y < slotCount (header (jrn s)) y)).
    - left. exists (used (jrn s) y). apply FindFirstAvailable_hit; [done|unfold in_range; simpl; lia| |].
      + intros j Hj. by apply (holds_taken s y (a_sec a y)).
      + apply (ji_tail _ I). lia.
    - right. apply FindFirstAvailable_full; [done|]. intros j Hj.
      apply (holds_taken s y (a_sec a y)); [done|]. unfold in_range in Hj. simpl in Hj. lia. }
  assert (Fx : FindFirstAvailable x (opening s) = (Err (ErrNoSlots x), opening s)).
  { apply FindFirstAvailable_full; [done|]. intros j Hj.
    apply (holds_taken s x (a_sec a x)); [done|]. unfold in_range in Hj. simpl in Hj. lia. }
  destruct x.
  - rewrite Fx. simpl. eauto.
  - rewrite Fx. destruct (F BufWrites) as [[i ->]| ->]; simpl; eauto.
Qed.

(** ** [Reset] *)

Lemma ClearSection_spec s x :
  wf_js s ->
  exists s', ClearSection x s = (Ret tt, s') /\ cleared x (slotCount (header (jrn s)) x) s s'.
Proof.
  intros W. unfold ClearSection. erewrite bind_Ret by done.
  apply clear_slots_spec; [done|]. pose proof (wl_count _ _ (proj2 W) x). lia.
Qed.

Lemma clear_all_free s s1 s2 :
  cleared BufWrites (slotCount (header (jrn s)) BufWrites) s s1 ->
  cleared CorrBlocks (slotCount (header (jrn s)) CorrBlocks) s1 s2 ->
  forall x i, in_range (header (jrn s)) x i -> free s2 x i.
Proof.
  intros C1 C2 x i Hi. exists GetInvalidBlock. split; [|done]. destruct x.
  - unfold entry. rewrite (cl_rest _ _ _ _ C2); [by apply (cl_done _ _ _ _ C1)| |done].
    by rewrite (cl_jrn _ _ _ _ C1).
  - by apply (cl_done _ _ _ _ C2).
Qed.

Lemma Reset_jrel s :
  journal_inv s ->
  exists s', Reset s = (Ret tt, s') /\ jrel s' a_empty /\
    jrn s' = set_offsets 0 0 (set_header (setInvalidFlag (header (jrn s))) (jrn s)).
Proof.
  intros I. set (f := Z.land (flags (header (jrn s))) (2 ^ 64 - 1 - JournalValidFlag)).
  assert (Hf : is_u64 f) by (apply flag_and_u64; apply (ji_header _ I)).
  pose proof (journal_inv_mark s f Hf I) as I0. pose proof (ji_wf _ I0) as W0. unfold Reset.
  rewrite (bind_Ret _ _ _ tt (mark f s)) by (apply Invalidate_eq, I).
  destruct (ClearSection_spec (mark f s) BufWrites W0) as (s1 & E1 & C1).
  unfold ClearWriteSection. rewrite (bind_Ret _ _ _ _ _ E1).
  destruct (ClearSection_spec s1 CorrBlocks (cl_wf _ _ _ _ C1)) as (s2 & E2 & C2).
  unfold ClearCorrectBlockSection. rewrite (bind_Ret _ _ _ _ _ E2).
  rewrite (cl_jrn _ _ _ _ C1) in C2.
  eexists. split; [done|]. split.
  2:{ simpl. by rewrite (cl_jrn _ _ _ _ C2), (cl_jrn _ _ _ _ C1). }
  apply (jrel_empty (mark f s)); [done|..].
  - apply setInvalidFlag_IsValid.
  - apply C2.
  - rewrite (cl_jrn _ _ _ _ C2). apply C1.
  - rewrite (cl_head _ _ _ _ C2). apply C1.
  - rewrite (cl_size _ _ _ _ C2). apply C1.
  - by apply (clear_all_free _ s1).
Qed.
