(* ===== verification/JournalCheck.v ===== *)
(** * An executable check that a device holds a given journal

    [check_jrel s a] decides, by reading every slot, that the state [s] is a
    well-formed journal with the abstract value [a].  It is what the concrete
    examples evaluate. *)
From S2P Require Import Prelude GoInt GoMonad BlockDev Networking.
From S2P Require Import Journal JournalCodec JournalSlots JournalSpec JournalOps.
Open Scope Z_scope.

#[global] Instance BlockInfo_eq_dec : EqDecision BlockInfo.
Proof. solve_decision. Defined.

Definition all_sections : list section := [BufWrites; CorrBlocks].

Definition check_layout (h : Header) (n : Z) : bool :=
  (n <? 2 ^ 63) &&
  forallb (fun x => (12 <=? slotSize h x) && (slotSize h x <? 2 ^ 32) && (0 <=? slotCount h x))
    all_sections &&
  (GetHeaderByteSize <=? sectionStart h BufWrites) &&
  (sectionStart h BufWrites + slotCount h BufWrites * slotSize h BufWrites
     <=? sectionStart h CorrBlocks) &&
  (sectionStart h CorrBlocks + slotCount h CorrBlocks * slotSize h CorrBlocks <=? n).

(** Slot [i] holds the [i]-th block, or is free past the end of the list. *)
Definition check_slot (s : JState) (x : section) (l : list BlockInfo) (i : nat) : bool :=
  match entry s x (Z.of_nat i), l !! i with
  | Some b, Some b' => bool_decide (b = b') && IsValid b
  | Some b, None => negb (IsValid b)
  | None, _ => false
  end.

Definition check_section (s : JState) (x : section) (l : list BlockInfo) : bool :=
  (used (jrn s) x =? Z.of_nat (length l)) &&
  (Z.of_nat (length l) <=? slotCount (header (jrn s)) x) &&
  forallb (check_slot s x l) (seq 0 (Z.to_nat (slotCount (header (jrn s)) x))).

Definition check_jrel (s : JState) (a : AJournal) : bool :=
  match faults (jdev s) with [] => true | _ => false end &&
  check_layout (header (jrn s)) (dev_size (jdev s)) &&
  bool_decide (wf_header (header (jrn s))) &&
  (magic (header (jrn s)) =? BdrMagic) &&
  bool_decide (decode_header (head_bytes s) = header (jrn s)) &&
  (diskSize (jrn s) =? dev_size (jdev s)) &&
  Bool.eqb (Journal_IsValid (jrn s)) (a_valid a) &&
  forallb (fun x => check_section s x (a_sec a x)) all_sections.

Lemma check_layout_sound h n : check_layout h n = true -> wf_layout h n.
Proof.
  unfold check_layout, all_sections. cbn [forallb]. intros H.
  split; try match goal with |- forall _ : section, _ => intros [] end; lia.
Qed.

Lemma check_section_sound s x l :
  0 <= slotCount (header (jrn s)) x -> check_section s x l = true ->
  holds s x l /\ 0 <= used (jrn s) x <= slotCount (header (jrn s)) x /\
  (forall i, used (jrn s) x <= i < slotCount (header (jrn s)) x -> free s x i).
Proof.
  unfold check_section. intros Hc H. apply andb_prop in H as [H Hf]. apply andb_prop in H as [Hu Hl].
  apply Z.eqb_eq in Hu. apply Z.leb_le in Hl. rewrite forallb_forall in Hf.
  assert (Hs : forall i, (Z.of_nat i < slotCount (header (jrn s)) x) -> check_slot s x l i = true).
  { intros i Hi. apply Hf, in_seq. lia. }
  split; [|split; [lia|]].
  - split; [lia|]. intros i b Hi. pose proof (lookup_lt_Some _ _ _ Hi).
    specialize (Hs i ltac:(lia)). unfold check_slot in Hs.
    destruct (entry s x (Z.of_nat i)) as [b'|]; [|done]. rewrite Hi in Hs.
    apply andb_prop in Hs as [Hb Hv]. apply bool_decide_eq_true in Hb. by subst.
  - intros i Hi. specialize (Hs (Z.to_nat i) ltac:(lia)). unfold check_slot in Hs.
    rewrite Z2Nat.id in Hs by lia. rewrite lookup_ge_None_2 in Hs by lia.
    destruct (entry s x i) as [b|] eqn:E; [|done]. exists b. split; [done|].
    by apply negb_true_iff.
Qed.

Lemma check_jrel_sound s a : check_jrel s a = true -> jrel s a.
Proof.
  unfold check_jrel, all_sections. cbn [forallb]. rewrite !andb_true_iff, !bool_decide_eq_true.
  intros (((((((Hh & Hl) & Hw) & Hm) & Hd) & Hs) & Hv) & Hb & Hc & _).
  apply check_layout_sound in Hl as WL.
  pose proof (check_section_sound s BufWrites _ (wl_count _ _ WL _) Hb) as (Hb1 & Hb2 & Hb3).
  pose proof (check_section_sound s CorrBlocks _ (wl_count _ _ WL _) Hc) as (Hc1 & Hc2 & Hc3).
  split; [|split; [by apply Bool.eqb_prop|by intros []]].
  split; try done.
  - split; [|done]. unfold healthy. by destruct (faults (jdev s)).
  - lia.
  - lia.
  - by intros [].
  - by intros [].
Qed.

(** ** A small journal, used by the examples

    A 256-byte device with three 16-byte slots for buffer writes and six
    24-byte slots for correct blocks, filled with old bytes. *)
Definition demo_dev : Dev := {| content := replicate 256 Byte.x5a; faults := [] |}.

Definition state_of {A} (r : outcome A * JState) : JState := r.2.

Definition demo_journal : Journal :=
  match (NewJournal 48 16 24 demo_dev).1 with
  | Ret j => j
  | _ => mkJournal 0 0 0 (mkHeader 0 0 0 0 0 0 0 0)
  end.

(** Created, reset, with one correct block and one buffer write. *)
Definition demo_block : BlockInfo := {| Offset := 4; Size := 2; Data := [Byte.xaa; Byte.xbb] |}.
Definition demo_write : BlockInfo := {| Offset := 5; Size := 1; Data := [Byte.xcc] |}.

Definition demo_fresh : JState := created demo_journal demo_dev.
Definition demo_empty : JState :=
  state_of (ResetTo (used (jrn demo_fresh) BufWrites) (used (jrn demo_fresh) CorrBlocks) demo_fresh).
Definition demo_state : JState :=
  appended (appended demo_empty CorrBlocks demo_block) BufWrites demo_write.
Definition demo_a : AJournal := mkA false [demo_write] [demo_block].

Lemma demo_jrel : jrel demo_state demo_a.
Proof. apply check_jrel_sound. vm_compute. reflexivity. Qed.
