(* ===== verification/JournalTypes.v ===== *)
(** * The types of the journal

    Go's types bound every field of the journal: [uint64] for header, offsets and
    sizes, [uint32] for the length of a block.  The model has them as [Z], so this
    is a theorem here: whatever bytes the device holds and whichever system calls
    fail, a journal that is opened or created is typed, every operation keeps it
    typed, and what it returns is typed.  [typed I P m] is the judgement: from a
    state with [I], [m] leaves a state with [I] and returns, if it returns, a value
    with [P]; its rules follow the monad. *)
From S2P Require Import Prelude GoInt GoMonad BlockDev Networking Journal JournalSpec JournalCheck.
Open Scope Z_scope.

Definition typed {S A} (I : S -> Prop) (P : A -> Prop) (m : M S A) : Prop :=
  forall s, I s -> I (m s).2 /\ forall a, (m s).1 = Ret a -> P a.

Definition any {A} (_ : A) : Prop := True.

Create HintDb typed.

Section Rules.
Context {S : Type} (I : S -> Prop).

Lemma typed_ret {A} (P : A -> Prop) a : P a -> typed I P (ret a).
Proof. intros Ha s Hs. split; [done|]. by intros a' [= <-]. Qed.
Lemma typed_throw {A} (P : A -> Prop) e : typed I P (@throw S A e).
Proof. by intros s. Qed.
Lemma typed_gets {A} (P : A -> Prop) (f : S -> A) : (forall s, I s -> P (f s)) -> typed I P (gets f).
Proof. intros H s Hs. split; [done|]. intros a [= <-]. by apply H. Qed.
Lemma typed_modify f : (forall s, I s -> I (f s)) -> typed I any (modify f).
Proof. intros H s Hs. split; [by apply H|done]. Qed.
Lemma typed_bind {A B} (Q : A -> Prop) (P : B -> Prop) (m : M S A) (f : A -> M S B) :
  typed I Q m -> (forall a, Q a -> typed I P (f a)) -> typed I P (bind m f).
Proof.
  intros Hm Hf s Hs. destruct (Hm s Hs) as [H1 H2]. unfold bind.
  destruct (m s) as [[a|e|] s']; cbn in *; [|done..]. by apply (Hf a); [apply H2|].
Qed.
Lemma typed_map_err {A} (P : A -> Prop) g (m : M S A) : typed I P m -> typed I P (map_err g m).
Proof. intros H s Hs. destruct (H s Hs). unfold map_err. by destruct (m s) as [[] ?]. Qed.
Lemma typed_lift_opt {A} (P : A -> Prop) o : (forall a, o = Some a -> P a) -> typed I P (@lift_opt S A o).
Proof. intros H s Hs. destruct o; (split; [done|]); [|done]. intros a' [= <-]. by apply H. Qed.
Lemma typed_if {A} (P : A -> Prop) (b : bool) (m1 m2 : M S A) : typed I P m1 -> typed I P m2 -> typed I P (if b then m1 else m2).
Proof. by destruct b. Qed.
Lemma typed_for_range n i body : (forall i, typed I any (body i)) -> typed I any (for_range n i body).
Proof.
  intros H. revert i. induction n as [|n IH]; intros i; cbn [for_range]; [by apply typed_ret|].
  by apply (typed_bind any); [apply H|].
Qed.
Lemma typed_weaken {A} (P Q : A -> Prop) (m : M S A) : (forall a, P a -> Q a) -> typed I P m -> typed I Q m.
Proof. intros HPQ H s Hs. destruct (H s Hs) as [H1 H2]. split; [done|]. intros a Ha. by apply HPQ, H2. Qed.
End Rules.

#[export] Hint Resolve typed_throw typed_modify typed_map_err typed_if typed_for_range : typed.

(** ** The types *)

Record typed_header (h : Header) : Prop := {
  ty_magic : is_u64 (magic h);
  ty_writeSize : is_u64 (bufWriteByteSize h);
  ty_writes : is_u64 (bufWritesCount h);
  ty_writeStart : is_u64 (bufWritesStartOffset h);
  ty_blockSize : is_u64 (corrBlockByteSize h);
  ty_blocks : is_u64 (corrBlocksCount h);
  ty_blockStart : is_u64 (corrBlocksStartOffset h);
  ty_flags : is_u64 (flags h);
}.

Record typed_journal (j : Journal) : Prop := {
  ty_size : is_u64 (diskSize j);
  ty_write : is_u64 (WriteOffset j);
  ty_correct : is_u64 (CorrectOffset j);
  ty_header : typed_header (header j);
}.

(** A block carries as many bytes as it says. *)
Definition typed_block (b : BlockInfo) : Prop :=
  is_u64 (Offset b) /\ is_u32 (Size b) /\ Z.of_nat (length (Data b)) = Size b.

Definition typed_dev (d : Dev) : Prop := is_u64 (dev_size d).
Definition typed_state (s : JState) : Prop := typed_journal (jrn s) /\ typed_dev (jdev s).

(** ** System calls *)

Lemma typed_syscall d : dev_size (syscall d).2 = dev_size d.
Proof. unfold syscall. by destruct (faults d). Qed.

Lemma typed_OpenFile : typed typed_dev any OpenFile.
Proof.
  intros d Hd. split; [|done]. unfold OpenFile, sys_unit. pose proof (typed_syscall d) as E.
  destruct (syscall d) as [[|n e] d']; unfold typed_dev; cbn in *; by rewrite E.
Qed.

Lemma typed_Sync : typed typed_dev any Sync.
Proof. exact typed_OpenFile. Qed.

Lemma typed_WriteAt b off : typed typed_dev any (WriteAt b off).
Proof. intros d Hd. split; [|done]. unfold typed_dev. by rewrite WriteAt_size. Qed.

Lemma typed_ReadAt n off : typed typed_dev any (ReadAt n off).
Proof.
  intros d Hd. split; [|done]. unfold ReadAt. destruct (off <? 0); [done|]. destruct n as [|n]; [done|].
  pose proof (typed_syscall d) as E. destruct (syscall d) as [[|k e] d']; unfold typed_dev; cbn in *; by rewrite E.
Qed.

Lemma typed_GetDeviceSize : typed typed_dev is_u64 GetDeviceSize.
Proof.
  unfold GetDeviceSize. apply (typed_bind _ any); [apply typed_OpenFile|]. intros _ _ d Hd.
  pose proof (typed_syscall d) as E. destruct (syscall d) as [[|k e] d']; unfold typed_dev in *; cbn in *;
    rewrite E; (split; [done|]); [by intros a [= <-]|done].
Qed.

Lemma typed_on_dev {A} (P : A -> Prop) (m : M Dev A) : typed typed_dev P m -> typed typed_state P (on_dev m).
Proof.
  intros H s [Hj Hd]. destruct (H _ Hd) as [H1 H2]. unfold on_dev, zoom.
  by destruct (m (jdev s)) as [r d].
Qed.

#[export] Hint Resolve typed_Sync typed_WriteAt typed_ReadAt typed_on_dev : typed.

(** ** Header *)

Lemma be_get_width n l : (length l <= n)%nat -> (n <= 8)%nat -> 0 <= be_get l < 256 ^ Z.of_nat n.
Proof.
  intros Hl Hn. pose proof (be_get_acc_bound 0 l ltac:(lia)) as B. unfold be_get. split; [lia|].
  apply (Z.lt_le_trans _ (256 ^ Z.of_nat (length l))); [lia|]. apply Z.pow_le_mono_r; lia.
Qed.

Lemma be_get_sub_u64 o b : is_u64 (be_get (sub o 8 b)).
Proof. apply (be_get_width 8); [|lia]. unfold sub. rewrite length_take. lia. Qed.

Lemma decode_typed b : typed_header (decode_header b).
Proof. split; apply be_get_sub_u64. Qed.

Lemma typed_ReadHeader : typed typed_dev typed_header ReadHeader.
Proof.
  apply (typed_bind _ any); [apply typed_ReadAt|]. intros [b [e|]] _; [apply typed_throw|].
  apply typed_ret, decode_typed.
Qed.

Lemma typed_set_flags f h : is_u64 f -> typed_header h -> typed_header (set_flags f h).
Proof. intros Hf []. by split. Qed.

Lemma flag_set_typed h : typed_header h -> typed_header (setValidFlag h).
Proof. intros H. apply typed_set_flags; [|done]. by apply flag_or_u64, H. Qed.

Lemma flag_clear_typed h : typed_header h -> typed_header (setInvalidFlag h).
Proof. intros H. apply typed_set_flags; [|done]. by apply flag_and_u64, H. Qed.

(** ** Operations on an open journal *)

Lemma typed_header_of (P : Header -> Prop) :
  (forall h, typed_header h -> P h) -> typed typed_state P (gets (fun s => header (jrn s))).
Proof. intros H. apply typed_gets. intros s [[] _]. by apply H. Qed.

Lemma typed_WriteHeader : typed typed_state any WriteHeader.
Proof.
  apply (typed_bind _ any); [by apply typed_gets|]. intros h _.
  apply (typed_bind _ any); [auto with typed|]. intros _ _. auto with typed.
Qed.

Lemma typed_flagged f : (forall h, typed_header h -> typed_header (f h)) ->
  typed typed_state any (modify (set_jrn (fun j => set_header (f (header j)) j)) ;;; WriteHeader).
Proof.
  intros Hf. apply (typed_bind _ any); [|intros; apply typed_WriteHeader].
  apply typed_modify. intros s [[? ? ? Hh] Hd]. split; [|done]. split; try done. by apply Hf.
Qed.

Lemma typed_Validate : typed typed_state any Validate.
Proof. apply typed_flagged, flag_set_typed. Qed.
Lemma typed_Invalidate : typed typed_state any Invalidate.
Proof. apply typed_flagged, flag_clear_typed. Qed.

Lemma typed_WriteSlot x i b : typed typed_state any (WriteSlot x i b).
Proof.
  apply (typed_bind _ any); [by apply typed_gets|]. intros h _. apply typed_if; [apply typed_throw|].
  apply (typed_bind _ any); [by apply typed_lift_opt|]. intros data _.
  apply (typed_bind _ any); [auto with typed|]. intros _ _. auto with typed.
Qed.

Lemma length_slice b lo hi d : slice b lo hi = Some d -> Z.of_nat (length d) <= hi - lo.
Proof.
  unfold slice. destruct (_ && _) eqn:E; [|done]. intros [= <-].
  apply andb_true_iff in E as [[_ E]%andb_true_iff _]. unfold sub. rewrite length_take. lia.
Qed.

Lemma deserialize_typed buf b : deserialize buf = Some b -> typed_block b.
Proof.
  unfold deserialize. intros (o & Eo & (z & Ez & E)%bind_Some)%bind_Some.
  apply length_slice in Eo, Ez.
  pose proof (be_get_width 8 o ltac:(lia) ltac:(lia)) as H1. pose proof (be_get_width 4 z ltac:(lia) ltac:(lia)) as H2.
  change (256 ^ Z.of_nat 8) with (2 ^ 64) in H1. change (256 ^ Z.of_nat 4) with (2 ^ 32) in H2.
  destruct (0 <? be_get z) eqn:Es.
  - apply bind_Some in E as (d & Ed & (data & Ec & [= <-])%bind_Some). split; [done|split; [done|]]. cbn.
    unfold copy_into in Ec. rewrite length_replicate in Ec. destruct (_ && _) eqn:Eg; [|done]. injection Ec as <-.
    rewrite length_splice; rewrite length_replicate; [lia|]. rewrite length_take. lia.
  - injection E as <-. apply Z.ltb_ge in Es. split; [done|split; [done|]]. cbn. lia.
Qed.

Lemma typed_ReadSlot x i : typed typed_state typed_block (ReadSlot x i).
Proof.
  apply (typed_bind _ any); [by apply typed_gets|]. intros h _. apply typed_if; [apply typed_throw|].
  apply (typed_bind _ any); [auto with typed|]. intros [data [e|]] _; [apply typed_throw|].
  apply typed_lift_opt, deserialize_typed.
Qed.

Lemma typed_clear_slots x n : typed typed_state any (clear_slots x n).
Proof.
  apply (typed_bind _ any); [by apply typed_gets|]. intros h _.
  apply (typed_bind _ any); [by apply typed_lift_opt|]. intros data _. auto with typed.
Qed.

Lemma typed_ClearSectionTo x n : typed typed_state any (ClearSectionTo x n).
Proof.
  apply (typed_bind _ any); [by apply typed_gets|]. intros h _.
  apply typed_if; [apply typed_throw|apply typed_clear_slots].
Qed.

Lemma typed_ClearSection x : typed typed_state any (ClearSection x).
Proof. apply (typed_bind _ any); [by apply typed_gets|]. intros h _. apply typed_clear_slots. Qed.

Lemma typed_offsets w c : is_u64 w -> is_u64 c -> typed typed_state any (modify (set_jrn (set_offsets w c))).
Proof. intros Hw Hc. apply typed_modify. intros s [[] Hd]. split; [|done]. by split. Qed.

(** The number of a slot that is returned is inside its section. *)
Lemma typed_find_available x n i : typed typed_state (fun k => i <= k < i + Z.of_nat n) (find_available x n i).
Proof.
  revert i. induction n as [|n IH]; intros i; cbn [find_available]; [apply typed_throw|].
  apply (typed_bind _ typed_block); [apply typed_ReadSlot|]. intros b _. apply typed_if.
  - apply typed_ret. lia.
  - eapply typed_weaken; [|apply IH]. cbn. lia.
Qed.

Lemma typed_FindFirstAvailable x : typed typed_state is_u64 (FindFirstAvailable x).
Proof.
  apply (typed_bind _ (fun h => is_u64 (slotCount h x))); [apply typed_header_of; intros h []; by destruct x|].
  intros h Hh. eapply typed_weaken; [|apply typed_find_available]. cbn. width_tac.
Qed.

Lemma typed_with_find j x :
  typed_journal j -> typed typed_dev (fun a => 0 <= a.1 < slotCount (header j) x) (with_journal j (FindFirstAvailable x)).
Proof.
  intros Hj d Hd. destruct (typed_find_available x (Z.to_nat (slotCount (header j) x)) 0 (mkJState d j) (conj Hj Hd))
    as [[_ H1] H2]. unfold with_journal, FindFirstAvailable, bind, gets. cbn [jrn].
  destruct (find_available _ _ _ _) as [[a|e|] s]; cbn in *; (split; [done|]); [|done..].
  intros b [= <-]. cbn. specialize (H2 a eq_refl). destruct Hj as [_ _ _ []]. destruct x; cbn in *; width_tac.
Qed.

(** ** Opening and creating *)

(** Inside the sections, at a free slot. *)
Definition opened (j : Journal) : Prop :=
  typed_journal j /\ WriteOffset j < slotCount (header j) BufWrites /\ CorrectOffset j < slotCount (header j) CorrBlocks.

Lemma typed_OpenJournal : typed typed_dev opened OpenJournal.
Proof.
  apply (typed_bind _ any); [apply typed_OpenFile|]. intros _ _.
  apply (typed_bind _ typed_header); [apply typed_ReadHeader|]. intros h Hh. apply typed_if; [apply typed_throw|].
  apply (typed_bind _ is_u64); [apply typed_GetDeviceSize|]. intros n Hn.
  assert (Hj : typed_journal {| diskSize := n; WriteOffset := 0; CorrectOffset := 0; header := h |}) by by split.
  eapply typed_bind; [apply (typed_with_find _ BufWrites Hj)|]. intros w Hw.
  eapply typed_bind; [apply (typed_with_find _ CorrBlocks Hj)|]. intros c Hc.
  apply typed_ret. destruct Hh. cbn in *. repeat split; cbn; width_tac.
Qed.

Lemma div_u64 a b : is_u64 a -> is_u64 b -> is_u64 (a / b).
Proof.
  intros [Ha1 Ha2] [Hb _]. destruct (decide (b = 0)) as [->|]; [by rewrite Z.div_0_r|].
  split; [apply Z.div_pos; lia|]. apply (Z.le_lt_trans _ a); [|done]. apply Z.div_le_upper_bound; nia.
Qed.

Lemma typed_NewJournal a b c :
  is_u64 a -> is_u64 b -> is_u64 c -> typed typed_dev typed_journal (NewJournal a b c).
Proof.
  intros Ha Hb Hc. apply (typed_bind _ any); [apply typed_OpenFile|]. intros _ _.
  apply (typed_bind _ is_u64); [apply typed_GetDeviceSize|]. intros n Hn.
  apply typed_if; [apply typed_throw|]. apply typed_if; [apply typed_throw|]. apply typed_ret.
  pose proof u64_range as U. split; cbn; [done|by apply div_u64|by apply div_u64|].
  split; cbn; try done; by apply div_u64.
Qed.

(** ** Every operation *)

(** The methods of [*Journal]. *)
Inductive journal_op :=
| OpValidate | OpInvalidate | OpResetTo (w c : Z) | OpReset | OpInitWithoutClearing | OpInit
| OpWrite (x : section) (i : Z) (b : BlockInfo) | OpRead (x : section) (i : Z)
| OpFind (x : section) | OpClear (x : section) | OpClearTo (x : section) (n : Z) | OpClose.

(** What they return: nothing, a block, the number of a slot. *)
Definition op_result : Type := unit + BlockInfo + Z.

Definition nothing (m : M JState unit) : M JState op_result := m ;;; ret (inl (inl tt)).
Definition op_run (o : journal_op) : M JState op_result :=
  match o with
  | OpValidate => nothing Validate
  | OpInvalidate => nothing Invalidate
  | OpResetTo w c => nothing (ResetTo w c)
  | OpReset => nothing Reset
  | OpInitWithoutClearing => nothing InitWithoutClearing
  | OpInit => nothing Init
  | OpWrite x i b => nothing (WriteSlot x i b)
  | OpRead x i => b <- ReadSlot x i ;; ret (inl (inr b))
  | OpFind x => i <- FindFirstAvailable x ;; ret (inr i)
  | OpClear x => nothing (ClearSection x)
  | OpClearTo x n => nothing (ClearSectionTo x n)
  | OpClose => nothing Close
  end.

Definition typed_result (r : op_result) : Prop :=
  match r with inl (inl _) => True | inl (inr b) => typed_block b | inr i => is_u64 i end.

(** A sequence of operations, each called whatever the one before returned,
    unless it panicked. *)
Fixpoint ops_run (os : list journal_op) (s : JState) : list (outcome op_result) * JState :=
  match os with
  | [] => ([], s)
  | o :: os =>
      match op_run o s with
      | (Panic, s) => ([Panic], s)
      | (r, s) => let '(rs, s) := ops_run os s in (r :: rs, s)
      end
  end.

Lemma typed_nothing m : typed typed_state any m -> typed typed_state typed_result (nothing m).
Proof. intros H. apply (typed_bind _ any); [done|]. intros _ _. by apply typed_ret. Qed.

Lemma op_typed o : typed typed_state typed_result (op_run o).
Proof.
  destruct o; cbn [op_run]; try apply typed_nothing.
  - apply typed_Validate.
  - apply typed_Invalidate.
  - apply (typed_bind _ any); [apply typed_Invalidate|]. intros _ _.
    apply (typed_bind _ any); [apply typed_ClearSectionTo|]. intros _ _.
    apply (typed_bind _ any); [apply typed_ClearSectionTo|]. intros _ _. by apply typed_offsets.
  - apply (typed_bind _ any); [apply typed_Invalidate|]. intros _ _.
    apply (typed_bind _ any); [apply typed_ClearSection|]. intros _ _.
    apply (typed_bind _ any); [apply typed_ClearSection|]. intros _ _. by apply typed_offsets.
  - apply typed_Invalidate.
  - apply (typed_bind _ any); [apply typed_ClearSection|]. intros _ _.
    apply (typed_bind _ any); [apply typed_ClearSection|]. intros _ _. apply typed_Invalidate.
  - apply typed_WriteSlot.
  - apply (typed_bind _ typed_block); [apply typed_ReadSlot|]. intros b Hb. by apply typed_ret.
  - apply (typed_bind _ is_u64); [apply typed_FindFirstAvailable|]. intros i Hi. by apply typed_ret.
  - apply typed_ClearSection.
  - apply typed_ClearSectionTo.
  - apply typed_on_dev, typed_Sync.
Qed.

(** C26: the journal is typed.  Whatever bytes the device holds and whichever of its
    system calls fail: a journal that is opened, or created with [uint64]
    arguments, and then used by any sequence of the methods of the package keeps
    every field in the range of its Go type; an opened one stands at a slot of each
    section; every block that is read is a [uint64] offset, a [uint32] size and as
    many bytes; and every slot number found fits a [uint64]. *)
Theorem journal_typed (open : M Dev Journal) d j d' ops rs s :
  typed_dev d ->
  (open = OpenJournal \/ exists a b c, is_u64 a /\ is_u64 b /\ is_u64 c /\ open = NewJournal a b c) ->
  open d = (Ret j, d') -> ops_run ops (mkJState d' j) = (rs, s) ->
  (open = OpenJournal -> WriteOffset j < slotCount (header j) BufWrites /\ CorrectOffset j < slotCount (header j) CorrBlocks) /\
  typed_journal j /\ typed_journal (jrn s) /\ forall r, Ret r ∈ rs -> typed_result r.
Proof.
  intros Hd Ho E R. assert (H : typed_journal j /\ typed_dev d').
  { destruct Ho as [->|(a & b & c & Ha & Hb & Hc & ->)].
    - destruct (typed_OpenJournal d Hd) as [H1 H2]. rewrite E in H1, H2. by destruct (H2 j eq_refl).
    - destruct (typed_NewJournal a b c Ha Hb Hc d Hd) as [H1 H2]. rewrite E in H1, H2. by split; [apply H2|]. }
  split; [|split; [by apply H|]].
  { intros ->. destruct (typed_OpenJournal d Hd) as [_ H2]. rewrite E in H2. by destruct (H2 j eq_refl). }
  assert (Hs : typed_state (mkJState d' j)) by done. clear E H Ho. revert Hs R. generalize (mkJState d' j). revert rs.
  induction ops as [|o ops IH]; intros rs s0 Hs; cbn.
  { intros [= <- <-]. split; [apply Hs|]. intros r Hr. by apply elem_of_nil in Hr. }
  destruct (op_typed o s0 Hs) as [H1 H2]. destruct (op_run o s0) as [r s1]. cbn in H1, H2.
  destruct r as [a|e|].
  3:{ intros [= <- <-]. split; [apply H1|]. intros r Hr. by apply list_elem_of_singleton in Hr. }
  all: destruct (ops_run ops s1) as [rs' s2] eqn:E; intros [= <- <-]; destruct (IH rs' s1 H1 E) as [Hj Hr].
  all: split; [done|]; intros r [Er|Er]%elem_of_cons; [|by apply Hr]; simplify_eq; by apply H2.
Qed.

(** A journal on a device whose ninth system call fails. *)
Definition demo_faulty : Dev :=
  {| content := content (jdev demo_state); faults := replicate 8 NoFault ++ [Fault 1 ErrIOFailure] |}.

Lemma demo_faulty_typed : typed_dev demo_faulty.
Proof. vm_compute. split; [discriminate|reflexivity]. Qed.

Lemma journal_typed_witness :
  exists j d' rs s, OpenJournal demo_faulty = (Ret j, d') /\
    ops_run [OpRead BufWrites 0; OpValidate; OpRead BufWrites 0; OpFind CorrBlocks] (mkJState d' j) = (rs, s) /\
    rs !! 2%nat = Some (Ret (inl (inr demo_write))) /\ typed_journal (jrn s) /\ typed_block demo_write.
Proof.
  destruct (OpenJournal demo_faulty) as [[j|e|] d'] eqn:E; [|vm_compute in E; discriminate E..].
  destruct (ops_run [OpRead BufWrites 0; OpValidate; OpRead BufWrites 0; OpFind CorrBlocks] (mkJState d' j)) as [rs s] eqn:R.
  destruct (journal_typed OpenJournal demo_faulty j d' _ rs s demo_faulty_typed (or_introl eq_refl) E R)
    as (_ & _ & Hs & Hr).
  assert (Hw : rs !! 2%nat = Some (Ret (inl (inr demo_write)))).
  { change rs with (rs, s).1. rewrite <- R. change d' with (Ret j, d').2.
    vm_compute in E. injection E as <- <-. vm_compute. reflexivity. }
  exists j, d', rs, s. split_and!; [done..|]. apply (Hr (inl (inr demo_write))). by apply list_elem_of_lookup_2 in Hw.
Defined.
