(* ===== verification/JournalSafe.v ===== *)
(** * A journal that no operation makes the server panic on

    Reading a slot slices a buffer by a size read from the device, and writing
    one copies a block into a slot: both panic when the size does not fit.  A
    journal is [safe] when every slot, used or not, can be read; the operations
    of a session keep a safe journal safe and do not panic on it, whatever the
    other calls of the session do. *)
From S2P Require Import Prelude GoInt GoMonad BlockDev Networking.
From S2P Require Import Journal JournalCodec JournalSlots JournalSpec JournalOps JournalTypes.
Open Scope Z_scope.

(** The number of slots fits its field, and so does an index after the last. *)
Lemma count_u64 h n x i : wf_layout h n -> 0 <= i < slotCount h x -> is_u64 (i + 1).
Proof.
  intros W Hi. pose proof (slot_bounds h n W x i Hi) as [_ H2].
  pose proof (slot_bounds h n W x 0 ltac:(unfold in_range; lia)) as [H1 _].
  pose proof (wl_dev _ _ W). pose proof (wl_slot _ _ W x).
  unfold slot_pos, GetHeaderByteSize, is_u64 in *. nia.
Qed.

(** ** Safe journals *)

(** [g] is the layout of the journal, [n] the size of its device; only the flags
    of the header change. *)
Record safe (g : Header) (n : Z) (s : JState) : Prop := {
  sf_wf : wf_js s;
  sf_dev : dev_size (jdev s) = n;
  sf_layout : header (jrn s) = set_flags (flags (header (jrn s))) g;
  sf_used : forall x, 0 <= used (jrn s) x <= slotCount g x;
  sf_read : forall x i, in_range g x i -> is_Some (entry s x i);
}.

Section Safe.
Context (g : Header) (n : Z).

Lemma safe_range s x i : safe g n s -> in_range (header (jrn s)) x i <-> in_range g x i.
Proof using. intros S. unfold in_range. by rewrite (sf_layout _ _ _ S), slotCount_set_flags. Qed.

Lemma safe_slotSize s x : safe g n s -> slotSize (header (jrn s)) x = slotSize g x.
Proof using. intros S. by rewrite (sf_layout _ _ _ S), slotSize_set_flags. Qed.

Lemma safe_slotCount s x : safe g n s -> slotCount (header (jrn s)) x = slotCount g x.
Proof using. intros S. by rewrite (sf_layout _ _ _ S), slotCount_set_flags. Qed.

(** ** Marking *)

Lemma dev_size_mark f s : wf_js s -> dev_size (jdev (mark f s)) = dev_size (jdev s).
Proof using.
  intros W. pose proof (dev_holds_head _ W). unfold mark, put_head, set_jdev; simpl.
  rewrite dev_size_poke; [done|lia|]. rewrite length_header_bytes. unfold GetHeaderByteSize in *. simpl. lia.
Qed.

Lemma safe_mark f s : safe g n s -> safe g n (mark f s).
Proof using.
  intros S. pose proof (sf_wf _ _ _ S) as W. split.
  - by apply wf_mark.
  - rewrite dev_size_mark by done. apply S.
  - cbn. by rewrite (sf_layout _ _ _ S).
  - intros x. pose proof (sf_used _ _ _ S x). by destruct x.
  - intros x i Hi. unfold entry. rewrite slot_mark by (by rewrite ?(safe_range s)). by apply S.
Qed.

Lemma calm_Validate : calm (safe g n) Validate.
Proof using. intros s S. rewrite Validate_eq by apply S. by split; [apply safe_mark|]. Qed.
Lemma calm_Invalidate : calm (safe g n) Invalidate.
Proof using. intros s S. rewrite Invalidate_eq by apply S. by split; [apply safe_mark|]. Qed.

(** ** Reading and writing a slot *)

Lemma calm_ReadSlot x i : 0 <= i -> calm_with (safe g n) typed_block (ReadSlot x i).
Proof using.
  intros Hi s S. destruct (decide (in_range g x i)) as [Hr|Hr].
  - rewrite ReadSlot_eq by (apply S || by rewrite (safe_range s)).
    destruct (sf_read _ _ _ S x i Hr) as [b Hb]. rewrite Hb. split; [done|]. by eapply deserialize_typed.
  - unfold ReadSlot. erewrite bind_Ret by done. rewrite (safe_slotCount s) by done.
    destruct (_ <=? i) eqn:E; [done|]. unfold in_range in Hr. lia.
Qed.

(** A block that goes into a slot. *)
Definition storable (x : section) (b : BlockInfo) : Prop := sendable b /\ 12 + Size b <= slotSize g x.

Lemma WriteSlot_trim x i b s : sendable b -> WriteSlot x i (trim b) s = WriteSlot x i b s.
Proof using. intros Hb. unfold WriteSlot, bind, gets. case_match; [done|]. by rewrite serialize_trim. Qed.

Lemma safe_put_slot x i b s :
  safe g n s -> in_range g x i -> fits_slot s x b ->
  safe g n (put_slot x i (slot_bytes (slotSize (header (jrn s)) x) b) s).
Proof using.
  intros S Hi Hf. pose proof (sf_wf _ _ _ S) as W. pose proof (length_slot_image s W x _ Hf) as Hl.
  assert (Hr : in_range (header (jrn s)) x i) by (by rewrite (safe_range s)).
  split.
  - by apply wf_put_slot.
  - rewrite <- (sf_dev _ _ _ S). unfold put_slot; simpl. apply dev_size_poke.
    + pose proof (slot_bounds _ _ (proj2 W) x i Hr) as [? _]. unfold GetHeaderByteSize in *. lia.
    + rewrite Hl. by apply (slot_bounds _ _ (proj2 W)).
  - apply S.
  - apply S.
  - intros y k Hk. destruct (decide ((x, i) = (y, k))) as [[= <- <-]|Hne].
    + exists b. by apply entry_put_same.
    + unfold entry. rewrite slot_put_other by (try done; by rewrite (safe_range s)). by apply S.
Qed.

(** A write at the first free slot succeeds and can be counted, or there is no
    slot left and nothing changes. *)
Lemma WriteSlot_used x b s :
  safe g n s -> storable x b ->
  (exists s', WriteSlot x (used (jrn s) x) b s = (Ret tt, s') /\ jrn s' = jrn s /\ safe g n s' /\
     safe g n (set_jrn (bump x) s')) \/
  WriteSlot x (used (jrn s) x) b s = (Err ErrInvalidSize, s).
Proof using.
  intros S [Hs Hb]. pose proof (sf_used _ _ _ S x) as Hu.
  destruct (decide (used (jrn s) x < slotCount g x)) as [Hlt|].
  2:{ right. apply WriteSlot_full. rewrite (safe_slotCount s) by done. lia. }
  left. assert (Hf : fits_slot s x (trim b)) by (split; [by apply trim_wf|by rewrite (safe_slotSize s)]).
  assert (Hi : in_range g x (used (jrn s) x)) by (unfold in_range; lia).
  pose proof (safe_put_slot x _ _ s S Hi Hf) as S'.
  eexists. rewrite <- WriteSlot_trim by done. rewrite WriteSlot_eq by (apply S || done || by rewrite (safe_range s)).
  split; [done|]. split; [done|]. split; [done|]. destruct S' as [W' D' L' U' R']. split; try done.
  - destruct W' as [W1 W2]. split; [done|]. cbn. rewrite bump_header. exact W2.
  - cbn. rewrite bump_header. exact L'.
  - intros y. cbn in *. rewrite bump_used.
    + case_decide; [subst; lia|apply U'].
    + by apply (count_u64 (header (jrn s)) (dev_size (jdev s)) x); [apply S|rewrite (safe_slotCount s)].
  - intros y i Hy. specialize (R' y i Hy). unfold entry, slot in *. cbn in *. by rewrite bump_header.
Qed.

(** ** Resetting *)

Lemma safe_cleared x k s s' : safe g n s -> cleared x k s s' -> safe g n s'.
Proof using.
  intros S [C1 C2 C3 C4 C5 C6]. split; [done| | | |].
  - rewrite C4. apply S.
  - rewrite C2. apply S.
  - rewrite C2. apply S.
  - intros y i Hi. destruct (decide (y = x /\ i < k)) as [[-> Hk]|Hn].
    + exists GetInvalidBlock. apply C5. unfold in_range in Hi. lia.
    + unfold entry. rewrite C6; [by apply S|by rewrite (safe_range s)|]. intros ->. apply Z.nlt_ge. intros ?. by apply Hn.
Qed.

Lemma safe_offsets s : safe g n s -> safe g n (set_jrn (set_offsets 0 0) s).
Proof using.
  intros [W D L U R]. split; try done. intros x. pose proof (U x). destruct x; cbn in *; lia.
Qed.

Lemma safe_ResetTo s :
  safe g n s -> exists s', ResetTo (WriteOffset (jrn s)) (CorrectOffset (jrn s)) s = (Ret tt, s') /\ safe g n s'.
Proof using.
  intros S. unfold ResetTo.
  set (f := Z.land (flags (header (jrn s))) (2 ^ 64 - 1 - JournalValidFlag)).
  rewrite (bind_Ret _ _ _ tt (mark f s)) by (apply Invalidate_eq, S).
  pose proof (safe_mark f s S) as S0.
  destruct (ClearSectionTo_spec (mark f s) BufWrites (used (jrn s) BufWrites) (sf_wf _ _ _ S0)) as (s1 & E1 & C1).
  { rewrite (safe_slotCount (mark f s)) by done. apply S. }
  unfold ClearWriteSectionTo. rewrite (bind_Ret _ _ _ _ _ E1). pose proof (safe_cleared _ _ _ _ S0 C1) as S1.
  destruct (ClearSectionTo_spec s1 CorrBlocks (used (jrn s) CorrBlocks) (sf_wf _ _ _ S1)) as (s2 & E2 & C2).
  { rewrite (safe_slotCount s1) by done. apply S. }
  unfold ClearCorrectBlockSectionTo. rewrite (bind_Ret _ _ _ _ _ E2).
  eexists. split; [done|]. apply safe_offsets. by eapply safe_cleared.
Qed.
End Safe.
