(* ===== verification/JournalProps.v ===== *)
(** * Properties of the journal

    The claims about package [journal], each with a concrete instance on the
    small journal of [JournalCheck]. *)
From S2P Require Import Prelude GoInt GoMonad BlockDev Networking.
From S2P Require Import Journal JournalCodec JournalSlots JournalSpec JournalOps JournalCheck.
Open Scope Z_scope.

(** The header written by [WriteHeader] is the header [ReadHeader] returns,
    whatever else the device holds. *)
Theorem header_roundtrip s :
  wf_js s -> wf_header (header (jrn s)) ->
  exists s', WriteHeader s = (Ret tt, s') /\
    ReadHeader (jdev s') = (Ret (header (jrn s)), jdev s') /\
    jrn s' = jrn s /\
    forall x i, in_range (header (jrn s)) x i -> slot s' x i = slot s x i.
Proof.
  intros W Hw. eexists. split; [by apply WriteHeader_eq|].
  pose proof (wf_put_head s W _ (length_header_bytes (header (jrn s)))) as W'.
  split; [|split; [done|]].
  - unfold ReadHeader.
    rewrite (bind_Ret _ _ _ (header_bytes (header (jrn s)), None)
               (jdev (put_head (header_bytes (header (jrn s))) s))).
    + unfold ret. by rewrite decode_header_bytes.
    + rewrite ReadAt_healthy; [|apply W'|lia|apply dev_holds_head, W'].
      change (Z.to_nat 0) with 0%nat.
      pose proof (head_put_head s W _ (length_header_bytes (header (jrn s)))) as E.
      unfold head_bytes in E. by rewrite E.
  - intros x i Hi. apply slot_put_head; [done|done|apply length_header_bytes].
Qed.

Lemma header_roundtrip_witness :
  exists s', WriteHeader demo_state = (Ret tt, s') /\
    ReadHeader (jdev s') = (Ret (header (jrn demo_state)), jdev s') /\
    jrn s' = jrn demo_state /\
    forall x i, in_range (header (jrn demo_state)) x i -> slot s' x i = slot demo_state x i.
Proof. apply (header_roundtrip demo_state); apply demo_jrel. Defined.

(** A block that fits its slot is read back from it, a shorter [Data] than
    [Size] being padded with zeros and a longer one cut. *)
Theorem block_roundtrip b n :
  is_u64 (Offset b) -> is_u32 (Size b) -> is_u32 (Z.of_nat (length (Data b))) ->
  12 + Size b <= n < 2 ^ 32 ->
  exists buf, serialize b (zeros n) = Some buf /\ Z.of_nat (length buf) = n /\
    deserialize buf =
      Some {| Offset := Offset b; Size := Size b;
              Data := take (Z.to_nat (Size b)) (Data b ++ zeros (Size b)) |}.
Proof.
  intros Ho Hs Hd Hn.
  set (b' := {| Offset := Offset b; Size := Size b;
                Data := take (Z.to_nat (Size b)) (Data b ++ zeros (Size b)) |}).
  assert (Hwf : wf_block b').
  { split; [done|split; [done|]]. unfold b'; simpl.
    rewrite length_take, length_app, length_zeros. width_tac. }
  assert (Hlen : (length (slot_data b) <= Z.to_nat (Size b))%nat)
    by (unfold slot_data; rewrite length_take; lia).
  assert (E : slot_bytes n b = slot_bytes n b').
  { unfold slot_bytes. f_equal. rewrite (slot_data_wf b') by done.
    unfold b' at 1 2; simpl. unfold slot_data in *. rewrite length_take in *.
    rewrite take_app, <- app_assoc. f_equal.
    unfold zeros. rewrite take_replicate, <- replicate_add, length_app, !length_replicate, length_take.
    f_equal. width_tac. }
  exists (slot_bytes n b). split; [|split].
  - apply serialize_Some; [done|done|]. width_tac.
  - rewrite length_slot_bytes by width_tac. width_tac.
  - rewrite E. apply deserialize_slot_bytes; [done|]. by simpl.
Qed.

Lemma block_roundtrip_witness :
  exists buf, serialize (mkBlock 7 3 [Byte.x01]) (zeros 16) = Some buf /\ Z.of_nat (length buf) = 16 /\
    deserialize buf = Some (mkBlock 7 3 (take 3 ([Byte.x01] ++ zeros 3))).
Proof. apply (block_roundtrip (mkBlock 7 3 [Byte.x01]) 16); simpl; width_tac. Defined.

(** Serializing a well-formed block panics exactly when the block does not
    fit the slot. *)
Theorem serialize_panics_iff b n :
  wf_block b -> 12 <= n < 2 ^ 32 -> (serialize b (zeros n) = None <-> n < 12 + Size b).
Proof.
  intros Hwf Hn. pose proof Hwf as (_ & Hs & Hd). split.
  - intros E. destruct (decide (n < 12 + Size b)); [done|].
    rewrite serialize_wf in E by (done || lia). done.
  - intros Hlt. apply serialize_None; [done|width_tac|done|].
    rewrite length_slot_data_wf by done. width_tac.
Qed.

Lemma serialize_panics_iff_witness :
  serialize (mkBlock 0 5 (zeros 5)) (zeros 16) = None <-> 16 < 12 + 5.
Proof. apply (serialize_panics_iff (mkBlock 0 5 (zeros 5)) 16); [by vm_compute|lia]. Defined.

(** Deserializing a slot panics exactly when the stored size exceeds the
    room after the two integers, wrap-around of [12+Size] included. *)
Theorem deserialize_panics_iff buf :
  (12 <= length buf)%nat -> Z.of_nat (length buf) < 2 ^ 32 ->
  (deserialize buf = None <-> Z.of_nat (length buf) < 12 + slot_size buf).
Proof.
  intros H1 H2. rewrite deserialize_eq by done. case_decide; split; intros; done || lia.
Qed.

Lemma deserialize_panics_iff_witness :
  deserialize (replicate 16 Byte.xff) = None <-> 16 < 12 + slot_size (replicate 16 Byte.xff).
Proof. apply (deserialize_panics_iff (replicate 16 Byte.xff)); [simpl; lia|simpl; lia]. Defined.

(** C24: in a journal laid out by [NewJournal] a slot write succeeds, is read
    back, and changes neither another slot of either section nor the header. *)
Theorem slot_write_read s x i b :
  wf_js s -> in_range (header (jrn s)) x i -> fits_slot s x b ->
  exists s', WriteSlot x i b s = (Ret tt, s') /\ wf_js s' /\
    ReadSlot x i s' = (Ret b, s') /\
    (forall y k, in_range (header (jrn s)) y k -> (x, i) <> (y, k) ->
       (ReadSlot y k s').1 = (ReadSlot y k s).1) /\
    head_bytes s' = head_bytes s.
Proof.
  intros W Hi Hfit. pose proof (length_slot_image s W x b Hfit) as Hlen.
  pose proof (wf_put_slot s W x i _ Hi Hlen) as W'.
  eexists. split; [by apply WriteSlot_eq|]. split; [done|]. split; [|split].
  - rewrite ReadSlot_eq by done. by rewrite entry_put_same.
  - intros y k Hk Hne. rewrite !ReadSlot_eq by done. unfold entry.
    by rewrite slot_put_other.
  - by apply head_put_slot.
Qed.

Lemma slot_write_read_witness :
  exists s', WriteSlot BufWrites 2 demo_write demo_state = (Ret tt, s') /\ wf_js s' /\
    ReadSlot BufWrites 2 s' = (Ret demo_write, s') /\
    (forall y k, in_range (header (jrn demo_state)) y k -> (BufWrites, 2) <> (y, k) ->
       (ReadSlot y k s').1 = (ReadSlot y k demo_state).1) /\
    head_bytes s' = head_bytes demo_state.
Proof.
  apply (slot_write_read demo_state BufWrites 2 demo_write).
  - apply demo_jrel.
  - vm_compute. done.
  - vm_compute. done.
Defined.

(** C25: [NewJournal] computes section geometry without overlap: every slot of
    either section lies between the header and the end of the device, distinct
    slots are disjoint, and the offset the code computes modulo [2^64] and
    converts to [int64] is the slot's position. *)
Theorem NewJournal_geometry sec bsz csz d j d' :
  healthy d -> GetHeaderByteSize <= dev_size d < 2 ^ 63 ->
  0 < sec <= dev_size d - GetHeaderByteSize -> 12 <= bsz < 2 ^ 32 -> 12 <= csz < 2 ^ 32 ->
  NewJournal sec bsz csz d = (Ret j, d') ->
  forall x i, in_range (header j) x i ->
    i64 (slotOffset (header j) x i) = slot_pos (header j) x i /\
    GetHeaderByteSize <= slot_pos (header j) x i /\
    slot_pos (header j) x i + slotSize (header j) x <= dev_size d /\
    forall y k, in_range (header j) y k -> (x, i) <> (y, k) ->
      slot_pos (header j) x i + slotSize (header j) x <= slot_pos (header j) y k \/
      slot_pos (header j) y k + slotSize (header j) y <= slot_pos (header j) x i.
Proof.
  intros Hd Hn Hsec Hb Hc E x i Hi.
  destruct (NewJournal_layout _ _ _ _ _ _ Hd Hn Hsec Hb Hc E) as (_ & WL & _).
  pose proof (slot_bounds _ _ WL x i Hi) as [H1 H2].
  split; [by apply (slotOffset_pos _ _ WL)|]. split; [done|]. split; [done|].
  intros y k Hk Hne. by apply (slots_disjoint _ _ WL).
Qed.

Lemma NewJournal_geometry_witness :
  i64 (slotOffset (header demo_journal) CorrBlocks 5) = 232 /\
  slot_pos (header demo_journal) CorrBlocks 5 + 24 <= 256.
Proof.
  assert (H0 : healthy demo_dev) by done.
  assert (H1 : GetHeaderByteSize <= dev_size demo_dev < 2 ^ 63) by (vm_compute; done).
  assert (H2 : 0 < 48 <= dev_size demo_dev - GetHeaderByteSize) by (vm_compute; done).
  assert (H3 : NewJournal 48 16 24 demo_dev = (Ret demo_journal, demo_dev)) by (vm_compute; done).
  assert (H4 : in_range (header demo_journal) CorrBlocks 5) by (vm_compute; done).
  destruct (NewJournal_geometry 48 16 24 demo_dev demo_journal demo_dev
              H0 H1 H2 ltac:(lia) ltac:(lia) H3 CorrBlocks 5 H4) as (E & _ & H & _).
  split; [exact E|exact H].
Defined.

(** A journal created on a device with arbitrary old content, marked
    invalid without clearing, is empty after the [ResetTo] that the first scan
    runs with the offsets [NewJournal] chose; a server restarted then reads it
    as an empty, invalid journal. *)
Theorem created_journal_reset sec bsz csz d j d' :
  healthy d -> GetHeaderByteSize <= dev_size d < 2 ^ 63 ->
  bsz <= sec <= dev_size d - GetHeaderByteSize - csz -> 12 <= bsz < 2 ^ 32 -> 12 <= csz < 2 ^ 32 ->
  NewJournal sec bsz csz d = (Ret j, d') ->
  exists s1 s2,
    InitWithoutClearing {| jdev := d'; jrn := j |} = (Ret tt, s1) /\
    ResetTo (WriteOffset (jrn s1)) (CorrectOffset (jrn s1)) s1 = (Ret tt, s2) /\
    jrel s2 a_empty /\ OpenJournal (jdev s2) = (Ret (jrn s2), jdev s2).
Proof.
  intros Hd Hn Hsec Hb Hc E. unfold GetHeaderByteSize in *.
  destruct (created_inv sec bsz csz d j d') as (Ei & I & _ & Hu); try done; [unfold GetHeaderByteSize; lia..|].
  destruct (ResetTo_jrel _ I) as (s2 & E2 & J2 & Ej).
  exists (created j d), s2. split; [done|]. split; [done|]. split; [done|].
  apply (OpenJournal_jrel s2 a_empty J2). intros x. rewrite Ej; simpl.
  rewrite NewJournal_eq in E by (unfold GetHeaderByteSize; done || lia).
  unfold GetHeaderByteSize in E. injection E as <- <-.
  destruct x; simpl; apply Z.div_str_pos; lia.
Qed.

Lemma created_journal_reset_witness :
  exists s1 s2,
    InitWithoutClearing {| jdev := demo_dev; jrn := demo_journal |} = (Ret tt, s1) /\
    ResetTo (WriteOffset (jrn s1)) (CorrectOffset (jrn s1)) s1 = (Ret tt, s2) /\
    jrel s2 a_empty /\ OpenJournal (jdev s2) = (Ret (jrn s2), jdev s2).
Proof.
  apply (created_journal_reset 48 16 24 demo_dev demo_journal demo_dev); try (vm_compute; done); lia.
Defined.

(** C28: clearing only the used prefix of each section ([ResetTo] with the
    current offsets, what the server runs) leaves the same abstract journal and
    the same struct as clearing every slot ([Reset]). *)
Theorem ResetTo_equiv_Reset s :
  journal_inv s ->
  exists s1 s2,
    ResetTo (WriteOffset (jrn s)) (CorrectOffset (jrn s)) s = (Ret tt, s1) /\
    Reset s = (Ret tt, s2) /\
    jrel s1 a_empty /\ jrel s2 a_empty /\ jrn s1 = jrn s2.
Proof.
  intros I. destruct (ResetTo_jrel s I) as (s1 & E1 & J1 & Ej1).
  destruct (Reset_jrel s I) as (s2 & E2 & J2 & Ej2).
  exists s1, s2. split_and!; try done. congruence.
Qed.

Lemma ResetTo_equiv_Reset_witness :
  exists s1 s2,
    ResetTo (WriteOffset (jrn demo_state)) (CorrectOffset (jrn demo_state)) demo_state = (Ret tt, s1) /\
    Reset demo_state = (Ret tt, s2) /\
    jrel s1 a_empty /\ jrel s2 a_empty /\ jrn s1 = jrn s2.
Proof. apply (ResetTo_equiv_Reset demo_state). apply demo_jrel. Defined.

(** C23: a journal with a free slot left in both sections is reopened as it was
    left: the same header, offsets and validity, so the same two lists of
    blocks. *)
Theorem OpenJournal_recovers s a :
  jrel s a ->
  Z.of_nat (length (a_writes a)) < bufWritesCount (header (jrn s)) ->
  Z.of_nat (length (a_blocks a)) < corrBlocksCount (header (jrn s)) ->
  OpenJournal (jdev s) = (Ret (jrn s), jdev s).
Proof.
  intros J H1 H2. apply (OpenJournal_jrel s a J). destruct J as (_ & _ & Hh).
  intros x. destruct (Hh x) as [-> _]. by destruct x.
Qed.

Lemma OpenJournal_recovers_witness : OpenJournal (jdev demo_state) = (Ret (jrn demo_state), jdev demo_state).
Proof. apply (OpenJournal_recovers demo_state demo_a demo_jrel); vm_compute; done. Defined.

(** [Validate] and [Invalidate] write the mark through to the device and
    change nothing else: both lists of blocks and the other flag bits stay. *)
Theorem mark_durable s a :
  jrel s a ->
  exists s1 s2,
    Validate s = (Ret tt, s1) /\ jrel s1 (a_mark true a) /\
    Invalidate s1 = (Ret tt, s2) /\ jrel s2 (a_mark false a) /\
    forall i, 0 < i -> Z.testbit (flags (header (jrn s2))) i = Z.testbit (flags (header (jrn s))) i.
Proof.
  intros J. pose proof J as ([W Hw _ _ _ _ _] & _ & _).
  destruct (Validate_jrel _ _ J) as (s1 & E1 & J1).
  destruct (Invalidate_jrel _ _ J1) as (s2 & E2 & J2).
  exists s1, s2. split_and!; try done.
  rewrite Validate_eq in E1 by done. injection E1 as <-.
  rewrite Invalidate_eq in E2 by apply J1. injection E2 as <-.
  intros i Hi. simpl. rewrite Z.land_spec, Z.lor_spec.
  change JournalValidFlag with (2 ^ 0). rewrite Z.pow2_bits_false, orb_false_r by lia.
  assert (Hu : is_u64 (flags (header (jrn s)))) by apply Hw.
  destruct (decide (i < 64)) as [Hlt|Hge].
  - replace (2 ^ 64 - 1 - 2 ^ 0) with (Z.lxor (Z.ones 64) (2 ^ 0)) by done.
    rewrite Z.lxor_spec, Z.ones_spec_low, Z.pow2_bits_false by lia. simpl. by rewrite andb_true_r.
  - by rewrite (testbit_u64 _ i Hu) by lia.
Qed.

Lemma mark_durable_witness :
  exists s1 s2,
    Validate demo_state = (Ret tt, s1) /\ jrel s1 (a_mark true demo_a) /\
    Invalidate s1 = (Ret tt, s2) /\ jrel s2 (a_mark false demo_a) /\
    forall i, 0 < i ->
      Z.testbit (flags (header (jrn s2))) i = Z.testbit (flags (header (jrn demo_state))) i.
Proof. apply (mark_durable demo_state demo_a demo_jrel). Defined.

(** On a device smaller than the header the size check of [NewJournal]
    wraps around: the journal is accepted, and its correct-block section is
    declared larger than any device. *)
Theorem NewJournal_underflow sec bsz csz d :
  healthy d -> dev_size d < GetHeaderByteSize -> 0 < sec < 2 ^ 62 -> 0 < bsz -> 0 < csz < 2 ^ 32 ->
  exists j, NewJournal sec bsz csz d = (Ret j, d) /\
    2 ^ 30 <= corrBlocksCount (header j) /\
    dev_size d < corrBlocksStartOffset (header j).
Proof.
  intros Hd Hn Hsec Hb Hc. unfold GetHeaderByteSize in *.
  assert (0 <= dev_size d) by (unfold dev_size; lia).
  assert (Eu : u64 (dev_size d - 64) = 2 ^ 64 + dev_size d - 64).
  { unfold u64. symmetry. apply Z.mod_unique_pos with (-1); lia. }
  unfold NewJournal.
  rewrite (bind_Ret _ _ _ tt d) by (by apply sys_unit_healthy).
  rewrite (bind_Ret _ _ _ (dev_size d) d) by (by apply GetDeviceSize_healthy).
  unfold GetHeaderByteSize. rewrite Eu.
  destruct (_ || (sec =? 0)) eqn:E; [lia|]. destruct (_ || (bsz =? 0)) eqn:E'; [lia|].
  eexists. split; [done|]. cbn [header corrBlocksCount corrBlocksStartOffset].
  rewrite !u64_small by width_tac. split; [|lia].
  apply Z.div_le_lower_bound; nia.
Qed.

Lemma NewJournal_underflow_witness :
  exists j, NewJournal 100 16 24 (mkDev (replicate 10 Byte.x00) []) = (Ret j, mkDev (replicate 10 Byte.x00) []) /\
    2 ^ 30 <= corrBlocksCount (header j) /\
    dev_size (mkDev (replicate 10 Byte.x00) []) < corrBlocksStartOffset (header j).
Proof. apply NewJournal_underflow; try (vm_compute; done); lia. Defined.

(** C40: the header of a new journal is written without clearing the slots, so
    on a device with old bytes a server that restarts before the first scan
    panics in [OpenJournal] when the first slot's size field is out of range. *)
Theorem OpenJournal_dirty_panics sec bsz csz d j d' :
  healthy d -> GetHeaderByteSize <= dev_size d < 2 ^ 63 ->
  bsz <= sec <= dev_size d - GetHeaderByteSize -> 12 <= bsz < 2 ^ 32 -> 12 <= csz < 2 ^ 32 ->
  NewJournal sec bsz csz d = (Ret j, d') ->
  bsz < 12 + slot_size (sub 64 (Z.to_nat bsz) (content d)) ->
  exists s1, InitWithoutClearing {| jdev := d'; jrn := j |} = (Ret tt, s1) /\
    OpenJournal (jdev s1) = (Panic, jdev s1).
Proof.
  intros Hd Hn Hsec Hb Hc E Hbig. pose proof E as E0.
  assert (Hlen : length (sub 64 (Z.to_nat bsz) (content d)) = Z.to_nat bsz).
  { apply length_sub. unfold dev_size, GetHeaderByteSize in *. lia. }
  destruct (created_inv sec bsz csz d j d') as (Ei & I & _ & Hu); try done; [lia|].
  exists (created j d). split; [done|]. pose proof (ji_wf _ I) as W.
  rewrite OpenJournal_eq by apply I.
  rewrite NewJournal_eq in E by (unfold GetHeaderByteSize in *; done || lia).
  injection E as Ej <-.
  assert (Hcnt : 0 < slotCount (header (jrn (created j d))) BufWrites).
  { rewrite <- Ej; simpl. apply Z.div_str_pos. lia. }
  assert (Hr : in_range (header j) BufWrites 0).
  { split; [lia|]. by rewrite <- Ej in *. }
  assert (Hs : slot (opening (created j d)) BufWrites 0 = sub 64 (Z.to_nat bsz) (content d)).
  { rewrite opening_slot. unfold created. rewrite slot_mark; [by rewrite <- Ej|split; [done|]|done].
    by destruct (NewJournal_layout sec bsz csz d j d Hd Hn ltac:(lia) Hb Hc E0) as (_ & WL & _). }
  assert (F : (FindFirstAvailable BufWrites (opening (created j d))).1 = Panic).
  { unfold FindFirstAvailable. erewrite bind_Ret by done.
    change (header (jrn (created j d))) with (header (jrn (opening (created j d)))) in Hcnt.
    destruct (Z.to_nat (slotCount (header (jrn (opening (created j d)))) BufWrites)) as [|m] eqn:Em;
      [lia|].
    cbn [find_available]. erewrite bind_Panic; [done|].
    rewrite ReadSlot_eq by (done || (split; [lia|done])). unfold entry. rewrite Hs.
    rewrite deserialize_eq by (rewrite Hlen; lia). rewrite Hlen, Z2Nat.id by lia.
    case_decide; [lia|done]. }
  by rewrite F.
Qed.

Lemma OpenJournal_dirty_panics_witness :
  exists s1, InitWithoutClearing {| jdev := demo_dev; jrn := demo_journal |} = (Ret tt, s1) /\
    OpenJournal (jdev s1) = (Panic, jdev s1).
Proof.
  apply (OpenJournal_dirty_panics 48 16 24 demo_dev demo_journal demo_dev); try (vm_compute; done); lia.
Defined.
