(* ===== verification/Server.v ===== *)
(** * The server daemon: journal and replica

    The state of [Server]: the target device, the device at the journal path,
    the [*Journal] (nil until [CreateJournal]), what the connection has been
    sent, and the state of the daemon.  Every method that touches the target or
    the journal is a computation on this state. *)
From stdpp Require Import pretty.
From S2P Require Import Prelude GoInt GoMonad Utils BlockDev Networking Journal.
Open Scope Z_scope.

Inductive State :=
| StateHashing
| StateWriting
| StateDisconnected
| StateDestroyingReplica
| StateJournalOverflow
| StateReplicating.

#[global] Instance State_eq_dec : EqDecision State.
Proof. solve_decision. Defined.

Definition State_String (s : State) : string :=
  match s with
  | StateHashing => "Hashing"
  | StateWriting => "Writing"
  | StateDisconnected => "Disconnected"
  | StateDestroyingReplica => "DestroyingReplica"
  | StateJournalOverflow => "JournalOverflow"
  | StateReplicating => "Replicating"
  end.

Definition WritePacketQueueSize : nat := 8.
Definition CorrectPacketQueueSize : nat := 8.
Definition JournalPacketQueueSize : nat := 8.
Definition ReplicationPacketQueueSize : nat := 8.

(** [sendFaults] lists the errors of the coming [Encoder.Encode] calls. *)
Record Server := mkServer {
  TargetDevFd : Dev;
  JournalDev : Dev;
  SJournal : option Journal;
  ClientInfo : option InitInfo;
  Connected : bool;
  sent : list Packet;
  sendFaults : list (option error);
  state : State;
}.

Definition set_target (d : Dev) (s : Server) : Server :=
  {| TargetDevFd := d; JournalDev := JournalDev s; SJournal := SJournal s;
     ClientInfo := ClientInfo s; Connected := Connected s; sent := sent s;
     sendFaults := sendFaults s; state := state s |}.
Definition set_journalDev (d : Dev) (s : Server) : Server :=
  {| TargetDevFd := TargetDevFd s; JournalDev := d; SJournal := SJournal s;
     ClientInfo := ClientInfo s; Connected := Connected s; sent := sent s;
     sendFaults := sendFaults s; state := state s |}.
Definition set_journal (d : Dev) (j : option Journal) (s : Server) : Server :=
  {| TargetDevFd := TargetDevFd s; JournalDev := d; SJournal := j;
     ClientInfo := ClientInfo s; Connected := Connected s; sent := sent s;
     sendFaults := sendFaults s; state := state s |}.
Definition set_clientInfo (i : InitInfo) (s : Server) : Server :=
  {| TargetDevFd := TargetDevFd s; JournalDev := JournalDev s; SJournal := SJournal s;
     ClientInfo := Some i; Connected := Connected s; sent := sent s;
     sendFaults := sendFaults s; state := state s |}.
Definition set_state (x : State) (s : Server) : Server :=
  {| TargetDevFd := TargetDevFd s; JournalDev := JournalDev s; SJournal := SJournal s;
     ClientInfo := ClientInfo s; Connected := Connected s; sent := sent s;
     sendFaults := sendFaults s; state := x |}.
Definition set_sent (ps : list Packet) (fs : list (option error)) (s : Server) : Server :=
  {| TargetDevFd := TargetDevFd s; JournalDev := JournalDev s; SJournal := SJournal s;
     ClientInfo := ClientInfo s; Connected := Connected s; sent := ps;
     sendFaults := fs; state := state s |}.

Definition set_connected (c : bool) (s : Server) : Server :=
  {| TargetDevFd := TargetDevFd s; JournalDev := JournalDev s; SJournal := SJournal s;
     ClientInfo := ClientInfo s; Connected := c; sent := sent s;
     sendFaults := sendFaults s; state := state s |}.

Definition on_target {A} (m : M Dev A) : M Server A := zoom TargetDevFd set_target m.
Definition on_journalDev {A} (m : M Dev A) : M Server A := zoom JournalDev set_journalDev m.

(** A method call on [s.Journal]; a nil journal is a panic. *)
Definition on_journal {A} (m : M JState A) : M Server A := fun s =>
  match SJournal s with
  | None => (Panic, s)
  | Some j =>
      let '(r, t) := m {| jdev := JournalDev s; jrn := j |} in
      (r, set_journal (jdev t) (Some (jrn t)) s)
  end.

(** A method call on a local [*Journal] over the same device. *)
Definition on_local {A} (j : Journal) (m : M JState A) : M Server (A * Journal) :=
  on_journalDev (with_journal j m).

(** [NewServer] for the configured port, on the device nodes it opens and the
    outcome of [net.Listen]. *)
Definition NewServer (port : Z) (target journalDev : Dev) (listenErr : option error) : outcome Server :=
  match OpenFile target with
  | (Err e, _) => Err (ErrWrap "failed to open device: " e)
  | (Panic, _) => Panic
  | (Ret _, targetDeviceFd) =>
      match listenErr with
      | Some e => Err (ErrWrap ("failed to listen on port " +:+ pretty port +:+ ": ") e)
      | None =>
          Ret {| TargetDevFd := targetDeviceFd; JournalDev := journalDev; SJournal := None;
                 ClientInfo := None; Connected := false; sent := []; sendFaults := [];
                 state := StateDisconnected |}
      end
  end.

Definition GetState : M Server State := gets state.
Definition SetState (newState : State) : M Server unit := modify (set_state newState).

(** [s.Encoder.Encode(packet)]. *)
Definition Encode (packet : Packet) : M Server unit := fun s =>
  match sendFaults s with
  | Some e :: fs => (Err e, set_sent (sent s) fs s)
  | None :: fs => (Ret tt, set_sent (sent s ++ [packet]) fs s)
  | [] => (Ret tt, set_sent (sent s ++ [packet]) [] s)
  end.

Definition SendPacket (packet : Packet) : M Server unit :=
  map_err (Errorf_v "SendPacket failed: ") (Encode packet).

(** ** Setting a session up *)

(** [WaitForInitInfo] on what the decoder returns. *)
Definition WaitForInitInfo (decoded : Packet + error) : M Server unit :=
  match decoded with
  | inr IoEOF => throw (ErrMsg "connection closed by the client")
  | inr e => throw (Errorf_v "failed to decode packet: " e)
  | inl packet =>
      if negb (PacketType packet =? PacketTypeInfoInit)
      then throw (ErrMsg ("expected init packet, got: " +:+ pretty (PacketType packet)))
      else match Payload packet with
           | PInitInfo initInfo => modify (set_clientInfo initInfo)
           | _ => throw (ErrMsg "invalid payload type for init packet")
           end
  end.

Definition CheckValidSizes : M Server unit :=
  i <- gets ClientInfo ;;
  match i with
  | None => panic
  | Some info =>
      r <- catch (on_target GetDeviceSize) ;;
      let deviceSize := match r with inl n => n | inr _ => 0 end in
      let failed := match r with inl _ => false | inr _ => true end in
      if failed || negb (deviceSize =? DeviceSize info)
      then throw (ErrMsg ("Source disk size: " +:+ pretty deviceSize +:+
                          ", Destination disk size: " +:+ pretty (DeviceSize info)))
      else ret tt
  end.

Definition CreateJournal : M Server unit :=
  i <- gets ClientInfo ;;
  match i with
  | None => panic
  | Some info =>
      jrn <- on_journalDev (NewJournal (BufferByteSize info) (u64 WriteInfoSize)
                                       (u64 CorrectBlockByteSize)) ;;
      r <- on_local jrn InitWithoutClearing ;;
      modify (fun s => set_journal (JournalDev s) (Some r.2) s)
  end.

(** ** Writing blocks *)

Definition WriteCorrectBlockToJournal (correctBlock : CorrectBlockInfo) : M Server unit :=
  off <- on_journal (gets (fun t => CorrectOffset (jrn t))) ;;
  on_journal (WriteCorrectBlock off correctBlock) ;;;
  on_journal (modify (set_jrn (fun j => set_offsets (WriteOffset j) (u64 (CorrectOffset j + 1)) j))).

Definition WriteBufferWriteToJournal (bufferWrite : WriteInfo) : M Server unit :=
  off <- on_journal (gets (fun t => WriteOffset (jrn t))) ;;
  on_journal (WriteBufferWrite off bufferWrite) ;;;
  on_journal (modify (set_jrn (fun j => set_offsets (u64 (WriteOffset j + 1)) (CorrectOffset j) j))).

Definition WriteCorrectBlockToReplica (correctBlock : CorrectBlockInfo) : M Server unit :=
  map_err (Errorf_v "Failed to write buffer write to replica: ")
    (on_target (WriteAt (Data correctBlock) (i64 (Offset correctBlock)))).

Definition WriteBufferWriteToReplica (bufferWrite : WriteInfo) : M Server unit :=
  dataToWrite <- lift_opt (slice (Data bufferWrite) 0 (Size bufferWrite)) ;;
  map_err (Errorf_v "Failed to write buffer write to device: ")
    (on_target (WriteAt dataToWrite (i64 (Offset bufferWrite)))) ;;;
  ignore (on_target Sync).

(** ** Applying the journal *)

Definition WriteJournalToReplica : M Server unit :=
  ignore (on_journal Validate) ;;;
  c <- on_journal (gets (fun t => CorrectOffset (jrn t))) ;;
  for_range (Z.to_nat c) 0 (fun i =>
    correctBlock <- map_err (Errorf_v "Can't read correct block from journal: ")
                      (on_journal (ReadCorrectBlock i)) ;;
    map_err (Errorf_v "Can't write correct block: ")
      (on_target (WriteAt (Data correctBlock) (i64 (Offset correctBlock))))) ;;;
  ignore (on_target Sync) ;;;
  w <- on_journal (gets (fun t => WriteOffset (jrn t))) ;;
  for_range (Z.to_nat w) 0 (fun i =>
    bufferWrite <- map_err (Errorf_v "Can't read buffer write from journal: ")
                     (on_journal (ReadBufferWrite i)) ;;
    dataToWrite <- lift_opt (slice (Data bufferWrite) 0 (Size bufferWrite)) ;;
    map_err (Errorf_v "Can't write buffer write: ")
      (on_target (WriteAt dataToWrite (i64 (Offset bufferWrite)))) ;;;
    ignore (on_target Sync)) ;;;
  map_err (Errorf_v "Can't invalidate the journal: ") (on_journal Invalidate).

Definition HandleJournalWriting : M Server unit :=
  state <- GetState ;;
  if bool_decide (state = StateDestroyingReplica) then ret tt
  else
    r <- catch WriteJournalToReplica ;;
    match r with
    | inl _ => ret tt
    | inr _ => ignore (SendPacket (CreateInfoPacket PacketTypeErrJournalOverflow))
    end.

(** Recovery at start-up: the errors of the writes are dropped. *)
Definition CopyJournalToReplica (j : Journal) : M Server unit :=
  for_range (Z.to_nat (CorrectOffset j)) 0 (fun i =>
    r <- map_err (Errorf_v "Failed to copy journal to replica: ")
           (on_local j (ReadCorrectBlock i)) ;;
    ignore (WriteCorrectBlockToReplica r.1)) ;;;
  ignore (on_target Sync) ;;;
  for_range (Z.to_nat (WriteOffset j)) 0 (fun i =>
    r <- map_err (Errorf_v "Failed to copy journal to replica: ")
           (on_local j (ReadBufferWrite i)) ;;
    ignore (WriteBufferWriteToReplica r.1)) ;;;
  ignore (on_local j Invalidate).

Definition CheckJournal : M Server unit :=
  r <- catch (on_journalDev OpenJournal) ;;
  match r with
  | inr _ => ret tt
  | inl jrn =>
      if negb (Journal_IsValid jrn) then ret tt
      else map_err (Errorf_v "Failed to copy journal to replica: ") (CopyJournalToReplica jrn)
  end.

(** ** Packet handlers *)

Definition HandleJournalBufferWrite (packet : Packet) : M Server unit :=
  match Payload packet with
  | PWriteInfo writeInfo =>
      map_err (Errorf_v "Can't write buffer write to replica: ") (WriteBufferWriteToJournal writeInfo)
  | _ => throw (ErrMsg "Invalid payload type for WriteInfo")
  end.

Definition HandleJournalCorrectBlock (packet : Packet) : M Server unit :=
  match Payload packet with
  | PCorrectBlockInfo correctInfo =>
      map_err (Errorf_v "Can't write buffer write to replica: ") (WriteCorrectBlockToJournal correctInfo)
  | _ => throw (ErrMsg "invalid packet type for CorrectBlockInfo")
  end.

(** The reaction to a failed journal append. *)
Definition journal_overflow (m : M Server unit) : M Server unit :=
  r <- catch m ;;
  match r with
  | inl _ => ret tt
  | inr _ =>
      ignore (SendPacket (CreateInfoPacket PacketTypeErrJournalOverflow)) ;;;
      SetState StateJournalOverflow
  end.

(** One iteration of [HandleJournalPackets]. *)
Definition handleJournalPacket (packet : Packet) : M Server unit :=
  state <- GetState ;;
  if bool_decide (state = StateJournalOverflow) then ret tt
  else if PacketType packet =? PacketTypePayloadBufferWrite
  then journal_overflow (HandleJournalBufferWrite packet)
  else if PacketType packet =? PacketTypePayloadCorrectBlock
  then journal_overflow (HandleJournalCorrectBlock packet)
  else ret tt.

(** [for packet := range journalQueue], on the packets the queue delivers. *)
Fixpoint HandleJournalPackets (journalQueue : list Packet) : M Server unit :=
  match journalQueue with
  | [] => ret tt
  | packet :: journalQueue => handleJournalPacket packet ;;; HandleJournalPackets journalQueue
  end.

(** The zero value a failed type assertion leaves behind. *)
Definition zeroBlock : BlockInfo := {| Offset := 0; Size := 0; Data := [] |}.

(** One iteration of [HandleCorrectPackets]. *)
Definition handleCorrectPacket (packet : Packet) : M Server unit :=
  let correctInfo := match Payload packet with PCorrectBlockInfo c => c | _ => zeroBlock end in
  ignore (WriteCorrectBlockToReplica correctInfo).

(** The retry loop of [HandleWritePackets]: [false] when [fuel] attempts failed. *)
Fixpoint retry_write (fuel : nat) (b : list byte) (off : Z) : M Dev bool :=
  match fuel with
  | O => ret false
  | S fuel =>
      r <- catch (WriteAt b off) ;;
      match r with
      | inl _ => ret true
      | inr _ => retry_write fuel b off
      end
  end.

(** One iteration of [HandleWritePackets]; [false] when the retry loop has not
    ended within [fuel] attempts. *)
Definition handleWritePacket (fuel : nat) (packet : Packet) : M Server bool :=
  state <- GetState ;;
  if negb (bool_decide (state = StateWriting)) then ret true
  else
    let writeInfo := match Payload packet with PWriteInfo w => w | _ => zeroBlock end in
    dataToWrite <- lift_opt (slice (Data writeInfo) 0 (Size writeInfo)) ;;
    done <- on_target (retry_write fuel dataToWrite (i64 (Offset writeInfo))) ;;
    if done then ignore (on_target Sync) ;;; ret true else ret false.

(** One iteration of a [HandleReplicationPackets] worker. *)
Definition handleReplicationPacket (packet : Packet) : M Server unit :=
  match Payload packet with
  | PReplicationBlockInfo r => ignore (on_target (WriteAt (Data r) (i64 (Offset r))))
  | _ => ret tt
  end.

(** The start of [HashDisk]: reset the journal unless the replica is being
    overwritten, and tell the client; [false] when the connection is closed. *)
Definition HashDisk_start : M Server bool :=
  state <- GetState ;;
  (if negb (bool_decide (state = StateDestroyingReplica)) then
     w <- on_journal (gets (fun t => WriteOffset (jrn t))) ;;
     c <- on_journal (gets (fun t => CorrectOffset (jrn t))) ;;
     ignore (on_journal (ResetTo w c))
   else ret tt) ;;;
  r <- catch (SendPacket (CreateInfoPacket PacketTypeInfoStartHashing)) ;;
  match r with
  | inl _ => ret true
  | inr e => ret (negb (IsConnectionClosed (Some e)))
  end.

(** A result of the hashing pipeline. *)
Record resultItem := mkResult {
  r_offset : Z;
  r_size : Z;
  r_hash : Z;
  r_err : option error;
}.

(** A block on its way to the hashing workers. *)
Record workItem := mkWork {
  w_offset : Z;
  w_buffer : list byte;
}.

(** What a reader of [HashDisk] does with one task. *)
Inductive read_result :=
| ReadBlock (w : workItem)        (* the block goes to a hashing worker *)
| ReadFailed (r : resultItem)     (* an error result, and the reader returns *)
| ReadNothing.                    (* end of the disk: the reader returns *)

(** One task of a reader. *)
Definition hash_read (readSize offset : Z) : M Server read_result :=
  r <- on_target (ReadAt (Z.to_nat readSize) (i64 offset)) ;;
  let '(buf, err) := r in
  match err with
  | Some IoEOF | None =>
      if (length buf =? 0)%nat then ret ReadNothing
      else ret (ReadBlock {| w_offset := offset; w_buffer := buf |})
  | Some e => ret (ReadFailed {| r_offset := offset; r_size := 0; r_hash := 0; r_err := Some e |})
  end.

(** What a hashing worker makes of a block; [xxhash] is the hash function of the
    library the daemons link. *)
Definition hash_block (xxhash : list byte -> Z) (work : workItem) : resultItem :=
  {| r_offset := w_offset work; r_size := u32 (Z.of_nat (length (w_buffer work)));
     r_hash := xxhash (w_buffer work); r_err := None |}.

(** One turn of a sender of [HashDisk]; [false] when the sender returns because
    the connection is closed. *)
Definition hash_send (result : resultItem) : M Server bool :=
  (match r_err result with
   | Some _ => ignore (SendPacket (CreateInfoPacket PacketTypeErrHash))
   | None => ret tt
   end) ;;;
  let hashInfo := {| hOffset := r_offset result; hSize := r_size result; hHash := r_hash result |} in
  r <- catch (Encode {| PacketType := PacketTypePayloadHash; Payload := PHashInfo hashInfo |}) ;;
  match r with
  | inl _ => ret true
  | inr e =>
      if IsConnectionClosed (Some e) then ret false
      else ignore (SendPacket (CreateInfoPacket PacketTypeErrHash)) ;;; ret true
  end.

(** The end of [HashDisk]. *)
Definition HashDisk_end : M Server unit :=
  ignore (SendPacket (CreateInfoPacket PacketTypeInfoHashingCompleted)).

(** ** The first part of [HandleClient], after its greeting

    [decoded] is the first packet; [true] when the session goes on. *)
Definition reject (t : Z) : M Server bool :=
  ignore (SendPacket (CreateInfoPacket t)) ;;; ret false.

Definition HandleClient_init (decoded : Packet + error) : M Server bool :=
  r <- catch (WaitForInitInfo decoded) ;;
  match r with
  | inr _ => reject PacketTypeErrInit
  | inl _ =>
      r <- catch CheckValidSizes ;;
      match r with
      | inr _ => reject PacketTypeErrInvalidSizes
      | inl _ =>
          r <- catch CreateJournal ;;
          match r with
          | inr _ => reject PacketTypeErrJournalCreate
          | inl _ => ret true
          end
      end
  end.
