(* ===== verification/ServerReplay.v ===== *)
(** * Applying the journal to the replica, and recovery after a crash

    [WriteJournalToReplica] and the start-up recovery [CheckJournal] both turn
    the replica image [c] into [apply_writes (a_replay a) c], where [a] is the
    abstract journal: first the correct blocks, then the buffer writes.  Because
    a replay absorbs every difference on the bytes it covers, a crash anywhere
    in the first is repaired by the second. *)
From S2P Require Import Prelude GoInt GoMonad BlockDev Networking.
From S2P Require Import Journal JournalCodec JournalSlots JournalSpec JournalOps Server.
Open Scope Z_scope.

(** ** Blocks as writes *)

Definition to_write (b : BlockInfo) : write := (Z.to_nat (Offset b), Data b).

Definition a_replay (a : AJournal) : list write :=
  (to_write <$> a_blocks a) ++ (to_write <$> a_writes a).

(** Replace the replica image. *)
Definition replica (c : list byte) (s : Server) : Server :=
  set_target (set_content c (TargetDevFd s)) s.

Lemma replica_id s : replica (content (TargetDevFd s)) s = s.
Proof. by destruct s as [[] ]. Qed.

Lemma replica_replica c c' s : replica c (replica c' s) = replica c s.
Proof. done. Qed.

(** A block the code can write to a device of [n] bytes. *)
Definition writable (n : nat) (b : BlockInfo) : Prop :=
  0 <= Offset b /\ Z.of_nat (length (Data b)) = Size b /\ fits n (to_write b).

#[global] Instance writable_dec n b : Decision (writable n b).
Proof. unfold writable. apply _. Defined.

Lemma slice_data n b : writable n b -> slice (Data b) 0 (Size b) = Some (Data b).
Proof.
  intros (_ & Hd & _). rewrite slice_Some by lia. f_equal.
  rewrite Z.sub_0_r. apply sub_full. lia.
Qed.

Definition target_ok (s : Server) : Prop :=
  healthy (TargetDevFd s) /\ dev_size (TargetDevFd s) < 2 ^ 63.

Section Target.
Context (s : Server) (T : target_ok s).
Context (c : list byte) (Hc : length c = length (content (TargetDevFd s))).

Lemma target_WriteAt b :
  writable (length c) b ->
  on_target (WriteAt (Data b) (i64 (Offset b))) (replica c s) =
  (Ret tt, replica (apply_write c (to_write b)) s).
Proof using T Hc.
  intros (Ho & Hd & Hf). destruct T as [Hh Hs]. unfold fits, to_write in Hf; simpl in Hf.
  unfold dev_size in Hs. unfold on_target, zoom. rewrite i64_small by lia.
  rewrite WriteAt_healthy; [done|done|done|]. unfold dev_size; simpl. lia.
Qed.

Lemma target_Sync : ignore (on_target Sync) (replica c s) = (Ret tt, replica c s).
Proof using T.
  destruct T as [Hh _]. eapply ignore_Ret. unfold on_target, zoom, Sync.
  by rewrite sys_unit_healthy.
Qed.
End Target.

(** ** Reads of the journal during a replay *)

Definition jstate (s : Server) (j : Journal) : JState := {| jdev := JournalDev s; jrn := j |}.

(** The server's journal is [a]. *)
Definition srel (s : Server) (a : AJournal) : Prop :=
  exists j, SJournal s = Some j /\ jrel (jstate s j) a.

Lemma jrel_read s j a x i b :
  jrel (jstate s j) a -> a_sec a x !! i = Some b ->
  ReadSlot x (Z.of_nat i) (jstate s j) = (Ret b, jstate s j).
Proof.
  intros (I & _ & Hh) Hi. destruct (Hh x) as [Hu Hl]. destruct (Hl i b Hi) as [He _].
  rewrite ReadSlot_eq; [by rewrite He|apply I|].
  apply lookup_lt_Some in Hi. pose proof (ji_used _ I x). unfold in_range. lia.
Qed.

Lemma server_read s j a x i b c :
  SJournal s = Some j -> jrel (jstate s j) a -> a_sec a x !! i = Some b ->
  on_journal (ReadSlot x (Z.of_nat i)) (replica c s) = (Ret b, replica c s).
Proof.
  intros Hj J Hi. unfold on_journal; simpl. rewrite Hj.
  change {| jdev := JournalDev s; jrn := j |} with (jstate s j).
  rewrite (jrel_read s j a x i b J Hi). unfold set_journal, replica; simpl. rewrite <- Hj. by destruct s.
Qed.

Lemma local_read s j a x i b c :
  jrel (jstate s j) a -> a_sec a x !! i = Some b ->
  on_local j (ReadSlot x (Z.of_nat i)) (replica c s) = (Ret (b, j), replica c s).
Proof.
  intros J Hi. unfold on_local, on_journalDev, zoom, with_journal; simpl.
  change {| jdev := JournalDev s; jrn := j |} with (jstate s j).
  rewrite (jrel_read s j a x i b J Hi). by destruct s.
Qed.

(** A loop over a section whose body writes the [i]-th block to the replica. *)
Lemma replay_loop s (bs : list BlockInfo) (body : Z -> M Server unit) c :
  Forall (writable (length c)) bs ->
  (forall i b c', bs !! i = Some b -> length c' = length c ->
     body (Z.of_nat i) (replica c' s) = (Ret tt, replica (apply_write c' (to_write b)) s)) ->
  for_range (length bs) 0 body (replica c s) =
  (Ret tt, replica (apply_writes (to_write <$> bs) c) s).
Proof.
  intros Hw Hbody.
  enough (H : forall pre rest c', bs = pre ++ rest -> length c' = length c ->
    for_range (length rest) (Z.of_nat (length pre)) body (replica c' s) =
    (Ret tt, replica (apply_writes (to_write <$> rest) c') s)) by (by apply (H [])).
  intros pre rest. revert pre. induction rest as [|b rest IH]; intros pre c' Hbs Hl; [done|].
  cbn [length for_range]. assert (Hi : bs !! length pre = Some b).
  { rewrite Hbs. by apply list_lookup_middle. }
  rewrite (bind_Ret _ _ _ _ _ (Hbody _ _ _ Hi Hl)).
  assert (Hb : writable (length c) b) by (by eapply Forall_lookup_1).
  destruct Hb as (_ & _ & Hf). rewrite fmap_cons. cbn [apply_writes foldl].
  specialize (IH (pre ++ [b]) (apply_write c' (to_write b))).
  rewrite length_app in IH. cbn [length] in IH.
  replace (Z.of_nat (length pre + 1)) with (Z.of_nat (length pre) + 1) in IH by lia.
  apply IH; [by rewrite <- app_assoc|]. rewrite length_apply_write; [done|by rewrite Hl].
Qed.

(** ** [WriteJournalToReplica] *)

Section Replay.
Context (s : Server) (j : Journal) (a : AJournal).
Context (T : target_ok s) (Hj : SJournal s = Some j) (J : jrel (jstate s j) a).
Local Abbreviation n := (length (content (TargetDevFd s))).

Lemma write_blocks_loop c :
  length c = n -> Forall (writable n) (a_blocks a) ->
  for_range (length (a_blocks a)) 0 (fun i =>
    correctBlock <- map_err (Errorf_v "Can't read correct block from journal: ")
                      (on_journal (ReadCorrectBlock i)) ;;
    map_err (Errorf_v "Can't write correct block: ")
      (on_target (WriteAt (Data correctBlock) (i64 (Offset correctBlock))))) (replica c s) =
  (Ret tt, replica (apply_writes (to_write <$> a_blocks a) c) s).
Proof using T Hj J.
  intros Hc Hw. rewrite <- Hc in Hw. apply replay_loop; [done|].
  intros i b c' Hi Hl. assert (Hb : writable (length c') b) by (rewrite Hl; by eapply Forall_lookup_1).
  rewrite (bind_Ret _ _ _ b (replica c' s)).
  - apply map_err_Ret. apply target_WriteAt; [done|congruence|done].
  - apply map_err_Ret. by apply (server_read s j a CorrBlocks).
Qed.

Lemma write_writes_loop c :
  length c = n -> Forall (writable n) (a_writes a) ->
  for_range (length (a_writes a)) 0 (fun i =>
    bufferWrite <- map_err (Errorf_v "Can't read buffer write from journal: ")
                     (on_journal (ReadBufferWrite i)) ;;
    dataToWrite <- lift_opt (slice (Data bufferWrite) 0 (Size bufferWrite)) ;;
    map_err (Errorf_v "Can't write buffer write: ")
      (on_target (WriteAt dataToWrite (i64 (Offset bufferWrite)))) ;;;
    ignore (on_target Sync)) (replica c s) =
  (Ret tt, replica (apply_writes (to_write <$> a_writes a) c) s).
Proof using T Hj J.
  intros Hc Hw. rewrite <- Hc in Hw. apply replay_loop; [done|].
  intros i b c' Hi Hl. assert (Hb : writable (length c') b) by (rewrite Hl; by eapply Forall_lookup_1).
  rewrite (bind_Ret _ _ _ b (replica c' s)).
  2:{ apply map_err_Ret. by apply (server_read s j a BufWrites). }
  rewrite (slice_data (length c')) by done. erewrite bind_Ret by done.
  rewrite (bind_Ret _ _ _ tt (replica (apply_write c' (to_write b)) s)).
  - by apply target_Sync.
  - apply map_err_Ret. apply target_WriteAt; [done|congruence|done].
Qed.
End Replay.

Lemma journal_read_offset s j x c :
  SJournal s = Some j ->
  on_journal (gets (fun t => used (jrn t) x)) (replica c s) = (Ret (used j x), replica c s).
Proof. intros Hj. unfold on_journal; simpl. rewrite Hj. unfold set_journal; simpl. rewrite <- Hj. by destruct s. Qed.

(** The journal of the server after a method of [*Journal] that ends in [t]. *)
Definition with_jstate (t : JState) (s : Server) : Server := set_journal (jdev t) (Some (jrn t)) s.

Lemma on_journal_Ret {A} (m : M JState A) s j r t :
  SJournal s = Some j -> m (jstate s j) = (r, t) -> on_journal m s = (r, with_jstate t s).
Proof. intros Hj E. unfold on_journal. rewrite Hj. unfold jstate in E. by rewrite E. Qed.

Lemma with_jstate_rel t s a : jrel t a -> SJournal (with_jstate t s) = Some (jrn t) /\
  jrel (jstate (with_jstate t s) (jrn t)) a.
Proof. intros J. split; [done|]. unfold jstate; simpl. by destruct t. Qed.

Lemma replay_fits n a :
  Forall (writable n) (a_blocks a) -> Forall (writable n) (a_writes a) ->
  Forall (fits n) (a_replay a).
Proof.
  intros H1 H2. apply Forall_app. split; apply Forall_fmap.
  - eapply Forall_impl; [exact H1|]. by intros b (_ & _ & ?).
  - eapply Forall_impl; [exact H2|]. by intros b (_ & _ & ?).
Qed.

(** Everything but the two devices and the journal struct. *)
Definition same_session (s s' : Server) : Prop :=
  ClientInfo s' = ClientInfo s /\ Connected s' = Connected s /\ sent s' = sent s /\
  sendFaults s' = sendFaults s /\ state s' = state s.

Lemma WriteJournalToReplica_spec s a :
  target_ok s -> srel s a ->
  Forall (writable (length (content (TargetDevFd s)))) (a_blocks a) ->
  Forall (writable (length (content (TargetDevFd s)))) (a_writes a) ->
  exists s', WriteJournalToReplica s = (Ret tt, s') /\
    content (TargetDevFd s') = apply_writes (a_replay a) (content (TargetDevFd s)) /\
    srel s' (a_mark false a) /\ target_ok s' /\ same_session s s'.
Proof.
  intros T (j & Hj & J) Hb Hw. set (c := content (TargetDevFd s)) in *.
  destruct (Validate_jrel _ _ J) as (t1 & E1 & J1).
  set (s1 := with_jstate t1 s).
  destruct (with_jstate_rel t1 s _ J1) as [Hj1 J1'].
  assert (T1 : target_ok s1) by done.
  assert (R1 : replica c s1 = s1) by (apply (replica_id s1)).
  pose proof (replay_fits _ _ Hb Hw) as Hfits. apply Forall_app in Hfits as [Hf1 Hf2].
  set (c1 := apply_writes (to_write <$> a_blocks a) c).
  assert (Hc1 : length c1 = length c) by (by apply length_apply_writes).
  set (c2 := apply_writes (to_write <$> a_writes a) c1).
  assert (Hc2 : length c2 = length c)
    by (unfold c2; rewrite length_apply_writes; [done|by rewrite Hc1]).
  destruct (Invalidate_jrel _ _ J1') as (t2 & E2 & J2).
  assert (Hu1 := J1'). destruct Hu1 as (_ & _ & Hh).
  destruct (Hh CorrBlocks) as [Hc _]. destruct (Hh BufWrites) as [Hw' _].
  exists (with_jstate t2 (replica c2 s1)).
  split; [|split; [|split; [|split]]].
  - unfold WriteJournalToReplica.
    rewrite (bind_Ret _ _ _ tt s1) by (eapply ignore_Ret, on_journal_Ret; done).
    rewrite <- R1.
    rewrite (bind_Ret _ _ _ _ _ (journal_read_offset s1 _ CorrBlocks c Hj1)).
    replace (Z.to_nat (used (jrn t1) CorrBlocks)) with (length (a_blocks a)) by (simpl in *; lia).
    rewrite (bind_Ret _ _ _ _ _ (write_blocks_loop s1 _ _ T1 Hj1 J1' c eq_refl Hb)).
    rewrite (bind_Ret _ _ _ _ _ (target_Sync s1 T1 c1)).
    rewrite (bind_Ret _ _ _ _ _ (journal_read_offset s1 _ BufWrites c1 Hj1)).
    replace (Z.to_nat (used (jrn t1) BufWrites)) with (length (a_writes a)) by (simpl in *; lia).
    rewrite (bind_Ret _ _ _ _ _ (write_writes_loop s1 _ _ T1 Hj1 J1' c1 Hc1 Hw)).
    apply map_err_Ret. by apply (on_journal_Ret _ _ (jrn t1)).
  - simpl. unfold a_replay. by rewrite apply_writes_app.
  - exists (jrn t2). by apply with_jstate_rel.
  - destruct T as [Hh' Hs]. split; [done|]. unfold dev_size in *; simpl. by rewrite Hc2.
  - done.
Qed.

(** ** Start-up recovery *)

Section Recovery.
Context (s : Server) (j : Journal) (a : AJournal).
Context (T : target_ok s) (J : jrel (jstate s j) a).
Local Abbreviation n := (length (content (TargetDevFd s))).

Lemma copy_blocks_loop c :
  length c = n -> Forall (writable n) (a_blocks a) ->
  for_range (length (a_blocks a)) 0 (fun i =>
    r <- map_err (Errorf_v "Failed to copy journal to replica: ")
           (on_local j (ReadCorrectBlock i)) ;;
    ignore (WriteCorrectBlockToReplica r.1)) (replica c s) =
  (Ret tt, replica (apply_writes (to_write <$> a_blocks a) c) s).
Proof using T J.
  intros Hc Hw. rewrite <- Hc in Hw. apply replay_loop; [done|].
  intros i b c' Hi Hl. assert (Hb : writable (length c') b) by (rewrite Hl; by eapply Forall_lookup_1).
  rewrite (bind_Ret _ _ _ (b, j) (replica c' s)).
  - eapply ignore_Ret, map_err_Ret. apply target_WriteAt; [done|congruence|done].
  - apply map_err_Ret. by apply (local_read s j a CorrBlocks).
Qed.

Lemma copy_writes_loop c :
  length c = n -> Forall (writable n) (a_writes a) ->
  for_range (length (a_writes a)) 0 (fun i =>
    r <- map_err (Errorf_v "Failed to copy journal to replica: ")
           (on_local j (ReadBufferWrite i)) ;;
    ignore (WriteBufferWriteToReplica r.1)) (replica c s) =
  (Ret tt, replica (apply_writes (to_write <$> a_writes a) c) s).
Proof using T J.
  intros Hc Hw. rewrite <- Hc in Hw. apply replay_loop; [done|].
  intros i b c' Hi Hl. assert (Hb : writable (length c') b) by (rewrite Hl; by eapply Forall_lookup_1).
  rewrite (bind_Ret _ _ _ (b, j) (replica c' s)).
  2:{ apply map_err_Ret. by apply (local_read s j a BufWrites). }
  eapply ignore_Ret. unfold WriteBufferWriteToReplica. simpl.
  rewrite (slice_data (length c')) by done. erewrite bind_Ret by done.
  rewrite (bind_Ret _ _ _ tt (replica (apply_write c' (to_write b)) s)).
  - by apply target_Sync.
  - apply map_err_Ret. apply target_WriteAt; [done|congruence|done].
Qed.

Lemma CopyJournalToReplica_spec :
  Forall (writable n) (a_blocks a) -> Forall (writable n) (a_writes a) ->
  exists t, CopyJournalToReplica j s =
    (Ret tt, set_journalDev (jdev t)
               (replica (apply_writes (a_replay a) (content (TargetDevFd s))) s)) /\
    jrel t (a_mark false a).
Proof using T J.
  intros Hb Hw. set (c := content (TargetDevFd s)) in *.
  destruct (Invalidate_jrel _ _ J) as (t & E & Jt). exists t. split; [|done].
  pose proof (replay_fits _ _ Hb Hw) as Hfits. apply Forall_app in Hfits as [Hf1 Hf2].
  set (c1 := apply_writes (to_write <$> a_blocks a) c).
  assert (Hc1 : length c1 = length c) by (by apply length_apply_writes).
  destruct J as (_ & _ & Hh). destruct (Hh CorrBlocks) as [Hc _].
  destruct (Hh BufWrites) as [Hw' _]. simpl in Hc, Hw'.
  assert (R : replica c s = s) by (apply replica_id).
  rewrite <- R at 1. unfold CopyJournalToReplica.
  replace (Z.to_nat (CorrectOffset j)) with (length (a_blocks a)) by lia.
  replace (Z.to_nat (WriteOffset j)) with (length (a_writes a)) by lia.
  rewrite (bind_Ret _ _ _ _ _ (copy_blocks_loop c eq_refl Hb)).
  rewrite (bind_Ret _ _ _ _ _ (target_Sync s T c1)).
  rewrite (bind_Ret _ _ _ _ _ (copy_writes_loop c1 Hc1 Hw)).
  unfold a_replay. rewrite apply_writes_app.
  apply ignore_Ret with (tt, jrn t). unfold on_local, on_journalDev, zoom, with_journal; simpl.
  unfold jstate in E. by rewrite E.
Qed.
End Recovery.

(** [CheckJournal] on a valid journal that is not full replays it. *)
Lemma CheckJournal_valid s j a :
  target_ok s -> jrel (jstate s j) a -> a_valid a = true ->
  (forall x, used j x < slotCount (header j) x) ->
  Forall (writable (length (content (TargetDevFd s)))) (a_blocks a) ->
  Forall (writable (length (content (TargetDevFd s)))) (a_writes a) ->
  exists t, CheckJournal s =
    (Ret tt, set_journalDev (jdev t)
               (replica (apply_writes (a_replay a) (content (TargetDevFd s))) s)) /\
    jrel t (a_mark false a).
Proof.
  intros T J Hv Hroom Hb Hw.
  destruct (CopyJournalToReplica_spec s j a T J Hb Hw) as (t & E & Jt).
  exists t. split; [|done]. unfold CheckJournal.
  pose proof (OpenJournal_jrel _ _ J Hroom) as Ho. simpl in Ho.
  rewrite (bind_Ret _ _ _ (inl j) s).
  - destruct J as (_ & Hv' & _). simpl in Hv'. rewrite Hv', Hv. by apply map_err_Ret.
  - apply catch_Ret. unfold on_journalDev, zoom. rewrite Ho. by destruct s.
Qed.

(** [CheckJournal] on an invalid journal that is not full changes nothing. *)
Lemma CheckJournal_invalid s j a :
  jrel (jstate s j) a -> a_valid a = false ->
  (forall x, used j x < slotCount (header j) x) ->
  CheckJournal s = (Ret tt, s).
Proof.
  intros J Hv Hroom. unfold CheckJournal. pose proof (OpenJournal_jrel _ _ J Hroom) as Ho.
  rewrite (bind_Ret _ _ _ (inl j) s).
  - destruct J as (_ & Hv' & _). simpl in Hv'. by rewrite Hv', Hv.
  - apply catch_Ret. unfold on_journalDev, zoom. simpl in Ho. rewrite Ho. by destruct s.
Qed.

(** A full journal, valid or not, is skipped. *)
Lemma CheckJournal_full s j a x :
  jrel (jstate s j) a -> used j x = slotCount (header j) x -> CheckJournal s = (Ret tt, s).
Proof.
  intros J Hfull. unfold CheckJournal. destruct (OpenJournal_full _ _ x J Hfull) as [e Ho].
  rewrite (bind_Ret _ _ _ (inr e) s); [done|].
  unfold catch, on_journalDev, zoom. simpl in Ho. rewrite Ho. by destruct s.
Qed.
