(* ===== verification/ServerJournal.v ===== *)
(** * Filling the journal: [HandleJournalPackets] refines an abstract append log

    While a scan runs, the packets of the journal queue are appended to the two
    sections in the order they arrive; the first one that does not find a free
    slot (or carries the wrong payload) switches the server to
    [StateJournalOverflow], tells the client once, and every later packet is
    dropped.  [a_packet] is this specification on abstract journals. *)
From S2P Require Import Prelude GoInt GoMonad BlockDev Networking.
From S2P Require Import Journal JournalCodec JournalSlots JournalSpec JournalOps.
From S2P Require Import Server ServerReplay.
Open Scope Z_scope.

(** ** The specification *)

(** The section a packet is for, and its block when the payload type is right. *)
Definition pkt_block (p : Packet) : option (section * option BlockInfo) :=
  if PacketType p =? PacketTypePayloadBufferWrite
  then Some (BufWrites, match Payload p with PWriteInfo w => Some w | _ => None end)
  else if PacketType p =? PacketTypePayloadCorrectBlock
  then Some (CorrBlocks, match Payload p with PCorrectBlockInfo c => Some c | _ => None end)
  else None.

(** An abstract journal and whether it has overflowed. *)
Definition alog : Type := AJournal * bool.

Definition a_packet (cap : section -> Z) (p : Packet) (l : alog) : alog :=
  let '(a, ovf) := l in
  if ovf then (a, true)
  else match pkt_block p with
       | None => (a, false)
       | Some (x, Some b) =>
           if Z.of_nat (length (a_sec a x)) <? cap x then (a_append x (trim b) a, false) else (a, true)
       | Some (_, None) => (a, true)
       end.

Definition a_packets (cap : section -> Z) (ps : list Packet) (l : alog) : alog :=
  foldl (fun l p => a_packet cap p l) l ps.

(** ** One append *)

Definition append_to (x : section) (b : BlockInfo) : M Server unit :=
  match x with
  | BufWrites => WriteBufferWriteToJournal b
  | CorrBlocks => WriteCorrectBlockToJournal b
  end.

Lemma append_to_eq x b s j :
  SJournal s = Some j ->
  append_to x b s =
  (on_journal (WriteSlot x (used j x) b) ;;; on_journal (modify (set_jrn (bump x)))) s.
Proof.
  intros Hj. destruct s as [td jd jo ci co se sf st]; simpl in Hj; subst jo.
  destruct x; unfold append_to, WriteBufferWriteToJournal, WriteCorrectBlockToJournal;
    (erewrite bind_Ret; [|reflexivity]); done.
Qed.

(** Only [Data[:Size]] reaches the journal. *)
Lemma append_to_trim x b s j :
  SJournal s = Some j -> sendable b -> append_to x (trim b) s = append_to x b s.
Proof.
  intros Hj Hb. rewrite !(append_to_eq x _ s j Hj). unfold bind, on_journal. rewrite Hj.
  enough (E : forall i t, WriteSlot x i (trim b) t = WriteSlot x i b t) by (by rewrite E).
  intros i t. unfold WriteSlot, bind, gets. case_match; [done|]. by rewrite serialize_trim.
Qed.

(** With room, the block is appended and only the journal changes. *)
Lemma append_to_room x b s j a :
  SJournal s = Some j -> jrel (jstate s j) a -> fits_slot (jstate s j) x b -> IsValid b = true ->
  used j x < slotCount (header j) x ->
  append_to x b s = (Ret tt, with_jstate (appended (jstate s j) x b) s) /\
  jrel (appended (jstate s j) x b) (a_append x b a).
Proof.
  intros Hj J Hfit Hv Hroom. destruct (append_jrel _ a x b J Hfit Hv Hroom) as [E Ja].
  split; [|done]. rewrite (append_to_eq x b s j Hj).
  rewrite (bind_Ret _ _ _ _ _ (on_journal_Ret _ s j _ _ Hj E)). done.
Qed.

(** Without room, the append fails and nothing changes. *)
Lemma append_to_full x b s j :
  SJournal s = Some j -> slotCount (header j) x <= used j x ->
  append_to x b s = (Err ErrInvalidSize, s).
Proof.
  intros Hj Hfull. rewrite (append_to_eq x b s j Hj). apply bind_Err.
  rewrite (on_journal_Ret _ s j (Err ErrInvalidSize) (jstate s j) Hj).
  - unfold with_jstate, set_journal, jstate; simpl. rewrite <- Hj. by destruct s.
  - by apply WriteSlot_full.
Qed.

(** ** The refinement relation *)

(** Geometry of the journal: what stays while packets are appended. *)
Definition same_slots (h h' : Header) : Prop :=
  forall x, slotSize h' x = slotSize h x /\ slotCount h' x = slotCount h x.

(** [s] is [s0] after packets that led to the abstract log [l]. *)
Definition log_rel (s0 s : Server) (h0 : Header) (l : alog) : Prop :=
  exists j, SJournal s = Some j /\ jrel (jstate s j) l.1 /\ same_slots h0 (header j) /\
  TargetDevFd s = TargetDevFd s0 /\ ClientInfo s = ClientInfo s0 /\ Connected s = Connected s0 /\
  sendFaults s = [] /\
  if l.2 then state s = StateJournalOverflow /\
              sent s = sent s0 ++ [CreateInfoPacket PacketTypeErrJournalOverflow]
  else state s = state s0 /\ sent s = sent s0.

(** What the client sends: blocks that fit their section and are not empty. *)
Definition pkt_ok (h : Header) (p : Packet) : Prop :=
  match pkt_block p with
  | Some (x, Some b) => sendable b /\ 12 + Size b <= slotSize h x /\ IsValid b = true
  | _ => True
  end.

Lemma handleJournalPacket_eq p s :
  state s <> StateJournalOverflow ->
  handleJournalPacket p s =
  match pkt_block p with
  | None => (Ret tt, s)
  | Some (x, Some b) =>
      journal_overflow (map_err (Errorf_v "Can't write buffer write to replica: ") (append_to x b)) s
  | Some (x, None) => journal_overflow (throw (ErrMsg (match x with
      | BufWrites => "Invalid payload type for WriteInfo"
      | CorrBlocks => "invalid packet type for CorrectBlockInfo" end))) s
  end.
Proof.
  intros Hs. unfold handleJournalPacket, pkt_block. erewrite bind_Ret by done.
  rewrite bool_decide_eq_false_2 by done.
  destruct (PacketType p =? PacketTypePayloadBufferWrite).
  - unfold HandleJournalBufferWrite. by destruct (Payload p).
  - destruct (PacketType p =? PacketTypePayloadCorrectBlock); [|done].
    unfold HandleJournalCorrectBlock. by destruct (Payload p).
Qed.

(** The overflow reaction to a failed append that left the state alone. *)
Lemma journal_overflow_Err m s e :
  sendFaults s = [] -> m s = (Err e, s) ->
  journal_overflow m s =
  (Ret tt, set_state StateJournalOverflow
             (set_sent (sent s ++ [CreateInfoPacket PacketTypeErrJournalOverflow]) [] s)).
Proof.
  intros Hf E. unfold journal_overflow, bind, catch. rewrite E.
  unfold ignore, bind, catch, SendPacket, map_err, Encode. by rewrite Hf.
Qed.

Lemma journal_overflow_Ret m s s' : m s = (Ret tt, s') -> journal_overflow m s = (Ret tt, s').
Proof. intros E. unfold journal_overflow, bind, catch. by rewrite E. Qed.

Lemma bump_same_slots h x j : same_slots h (header j) -> same_slots h (header (bump x j)).
Proof. by rewrite bump_header. Qed.

Lemma handleJournalPacket_refines s0 s h0 l p :
  state s0 <> StateJournalOverflow -> log_rel s0 s h0 l -> pkt_ok h0 p ->
  exists s', handleJournalPacket p s = (Ret tt, s') /\
    log_rel s0 s' h0 (a_packet (slotCount h0) p l).
Proof.
  intros Hs0 (j & Hj & J & Hg & Ht & Hci & Hco & Hf & Hl) Hp. destruct l as [a ovf]; simpl in *.
  destruct ovf.
  { exists s. split; [|exists j; split_and!; simpl; tauto].
    unfold handleJournalPacket. erewrite bind_Ret by done.
    by rewrite bool_decide_eq_true_2 by tauto. }
  destruct Hl as [Hst Hse]. rewrite handleJournalPacket_eq by congruence.
  assert (Hovf : forall m e, m s = (Err e, s) -> exists s', journal_overflow m s = (Ret tt, s') /\
    log_rel s0 s' h0 (a, true)).
  { intros m e E. eexists. split; [by apply (journal_overflow_Err m s e)|].
    exists j. split_and!; simpl; try done. by rewrite Hse. }
  unfold pkt_ok in Hp. destruct (pkt_block p) as [[x [b|]]|] eqn:Ep.
  - destruct Hp as (Hwf & Hfit & Hv). destruct (Hg x) as [Hg1 Hg2].
    pose proof J as (I & _ & Hh). destruct (Hh x) as [Hu _]. simpl in Hu.
    rewrite <- Hu, <- Hg2. destruct (used j x <? slotCount (header j) x) eqn:E.
    + destruct (append_to_room x (trim b) s j a Hj J) as [Ea Ja];
        [split; [by apply trim_wf|simpl; lia]|done|lia|].
      rewrite (append_to_trim x b s j Hj Hwf) in Ea.
      eexists. split; [apply journal_overflow_Ret, map_err_Ret, Ea|].
      exists (jrn (appended (jstate s j) x (trim b))). split_and!; try done.
      simpl. by apply bump_same_slots.
    + apply (Hovf _ (Errorf_v "Can't write buffer write to replica: " ErrInvalidSize)).
      unfold map_err. rewrite (append_to_full x b s j Hj) by lia. done.
  - apply (Hovf _ _ eq_refl).
  - exists s. split; [done|]. exists j. split_and!; done.
Qed.

Lemma HandleJournalPackets_sim s0 h0 ps s l :
  state s0 <> StateJournalOverflow -> log_rel s0 s h0 l -> Forall (pkt_ok h0) ps ->
  exists s', HandleJournalPackets ps s = (Ret tt, s') /\
    log_rel s0 s' h0 (a_packets (slotCount h0) ps l).
Proof.
  intros Hs0. revert s l. induction ps as [|p ps IH]; intros s l R Hp; [by exists s|].
  apply Forall_cons in Hp as [Hp Hps].
  destruct (handleJournalPacket_refines s0 s h0 l p Hs0 R Hp) as (s1 & E1 & R1).
  destruct (IH s1 _ R1 Hps) as (s2 & E2 & R2). exists s2. split; [|done].
  cbn [HandleJournalPackets]. by rewrite (bind_Ret _ _ _ _ _ E1).
Qed.
