(* ===== verification/ServerSafe.v ===== *)
(** * No method of the server panics on a safe journal

    The methods a session calls, on a server whose journal is [safe]: whatever
    the target and the connection do, they return a value or an error and leave
    the journal safe.  Setting a session up gives such a server on every journal
    device whose slots can be read under the layout of the session. *)
From S2P Require Import Prelude GoInt GoMonad Utils BlockDev Networking.
From S2P Require Import Journal JournalCodec JournalSlots JournalSpec JournalOps JournalTypes JournalSafe.
From S2P Require Import Server ServerReplay ServerJournal.
Open Scope Z_scope.

(** ** Packets a client sends *)

(** The data of a block is as long as it says and fits a slot, and an init packet
    announces a ring of [B] bytes. *)
Definition sane (B : Z) (p : Packet) : Prop :=
  match Payload p with
  | PWriteInfo w => sendable w /\ 12 + Size w <= WriteInfoSize
  | PCorrectBlockInfo c => sendable c /\ 12 + Size c <= CorrectBlockByteSize
  | PInitInfo i => BufferByteSize i = B
  | _ => True
  end.

(** The layout [CreateJournal] gives the journal device for such a ring. *)
Definition layout (B n : Z) : Header :=
  {| magic := BdrMagic;
     bufWriteByteSize := WriteInfoSize; bufWritesCount := B / WriteInfoSize;
     bufWritesStartOffset := GetHeaderByteSize;
     corrBlockByteSize := CorrectBlockByteSize;
     corrBlocksCount := (n - GetHeaderByteSize - B) / CorrectBlockByteSize;
     corrBlocksStartOffset := GetHeaderByteSize + B;
     flags := 0 |}.

(** Every slot of the layout can be read from the device. *)
Definition readable (g : Header) (d : Dev) : Prop :=
  forall x i, in_range g x i ->
    is_Some (deserialize (sub (Z.to_nat (slot_pos g x i)) (Z.to_nat (slotSize g x)) (content d))).

Section Server.
Context (B n : Z).
Local Abbreviation g := (layout B n).

Definition armed (v : Server) : Prop :=
  ClientInfo v <> None /\ exists j, SJournal v = Some j /\ safe g n (jstate v j).

(** ** Calls of the methods *)

Lemma calm_on_journal {A} (m : M JState A) : calm (safe g n) m -> calm armed (on_journal m).
Proof using.
  intros H v (Hc & j & Hj & S). unfold on_journal. rewrite Hj. destruct (H _ S) as [H1 H2].
  unfold jstate in *. destruct (m _) as [r t]. cbn in *. split; [|done]. split; [done|].
  exists (jrn t). split; [done|]. by destruct t.
Qed.
Lemma calm_with_on_journal {A} (P : A -> Prop) (m : M JState A) :
  calm_with (safe g n) P m -> calm_with armed P (on_journal m).
Proof using.
  intros H v (Hc & j & Hj & S). unfold on_journal. rewrite Hj. destruct (H _ S) as [H1 H2].
  unfold jstate in *. destruct (m _) as [r t]. cbn in *. split; [|done]. split; [done|].
  exists (jrn t). split; [done|]. by destruct t.
Qed.

Lemma armed_SetState st : calm armed (SetState st).
Proof using. by apply calm_modify. Qed.
Lemma armed_Encode p : calm armed (Encode p).
Proof using. intros v H. unfold Encode. by destruct (sendFaults v) as [|[] ?]. Qed.
Lemma armed_SendPacket p : calm armed (SendPacket p).
Proof using. apply calm_map_err, armed_Encode. Qed.

(** What only the target and the connection are concerned with. *)
Definition off_target (I : Server -> Prop) : Prop := forall d v, I v -> I (set_target d v).

Lemma calm_on_target I {A} (m : M Dev A) :
  off_target I -> (forall d, (m d).1 <> Panic) -> calm I (on_target m).
Proof using.
  intros HI H v Hv. specialize (H (TargetDevFd v)). unfold on_target, zoom.
  destruct (m (TargetDevFd v)) as [r d]. by split; [apply HI|].
Qed.
Lemma calm_target_write I b o : off_target I -> calm I (on_target (WriteAt b o)).
Proof using. intros HI. apply calm_on_target; [done|apply WriteAt_no_panic]. Qed.
Lemma calm_target_sync I : off_target I -> calm I (on_target Sync).
Proof using. intros HI. apply calm_on_target; [done|apply sys_unit_no_panic]. Qed.
Lemma calm_handleCorrectPacket I p : off_target I -> calm I (handleCorrectPacket p).
Proof using.
  intros HI. unfold handleCorrectPacket, WriteCorrectBlockToReplica.
  apply calm_ignore, calm_map_err. by apply calm_target_write.
Qed.
Lemma armed_off_target : off_target armed.
Proof using. by intros d v Hv. Qed.
Hint Resolve armed_SetState armed_SendPacket armed_Encode calm_target_write calm_target_sync armed_off_target
  calm_on_journal calm_Validate calm_Invalidate : calm.

(** ** The workers *)

Lemma calm_handleReplicationPacket p : calm armed (handleReplicationPacket p).
Proof using. unfold handleReplicationPacket. destruct (Payload p); auto with calm. Qed.

Lemma calm_hash_read I k o : off_target I -> calm I (hash_read k o).
Proof using.
  intros HI. unfold hash_read. apply calm_bind; [by apply calm_on_target; [|apply ReadAt_no_panic]|].
  intros [buf [[]|]]; auto with calm.
Qed.
Lemma calm_hash_send (I : Server -> Prop) r : (forall p, calm I (Encode p)) -> calm I (hash_send r).
Proof using.
  intros HI. assert (HS : forall p, calm I (SendPacket p)) by (intros p; apply calm_map_err, HI).
  unfold hash_send. apply calm_bind; [destruct (r_err r); auto with calm|]. intros _.
  apply calm_bind; [auto with calm|]. intros []; [auto with calm|].
  apply calm_if; auto with calm.
Qed.
Lemma calm_HashDisk_end : calm armed HashDisk_end.
Proof using. unfold HashDisk_end. auto with calm. Qed.

Lemma calm_append_to x b : storable g x b -> calm armed (append_to x b).
Proof using.
  intros Hb v (Hc & j & Hj & S). rewrite (append_to_eq x b v j Hj).
  destruct (WriteSlot_used g n x b _ S Hb) as [(s' & E & Ej & S1 & S2)|E].
  - rewrite (bind_Ret _ _ _ _ _ (on_journal_Ret _ v j _ _ Hj E)). cbn. split; [|done]. split; [done|].
    eexists. split; [done|]. by destruct s'.
  - rewrite (bind_Err _ _ _ _ _ (on_journal_Ret _ v j _ _ Hj E)). cbn. split; [|done]. split; [done|].
    eexists. by split.
Qed.

Lemma calm_journal_overflow m : calm armed m -> calm armed (journal_overflow m).
Proof using. intros H. unfold journal_overflow. apply calm_bind; [by apply calm_catch|]. intros []; auto with calm. Qed.

Lemma sane_storable p x b : sane B p -> pkt_block p = Some (x, Some b) -> storable g x b.
Proof using.
  unfold sane, pkt_block. destruct (_ =? _); [|destruct (_ =? _); [|done]];
    destruct (Payload p); intros Hp [= <- <-]; exact Hp.
Qed.

Lemma calm_handleJournalPacket p : sane B p -> calm armed (handleJournalPacket p).
Proof using.
  intros Hp v Hv. destruct (decide (state v = StateJournalOverflow)) as [Hs|Hs].
  - unfold handleJournalPacket. erewrite bind_Ret by done. by rewrite bool_decide_eq_true_2.
  - rewrite handleJournalPacket_eq by done. destruct (pkt_block p) as [[x [b|]]|] eqn:E; [| |done].
    + apply (calm_journal_overflow _ (calm_map_err _ _ _ (calm_append_to x b (sane_storable p x b Hp E)))), Hv.
    + apply (calm_journal_overflow _ (calm_throw _ _)), Hv.
Qed.

Lemma calm_HashDisk_start : calm armed HashDisk_start.
Proof using.
  unfold HashDisk_start, GetState. apply calm_bind; [auto with calm|]. intros st.
  apply calm_bind; [|intros _; apply calm_bind; [auto with calm|]; intros []; auto with calm].
  apply calm_if; [|auto with calm]. intros v (Hc & j & Hj & S).
  destruct v as [td jd jo ci co se sf sv]; cbn in Hj; subst jo.
  destruct (safe_ResetTo g n _ S) as (s' & E & S').
  set (v := mkServer td jd (Some j) ci co se sf sv) in *.
  do 2 (erewrite bind_Ret; [|reflexivity]).
  rewrite (ignore_Ret _ v tt (with_jstate s' v)).
  - split; [|done]. split; [done|]. exists (jrn s'). split; [done|]. by destruct s'.
  - by apply (on_journal_Ret _ v j).
Qed.

(** ** The end of a scan *)

Lemma typed_slice b : typed_block b -> slice (Data b) 0 (Size b) = Some (Data b).
Proof using.
  intros (_ & Hs & Hd). rewrite slice_Some by (unfold is_u32 in Hs; lia). rewrite Z.sub_0_r.
  unfold sub. rewrite drop_0, take_ge by lia. done.
Qed.

Lemma calm_WriteJournalToReplica : calm armed WriteJournalToReplica.
Proof using.
  unfold WriteJournalToReplica. apply calm_bind; [auto with calm|]. intros _.
  apply calm_bind; [auto with calm|]. intros c.
  apply calm_bind.
  { apply calm_for_range. intros i Hi.
    eapply calm_bind_with; [apply calm_with_map_err, calm_with_on_journal, calm_ReadSlot, Hi|].
    intros b _. auto with calm. }
  intros _. apply calm_bind; [auto with calm|]. intros _. apply calm_bind; [auto with calm|]. intros w.
  apply calm_bind; [|intros _; auto with calm].
  apply calm_for_range. intros i Hi.
  eapply calm_bind_with; [apply calm_with_map_err, calm_with_on_journal, calm_ReadSlot, Hi|].
  intros b Hb. rewrite typed_slice by done. cbn [lift_opt]. auto with calm.
Qed.

Lemma calm_HandleJournalWriting : calm armed (HandleJournalWriting ;;; SetState StateWriting).
Proof using.
  apply calm_bind; [|auto with calm]. unfold HandleJournalWriting, GetState. apply calm_bind; [auto with calm|].
  intros st. apply calm_if; [auto with calm|].
  apply calm_bind; [apply calm_catch, calm_WriteJournalToReplica|]. intros []; auto with calm.
Qed.

(** ** Setting a session up *)

(** The ring fits the journal device, so that [NewJournal] accepts it. *)
Definition fits : Prop := 0 < B <= n - GetHeaderByteSize.

(** Between two sessions: the slots can be read, and so can those of the journal
    of an earlier session. *)
Record parked (v : Server) : Prop := {
  pk_healthy : healthy (JournalDev v);
  pk_size : dev_size (JournalDev v) = n;
  pk_readable : fits -> readable g (JournalDev v);
  pk_journal : forall j, SJournal v = Some j -> safe g n (jstate v j);
}.

Lemma safe_entry s x i :
  safe g n s ->
  entry s x i = deserialize (sub (Z.to_nat (slot_pos g x i)) (Z.to_nat (slotSize g x)) (content (jdev s))).
Proof using.
  intros S. unfold entry, slot. by rewrite (sf_layout _ _ _ S), slot_pos_set_flags, slotSize_set_flags.
Qed.

Lemma armed_parked v : armed v -> parked v.
Proof using.
  intros (_ & j & Hj & S). split.
  - apply (sf_wf _ _ _ S).
  - apply (sf_dev _ _ _ S).
  - intros _ x i Hi. destruct (sf_read _ _ _ S x i Hi) as [b Hb]. rewrite (safe_entry _ x i S) in Hb. by exists b.
  - intros j' Hj'. by simplify_eq.
Qed.

Lemma parked_off_target : off_target parked.
Proof using. by intros d v [H1 H2 H3 H4]. Qed.

Context (HB : is_u64 B) (Hn : GetHeaderByteSize <= n < 2 ^ 63).

Lemma calm_parked_Encode p : calm parked (Encode p).
Proof using. intros v [H1 H2 H3 H4]. unfold Encode. by destruct (sendFaults v) as [|[] ?]. Qed.
Lemma calm_parked_send p : calm parked (SendPacket p).
Proof using. apply calm_map_err, calm_parked_Encode. Qed.

Lemma NewJournal_rejects d :
  healthy d -> dev_size d = n -> ~ fits ->
  NewJournal B (u64 WriteInfoSize) (u64 CorrectBlockByteSize) d = (Err ErrInvalidSize, d).
Proof using HB Hn.
  intros Hd Hs Hf. unfold NewJournal. rewrite (bind_Ret _ _ _ tt d) by (by apply sys_unit_healthy).
  rewrite (bind_Ret _ _ _ (dev_size d) d) by (by apply GetDeviceSize_healthy).
  unfold fits, GetHeaderByteSize, is_u64 in *. rewrite Hs, u64_small by width_tac.
  destruct (_ || (B =? 0)) eqn:E; [done|]. lia.
Qed.

(** A journal that [CreateJournal] has just made is safe. *)
Lemma created_safe d :
  healthy d -> dev_size d = n -> fits -> readable g d ->
  NewJournal B (u64 WriteInfoSize) (u64 CorrectBlockByteSize) d =
    (Ret (mkJournal n (B / WriteInfoSize) ((n - GetHeaderByteSize - B) / CorrectBlockByteSize) g), d) /\
  safe g n {| jdev := d; jrn := mkJournal n (B / WriteInfoSize) ((n - GetHeaderByteSize - B) / CorrectBlockByteSize) g |}.
Proof using HB Hn.
  intros Hd Hs Hf Hr. assert (E : NewJournal B (u64 WriteInfoSize) (u64 CorrectBlockByteSize) d =
    (Ret (mkJournal n (B / WriteInfoSize) ((n - GetHeaderByteSize - B) / CorrectBlockByteSize) g), d)).
  { change (u64 WriteInfoSize) with WriteInfoSize. change (u64 CorrectBlockByteSize) with CorrectBlockByteSize.
    rewrite (NewJournal_eq B WriteInfoSize CorrectBlockByteSize d);
      [by rewrite Hs|done|by rewrite Hs|by rewrite Hs|done|done]. }
  split; [done|].
  destruct (NewJournal_layout B (u64 WriteInfoSize) (u64 CorrectBlockByteSize) _ _ _ Hd ltac:(by rewrite Hs) ltac:(by rewrite Hs) ltac:(done) ltac:(done) E)
    as (_ & WL & _).
  split; [done|done|done| |done]. pose proof (wl_count _ _ WL) as Hc. intros x. specialize (Hc x). destruct x; cbn in *; lia.
Qed.

Lemma CreateJournal_safe v info :
  parked v -> ClientInfo v = Some info -> BufferByteSize info = B ->
  parked (CreateJournal v).2 /\
  match (CreateJournal v).1 with Ret _ => armed (CreateJournal v).2 | Err _ => True | Panic => False end.
Proof using HB Hn.
  intros P Hi Hb. pose proof P as [P1 P2 P3 P4]. unfold CreateJournal. rewrite (bind_Ret _ _ _ (Some info) v) by (by rewrite <- Hi).
  rewrite Hb. destruct (decide (0 < B <= n - GetHeaderByteSize)) as [Hf|Hf].
  - destruct (created_safe (JournalDev v) P1 P2 Hf (P3 Hf)) as [E S].
    set (j := mkJournal n _ _ g) in *. pose proof (calm_Invalidate g n _ S) as [S' _].
    pose proof (Invalidate_eq _ (sf_wf _ _ _ S)) as EI. rewrite EI in S'. cbn [snd] in S'.
    set (s' := mark _ _) in *.
    assert (Ev : set_journalDev (JournalDev v) v = v) by (by destruct v).
    rewrite (bind_Ret _ _ _ j v) by (unfold on_journalDev, zoom; rewrite E; by rewrite Ev).
    assert (A : armed (set_journal (jdev s') (Some (jrn s')) v)).
    { split; [cbn; by rewrite Hi|]. exists (jrn s'). split; [done|]. exact S'. }
    rewrite (bind_Ret _ _ _ (tt, jrn s') (set_journalDev (jdev s') v)).
    + cbn. split; [by apply armed_parked|done].
    + unfold on_local, on_journalDev, zoom, with_journal, InitWithoutClearing. by rewrite EI.
  - unfold bind, on_journalDev, zoom. rewrite (NewJournal_rejects (JournalDev v)) by done.
    cbn. split; [|done]. by destruct v.
Qed.

Lemma calm_parked_reject t : calm parked (reject t).
Proof using. unfold reject. apply calm_bind; [apply calm_ignore, calm_parked_send|intros; apply calm_ret]. Qed.

(** What [HandleClient] does before its goroutines ends with a session on a safe
    journal, or without a session. *)
Definition init_result (r : outcome bool * Server) : Prop :=
  match r with
  | (Ret true, v) => armed v
  | (Panic, _) => False
  | (_, v) => parked v
  end.

Lemma rejected t v : parked v -> init_result (reject t v).
Proof using.
  intros P. destruct (calm_parked_reject t v P) as [H1 _]. unfold reject, bind in *.
  destruct (ignore _ v) as [[[]|e|] v'] eqn:E; cbn in *; try done.
  destruct (calm_ignore _ _ (calm_parked_send (CreateInfoPacket t)) v P) as [_ H2]. by rewrite E in H2.
Qed.

Lemma HandleClient_init_safe decoded v :
  parked v -> (forall p, decoded = inl p -> sane B p) -> init_result (HandleClient_init decoded v).
Proof using HB Hn.
  intros P Hp. unfold HandleClient_init.
  assert (W : (exists e, WaitForInitInfo decoded v = (Err e, v)) \/
    exists i, WaitForInitInfo decoded v = (Ret tt, set_clientInfo i v) /\ BufferByteSize i = B).
  { unfold WaitForInitInfo. destruct decoded as [p|[]]; [|left; by eexists..].
    destruct (negb _); [left; by eexists|]. specialize (Hp p eq_refl). unfold sane in Hp.
    destruct (Payload p); solve [left; by eexists|right; by eexists]. }
  unfold bind at 1, catch at 1. destruct W as [[e ->]|(i & -> & Hi)]; [by apply rejected|].
  assert (P1 : parked (set_clientInfo i v)) by (by destruct P).
  set (v2 := set_clientInfo i v) in *. assert (C2 : ClientInfo v2 = Some i) by done. clearbody v2.
  assert (K : exists r d, CheckValidSizes v2 = (r, set_target d v2) /\ r <> Panic).
  { unfold CheckValidSizes. rewrite (bind_Ret _ _ _ (Some i) v2) by (by rewrite <- C2).
    pose proof (GetDeviceSize_no_panic (TargetDevFd v2)) as H. unfold bind, catch, on_target, zoom.
    destruct (GetDeviceSize _) as [[k|e|] d]; [..|done]; cbn [fst]; (case_match; do 2 eexists; by split). }
  destruct K as (r & d & E & Hr). unfold bind at 1, catch at 1. rewrite E.
  pose proof (parked_off_target d v2 P1) as P2. destruct r as [[]|e|]; [|by apply rejected|done].
  destruct (CreateJournal_safe (set_target d v2) i P2 C2 Hi) as [P3 A].
  unfold bind, catch. destruct (CreateJournal _) as [[[]|e|] v3]; [done| |done]. by apply rejected.
Qed.
End Server.

(** ** Recovery at the start touches the header only *)

Definition same_body (d0 d : Dev) : Prop :=
  healthy d /\ length (content d) = length (content d0) /\
  drop (Z.to_nat GetHeaderByteSize) (content d) = drop (Z.to_nat GetHeaderByteSize) (content d0).

Section Body.
Context (d0 : Dev).
Local Abbreviation I := (same_body d0).

Lemma body_sys_unit : preserves I sys_unit.
Proof using. intros d [H1 H2]. by rewrite sys_unit_healthy. Qed.
Lemma body_GetDeviceSize : preserves I GetDeviceSize.
Proof using. intros d [H1 H2]. by rewrite GetDeviceSize_healthy. Qed.
Lemma body_ReadAt k o : preserves I (ReadAt k o).
Proof using.
  intros d [H1 H2]. unfold ReadAt. destruct (o <? 0); [done|]. destruct k; [done|].
  by rewrite syscall_healthy.
Qed.
Lemma body_write_header h : preserves I (WriteAt (header_bytes h) 0).
Proof using.
  intros d (H1 & H2 & H3). unfold WriteAt. cbn [Z.ltb Z.compare].
  destruct (header_bytes h) as [|x b] eqn:E; [done|]. rewrite <- E. clear E x b.
  rewrite syscall_healthy by done. pose proof (length_header_bytes h) as Hl.
  assert (Hs : forall b : list byte, (length b <= length (content d))%nat ->
    length (splice (Z.to_nat 0) b (content d)) = length (content d0)).
  { intros b Hb. rewrite length_splice; [done|]. lia. }
  destruct (_ <=? _)%nat eqn:Eb; (split; [done|]); cbn [poke set_content content snd]; unfold dev_size in Eb.
  - apply Nat.leb_le in Eb. split; [apply Hs; lia|].
    rewrite <- H3. unfold splice. change (Z.to_nat 0) with 0%nat. rewrite take_0. cbn [app].
    rewrite drop_app_ge by (rewrite Hl; unfold GetHeaderByteSize; lia). rewrite Hl. done.
  - apply Nat.leb_gt in Eb. assert (Hs' := Hs (take (Z.to_nat (dev_size d - 0)) (header_bytes h))).
    rewrite length_take in Hs'. unfold dev_size in *. specialize (Hs' ltac:(lia)).
    split; [done|]. rewrite !drop_ge; [done|..]; rewrite ?Hs'; unfold GetHeaderByteSize; lia.
Qed.
Hint Resolve body_sys_unit body_GetDeviceSize body_ReadAt body_write_header : preserves.

Local Abbreviation IJ := (fun s : JState => I (jdev s)).

Lemma body_on_dev {A} (m : M Dev A) : preserves I m -> preserves IJ (on_dev m).
Proof using. intros H s Hs. unfold on_dev, zoom. specialize (H _ Hs). by destruct (m (jdev s)). Qed.
Lemma body_with_journal {A} j (m : M JState A) : preserves IJ m -> preserves I (with_journal j m).
Proof using. intros H d Hd. unfold with_journal. specialize (H {| jdev := d; jrn := j |} Hd). by destruct (m _) as [[] ?]. Qed.

Lemma body_ReadSlot x i : preserves IJ (ReadSlot x i).
Proof using.
  unfold ReadSlot. apply preserves_bind; [apply preserves_gets|]. intros h. apply preserves_if; [apply preserves_throw|].
  apply preserves_bind; [apply body_on_dev; auto with preserves|]. intros [data []]; auto with preserves.
Qed.
Lemma body_find x k i : preserves IJ (find_available x k i).
Proof using.
  revert i. induction k as [|k IH]; intros i; cbn [find_available]; [apply preserves_throw|].
  apply preserves_bind; [apply body_ReadSlot|]. intros b. apply preserves_if; [apply preserves_ret|apply IH].
Qed.
Lemma body_Invalidate : preserves IJ Invalidate.
Proof using.
  unfold Invalidate, WriteHeader. apply preserves_bind; [by apply preserves_modify|]. intros _.
  apply preserves_bind; [apply preserves_gets|]. intros h.
  apply preserves_bind; [apply preserves_map_err, body_on_dev; auto with preserves|]. intros _.
  apply preserves_map_err, body_on_dev, body_sys_unit.
Qed.
Lemma body_OpenJournal : preserves I OpenJournal.
Proof using.
  unfold OpenJournal, ReadHeader, OpenFile, FindFirstAvailableBufferWrite, FindFirstAvailableCorrectBlock, FindFirstAvailable.
  apply preserves_bind; [auto with preserves|]. intros _.
  apply preserves_bind; [apply preserves_bind; [auto with preserves|]; intros [? []]; auto with preserves|]. intros h.
  apply preserves_if; [auto with preserves|]. apply preserves_bind; [auto with preserves|]. intros k.
  do 2 (apply preserves_bind;
    [apply body_with_journal, preserves_bind; [apply preserves_gets|intros; apply body_find]|intros ?]).
  auto with preserves.
Qed.

(** The server: its journal device keeps its slots, and there is no journal yet. *)
Local Abbreviation IS := (fun v : Server => I (JournalDev v) /\ SJournal v = None).

Lemma body_on_journalDev {A} (m : M Dev A) : preserves I m -> preserves IS (on_journalDev m).
Proof using. intros H v [Hv Hj]. unfold on_journalDev, zoom. specialize (H _ Hv). by destruct (m (JournalDev v)). Qed.
Lemma body_on_target {A} (m : M Dev A) : preserves IS (on_target m).
Proof using. intros v Hv. unfold on_target, zoom. by destruct (m (TargetDevFd v)). Qed.

Lemma body_CheckJournal : preserves IS CheckJournal.
Proof using.
  unfold CheckJournal, CopyJournalToReplica, WriteCorrectBlockToReplica, WriteBufferWriteToReplica, on_local.
  pose proof (@body_on_target) as T.
  apply preserves_bind; [apply preserves_catch, body_on_journalDev, body_OpenJournal|].
  intros [j|e]; [|apply preserves_ret]. apply preserves_if; [apply preserves_ret|]. apply preserves_map_err.
  apply preserves_bind.
  { apply preserves_for_range. intros i.
    apply preserves_bind; [apply preserves_map_err, body_on_journalDev, body_with_journal, body_ReadSlot|].
    intros r. apply preserves_ignore, preserves_map_err, T. }
  intros _. apply preserves_bind; [apply preserves_ignore, T|]. intros _.
  apply preserves_bind; [|intros _; apply preserves_ignore, body_on_journalDev, body_with_journal, body_Invalidate].
  apply preserves_for_range. intros i.
  apply preserves_bind; [apply preserves_map_err, body_on_journalDev, body_with_journal, body_ReadSlot|].
  intros r. apply preserves_ignore. apply preserves_bind; [apply preserves_lift_opt|]. intros data.
  apply preserves_bind; [apply preserves_map_err, T|]. intros _. apply preserves_ignore, T.
Qed.
End Body.
