(* ===== verification/ServerFaults.v ===== *)
(** * Replay under device faults and crashes

    The target may fail at any system call, after any number of bytes.  While
    [WriteJournalToReplica] has not reached its final [Invalidate], the journal on
    disk stays valid and the replica differs from what it was only on bytes the
    journal covers; so the recovery of the next start completes the replay. *)
From S2P Require Import Prelude GoInt GoMonad BlockDev Networking.
From S2P Require Import Journal JournalCodec JournalSlots JournalSpec JournalOps JournalCheck.
From S2P Require Import Server ServerReplay.
Open Scope Z_scope.

Lemma agree_outside_mono ws ws' c c' :
  (forall p, covered ws p -> covered ws' p) -> agree_outside ws c c' -> agree_outside ws' c c'.
Proof. intros Hsub [Hl H]. split; [done|]. intros p Hp. apply H. auto. Qed.

Lemma covered_elem ws w p : w ∈ ws -> covered [w] p -> covered ws p.
Proof.
  intros Hw Hc. apply Exists_exists. exists w. split; [done|].
  by apply Exists_cons in Hc as [|?%Exists_nil].
Qed.

(** A write, failing or not, touches only bytes of the block it was given. *)
Lemma WriteAt_agree b off d :
  agree_outside [(Z.to_nat off, b)] (content d) (content (WriteAt b off d).2).
Proof.
  unfold WriteAt. destruct (off <? 0) eqn:Eo; [by apply agree_outside_equiv|].
  destruct b as [|x b]; [by apply agree_outside_equiv|].
  assert (Hc : content (syscall d).2 = content d) by (unfold syscall; by destruct (faults d)).
  destruct (syscall d) as [f d']; simpl in Hc. rewrite <- Hc. clear Hc d.
  assert (P : forall k, (k <= Z.to_nat (dev_size d' - off))%nat ->
    agree_outside [(Z.to_nat off, x :: b)] (content d') (content (poke off (take k (x :: b)) d'))).
  { intros k Hk. destruct k as [|k].
    { unfold poke, set_content. rewrite take_0, splice_nil. by apply agree_outside_equiv. }
    assert (Hf : (Z.to_nat off + length (take (S k) (x :: b)) <= length (content d'))%nat)
      by (rewrite length_take; unfold dev_size in *; lia).
    unfold poke, set_content; cbn [content].
    split; [by rewrite (length_splice _ _ _ Hf)|].
    intros p Hp. symmetry. apply lookup_splice_out; [done|].
    unfold covered in Hp. rewrite Exists_cons in Hp. unfold covers in Hp; cbn [fst snd] in Hp.
    rewrite length_take. lia. }
  destruct f as [|n e].
  - destruct (_ <=? _)%nat eqn:E; cbn [snd].
    + apply Nat.leb_le in E. specialize (P (length (x :: b)) E). by rewrite firstn_all in P.
    + by apply P.
  - apply P. lia.
Qed.

Lemma WriteAt_agree_block b d :
  is_u64 (Offset b) ->
  agree_outside [to_write b] (content d) (content (WriteAt (Data b) (i64 (Offset b)) d).2).
Proof.
  intros Hb. unfold i64. destruct (Offset b <? 2 ^ 63) eqn:E; [apply WriteAt_agree|].
  unfold WriteAt. by destruct (_ <? 0) eqn:E'; [|width_tac].
Qed.

(** ** What holds while the journal is being applied *)

Record replaying (s0 : Server) (t : JState) (ws : list write) (s : Server) : Prop := {
  rp_journal : SJournal s = Some (jrn t);
  rp_dev : JournalDev s = jdev t;
  rp_agree : agree_outside ws (content (TargetDevFd s0)) (content (TargetDevFd s));
}.

Lemma preserves_for_bounded {S} (I : S -> Prop) n i body :
  (forall j, i <= j < i + Z.of_nat n -> preserves I (body j)) -> preserves I (for_range n i body).
Proof.
  revert i. induction n as [|n IH]; intros i H; cbn [for_range].
  - apply preserves_ret.
  - apply preserves_bind; [apply H; lia|]. intros _. apply IH. intros j Hj. apply H. lia.
Qed.

Lemma preserves_same {S A} (I : S -> Prop) (m : M S A) r :
  (forall s, I s -> m s = (r, s)) -> preserves I m.
Proof. intros H s Hs. by rewrite H. Qed.

(** Running [f] only on the value [m] returns when [m] changes nothing. *)
Lemma preserves_bind_same {S A B} (I : S -> Prop) (m : M S A) (f : A -> M S B) a :
  (forall s, I s -> m s = (Ret a, s)) -> preserves I (f a) -> preserves I (bind m f).
Proof. intros H Hf s Hs. rewrite (bind_Ret _ _ _ _ _ (H s Hs)). by apply Hf. Qed.

Section Faults.
Context (s0 : Server) (t : JState) (a : AJournal).
Context (J : jrel t a).
Context (Wb : Forall wf_block (a_blocks a)) (Ww : Forall wf_block (a_writes a)).
Local Abbreviation I := (replaying s0 t (a_replay a)).

Lemma replaying_read x i b s :
  a_sec a x !! i = Some b -> I s -> on_journal (ReadSlot x (Z.of_nat i)) s = (Ret b, s).
Proof using J.
  intros Hi [H1 H2 _]. assert (E : jstate s (jrn t) = t) by (unfold jstate; rewrite H2; by destruct t).
  rewrite <- (replica_id s). apply (server_read s (jrn t) a); [done|by rewrite E|done].
Qed.

Lemma replaying_write b :
  wf_block b -> to_write b ∈ a_replay a ->
  preserves I (on_target (WriteAt (Data b) (i64 (Offset b)))).
Proof using.
  intros (Ho & _) Hb s [H1 H2 H3]. unfold on_target, zoom.
  pose proof (WriteAt_agree_block b (TargetDevFd s) Ho) as A.
  destruct (WriteAt (Data b) (i64 (Offset b)) (TargetDevFd s)) as [r d]. simpl in *.
  split; [done|done|]. simpl. etrans; [exact H3|].
  eapply agree_outside_mono; [|exact A]. intros p. by apply covered_elem.
Qed.

Lemma replaying_sync : preserves I (ignore (on_target Sync)).
Proof using.
  apply preserves_ignore. intros s [H1 H2 H3]. unfold on_target, zoom, Sync, sys_unit, syscall.
  destruct (faults (TargetDevFd s)) as [|[] ?]; by split.
Qed.

Lemma replay_elem x i b : a_sec a x !! i = Some b -> to_write b ∈ a_replay a.
Proof using.
  intros Hi%list_elem_of_lookup_2. unfold a_replay. rewrite elem_of_app.
  destruct x; cbn [a_sec] in Hi; [right|left]; by apply (list_elem_of_fmap_2 to_write).
Qed.

Lemma replay_wf x i b : a_sec a x !! i = Some b -> wf_block b.
Proof using Wb Ww.
  intros Hi. destruct x;
    [exact (Forall_lookup_1 _ _ _ _ Ww Hi)|exact (Forall_lookup_1 _ _ _ _ Wb Hi)].
Qed.

Lemma sec_lookup x i :
  0 <= i < Z.of_nat (length (a_sec a x)) -> exists b, a_sec a x !! Z.to_nat i = Some b.
Proof using. intros. apply lookup_lt_is_Some_2. lia. Qed.

Lemma replaying_blocks :
  preserves I (for_range (length (a_blocks a)) 0 (fun i =>
    correctBlock <- map_err (Errorf_v "Can't read correct block from journal: ")
                      (on_journal (ReadCorrectBlock i)) ;;
    map_err (Errorf_v "Can't write correct block: ")
      (on_target (WriteAt (Data correctBlock) (i64 (Offset correctBlock)))))).
Proof using J Wb Ww.
  apply preserves_for_bounded. intros i Hi.
  destruct (sec_lookup CorrBlocks i ltac:(done)) as [b Hb].
  apply (preserves_bind_same _ _ _ b).
  - intros s Hs. apply map_err_Ret. replace i with (Z.of_nat (Z.to_nat i)) by lia.
    by apply (replaying_read CorrBlocks).
  - apply preserves_map_err, replaying_write; [by eapply (replay_wf CorrBlocks)|].
    by eapply (replay_elem CorrBlocks).
Qed.

Lemma replaying_writes :
  preserves I (for_range (length (a_writes a)) 0 (fun i =>
    bufferWrite <- map_err (Errorf_v "Can't read buffer write from journal: ")
                     (on_journal (ReadBufferWrite i)) ;;
    dataToWrite <- lift_opt (slice (Data bufferWrite) 0 (Size bufferWrite)) ;;
    map_err (Errorf_v "Can't write buffer write: ")
      (on_target (WriteAt dataToWrite (i64 (Offset bufferWrite)))) ;;;
    ignore (on_target Sync))).
Proof using J Wb Ww.
  apply preserves_for_bounded. intros i Hi.
  destruct (sec_lookup BufWrites i ltac:(done)) as [b Hb].
  pose proof (replay_wf BufWrites _ _ Hb) as Hw.
  apply (preserves_bind_same _ _ _ b).
  { intros s Hs. apply map_err_Ret. replace i with (Z.of_nat (Z.to_nat i)) by lia.
    by apply (replaying_read BufWrites). }
  apply (preserves_bind_same _ _ _ (Data b)).
  { intros s _. destruct Hw as (_ & Hs & Hd). rewrite slice_Some by width_tac.
    unfold lift_opt, ret. rewrite sub_full by lia. done. }
  apply preserves_bind; [|intros _; apply replaying_sync].
  apply preserves_map_err, replaying_write; [done|]. by eapply (replay_elem BufWrites).
Qed.
End Faults.

(** ** An aborted replay *)

Lemma bind_inv_Err {S A B} (m : M S A) (f : A -> M S B) s e s' :
  bind m f s = (Err e, s') ->
  m s = (Err e, s') \/ exists a s1, m s = (Ret a, s1) /\ f a s1 = (Err e, s').
Proof. unfold bind. destruct (m s) as [[a|e'|] s1]; intros; simplify_eq; eauto. Qed.

(** If [m] keeps [I] and [f] only fails leaving [I], so does the sequence. *)
Definition err_keeps {S A} (I : S -> Prop) (m : M S A) : Prop :=
  forall s e s', I s -> m s = (Err e, s') -> I s'.

Lemma err_keeps_bind {S A B} (I : S -> Prop) (m : M S A) (f : A -> M S B) :
  preserves I m -> (forall a, err_keeps I (f a)) -> err_keeps I (bind m f).
Proof.
  intros Hm Hf s e s' Hs E. specialize (Hm s Hs).
  apply bind_inv_Err in E as [E|(b & s1 & E1 & E2)].
  - by rewrite E in Hm.
  - rewrite E1 in Hm. by apply (Hf b s1 e).
Qed.

Lemma err_keeps_bind_same {S A B} (I : S -> Prop) (m : M S A) (f : A -> M S B) a :
  (forall s, I s -> m s = (Ret a, s)) -> err_keeps I (f a) -> err_keeps I (bind m f).
Proof. intros Hm Hf s e s' Hs. rewrite (bind_Ret _ _ _ _ _ (Hm s Hs)). by apply Hf. Qed.

Lemma replaying_offset s0 t ws x s :
  replaying s0 t ws s -> on_journal (gets (fun t => used (jrn t) x)) s = (Ret (used (jrn t) x), s).
Proof.
  intros [H1 H2 _]. unfold on_journal. rewrite H1. simpl. unfold set_journal. rewrite <- H1. by destruct s.
Qed.

(** An error return of [WriteJournalToReplica], whatever call of the target
    failed, leaves the journal valid on disk and the replica unchanged outside
    the journal. *)
Lemma WriteJournalToReplica_err s a t e s' :
  srel s a -> Forall wf_block (a_blocks a) -> Forall wf_block (a_writes a) ->
  (exists j, SJournal s = Some j /\ Validate (jstate s j) = (Ret tt, t)) ->
  WriteJournalToReplica s = (Err e, s') ->
  replaying s t (a_replay a) s'.
Proof.
  intros (j & Hj & Jr) Wb Ww (j' & Hj' & Ev) E. simplify_eq.
  destruct (Validate_jrel _ _ Jr) as (t' & Ev' & J1).
  rewrite Ev in Ev'. injection Ev' as <-.
  assert (I1 : replaying s t (a_replay a) (with_jstate t s)) by (by split).
  unfold WriteJournalToReplica in E.
  rewrite (bind_Ret _ _ _ tt (with_jstate t s)) in E by (eapply ignore_Ret, on_journal_Ret; done).
  match type of E with ?k _ = _ =>
    enough (K : err_keeps (replaying s t (a_replay a)) k) by exact (K _ _ _ I1 E) end.
  clear E I1.
  destruct J1 as (Ij & Hv & Hh). pose proof (conj Ij (conj Hv Hh)) as J1. fold (jrel t (a_mark true a)) in J1.
  destruct (Hh CorrBlocks) as [Hc _]. destruct (Hh BufWrites) as [Hw _]. simpl in Hc, Hw.
  refine (err_keeps_bind_same _ _ _ _ (replaying_offset s t _ CorrBlocks) _).
  simpl. rewrite Hc, Nat2Z.id.
  refine (err_keeps_bind _ _ _ (replaying_blocks s t (a_mark true a) J1 Wb Ww) _). intros _.
  refine (err_keeps_bind _ _ _ (replaying_sync s t (a_mark true a)) _). intros _.
  refine (err_keeps_bind_same _ _ _ _ (replaying_offset s t _ BufWrites) _).
  simpl. rewrite Hw, Nat2Z.id.
  refine (err_keeps_bind _ _ _ (replaying_writes s t (a_mark true a) J1 Wb Ww) _). intros _.
  (* the final Invalidate does not fail on a healthy journal device *)
  intros s1 e1 s2 [H1 H2 _] E. exfalso.
  destruct (Invalidate_jrel _ _ J1) as (t2 & E2 & _).
  assert (Ej : jstate s1 (jrn t) = t) by (unfold jstate; rewrite H2; by destruct t).
  rewrite <- Ej in E2. unfold map_err in E. by rewrite (on_journal_Ret _ s1 _ _ _ H1 E2) in E.
Qed.
