(* ===== verification/ServerProps.v ===== *)
(** * Correctness of the server's journal handling

    The properties of [server.go]: replay, recovery after a crash, filling the
    journal during a scan, direct writes, and what happens on the error paths.
    Each one follows from the lemmas of the files it requires. *)
From S2P Require Import Prelude GoInt GoMonad BlockDev Networking.
From S2P Require Import Journal JournalCodec JournalSlots JournalSpec JournalOps JournalCheck.
From S2P Require Import Server ServerReplay ServerJournal ServerFaults.
Open Scope Z_scope.

(** ** Shared definitions *)

(** The blocks of an abstract journal, as the code can write them to a device
    of [n] bytes. *)
Definition replayable (n : nat) (a : AJournal) : Prop :=
  forall x, Forall (fun b => wf_block b /\ fits n (to_write b)) (a_sec a x).

Definition has_room (j : Journal) (a : AJournal) : Prop :=
  forall x, Z.of_nat (length (a_sec a x)) < slotCount (header j) x.

(** A device after the machine is back. *)
Definition revive (d : Dev) : Dev := {| content := content d; faults := [] |}.

Lemma replayable_writable n a x : replayable n a -> Forall (writable n) (a_sec a x).
Proof.
  intros H. eapply Forall_impl; [apply H|]. intros b [(Ho & _ & Hd) Hf].
  unfold is_u64 in Ho. split_and!; [lia|done|done].
Qed.

Lemma replayable_wf n a x : replayable n a -> Forall wf_block (a_sec a x).
Proof. intros H. eapply Forall_impl; [apply H|]. by intros b [? _]. Qed.

(** A restarted server that finds a valid journal on disk repairs any image
    that differs from [c0] on journalled bytes only. *)
Lemma recover_from port t a c0 c :
  jrel t a -> a_valid a = true -> has_room (jrn t) a ->
  replayable (length c0) a -> Z.of_nat (length c0) < 2 ^ 63 ->
  agree_outside (a_replay a) c0 c ->
  exists r r', NewServer port {| content := c; faults := [] |} (jdev t) None = Ret r /\
    CheckJournal r = (Ret tt, r') /\
    content (TargetDevFd r') = apply_writes (a_replay a) c0 /\
    exists j, jrel (jstate r' j) (a_mark false a).
Proof.
  intros J Hv Hroom Hw Hn Ha. pose proof Ha as [Hl _].
  set (r := mkServer {| content := c; faults := [] |} (jdev t) None None false [] [] StateDisconnected).
  assert (Jr : jrel (jstate r (jrn t)) a) by (unfold jstate; simpl; by destruct t).
  assert (Tr : target_ok r) by (split; [done|unfold dev_size; simpl; lia]).
  rewrite Hl in Hw.
  destruct (CheckJournal_valid r (jrn t) a Tr Jr Hv) as (t' & E & J').
  - intros x. destruct Jr as (_ & _ & Hh). destruct (Hh x) as [Hu _]. simpl in Hu. rewrite Hu. apply Hroom.
  - by apply (replayable_writable _ a CorrBlocks).
  - by apply (replayable_writable _ a BufWrites).
  - eexists r, _. split_and!; [done|exact E| |].
    + simpl. symmetry. apply apply_writes_absorb; [|done]. rewrite Hl.
      apply replay_fits; by apply (replayable_writable _ a CorrBlocks) || apply (replayable_writable _ a BufWrites).
    + exists (jrn t'). unfold jstate; simpl. by destruct t'.
Qed.

(** ** Examples *)

Definition demo_server : Server :=
  {| TargetDevFd := {| content := replicate 16 Byte.x00; faults := [] |};
     JournalDev := jdev demo_state; SJournal := Some (jrn demo_state);
     ClientInfo := Some {| DeviceSize := 16; iWriteInfoSize := 12; BufferByteSize := 48 |};
     Connected := true; sent := []; sendFaults := []; state := StateHashing |}.

(** The same server on a target whose first write fails after one byte. *)
Definition demo_faulty : Server :=
  set_target {| content := replicate 16 Byte.x00; faults := [Fault 1 (ErrMsg "EIO")] |} demo_server.

Lemma demo_srel : srel demo_server demo_a.
Proof. exists (jrn demo_state). split; [done|]. exact demo_jrel. Qed.

Lemma demo_target_ok : target_ok demo_server.
Proof. done. Qed.

Lemma demo_replayable : replayable 16 demo_a.
Proof. intros []; apply Forall_singleton; split; vm_compute; repeat constructor; done. Qed.

Lemma demo_room : has_room (jrn demo_state) demo_a.
Proof. intros []; vm_compute; done. Qed.

Lemma demo_room_of s j : SJournal s = Some (jrn demo_state) -> SJournal s = Some j -> has_room j demo_a.
Proof. intros H1 H2. rewrite H1 in H2. apply (inj Some) in H2. rewrite <- H2. exact demo_room. Qed.

(** ** Replay and recovery *)

(** C15: [WriteJournalToReplica] on a working target writes the correct blocks
    in slot order and then the buffer writes in slot order, leaves the journal
    with the same blocks but marked invalid, and touches nothing else of the
    server. *)
Theorem replay_refines s a :
  target_ok s -> srel s a -> replayable (length (content (TargetDevFd s))) a ->
  exists s', WriteJournalToReplica s = (Ret tt, s') /\
    content (TargetDevFd s') =
      apply_writes ((to_write <$> a_blocks a) ++ (to_write <$> a_writes a)) (content (TargetDevFd s)) /\
    srel s' (a_mark false a) /\ same_session s s'.
Proof.
  intros T R Hw. destruct (WriteJournalToReplica_spec s a T R) as (s' & E & Hc & R' & _ & Hs).
  - by apply (replayable_writable _ a CorrBlocks).
  - by apply (replayable_writable _ a BufWrites).
  - by exists s'.
Qed.

Lemma replay_refines_witness :
  exists s', WriteJournalToReplica demo_server = (Ret tt, s') /\
    content (TargetDevFd s') =
      apply_writes ((to_write <$> a_blocks demo_a) ++ (to_write <$> a_writes demo_a))
                   (content (TargetDevFd demo_server)) /\
    srel s' (a_mark false demo_a) /\ same_session demo_server s'.
Proof. apply (replay_refines demo_server demo_a); [exact demo_target_ok|exact demo_srel|exact demo_replayable]. Defined.

(** C7: with a free slot in both sections of the journal ([has_room]): if the replay
    stops with an error, whatever call of the target failed and however many bytes
    of it were written, then a server started afterwards finds the journal valid,
    and its recovery produces exactly the replica of an undisturbed replay and
    invalidates the journal.  (A journal with a full section is not opened again,
    and nothing is recovered: [full_journal_not_recovered].) *)
Theorem crash_recovery port s a e s' :
  srel s a -> (forall j, SJournal s = Some j -> has_room j a) ->
  dev_size (TargetDevFd s) < 2 ^ 63 -> replayable (length (content (TargetDevFd s))) a ->
  WriteJournalToReplica s = (Err e, s') ->
  exists r r', NewServer port (revive (TargetDevFd s')) (JournalDev s') None = Ret r /\
    CheckJournal r = (Ret tt, r') /\
    content (TargetDevFd r') = apply_writes (a_replay a) (content (TargetDevFd s)) /\
    exists j, jrel (jstate r' j) (a_mark false a).
Proof.
  intros R Hroom Hn Hw E. pose proof R as (j & Hj & J).
  destruct (Validate_jrel _ _ J) as (t & Ev & Jt).
  destruct (WriteJournalToReplica_err s a t e s' R) as [_ Hd Ha].
  - by apply (replayable_wf _ a CorrBlocks Hw).
  - by apply (replayable_wf _ a BufWrites Hw).
  - by exists j.
  - done.
  - rewrite Hd. apply (recover_from port t (a_mark true a)); try done.
    intros x. rewrite Validate_eq in Ev by apply J. injection Ev as <-. apply (Hroom j Hj x).
Qed.

Lemma crash_recovery_witness :
  exists e s', WriteJournalToReplica demo_faulty = (Err e, s') /\
  exists r r', NewServer 8080 (revive (TargetDevFd s')) (JournalDev s') None = Ret r /\
    CheckJournal r = (Ret tt, r') /\
    content (TargetDevFd r') = apply_writes (a_replay demo_a) (content (TargetDevFd demo_faulty)) /\
    exists j, jrel (jstate r' j) (a_mark false demo_a).
Proof.
  destruct (WriteJournalToReplica demo_faulty) as [[u|e|] s'] eqn:E; [vm_compute in E; discriminate| |vm_compute in E; discriminate].
  exists e, s'. split; [reflexivity|].
  apply (crash_recovery 8080 demo_faulty demo_a e s'); [exact demo_srel| |done|exact demo_replayable|exact E].
  intros j. exact (demo_room_of demo_faulty j eq_refl).
Defined.

(** C8: with a free slot in both sections of the journal ([has_room]): once the valid
    mark is on disk, a power loss at any point of the replay is repaired at the next
    start: for every target image that differs
    from the old replica only on bytes the journal covers (any subset of the
    writes, in any order, torn or not), [CheckJournal] yields the replica the
    undisturbed replay yields.  (With a full section nothing is recovered:
    [full_journal_not_recovered].) *)
Theorem power_loss_recovery port s a s' c :
  target_ok s -> srel s a -> (forall j, SJournal s = Some j -> has_room j a) ->
  replayable (length (content (TargetDevFd s))) a ->
  WriteJournalToReplica s = (Ret tt, s') ->
  agree_outside (a_replay a) (content (TargetDevFd s)) c ->
  exists s1 r r', on_journal Validate s = (Ret tt, s1) /\
    NewServer port {| content := c; faults := [] |} (JournalDev s1) None = Ret r /\
    CheckJournal r = (Ret tt, r') /\ content (TargetDevFd r') = content (TargetDevFd s').
Proof.
  intros T R Hroom Hw E Ha. pose proof R as (j & Hj & J).
  destruct (WriteJournalToReplica_spec s a T R) as (s'' & E' & Hc & _).
  { by apply (replayable_writable _ a CorrBlocks). }
  { by apply (replayable_writable _ a BufWrites). }
  rewrite E in E'. injection E' as <-.
  destruct (Validate_jrel _ _ J) as (t & Ev & Jt).
  destruct (recover_from port t (a_mark true a) (content (TargetDevFd s)) c) as (r & r' & Er & Ec & Hr & _); try done.
  { intros x. rewrite Validate_eq in Ev by apply J. injection Ev as <-. apply (Hroom j Hj x). }
  { apply T. }
  exists (with_jstate t s), r, r'. split_and!; [by apply (on_journal_Ret _ s j)|done|done|by rewrite Hr, Hc].
Qed.

(** The correct block is torn after its first byte, the buffer write is done. *)
Definition demo_torn : list byte :=
  [Byte.x00; Byte.x00; Byte.x00; Byte.x00; Byte.xaa; Byte.xcc] ++ replicate 10 Byte.x00.

Lemma demo_torn_agree :
  agree_outside (a_replay demo_a) (content (TargetDevFd demo_server)) demo_torn.
Proof.
  split; [done|]. intros p Hp.
  change (a_replay demo_a) with [(4, [Byte.xaa; Byte.xbb]); (5, [Byte.xcc])]%nat in Hp.
  unfold covered, covers in Hp. rewrite !Exists_cons in Hp. cbn [fst snd length] in Hp.
  do 6 (destruct p as [|p]; [done || (exfalso; apply Hp; lia)|]). done.
Qed.

Lemma power_loss_recovery_witness :
  exists s' s1 r r', WriteJournalToReplica demo_server = (Ret tt, s') /\
    on_journal Validate demo_server = (Ret tt, s1) /\
    NewServer 8080 {| content := demo_torn; faults := [] |} (JournalDev s1) None = Ret r /\
    CheckJournal r = (Ret tt, r') /\ content (TargetDevFd r') = content (TargetDevFd s').
Proof.
  destruct (WriteJournalToReplica demo_server) as [[[]|e|] s'] eqn:E;
    [|vm_compute in E; discriminate|vm_compute in E; discriminate].
  exists s'.
  destruct (power_loss_recovery 8080 demo_server demo_a s' demo_torn demo_target_ok demo_srel
    (fun j => demo_room_of demo_server j eq_refl) demo_replayable E demo_torn_agree)
    as (s1 & r & r' & H).
  exists s1, r, r'. split; [reflexivity|]. exact H.
Defined.

(** ** Filling the journal *)

(** The blocks for section [x] among the packets, in order, as the journal
    stores them. *)
Definition blocks_of (x : section) (ps : list Packet) : list BlockInfo :=
  omap (fun p => match pkt_block p with
                 | Some (y, Some b) => if bool_decide (x = y) then Some (trim b) else None
                 | _ => None
                 end) ps.

(** Packets with the payload their type announces. *)
Definition well_typed (p : Packet) : Prop :=
  match pkt_block p with Some (_, None) => False | _ => True end.

Definition a_append_all (ps : list Packet) (a : AJournal) : AJournal :=
  mkA (a_valid a) (a_writes a ++ blocks_of BufWrites ps) (a_blocks a ++ blocks_of CorrBlocks ps).

Lemma a_sec_append_all x ps a : a_sec (a_append_all ps a) x = a_sec a x ++ blocks_of x ps.
Proof. by destruct x. Qed.

Lemma a_append_all_cons p ps a :
  a_append_all (p :: ps) a =
  a_append_all ps (match pkt_block p with Some (x, Some b) => a_append x (trim b) a | _ => a end).
Proof.
  unfold a_append_all, blocks_of. cbn [omap list_omap].
  destruct (pkt_block p) as [[[] [b|]]|]; destruct a; simpl; by rewrite <- ?app_assoc.
Qed.

(** Enough slots: every packet is appended. *)
Lemma a_packets_room cap ps a :
  Forall well_typed ps ->
  (forall x, Z.of_nat (length (a_sec a x) + length (blocks_of x ps)) <= cap x) ->
  a_packets cap ps (a, false) = (a_append_all ps a, false).
Proof.
  revert a. induction ps as [|p ps IH]; intros a Ht Hc.
  { unfold a_append_all; simpl. rewrite !app_nil_r. by destruct a. }
  apply Forall_cons in Ht as [Hp Ht]. rewrite a_append_all_cons. unfold a_packets. cbn [foldl].
  fold (a_packets cap ps). unfold well_typed in Hp.
  assert (Hx : forall x, Z.of_nat (length (a_sec (match pkt_block p with
      Some (x, Some b) => a_append x (trim b) a | _ => a end) x) + length (blocks_of x ps)) <= cap x).
  { intros x. specialize (Hc x). rewrite <- length_app, <- a_sec_append_all, <- a_append_all_cons.
    by rewrite a_sec_append_all, length_app. }
  rewrite <- IH by done. f_equal. unfold a_packet.
  destruct (pkt_block p) as [[x [b|]]|] eqn:Ep; [|done|done].
  destruct (_ <? _) eqn:E; [done|]. specialize (Hx x).
  assert (length (a_sec (a_append x (trim b) a) x) = S (length (a_sec a x))).
  { destruct x, a; simpl; rewrite length_app; simpl; lia. }
  lia.
Qed.

Lemma a_packets_valid cap ps l : a_valid (a_packets cap ps l).1 = a_valid l.1.
Proof.
  revert l. induction ps as [|p ps IH]; intros [a ovf]; [done|].
  unfold a_packets in *. cbn [foldl]. rewrite IH. unfold a_packet. destruct ovf; [done|].
  destruct (pkt_block p) as [[[] [b|]]|]; [|done| |done|done]; by destruct (_ <? _).
Qed.

Lemma room_or_full t a :
  jrel t a ->
  (forall x, used (jrn t) x < slotCount (header (jrn t)) x) \/
  (exists x, used (jrn t) x = slotCount (header (jrn t)) x).
Proof.
  intros (I & _). pose proof (ji_used _ I BufWrites). pose proof (ji_used _ I CorrBlocks).
  destruct (decide (used (jrn t) BufWrites = slotCount (header (jrn t)) BufWrites)); [eauto|].
  destruct (decide (used (jrn t) CorrBlocks = slotCount (header (jrn t)) CorrBlocks)); [eauto|].
  left. intros []; lia.
Qed.

(** C13: the journal worker refines the abstract append log: it stores each
    buffer write and correct block in the next slot of its section, the first
    block that finds its section full (or a wrong payload) switches the server
    to [JournalOverflow] and sends the client one [ErrJournalOverflow], later
    packets are dropped, and the replica is never touched. *)
Theorem HandleJournalPackets_refines s j a ps :
  SJournal s = Some j -> jrel (jstate s j) a -> state s <> StateJournalOverflow ->
  sendFaults s = [] -> Forall (pkt_ok (header j)) ps ->
  exists s', HandleJournalPackets ps s = (Ret tt, s') /\
    log_rel s s' (header j) (a_packets (slotCount (header j)) ps (a, false)).
Proof.
  intros Hj J Hs Hf Hp. apply HandleJournalPackets_sim; [done| |done].
  exists j. split_and!; done.
Qed.

Definition demo_packets : list Packet :=
  [{| PacketType := PacketTypePayloadCorrectBlock; Payload := PCorrectBlockInfo demo_block |};
   {| PacketType := PacketTypePayloadBufferWrite;
      Payload := PWriteInfo {| Offset := 5; Size := 1; Data := [Byte.xcc; Byte.xdd] |} |}].

Lemma demo_packets_ok : Forall (pkt_ok (header (jrn demo_state))) demo_packets.
Proof. repeat constructor; vm_compute; repeat constructor; done. Qed.

Lemma HandleJournalPackets_refines_witness :
  exists s', HandleJournalPackets demo_packets demo_server = (Ret tt, s') /\
    log_rel demo_server s' (header (jrn demo_state))
      (a_packets (slotCount (header (jrn demo_state))) demo_packets (demo_a, false)).
Proof.
  apply (HandleJournalPackets_refines demo_server (jrn demo_state) demo_a);
    [reflexivity|exact demo_jrel|discriminate|reflexivity|exact demo_packets_ok].
Defined.

(** C21: while a scan fills the journal the replica on disk stays as it was, and
    a crash at any point loses only the scan: the journal is not marked valid,
    so the next start leaves the replica alone, whether or not the journal is
    full or has overflowed. *)
Theorem scan_crash_safe port s j a ps :
  SJournal s = Some j -> jrel (jstate s j) a -> a_valid a = false ->
  state s <> StateJournalOverflow -> sendFaults s = [] -> Forall (pkt_ok (header j)) ps ->
  exists s' r, HandleJournalPackets ps s = (Ret tt, s') /\
    TargetDevFd s' = TargetDevFd s /\
    NewServer port (revive (TargetDevFd s)) (JournalDev s') None = Ret r /\
    CheckJournal r = (Ret tt, r) /\ content (TargetDevFd r) = content (TargetDevFd s).
Proof.
  intros Hj J Hv Hs Hf Hp.
  destruct (HandleJournalPackets_sim s (header j) ps s (a, false) Hs) as (s' & E & R);
    [by exists j|done|].
  destruct R as (j' & Hj' & J' & _ & Ht & _).
  set (r := mkServer (revive (TargetDevFd s)) (JournalDev s') None None false [] [] StateDisconnected).
  exists s', r. split_and!; try done.
  change (jstate s' j') with (jstate r j') in J'.
  destruct (room_or_full _ _ J') as [Hr|[x Hx]].
  - apply (CheckJournal_invalid r j' _ J'); [by rewrite a_packets_valid|done].
  - by apply (CheckJournal_full r j' _ x J').
Qed.

Lemma scan_crash_safe_witness :
  exists s' r, HandleJournalPackets demo_packets demo_server = (Ret tt, s') /\
    TargetDevFd s' = TargetDevFd demo_server /\
    NewServer 8080 (revive (TargetDevFd demo_server)) (JournalDev s') None = Ret r /\
    CheckJournal r = (Ret tt, r) /\ content (TargetDevFd r) = content (TargetDevFd demo_server).
Proof.
  apply (scan_crash_safe 8080 demo_server (jrn demo_state) demo_a);
    [reflexivity|exact demo_jrel|reflexivity|discriminate|reflexivity|exact demo_packets_ok].
Defined.
