(* ===== verification/ServerPaths.v ===== *)
(** * Direct writes and the error paths of the server

    [HandleWritePackets] retries a failed write for ever; [CopyJournalToReplica]
    drops the errors of its writes; [HandleJournalWriting] applies whatever the
    journal holds, also after an overflow, and after a reset that has failed. *)
From S2P Require Import Prelude GoInt GoMonad BlockDev Networking.
From S2P Require Import Journal JournalCodec JournalSlots JournalSpec JournalOps JournalCheck.
From S2P Require Import Server ServerReplay ServerJournal ServerFaults ServerProps.
Open Scope Z_scope.

(** ** The retry loop *)

Lemma splice_prefix p (b : list byte) k c :
  (p + length b <= length c)%nat -> splice p b (splice p (take k b) c) = splice p b c.
Proof.
  intros H. set (w := (p, b) : write).
  assert (F : Forall (fits (length c)) [w]) by (by apply Forall_singleton).
  change (apply_writes [w] (splice p (take k b) c) = apply_writes [w] c). symmetry.
  apply apply_writes_absorb; [done|].
  assert (Hk : (p + length (take k b) <= length c)%nat) by (rewrite length_take; lia).
  split; [by rewrite (length_splice _ _ _ Hk)|].
  intros q Hq. symmetry. apply lookup_splice_out; [done|].
  unfold covered in Hq. rewrite Exists_cons in Hq. unfold covers in Hq. cbn [w fst snd] in Hq.
  rewrite length_take. lia.
Qed.

(** One attempt: done, or one fault of the device is used up. *)
Lemma WriteAt_attempt b off d :
  0 <= off -> off + Z.of_nat (length b) <= dev_size d -> b <> [] ->
  exists fs, faults (WriteAt b off d).2 = fs /\
  splice (Z.to_nat off) b (content (WriteAt b off d).2) = splice (Z.to_nat off) b (content d) /\
  dev_size (WriteAt b off d).2 = dev_size d /\
  (((WriteAt b off d).1 = Ret tt /\ content (WriteAt b off d).2 = splice (Z.to_nat off) b (content d))
   \/ (exists e, (WriteAt b off d).1 = Err e) /\ (length fs < length (faults d))%nat).
Proof.
  intros Ho Hf Hb. exists (faults (WriteAt b off d).2). split; [done|].
  pose proof (WriteAt_size b off d) as Hsz.
  assert (Hs : content (syscall d).2 = content d /\
    (forall n e, (syscall d).1 = Fault n e -> length (faults (syscall d).2) < length (faults d))%nat).
  { unfold syscall. destruct (faults d); simpl; [done|]. split; [done|lia]. }
  unfold WriteAt in *. destruct (off <? 0) eqn:E; [lia|]. destruct b as [|x b]; [done|].
  destruct (syscall d) as [f d']. destruct Hs as [Hs Hn]. cbn [fst snd] in Hs, Hn.
  unfold dev_size in Hf. rewrite <- Hs in Hf |- *. destruct f as [|n e].
  - destruct (_ <=? _)%nat eqn:El; [|unfold dev_size in El; apply Nat.leb_gt in El; lia].
    split_and!; [|done|by left]. cbn [snd]. unfold poke, set_content; cbn [content].
    pose proof (splice_prefix (Z.to_nat off) (x :: b) (length (x :: b)) (content d')) as S.
    rewrite firstn_all in S. apply S. lia.
  - split_and!; [|done|right; split; [by eexists|by eapply Hn]].
    cbn [snd]. unfold poke, set_content; cbn [content]. apply splice_prefix. lia.
Qed.

(** With more attempts than the device has faults the loop ends, and the write
    is on the device. *)
Lemma retry_write_done fuel b off d :
  0 <= off -> off + Z.of_nat (length b) <= dev_size d -> (length (faults d) < fuel)%nat ->
  exists d', retry_write fuel b off d = (Ret true, d') /\
    content d' = splice (Z.to_nat off) b (content d).
Proof.
  intros Ho. destruct (decide (b = [])) as [->|Hb].
  { intros _ Hfuel. exists d. destruct fuel as [|fuel]; [lia|]. cbn [retry_write].
    rewrite (bind_Ret _ _ _ (inl tt) d), splice_nil; [done|].
    unfold catch, WriteAt. destruct (off <? 0) eqn:E; [lia|done]. }
  revert d. induction fuel as [|fuel IH]; intros d Hf Hfuel; [lia|].
  destruct (WriteAt_attempt b off d Ho Hf Hb) as (fs & Hfs & Hs & Hsz & [[Hr Hc]|[[e Hr] Hl]]);
    cbn [retry_write]; unfold bind, catch;
    destruct (WriteAt b off d) as [r d'] eqn:Ew; cbn [fst snd] in *; subst r.
  - by exists d'.
  - destruct (IH d') as (d'' & E & Hc); [lia|subst fs; lia|]. exists d''. by rewrite Hc.
Qed.

(** An attempt outside the device fails, whatever the faults are. *)
Lemma WriteAt_outside b off d :
  b <> [] -> off < 0 \/ dev_size d < off + Z.of_nat (length b) ->
  exists e, (WriteAt b off d).1 = Err e.
Proof.
  intros Hb Ho. unfold WriteAt. destruct (off <? 0) eqn:E; [by eexists|].
  destruct b as [|x b]; [done|].
  assert (Hc : content (syscall d).2 = content d) by (unfold syscall; by destruct (faults d)).
  destruct (syscall d) as [[|n e] d']; simpl in Hc; [|by eexists].
  assert (Hd : dev_size d' = dev_size d) by (unfold dev_size; by rewrite Hc).
  destruct (_ <=? _)%nat eqn:El; [|by eexists]. apply Nat.leb_le in El. exfalso.
  apply Z.ltb_ge in E. cbn [length] in *. lia.
Qed.

Lemma retry_write_spins fuel b off d :
  b <> [] -> off < 0 \/ dev_size d < off + Z.of_nat (length b) ->
  (retry_write fuel b off d).1 = Ret false.
Proof.
  intros Hb. revert d. induction fuel as [|fuel IH]; intros d Ho; [done|].
  destruct (WriteAt_outside b off d Hb Ho) as [e He]. cbn [retry_write]. unfold bind, catch.
  pose proof (WriteAt_size b off d) as Hs.
  destruct (WriteAt b off d) as [r d']; cbn [fst snd] in *. subst r. apply IH. by rewrite Hs.
Qed.

Definition write_packet (w : WriteInfo) : Packet :=
  {| PacketType := PacketTypePayloadBufferWrite; Payload := PWriteInfo w |}.

Lemma slice_trim w : sendable w -> slice (Data w) 0 (Size w) = Some (Data (trim w)).
Proof.
  intros (_ & Hs & Hd). unfold is_u32 in Hs. rewrite slice_Some by lia. f_equal.
  unfold sub. by rewrite Z.sub_0_r, drop_0.
Qed.

(** In [StateWriting] a buffer write that lies inside the device reaches
    it, whatever transient errors the device reports first: the retry loop ends
    as soon as it has made more attempts than there are errors to come, and the
    device then holds [Data[:Size]] at [Offset]. *)
Theorem write_packet_applied fuel w s :
  state s = StateWriting -> sendable w ->
  Offset w + Size w <= dev_size (TargetDevFd s) < 2 ^ 63 ->
  (length (faults (TargetDevFd s)) < fuel)%nat ->
  exists s', handleWritePacket fuel (write_packet w) s = (Ret true, s') /\
    content (TargetDevFd s') = apply_write (content (TargetDevFd s)) (to_write (trim w)) /\
    SJournal s' = SJournal s /\ JournalDev s' = JournalDev s /\ same_session s s'.
Proof.
  intros Hs Hw Hf Hfuel. pose proof Hw as (Ho & Hz & Hd). pose proof (trim_wf w Hw) as (_ & _ & Hl).
  unfold is_u64, is_u32 in *. cbn [Size trim] in Hl.
  destruct (retry_write_done fuel (Data (trim w)) (Offset w) (TargetDevFd s)) as (d' & E & Hc);
    [lia|lia|done|].
  unfold handleWritePacket. erewrite bind_Ret by done.
  rewrite Hs, bool_decide_eq_true_2 by done. cbn [negb]. cbn [Payload write_packet].
  rewrite slice_trim by done. erewrite bind_Ret by done. rewrite i64_small by lia.
  rewrite (bind_Ret _ _ _ true (set_target d' s)) by (unfold on_target, zoom; by rewrite E).
  assert (Y : exists d'', ignore (on_target Sync) (set_target d' s) = (Ret tt, set_target d'' s)
    /\ content d'' = content d').
  { unfold ignore, bind, catch, on_target, zoom, Sync, sys_unit, syscall. cbn [TargetDevFd set_target].
    destruct (faults d') as [|[|n e] fs] eqn:Ef; eexists; split; try reflexivity. }
  destruct Y as (d'' & Ey & Hd''). exists (set_target d'' s).
  rewrite (bind_Ret _ _ _ _ _ Ey). split_and!; try done. simpl. by rewrite Hd'', Hc.
Qed.

Definition demo_writing : Server :=
  set_state StateWriting (set_target
    {| content := replicate 16 Byte.x00;
       faults := [Fault 1 (ErrMsg "EIO"); Fault 0 (ErrMsg "EIO")] |} demo_server).

Definition demo_long : WriteInfo := {| Offset := 3; Size := 2; Data := [Byte.x01; Byte.x02; Byte.x03] |}.

Lemma write_packet_applied_witness :
  exists s', handleWritePacket 3 (write_packet demo_long) demo_writing = (Ret true, s') /\
    content (TargetDevFd s') =
      apply_write (content (TargetDevFd demo_writing)) (to_write (trim demo_long)) /\
    SJournal s' = SJournal demo_writing /\ JournalDev s' = JournalDev demo_writing /\
    same_session demo_writing s'.
Proof.
  apply (write_packet_applied 3 demo_long demo_writing);
    [reflexivity|vm_compute; repeat constructor; done|vm_compute; done|simpl; lia].
Defined.

(** C39: a non-empty buffer write that reaches past the end of the device (or
    whose offset is negative as an [int64]) never leaves the retry loop of
    [HandleWritePackets]: no number of attempts is enough. *)
Theorem write_packet_spins fuel w s :
  state s = StateWriting -> sendable w -> 0 < Size w ->
  dev_size (TargetDevFd s) < Offset w + Size w ->
  (handleWritePacket fuel (write_packet w) s).1 = Ret false.
Proof.
  intros Hs Hw H0 Hout. pose proof Hw as (Ho & Hz & Hd). pose proof (trim_wf w Hw) as (_ & _ & Hl).
  cbn [Size trim] in Hl. unfold handleWritePacket. erewrite bind_Ret by done.
  rewrite Hs, bool_decide_eq_true_2 by done. cbn [negb]. cbn [Payload write_packet].
  rewrite slice_trim by done. erewrite bind_Ret by done.
  assert (E : (retry_write fuel (Data (trim w)) (i64 (Offset w)) (TargetDevFd s)).1 = Ret false).
  { apply retry_write_spins; [intros Hn; rewrite Hn in Hl; simpl in Hl; lia|].
    unfold is_u64, i64 in *. destruct (_ <? _) eqn:E; lia. }
  destruct (retry_write fuel (Data (trim w)) (i64 (Offset w)) (TargetDevFd s)) as [r d] eqn:Er.
  simpl in E. subst r.
  by rewrite (bind_Ret _ _ _ false (set_target d s)) by (unfold on_target, zoom; by rewrite Er).
Qed.

Lemma write_packet_spins_witness :
  (handleWritePacket 100 (write_packet {| Offset := 15; Size := 2; Data := [Byte.x01; Byte.x02] |})
     demo_writing).1 = Ret false.
Proof.
  apply (write_packet_spins 100 {| Offset := 15; Size := 2; Data := [Byte.x01; Byte.x02] |} demo_writing);
    [reflexivity|vm_compute; repeat constructor; done|reflexivity|reflexivity].
Defined.

(** ** Start-up recovery on a failing target *)

Section Lossy.
Context (s0 : Server) (j : Journal) (a : AJournal) (J : jrel (jstate s0 j) a).
Context (Ww : Forall wf_block (a_writes a)).
Local Abbreviation I := (fun s => JournalDev s = JournalDev s0).

Lemma lossy_read x i b s :
  a_sec a x !! i = Some b -> I s ->
  map_err (Errorf_v "Failed to copy journal to replica: ") (on_local j (ReadSlot x (Z.of_nat i))) s =
  (Ret (b, j), s).
Proof using J.
  intros Hi Hs. apply map_err_Ret. rewrite <- (replica_id s). apply (local_read s j a); [|done].
  unfold jstate in *. by rewrite Hs.
Qed.

Lemma lossy_target (m : M Server unit) :
  (forall s, (m s).1 <> Panic) -> (forall s, JournalDev (m s).2 = JournalDev s) ->
  forall s, I s -> ignore m s = (Ret tt, (ignore m s).2) /\ I (ignore m s).2.
Proof using.
  intros Hp Hd s Hs. specialize (Hp s). specialize (Hd s). unfold ignore, bind, catch.
  destruct (m s) as [[u|e|] s'] eqn:E; simpl in *; [| |done]; (split; [done|simpl; congruence]).
Qed.

Lemma lossy_loop x (body : Z -> M Server unit) :
  (forall i b s, a_sec a x !! i = Some b -> I s ->
     body (Z.of_nat i) s = (Ret tt, (body (Z.of_nat i) s).2) /\ I (body (Z.of_nat i) s).2) ->
  forall s, I s -> exists s', for_range (length (a_sec a x)) 0 body s = (Ret tt, s') /\ I s'.
Proof using.
  intros Hb s Hs.
  destruct (for_range_Ret (fun _ => I) (length (a_sec a x)) 0 body (fun i s => (body i s).2) s Hs)
    as [E HI]; [|eauto].
  intros i t Hi Ht. destruct (a_sec a x !! Z.to_nat i) as [b|] eqn:Eb.
  - specialize (Hb _ _ _ Eb Ht). by rewrite Z2Nat.id in Hb by lia.
  - apply lookup_ge_None_1 in Eb. lia.
Qed.

Lemma WriteCorrectBlockToReplica_total b s :
  (WriteCorrectBlockToReplica b s).1 <> Panic /\
  JournalDev (WriteCorrectBlockToReplica b s).2 = JournalDev s.
Proof using.
  unfold WriteCorrectBlockToReplica, map_err, on_target, zoom, WriteAt.
  destruct (_ <? _); [done|]. destruct (Data b); [done|].
  destruct (syscall _) as [[] ?]; [|done]. by destruct (_ <=? _)%nat.
Qed.

Lemma WriteBufferWriteToReplica_total b s :
  wf_block b ->
  (WriteBufferWriteToReplica b s).1 <> Panic /\
  JournalDev (WriteBufferWriteToReplica b s).2 = JournalDev s.
Proof using.
  intros (_ & Hs & Hd). unfold is_u32 in Hs. unfold WriteBufferWriteToReplica.
  rewrite slice_Some by lia. unfold bind at 1 3. unfold lift_opt, ret, bind, map_err.
  unfold on_target, zoom, ignore, bind, catch.
  set (data := sub _ _ _). destruct (WriteAt data _ (TargetDevFd s)) as [[u|e|] d] eqn:E; simpl.
  - unfold Sync, sys_unit, syscall, ret. by destruct (faults d) as [|[] ?].
  - done.
  - exfalso. revert E. unfold WriteAt. destruct (_ <? _); [done|]. destruct data; [done|].
    destruct (syscall _) as [[] ?]; [|done]. by destruct (_ <=? _)%nat.
Qed.
End Lossy.

(** The start-up recovery reports success and invalidates the journal
    whatever the target does: if its writes fail, the errors are dropped, and
    the only copy of the blocks is given up. *)
Theorem recovery_drops_errors s j a :
  jrel (jstate s j) a -> Forall wf_block (a_writes a) ->
  exists s', CopyJournalToReplica j s = (Ret tt, s') /\
    exists j', jrel (jstate s' j') (a_mark false a).
Proof.
  intros J Ww. destruct (Invalidate_jrel _ _ J) as (t & E & Jt).
  pose proof J as (_ & _ & Hh). destruct (Hh CorrBlocks) as [Hc _]. destruct (Hh BufWrites) as [Hw _].
  simpl in Hc, Hw.
  destruct (lossy_loop s a CorrBlocks (fun i =>
    r <- map_err (Errorf_v "Failed to copy journal to replica: ") (on_local j (ReadCorrectBlock i)) ;;
    ignore (WriteCorrectBlockToReplica r.1))) with (s := s) as (s1 & E1 & I1); [|done|].
  { intros i b s1 Hi Hs1. rewrite (bind_Ret _ _ _ _ _ (lossy_read s j a J CorrBlocks i b s1 Hi Hs1)).
    apply lossy_target; [| |done]; intros; apply WriteCorrectBlockToReplica_total. }
  assert (Y : exists s2, ignore (on_target Sync) s1 = (Ret tt, s2) /\ JournalDev s2 = JournalDev s).
  { unfold ignore, bind, catch, on_target, zoom, Sync, sys_unit, syscall.
    destruct (faults (TargetDevFd s1)) as [|[] ?]; eexists; split; reflexivity || done. }
  destruct Y as (s2 & E2 & I2).
  destruct (lossy_loop s a BufWrites (fun i =>
    r <- map_err (Errorf_v "Failed to copy journal to replica: ") (on_local j (ReadBufferWrite i)) ;;
    ignore (WriteBufferWriteToReplica r.1))) with (s := s2) as (s3 & E3 & I3); [|done|].
  { intros i b s3 Hi Hs3. rewrite (bind_Ret _ _ _ _ _ (lossy_read s j a J BufWrites i b s3 Hi Hs3)).
    assert (wf_block b) by (exact (Forall_lookup_1 _ _ _ _ Ww Hi)).
    apply lossy_target; [| |done]; intros; by apply WriteBufferWriteToReplica_total. }
  exists (set_journalDev (jdev t) s3). split.
  - unfold CopyJournalToReplica.
    replace (Z.to_nat (CorrectOffset j)) with (length (a_sec a CorrBlocks)) by (simpl; lia).
    replace (Z.to_nat (WriteOffset j)) with (length (a_sec a BufWrites)) by (simpl; lia).
    rewrite (bind_Ret _ _ _ _ _ E1), (bind_Ret _ _ _ _ _ E2), (bind_Ret _ _ _ _ _ E3).
    apply ignore_Ret with (tt, jrn t). unfold on_local, on_journalDev, zoom, with_journal.
    unfold jstate in E. by rewrite I3, E.
  - exists (jrn t). unfold jstate; simpl. by destruct t.
Qed.

(** The demo target, on which every call of the recovery fails. *)
Definition demo_dead : Server :=
  set_target {| content := replicate 16 Byte.x00; faults := replicate 8 (Fault 0 (ErrMsg "EIO")) |}
    demo_server.

Lemma recovery_drops_errors_witness :
  content (TargetDevFd (CopyJournalToReplica (jrn demo_state) demo_dead).2) = replicate 16 Byte.x00 /\
  exists s', CopyJournalToReplica (jrn demo_state) demo_dead = (Ret tt, s') /\
    exists j', jrel (jstate s' j') (a_mark false demo_a).
Proof.
  split; [vm_compute; reflexivity|].
  apply (recovery_drops_errors demo_dead (jrn demo_state) demo_a); [exact demo_jrel|].
  exact (replayable_wf 16 demo_a BufWrites demo_replayable).
Defined.

(** C38: a journal with a full section is skipped at start-up even when it is
    marked valid, so a crash in the middle of replaying a full journal leaves
    the replica half written. *)
Theorem full_journal_not_recovered r j a x :
  jrel (jstate r j) a -> a_valid a = true ->
  Z.of_nat (length (a_sec a x)) = slotCount (header j) x ->
  CheckJournal r = (Ret tt, r).
Proof.
  intros J _ Hfull. apply (CheckJournal_full r j a x J).
  destruct J as (_ & _ & Hh). destruct (Hh x) as [Hu _]. simpl in Hu. lia.
Qed.

(** The demo journal with its three write slots taken, marked valid. *)
Definition demo_full_state : JState :=
  state_of (Validate (appended (appended demo_state BufWrites demo_write) BufWrites demo_write)).
Definition demo_full_a : AJournal := mkA true [demo_write; demo_write; demo_write] [demo_block].

(** The replay stopped after the first byte of the correct block. *)
Definition demo_full : Server :=
  set_target {| content := replicate 4 Byte.x00 ++ [Byte.xaa] ++ replicate 11 Byte.x00; faults := [] |}
    (set_journal (jdev demo_full_state) None demo_server).

Lemma full_journal_not_recovered_witness :
  apply_writes (a_replay demo_full_a) (content (TargetDevFd demo_full)) <>
    content (TargetDevFd demo_full) /\
  CheckJournal demo_full = (Ret tt, demo_full).
Proof.
  split; [vm_compute; discriminate|].
  apply (full_journal_not_recovered demo_full (jrn demo_full_state) demo_full_a BufWrites);
    [apply check_jrel_sound; vm_compute; reflexivity|reflexivity|vm_compute; reflexivity].
Defined.

(** ** The end of a scan *)

Lemma session_on_target {A} s0 (m : M Dev A) : preserves (same_session s0) (on_target m).
Proof. intros s Hs. unfold on_target, zoom. by destruct (m (TargetDevFd s)). Qed.

Lemma session_on_journal {A} s0 (m : M JState A) : preserves (same_session s0) (on_journal m).
Proof. intros s Hs. unfold on_journal. destruct (SJournal s); [|done]. by destruct (m _). Qed.

#[export] Hint Resolve session_on_target session_on_journal : preserves.

(** Whatever a replay returns, it leaves the connection and the state alone. *)
Lemma WriteJournalToReplica_session s0 : preserves (same_session s0) WriteJournalToReplica.
Proof. unfold WriteJournalToReplica. auto 20 with preserves. Qed.

(** [HandleJournalWriting] replays the journal unless the replica is being
    overwritten directly: in [StateDestroyingReplica] nothing happens, in every
    other state the blocks held so far are applied, [StateJournalOverflow]
    included, where they are only a prefix of what the scan found. *)
Theorem HandleJournalWriting_applies s a :
  target_ok s -> srel s a -> replayable (length (content (TargetDevFd s))) a ->
  exists s', HandleJournalWriting s = (Ret tt, s') /\ same_session s s' /\
    if bool_decide (state s = StateDestroyingReplica) then s' = s
    else content (TargetDevFd s') = apply_writes (a_replay a) (content (TargetDevFd s)) /\
    srel s' (a_mark false a).
Proof.
  intros T R Hw. unfold HandleJournalWriting. erewrite bind_Ret by done.
  case_bool_decide as Es; [by exists s|].
  destruct (WriteJournalToReplica_spec s a T R) as (s' & E & Hc & R' & _ & Hs).
  - by apply (replayable_writable _ a CorrBlocks).
  - by apply (replayable_writable _ a BufWrites).
  - exists s'. by rewrite (bind_Ret _ _ _ _ _ (catch_Ret _ _ _ _ E)).
Qed.

Lemma HandleJournalWriting_applies_witness :
  exists s', HandleJournalWriting (set_state StateJournalOverflow demo_server) = (Ret tt, s') /\
    same_session (set_state StateJournalOverflow demo_server) s' /\
    content (TargetDevFd s') =
      apply_writes (a_replay demo_a) (content (TargetDevFd (set_state StateJournalOverflow demo_server))) /\
    srel s' (a_mark false demo_a).
Proof.
  apply (HandleJournalWriting_applies (set_state StateJournalOverflow demo_server) demo_a);
    [exact demo_target_ok|exact demo_srel|exact demo_replayable].
Defined.

(** When the replay fails, [HandleJournalWriting] tells the client with one
    [ErrJournalOverflow] packet, and the journal stays valid for the recovery
    of the next start. *)
Theorem HandleJournalWriting_failed s a e s1 :
  srel s a -> replayable (length (content (TargetDevFd s))) a ->
  state s <> StateDestroyingReplica -> sendFaults s = [] ->
  WriteJournalToReplica s = (Err e, s1) ->
  exists s', HandleJournalWriting s = (Ret tt, s') /\
    sent s' = sent s1 ++ [CreateInfoPacket PacketTypeErrJournalOverflow] /\
    srel s' (a_mark true a) /\
    agree_outside (a_replay a) (content (TargetDevFd s)) (content (TargetDevFd s')).
Proof.
  intros R Hw Hs Hf E. pose proof R as (j & Hj & J).
  destruct (Validate_jrel _ _ J) as (t & Ev & Jt).
  destruct (WriteJournalToReplica_err s a t e s1 R) as [Hj1 Hd Ha].
  { by apply (replayable_wf _ a CorrBlocks Hw). }
  { by apply (replayable_wf _ a BufWrites Hw). }
  { by exists j. }
  { done. }
  pose proof (WriteJournalToReplica_session s s ltac:(done)) as Hss. rewrite E in Hss. cbn [snd] in Hss.
  destruct Hss as (_ & _ & _ & Hf1 & _). rewrite Hf in Hf1.
  exists (set_sent (sent s1 ++ [CreateInfoPacket PacketTypeErrJournalOverflow]) [] s1).
  split_and!; [|done| |done].
  - unfold HandleJournalWriting. erewrite bind_Ret by done. rewrite bool_decide_eq_false_2 by done.
    unfold bind, catch. rewrite E. unfold ignore, bind, catch, SendPacket, map_err, Encode. by rewrite Hf1.
  - exists (jrn t). split; [done|]. unfold jstate; simpl. rewrite Hd. by destruct t.
Qed.

Lemma HandleJournalWriting_failed_witness :
  exists e s1, WriteJournalToReplica demo_faulty = (Err e, s1) /\
  exists s', HandleJournalWriting demo_faulty = (Ret tt, s') /\
    sent s' = sent s1 ++ [CreateInfoPacket PacketTypeErrJournalOverflow] /\
    srel s' (a_mark true demo_a) /\
    agree_outside (a_replay demo_a) (content (TargetDevFd demo_faulty)) (content (TargetDevFd s')).
Proof.
  destruct (WriteJournalToReplica demo_faulty) as [[u|e|] s1] eqn:E;
    [vm_compute in E; discriminate| |vm_compute in E; discriminate].
  exists e, s1. split; [reflexivity|].
  apply (HandleJournalWriting_failed demo_faulty demo_a e s1);
    [exact demo_srel|exact demo_replayable|discriminate|reflexivity|exact E].
Defined.

(** ** A reset that fails

    [HashDisk] drops the error of [ResetTo]: when the header cannot be written,
    the scan goes on with the blocks of the last one still in the journal, and
    its end writes them over the replica again. *)
Lemma setInvalidFlag_same h : is_u64 (flags h) -> Header_IsValid h = false -> setInvalidFlag h = h.
Proof.
  intros Hf Hv. rewrite Header_IsValid_mod in Hv.
  assert (E : Z.land (flags h) (2 ^ 64 - 1 - JournalValidFlag) = flags h).
  { change (2 ^ 64 - 1 - JournalValidFlag) with (Z.shiftl (Z.ones 63) 1). apply Z.bits_inj'. intros i Hi.
    rewrite Z.land_spec, Z.shiftl_spec by done. destruct (decide (i = 0)) as [->|Hn].
    { pose proof (Z.bit0_mod (flags h)) as H0. destruct (Z.testbit (flags h) 0); [|done]. by rewrite <- H0 in Hv. }
    destruct (decide (64 <= i)) as [H64|H64]; [by rewrite testbit_u64|].
    rewrite Z.ones_spec_low by lia. apply andb_true_r. }
  unfold setInvalidFlag. rewrite E. by destruct h.
Qed.

(** The next call on the journal device fails. *)
Definition failing_once (e : error) (d : Dev) : Dev := {| content := content d; faults := [Fault 0 e] |}.

Lemma ResetTo_fails w c e s :
  journal_inv s -> healthy (jdev s) -> Journal_IsValid (jrn s) = false ->
  ResetTo w c (mkJState (failing_once e (jdev s)) (jrn s)) = (Err ErrIOFailure, s).
Proof.
  intros I Hd Hv. unfold ResetTo. erewrite bind_Err; [reflexivity|].
  unfold Invalidate. erewrite bind_Ret by reflexivity. unfold set_jrn at 1. cbn [jdev jrn].
  rewrite setInvalidFlag_same by (done || apply I).
  unfold WriteHeader. erewrite bind_Ret by reflexivity. erewrite bind_Err; [reflexivity|].
  cbn [jrn set_header header]. unfold map_err, on_dev, zoom, WriteAt. cbn [jdev Z.ltb Z.compare].
  destruct (header_bytes (header (jrn s))) as [|b bs] eqn:Eb; [by apply (f_equal length) in Eb|].
  unfold syscall, failing_once, poke. cbn [faults content set_content]. rewrite Nat.min_0_l, take_0, splice_nil.
  unfold healthy in Hd. destruct s as [[cont fs] [ds wo co hd]]. cbn in *. by subst fs.
Qed.

(** The journal of the scan before is replayed at the end of this one: a scan
    that finds nothing to correct takes the replica back to the old blocks. *)
Theorem reset_error_replays e s a :
  target_ok s -> srel s a -> a_valid a = false -> replayable (length (content (TargetDevFd s))) a ->
  state s = StateHashing -> sendFaults s = [] ->
  exists s1 s2, HashDisk_start (set_journalDev (failing_once e (JournalDev s)) s) = (Ret true, s1) /\ srel s1 a /\
    HandleJournalWriting s1 = (Ret tt, s2) /\
    content (TargetDevFd s2) = apply_writes (a_replay a) (content (TargetDevFd s)).
Proof.
  intros T (j & Hj & J) Hv Hw Hst Hf. pose proof J as (I & Hva & _). rewrite Hv in Hva.
  assert (Hd : healthy (JournalDev s)) by apply I.
  set (s1 := set_sent (sent s ++ [CreateInfoPacket PacketTypeInfoStartHashing]) [] s).
  assert (R1 : srel s1 a) by (exists j; done).
  destruct (HandleJournalWriting_applies s1 a T R1 Hw) as (s2 & E2 & _ & H2).
  rewrite bool_decide_eq_false_2 in H2 by (cbn; by rewrite Hst). destruct H2 as [H2 _].
  exists s1, s2. split_and!; [|done|done|done]. unfold HashDisk_start. erewrite bind_Ret by reflexivity.
  cbn [state set_journalDev]. rewrite Hst, bool_decide_eq_false_2 by done. cbn [negb].
  set (sf := set_journalDev (failing_once e (JournalDev s)) s).
  assert (Hjf : SJournal sf = Some j) by done.
  assert (Er : (w <- on_journal (gets (fun t => WriteOffset (jrn t))) ;;
                c <- on_journal (gets (fun t => CorrectOffset (jrn t))) ;;
                ignore (on_journal (ResetTo w c))) sf = (Ret tt, s)).
  { assert (Eg : forall A (f : JState -> A), on_journal (gets f) sf = (Ret (f (mkJState (JournalDev sf) j)), sf)).
    { intros A f. unfold on_journal. rewrite Hjf. unfold sf, set_journal, set_journalDev; cbn. by rewrite Hj. }
    rewrite (bind_Ret _ _ _ _ _ (Eg _ _)), (bind_Ret _ _ _ _ _ (Eg _ _)). cbn [jrn].
    eapply ignore_Err. unfold on_journal. rewrite Hjf.
    pose proof (ResetTo_fails (WriteOffset j) (CorrectOffset j) e (jstate s j) I Hd Hva) as ER. cbn [jstate jdev jrn] in ER.
    cbn [JournalDev set_journalDev sf]. rewrite ER. unfold sf, set_journal, set_journalDev; cbn. rewrite <- Hj. by destruct s. }
  rewrite (bind_Ret _ _ _ _ _ Er). unfold SendPacket, map_err, catch, bind, Encode. by rewrite Hf.
Qed.

Lemma reset_error_replays_witness :
  exists s1 s2, HashDisk_start (set_journalDev (failing_once (ErrMsg "EIO") (JournalDev demo_server)) demo_server) = (Ret true, s1) /\
    srel s1 demo_a /\ HandleJournalWriting s1 = (Ret tt, s2) /\
    content (TargetDevFd s2) = apply_writes (a_replay demo_a) (content (TargetDevFd demo_server)).
Proof.
  apply (reset_error_replays (ErrMsg "EIO") demo_server demo_a);
    [exact demo_target_ok|exact demo_srel|reflexivity|exact demo_replayable|reflexivity|reflexivity].
Defined.
