(* ===== verification/Session.v ===== *)
(** * One client session of the server: [HandleClient] and its goroutines

    The main goroutine decodes packets and hands them to the workers over
    bounded channels; the write, correct-block, journal, replication and hashing
    goroutines run beside it on the same [Server].  A session state holds the
    channels, where the main goroutine is (it can wait in the middle of a
    packet), and what each worker is doing; [step e s] is one atomic action of
    the goroutine [e].  A schedule is a list of such events. *)
From S2P Require Import Prelude GoInt GoMonad GoChan Utils BlockDev Blocks Networking Journal Server.
Open Scope Z_scope.

Inductive queue := QWrite | QJournal | QCorrect | QReplication.

#[global] Instance queue_eq_dec : EqDecision queue.
Proof. solve_decision. Defined.

(** Where the main goroutine is.  The [Wait] of a wait group in the handler of
    a packet, or a send on a full queue, is a place of its own. *)
Inductive main_pc :=
| MLoop
| MSend (q : queue) (p : Packet)
| MStartHashing1          (* StartHashing: journalWg.Wait() *)
| MStartHashing2          (* StartHashing: hashWg.Wait() *)
| MHashingCompleted       (* HashingCompleted: journalWg.Wait() *)
| MReplicationCompleted   (* ReplicationCompleted: replicationWg.Wait() *)
| MStartReplication       (* StartReplication: replicationWg.Wait() *)
| MStartFullScan          (* StartFullScan: hashWg.Wait() *)
| MReturn1                (* deferred: replicationWg.Wait(), close(correctQueue) *)
| MReturn2                (* deferred: journalWg.Wait(), close(writeQueue) *)
| MReturn3                (* deferred: hashWg.Wait(), then the rest *)
| MReturned.

(** The write worker: waiting for a packet, or in its retry loop. *)
Inductive write_pc :=
| WIdle
| WRetry (dataToWrite : list byte) (off : Z).

(** The goroutines of one [HashDisk] and the channels between them: the tasks
    the readers have not taken, the readers that wait for one, the offsets of
    those that are past the check of the termination channel and about to read,
    the blocks for the hashing workers, the workers, the results and the senders.
    A goroutine that has returned is counted no more. *)
Record hash_job := mkJob {
  j_tasks : list Z;
  j_readers : nat;
  j_reading : list Z;
  j_work : list workItem;
  j_hashers : nat;
  j_results : list resultItem;
  j_senders : nat;
}.

(** [workChan] has been closed: no reader is left, or none has anything to do. *)
Definition reads_done (j : hash_job) : bool :=
  bool_decide ((j_tasks j = [] \/ j_readers j = 0%nat) /\ j_reading j = []).

(** [resultChan] can be closed: every hashing worker has returned, or has nothing
    more to wait for. *)
Definition hashes_done (j : hash_job) : bool :=
  (j_hashers j =? 0)%nat || (reads_done j && (length (j_work j) =? 0)%nat).

(** The [HashDisk] goroutine: none, just started, or waiting for its senders. *)
Inductive hash_pc :=
| HNone
| HStarted
| HRunning (j : hash_job).

Record Session := mkSession {
  srv : Server;
  decoder : list (Packet + error);
  TermChan : chan unit;
  hashTermChan : chan unit;
  writeQueue : chan Packet;
  journalQueue : chan Packet;
  correctQueue : chan Packet;
  replicationQueue : chan Packet;
  mainPc : main_pc;
  writePc : write_pc;
  hashPc : hash_pc;
  journalWorker : bool;
  replicationWorkers : nat;
  correctPc : option Packet;            (* the block the correct-block worker has received *)
  replicating : list Packet;            (* the blocks the replication workers have received *)
  strays : list (bool * hash_job);      (* goroutines a [HashDisk] has left behind, and whether
                                           their termination channel has been replaced *)
}.

(** ** Field updates *)

Definition upd_srv (f : Server -> Server) (s : Session) : Session :=
  mkSession (f (srv s)) (decoder s) (TermChan s) (hashTermChan s) (writeQueue s) (journalQueue s)
    (correctQueue s) (replicationQueue s) (mainPc s) (writePc s) (hashPc s) (journalWorker s)
    (replicationWorkers s) (correctPc s) (replicating s) (strays s).
Definition set_decoder (d : list (Packet + error)) (s : Session) : Session :=
  mkSession (srv s) d (TermChan s) (hashTermChan s) (writeQueue s) (journalQueue s)
    (correctQueue s) (replicationQueue s) (mainPc s) (writePc s) (hashPc s) (journalWorker s)
    (replicationWorkers s) (correctPc s) (replicating s) (strays s).
Definition set_hashTermChan (c : chan unit) (s : Session) : Session :=
  mkSession (srv s) (decoder s) (TermChan s) c (writeQueue s) (journalQueue s)
    (correctQueue s) (replicationQueue s) (mainPc s) (writePc s) (hashPc s) (journalWorker s)
    (replicationWorkers s) (correctPc s) (replicating s) (strays s).
Definition get_queue (q : queue) (s : Session) : chan Packet :=
  match q with
  | QWrite => writeQueue s | QJournal => journalQueue s
  | QCorrect => correctQueue s | QReplication => replicationQueue s
  end.
Definition set_queue (q : queue) (c : chan Packet) (s : Session) : Session :=
  mkSession (srv s) (decoder s) (TermChan s) (hashTermChan s)
    (match q with QWrite => c | _ => writeQueue s end)
    (match q with QJournal => c | _ => journalQueue s end)
    (match q with QCorrect => c | _ => correctQueue s end)
    (match q with QReplication => c | _ => replicationQueue s end)
    (mainPc s) (writePc s) (hashPc s) (journalWorker s) (replicationWorkers s) (correctPc s) (replicating s) (strays s).
Definition set_mainPc (m : main_pc) (s : Session) : Session :=
  mkSession (srv s) (decoder s) (TermChan s) (hashTermChan s) (writeQueue s) (journalQueue s)
    (correctQueue s) (replicationQueue s) m (writePc s) (hashPc s) (journalWorker s)
    (replicationWorkers s) (correctPc s) (replicating s) (strays s).
Definition set_writePc (w : write_pc) (s : Session) : Session :=
  mkSession (srv s) (decoder s) (TermChan s) (hashTermChan s) (writeQueue s) (journalQueue s)
    (correctQueue s) (replicationQueue s) (mainPc s) w (hashPc s) (journalWorker s)
    (replicationWorkers s) (correctPc s) (replicating s) (strays s).
Definition set_hashPc (h : hash_pc) (s : Session) : Session :=
  mkSession (srv s) (decoder s) (TermChan s) (hashTermChan s) (writeQueue s) (journalQueue s)
    (correctQueue s) (replicationQueue s) (mainPc s) (writePc s) h (journalWorker s)
    (replicationWorkers s) (correctPc s) (replicating s) (strays s).
Definition set_workers (j : bool) (r : nat) (s : Session) : Session :=
  mkSession (srv s) (decoder s) (TermChan s) (hashTermChan s) (writeQueue s) (journalQueue s)
    (correctQueue s) (replicationQueue s) (mainPc s) (writePc s) (hashPc s) j r (correctPc s) (replicating s) (strays s).

Definition set_correctPc (p : option Packet) (s : Session) : Session :=
  mkSession (srv s) (decoder s) (TermChan s) (hashTermChan s) (writeQueue s) (journalQueue s)
    (correctQueue s) (replicationQueue s) (mainPc s) (writePc s) (hashPc s) (journalWorker s)
    (replicationWorkers s) p (replicating s) (strays s).
Definition set_replicating (l : list Packet) (s : Session) : Session :=
  mkSession (srv s) (decoder s) (TermChan s) (hashTermChan s) (writeQueue s) (journalQueue s)
    (correctQueue s) (replicationQueue s) (mainPc s) (writePc s) (hashPc s) (journalWorker s)
    (replicationWorkers s) (correctPc s) l (strays s).
Definition set_strays (l : list (bool * hash_job)) (s : Session) : Session :=
  mkSession (srv s) (decoder s) (TermChan s) (hashTermChan s) (writeQueue s) (journalQueue s)
    (correctQueue s) (replicationQueue s) (mainPc s) (writePc s) (hashPc s) (journalWorker s)
    (replicationWorkers s) (correctPc s) (replicating s) l.

(** [hashTermChan = make(chan struct{})]: the goroutines left behind keep the
    channel they were given, which is closed by now. *)
Definition renew_hashTermChan (s : Session) : Session :=
  set_strays ((fun x => (true, x.2)) <$> strays s) (set_hashTermChan (make_chan 0) s).

(** A method of [*Server] called in the middle of a step. *)
Definition on_srv {A} (m : M Server A) (s : Session) (k : A -> Session -> attempt Session)
  : attempt Session :=
  match m (srv s) with
  | (Ret a, v) => k a (upd_srv (fun _ => v) s)
  | (Err _, v) => Done (upd_srv (fun _ => v) s)
  | (Panic, _) => Crash
  end.

Definition close_queue (q : queue) (s : Session) : attempt Session :=
  abind (chan_close (get_queue q s)) (fun c => Done (set_queue q c s)).
Definition close_hashTermChan (s : Session) : attempt Session :=
  abind (chan_close (hashTermChan s)) (fun c => Done (set_hashTermChan c s)).
Definition send_queue (q : queue) (p : Packet) (s : Session) : attempt Session :=
  abind (chan_send p (get_queue q s)) (fun c => Done (set_mainPc MLoop (set_queue q c s))).

Section Steps.
Context (xxhash : list byte -> Z) (numWorkers : nat).

(** ** The main goroutine *)

(** The three closes before both [return]s of the loop. *)
Definition main_return (s : Session) : attempt Session :=
  abind (close_hashTermChan s) (fun s =>
  abind (close_queue QJournal s) (fun s =>
  abind (close_queue QReplication s) (fun s =>
  Done (set_mainPc MReturn1 s)))).

(** [switch packet.PacketType], up to the first blocking operation. *)
Definition dispatch (packet : Packet) (s : Session) : attempt Session :=
  let t := PacketType packet in
  if t =? PacketTypeCmdStartHashing then
    abind (close_queue QJournal (upd_srv (set_state StateHashing) s)) (fun s =>
    Done (set_mainPc MStartHashing1 s))
  else if t =? PacketTypePayloadBufferWrite then
    match state (srv s) with
    | StateHashing => Done (set_mainPc (MSend QJournal packet) s)
    | StateWriting => Done (set_mainPc (MSend QWrite packet) s)
    | _ => Done s
    end
  else if t =? PacketTypePayloadCorrectBlock then
    match state (srv s) with
    | StateHashing => Done (set_mainPc (MSend QJournal packet) s)
    | StateDestroyingReplica => Done (set_mainPc (MSend QCorrect packet) s)
    | _ => Done s
    end
  else if t =? PacketTypePayloadReplicationBlock then
    Done (set_mainPc (MSend QReplication packet) s)
  else if t =? PacketTypeInfoHashingCompleted then
    abind (close_queue QJournal s) (fun s => Done (set_mainPc MHashingCompleted s))
  else if t =? PacketTypeInfoReplicationCompleted then
    abind (close_queue QReplication s) (fun s => Done (set_mainPc MReplicationCompleted s))
  else if t =? PacketTypeInfoStartReplication then
    abind (close_queue QReplication (upd_srv (set_state StateReplicating) s)) (fun s =>
    Done (set_mainPc MStartReplication s))
  else if t =? PacketTypeCmdStartFullScan then
    abind (close_hashTermChan (upd_srv (set_state StateDestroyingReplica) s)) (fun s =>
    Done (set_mainPc MStartFullScan s))
  else Done s.

Definition hash_idle (s : Session) : bool := match hashPc s with HNone => true | _ => false end.

Definition main_step (s : Session) : attempt Session :=
  match mainPc s with
  | MLoop =>
      if ChanHasTerminated (TermChan s) then main_return s
      else match decoder s with
           | [] => Blocked
           | inr e :: d =>
               if IsConnectionClosed (Some e) then main_return (set_decoder d s)
               else Done (set_decoder d s)
           | inl packet :: d => dispatch packet (set_decoder d s)
           end
  | MSend q packet => send_queue q packet s
  | MStartHashing1 =>
      if journalWorker s then Blocked
      else
        let s := set_workers true (replicationWorkers s)
                   (set_queue QJournal (make_chan JournalPacketQueueSize) s) in
        abind (close_hashTermChan s) (fun s => Done (set_mainPc MStartHashing2 s))
  | MStartHashing2 | MStartFullScan =>
      if hash_idle s
      then Done (set_mainPc MLoop (set_hashPc HStarted (renew_hashTermChan s)))
      else Blocked
  | MHashingCompleted =>
      if journalWorker s then Blocked
      else on_srv (HandleJournalWriting ;;; SetState StateWriting)
             (set_queue QJournal (make_chan JournalPacketQueueSize) s)
             (fun _ s => Done (set_mainPc MLoop s))
  | MReplicationCompleted =>
      if (replicationWorkers s =? 0)%nat
      then Done (set_mainPc MLoop (upd_srv (set_state StateWriting)
             (set_queue QReplication (make_chan ReplicationPacketQueueSize) s)))
      else Blocked
  | MStartReplication =>
      if (replicationWorkers s =? 0)%nat
      then Done (set_mainPc MLoop (set_workers (journalWorker s) numWorkers
             (set_queue QReplication (make_chan ReplicationPacketQueueSize) s)))
      else Blocked
  | MReturn1 =>
      if (replicationWorkers s =? 0)%nat
      then abind (close_queue QCorrect s) (fun s => Done (set_mainPc MReturn2 s)) else Blocked
  | MReturn2 =>
      if journalWorker s then Blocked
      else abind (close_queue QWrite s) (fun s => Done (set_mainPc MReturn3 s))
  | MReturn3 =>
      if hash_idle s
      then Done (set_mainPc MReturned (upd_srv (fun v => set_connected false (set_state StateDisconnected v)) s))
      else Blocked
  | MReturned => Blocked
  end.

(** ** The workers *)

Definition journal_step (s : Session) : attempt Session :=
  if journalWorker s then
    abind (chan_recv (journalQueue s)) (fun r =>
      match r with
      | (Some packet, c) => on_srv (handleJournalPacket packet) (set_queue QJournal c s) (fun _ s => Done s)
      | (None, _) => Done (set_workers false (replicationWorkers s) s)
      end)
  else Blocked.

(** One packet of [HandleCorrectPackets]: it is received, then written. *)
Definition correct_step (s : Session) : attempt Session :=
  match correctPc s with
  | None =>
      abind (chan_recv (correctQueue s)) (fun r =>
        match r with
        | (Some packet, c) => Done (set_correctPc (Some packet) (set_queue QCorrect c s))
        | (None, _) => Blocked
        end)
  | Some packet =>
      on_srv (handleCorrectPacket packet) s (fun _ s => Done (set_correctPc None s))
  end.

(** One packet of [HandleWritePackets] up to the retry loop, then one attempt
    per step. *)
Definition write_step (s : Session) : attempt Session :=
  match writePc s with
  | WIdle =>
      abind (chan_recv (writeQueue s)) (fun r =>
        match r with
        | (Some packet, c) =>
            let s := set_queue QWrite c s in
            if negb (bool_decide (state (srv s) = StateWriting)) then Done s
            else
              let writeInfo := match Payload packet with PWriteInfo w => w | _ => zeroBlock end in
              match slice (Data writeInfo) 0 (Size writeInfo) with
              | Some data => Done (set_writePc (WRetry data (i64 (Offset writeInfo))) s)
              | None => Crash
              end
        | (None, _) => Blocked
        end)
  | WRetry data off =>
      on_srv (catch (on_target (WriteAt data off))) s (fun r s =>
        match r with
        | inl _ => on_srv (ignore (on_target Sync)) s (fun _ s => Done (set_writePc WIdle s))
        | inr _ => Done s
        end)
  end.

(** One of the replication workers without a block receives one, or returns. *)
Definition replication_step (s : Session) : attempt Session :=
  match replicationWorkers s with
  | O => Blocked
  | S n =>
      if (n <? length (replicating s))%nat then Blocked
      else
      abind (chan_recv (replicationQueue s)) (fun r =>
        match r with
        | (Some packet, c) =>
            Done (set_replicating (replicating s ++ [packet]) (set_queue QReplication c s))
        | (None, _) =>
            let s := set_workers (journalWorker s) n s in
            if (n =? 0)%nat then on_srv (ignore (on_target Sync)) s (fun _ s => Done s) else Done s
        end)
  end.

(** The [i]-th of them writes the block it has received. *)
Definition replication_write_step (i : nat) (s : Session) : attempt Session :=
  match replicating s !! i with
  | Some packet =>
      on_srv (handleReplicationPacket packet) s (fun _ s =>
        Done (set_replicating (delete i (replicating s)) s))
  | None => Blocked
  end.

(** What a step of the hashing goroutines does. *)
Inductive hash_event :=
| HStart               (* reset the journal, announce the scan *)
| HStop                (* the first goroutine sees the closed [termChan] and queues no more tasks *)
| HTake                (* a reader takes a task and checks [termChan] *)
| HRead (i : nat)      (* the [i]-th reader with a task reads its block *)
| HHash (i : nat)      (* a hashing worker takes the [i]-th block *)
| HSend (i : nat)      (* a sender takes the [i]-th result *)
| HEnd.                (* all senders have returned: announce completion *)

#[global] Instance hash_event_eq_dec : EqDecision hash_event.
Proof. solve_decision. Defined.

(** A step of the goroutines of one [HashDisk], [term] telling whether their
    [termChan] is closed.  An error result sent after the last hashing worker has
    returned is a send on the closed [resultChan]. *)
Definition job_step (term : bool) (e : hash_event) (j : hash_job) (s : Session)
    (k : hash_job -> Session -> Session) : attempt Session :=
  let '(mkJob tasks readers reading work hashers results senders) := j in
  match e with
  | HStop =>
      if term then Done (k (mkJob [] readers reading work hashers results senders) s) else Blocked
  | HTake =>
      match readers, tasks with
      | S readers, rTask :: tasks =>
          Done (k (mkJob tasks readers (if term then reading else reading ++ [rTask])
                         work hashers results senders) s)
      | _, _ => Blocked
      end
  | HRead i =>
      match reading !! i with
      | Some offset =>
          let reading := delete i reading in
          on_srv (hash_read HashedSpaceBase offset) s (fun r s =>
            match r with
            | ReadBlock w => Done (k (mkJob tasks (S readers) reading (work ++ [w]) hashers results senders) s)
            | ReadFailed x =>
                if (hashers =? 0)%nat then Crash
                else Done (k (mkJob tasks readers reading work hashers (results ++ [x]) senders) s)
            | ReadNothing => Done (k (mkJob tasks readers reading work hashers results senders) s)
            end)
      | None => Blocked
      end
  | HHash i =>
      match hashers, work !! i with
      | S hashers', Some w =>
          let work := delete i work in
          Done (k (if term then mkJob tasks readers reading work hashers' results senders
                   else mkJob tasks readers reading work hashers (results ++ [hash_block xxhash w]) senders) s)
      | _, _ => Blocked
      end
  | HSend i =>
      match senders, results !! i with
      | S senders', Some x =>
          let results := delete i results in
          if term then Done (k (mkJob tasks readers reading work hashers results senders') s)
          else on_srv (hash_send x) s (fun go s =>
            Done (k (mkJob tasks readers reading work hashers results
                           (if (go : bool) then senders else senders')) s))
      | _, _ => Blocked
      end
  | HStart | HEnd => Blocked
  end.

(** What is left of the job when all senders have returned: as long as a reader
    can still read, the goroutines before them run on. *)
Definition leftover (j : hash_job) : list (bool * hash_job) :=
  if reads_done j then []
  else [(false, mkJob (j_tasks j) (j_readers j) (j_reading j) (j_work j) (j_hashers j) (j_results j) 0)].

Definition hash_step (e : hash_event) (s : Session) : attempt Session :=
  match hashPc s with
  | HNone => Blocked
  | HStarted =>
      match e with
      | HStart =>
          on_srv HashDisk_start s (fun go s =>
            if (go : bool) then
              match ClientInfo (srv s) with
              | Some info =>
                  Done (set_hashPc (HRunning (mkJob (block_offsets (DeviceSize info) HashedSpaceBase)
                                                    numWorkers [] [] numWorkers [] numWorkers)) s)
              | None => Crash
              end
            else Done (set_hashPc HNone s))
      | _ => Blocked
      end
  | HRunning j =>
      match e with
      | HEnd =>
          if (j_senders j =? 0)%nat || (hashes_done j && (length (j_results j) =? 0)%nat)
          then on_srv HashDisk_end s (fun _ s =>
            Done (set_strays (strays s ++ leftover j) (set_hashPc HNone s)))
          else Blocked
      | _ => job_step (ChanHasTerminated (hashTermChan s)) e j s (fun j => set_hashPc (HRunning j))
      end
  end.

(** A step of goroutines that an earlier [HashDisk] has left behind. *)
Definition stray_step (k : nat) (e : hash_event) (s : Session) : attempt Session :=
  match strays s !! k with
  | Some (old, j) =>
      job_step (old || ChanHasTerminated (hashTermChan s)) e j s (fun j s =>
        set_strays (<[k := (old, j)]> (strays s)) s)
  | None => Blocked
  end.

Inductive event :=
| EMain
| EJournal
| ECorrect
| EWrite
| EReplication
| EReplWrite (i : nat)
| EHash (e : hash_event)
| EStray (k : nat) (e : hash_event)
| EShutdown.

#[global] Instance event_eq_dec : EqDecision event.
Proof. solve_decision. Defined.

(** [InitiateShutdown], from the signal handler. *)
Definition shutdown (s : Session) : Session :=
  if ChanHasTerminated (TermChan s) then s
  else mkSession (srv s) (decoder s) (mkChan (cbuf (TermChan s)) (ccap (TermChan s)) true)
         (hashTermChan s) (writeQueue s) (journalQueue s) (correctQueue s) (replicationQueue s)
         (mainPc s) (writePc s) (hashPc s) (journalWorker s) (replicationWorkers s)
         (correctPc s) (replicating s) (strays s).

Definition step (e : event) (s : Session) : attempt Session :=
  match e with
  | EMain => main_step s
  | EJournal => journal_step s
  | ECorrect => correct_step s
  | EWrite => write_step s
  | EReplication => replication_step s
  | EReplWrite i => replication_write_step i s
  | EHash h => hash_step h s
  | EStray k h => stray_step k h s
  | EShutdown => Done (shutdown s)
  end.

Fixpoint run (es : list event) (s : Session) : attempt Session :=
  match es with
  | [] => Done s
  | e :: es => abind (step e s) (run es)
  end.

(** The session once [HandleClient] has set the goroutines up. *)
Definition HandleClient_start (v : Server) (packets : list (Packet + error)) : Session :=
  mkSession v packets (make_chan 0) (make_chan 0)
    (make_chan WritePacketQueueSize) (make_chan JournalPacketQueueSize)
    (make_chan CorrectPacketQueueSize) (make_chan ReplicationPacketQueueSize)
    MLoop WIdle HNone false 0 None [] [].

(** Reachable by some schedule. *)
Inductive reachable (s0 : Session) : Session -> Prop :=
| reach_refl : reachable s0 s0
| reach_step e s s' : reachable s0 s -> step e s = Done s' -> reachable s0 s'.
End Steps.
