(* ===== verification/SessionSafety.v ===== *)
(** * Channel discipline of a session

    Invariants of every schedule, by induction on [reachable]: which channels
    are closed is a function of where the main goroutine is, so no channel is
    closed twice and nothing is sent on a closed one; and a journal worker
    serves the journal queue whenever the main goroutine sends to it, so a full
    queue is always drained.  What the server has sent stays sent. *)
From S2P Require Import Prelude GoInt GoMonad GoChan Utils BlockDev Blocks Networking Journal Server Session.
Open Scope Z_scope.

(** ** Which channels are closed where *)

Definition closed_at (m : main_pc) (q : queue) : bool :=
  match m, q with
  | (MStartHashing1 | MHashingCompleted), QJournal => true
  | (MReplicationCompleted | MStartReplication), QReplication => true
  | MReturn1, (QJournal | QReplication) => true
  | MReturn2, (QJournal | QReplication | QCorrect) => true
  | (MReturn3 | MReturned), _ => true
  | _, _ => false
  end.

Definition term_closed_at (m : main_pc) : bool :=
  match m with
  | MStartHashing2 | MStartFullScan | MReturn1 | MReturn2 | MReturn3 | MReturned => true
  | _ => false
  end.

(** Places where the journal worker is needed: a send to its queue, or the loop
    in the state in which such sends start. *)
Definition journal_needed (s : Session) : Prop :=
  match mainPc s with
  | MSend QJournal _ => True
  | MLoop | MSend _ _ | MStartHashing2 => state (srv s) = StateHashing
  | MStartFullScan | MReplicationCompleted | MStartReplication => state (srv s) = StateHashing
  | _ => False
  end.

Record session_inv (s : Session) : Prop := {
  si_closed : forall q, cclosed (get_queue q s) = closed_at (mainPc s) q;
  si_term : cclosed (hashTermChan s) = term_closed_at (mainPc s);
  si_bound : forall q, (length (cbuf (get_queue q s)) <= ccap (get_queue q s))%nat;
  si_cap : forall q, ccap (get_queue q s) = 8%nat;
  si_journal : journal_needed s -> journalWorker s = true;
  si_repl : (length (replicating s) <= replicationWorkers s)%nat;
}.

Lemma start_inv v ps : state v <> StateHashing -> session_inv (HandleClient_start v ps).
Proof.
  intros Hv. split; try done.
  - by intros [].
  - intros []; simpl; lia.
  - by intros [].
Qed.

(** ** Updates *)

Lemma get_set_queue q q' c s :
  get_queue q (set_queue q' c s) = if bool_decide (q = q') then c else get_queue q s.
Proof. by destruct q, q'. Qed.

Lemma close_queue_Done q s s' :
  close_queue q s = Done s' ->
  s' = set_queue q (mkChan (cbuf (get_queue q s)) (ccap (get_queue q s)) true) s.
Proof.
  unfold close_queue, chan_close. destruct (cclosed _); simpl; [done|]. by intros [= <-].
Qed.

Lemma close_hashTermChan_Done s s' :
  close_hashTermChan s = Done s' ->
  s' = set_hashTermChan (mkChan (cbuf (hashTermChan s)) (ccap (hashTermChan s)) true) s.
Proof. unfold close_hashTermChan, chan_close. destruct (cclosed _); simpl; [done|]. by intros [= <-]. Qed.

Lemma on_srv_Done {A} (m : M Server A) s k s' :
  on_srv m s k = Done s' ->
  (exists a v, m (srv s) = (Ret a, v) /\ k a (upd_srv (fun _ => v) s) = Done s') \/
  (exists e v, m (srv s) = (Err e, v) /\ s' = upd_srv (fun _ => v) s).
Proof. unfold on_srv. destruct (m (srv s)) as [[a|e|] v]; naive_solver. Qed.

Lemma upd_srv_same s : upd_srv (fun _ => srv s) s = s.
Proof. by destruct s. Qed.

(** The part of the invariant that says nothing about the journal worker only
    depends on the channels and the place of the main goroutine. *)
Definition same_chans (s s' : Session) : Prop :=
  mainPc s' = mainPc s /\ hashTermChan s' = hashTermChan s /\
  forall q, get_queue q s' = get_queue q s.

(** A worker step: it may take from a queue, never closes or adds. *)
Record worker_keeps (s s' : Session) : Prop := {
  wk_pc : mainPc s' = mainPc s;
  wk_term : hashTermChan s' = hashTermChan s;
  wk_closed : forall q, cclosed (get_queue q s') = cclosed (get_queue q s);
  wk_cap : forall q, ccap (get_queue q s') = ccap (get_queue q s);
  wk_len : forall q, (length (cbuf (get_queue q s')) <= length (cbuf (get_queue q s)))%nat;
  wk_state : state (srv s') = StateHashing -> state (srv s) = StateHashing;
  wk_worker : journalWorker s = true -> cclosed (journalQueue s) = false -> journalWorker s' = true;
  wk_repl : (length (replicating s) <= replicationWorkers s)%nat ->
    (length (replicating s') <= replicationWorkers s')%nat;
}.

Lemma worker_keeps_inv s s' : worker_keeps s s' -> session_inv s -> session_inv s'.
Proof.
  intros [Hp Ht Hc Hk Hl Hs Hw Hr] [I1 I2 I3 I4 I5 I6]. split.
  - intros q. by rewrite Hc, Hp.
  - by rewrite Ht, Hp.
  - intros q. rewrite Hk. etrans; [apply Hl|apply I3].
  - intros q. by rewrite Hk.
  - unfold journal_needed in *. rewrite Hp. intros Hn. apply Hw.
    + apply I5. destruct (mainPc s) as [|[]| | | | | | | | | | ]; auto.
    + specialize (I1 QJournal). simpl in I1. rewrite I1.
      by destruct (mainPc s) as [|[]| | | | | | | | | | ].
  - auto.
Qed.

Lemma worker_keeps_refl s : worker_keeps s s.
Proof. by split. Qed.

Lemma worker_keeps_trans s1 s2 s3 : worker_keeps s1 s2 -> worker_keeps s2 s3 -> worker_keeps s1 s3.
Proof.
  intros [A1 A2 A3 A4 A5 A6 A7 A8] [B1 B2 B3 B4 B5 B6 B7 B8]. split.
  - congruence.
  - congruence.
  - intros q. by rewrite B3.
  - intros q. by rewrite B4.
  - intros q. etrans; [apply B5|apply A5].
  - auto.
  - intros Hw Hc. apply B7; [auto|]. specialize (A3 QJournal). simpl in A3. congruence.
  - auto.
Qed.

(** Only [dispatch] sets [StateHashing]. *)
Definition no_hashing {A} (m : M Server A) : Prop :=
  forall v, state (m v).2 = StateHashing -> state v = StateHashing.

Lemma worker_on_srv {A} (m : M Server A) s0 s k s' :
  no_hashing m -> worker_keeps s0 s ->
  (forall a v, worker_keeps s0 (upd_srv (fun _ => v) s) -> k a (upd_srv (fun _ => v) s) = Done s' ->
     worker_keeps s0 s') ->
  on_srv m s k = Done s' -> worker_keeps s0 s'.
Proof.
  intros Hm H0 Hk H.
  assert (U : forall v, state v = state (m (srv s)).2 -> worker_keeps s0 (upd_srv (fun _ => v) s)).
  { intros v Hv. destruct H0 as [A1 A2 A3 A4 A5 A6 A7 A8]. split; try done.
    simpl. intros Hh. apply A6, Hm. by rewrite <- Hv. }
  apply on_srv_Done in H as [(a & v & E & H)|(e & v & E & ->)].
  - apply (Hk a v); [|done]. apply U. by rewrite E.
  - apply U. by rewrite E.
Qed.

Lemma worker_recv q o c s :
  chan_recv (get_queue q s) = Done (o, c) -> worker_keeps s (set_queue q c s).
Proof.
  intros (Hk & Hc & Ho)%recv_Done. split; try done.
  - intros q'. rewrite get_set_queue. case_bool_decide; [by subst|done].
  - intros q'. rewrite get_set_queue. case_bool_decide; [by subst|done].
  - intros q'. rewrite get_set_queue. case_bool_decide; [subst|done].
    destruct o as [v|]; [rewrite Ho; simpl; lia|]. by destruct Ho as (_ & _ & ->).
Qed.

(** ** The methods the workers call never enter [StateHashing] *)

Section NoHashing.
Context (P : Prop).
Local Abbreviation I := (fun v : Server => state v = StateHashing -> P).

Lemma nh_target {A} (m : M Dev A) : preserves I (on_target m).
Proof using. intros v Hv. unfold on_target, zoom. by destruct (m (TargetDevFd v)). Qed.
Lemma nh_journal {A} (m : M JState A) : preserves I (on_journal m).
Proof using. intros v Hv. unfold on_journal. destruct (SJournal v); [|done]. by destruct (m _). Qed.
Lemma nh_Encode p : preserves I (Encode p).
Proof using. intros v Hv. unfold Encode. by destruct (sendFaults v) as [|[] ?]. Qed.
Lemma nh_SetState st : st <> StateHashing -> preserves I (SetState st).
Proof using. intros Hs v Hv. simpl. done. Qed.
End NoHashing.
#[export] Hint Resolve nh_target nh_journal nh_Encode : preserves.

Lemma no_hashing_preserves {A} (m : M Server A) :
  (forall P : Prop, preserves (fun v : Server => state v = StateHashing -> P) m) -> no_hashing m.
Proof. intros H v. apply (H (state v = StateHashing) v). done. Qed.

Ltac solve_no_hashing :=
  apply no_hashing_preserves; intros P;
  repeat first
    [ progress eauto 2 with preserves
    | apply preserves_bind; [|intros ?] | apply preserves_map_err | apply preserves_catch
    | apply preserves_ignore | apply preserves_if | apply preserves_for_range; intros ?
    | apply nh_SetState; discriminate | case_match | progress unfold SendPacket ].

Lemma nh_handleJournalPacket p : no_hashing (handleJournalPacket p).
Proof.
  unfold handleJournalPacket, journal_overflow, HandleJournalBufferWrite, HandleJournalCorrectBlock,
    WriteBufferWriteToJournal, WriteCorrectBlockToJournal, GetState. solve_no_hashing.
Qed.
Lemma nh_handleCorrectPacket p : no_hashing (handleCorrectPacket p).
Proof. unfold handleCorrectPacket, WriteCorrectBlockToReplica. solve_no_hashing. Qed.
Lemma nh_handleReplicationPacket p : no_hashing (handleReplicationPacket p).
Proof. unfold handleReplicationPacket. solve_no_hashing. Qed.
Lemma nh_write data off : no_hashing (catch (on_target (WriteAt data off))).
Proof. solve_no_hashing. Qed.
Lemma nh_sync : no_hashing (ignore (on_target Sync)).
Proof. solve_no_hashing. Qed.
Lemma nh_HashDisk_start : no_hashing HashDisk_start.
Proof. unfold HashDisk_start, GetState. solve_no_hashing. Qed.
Lemma nh_hash_read n o : no_hashing (hash_read n o).
Proof. unfold hash_read. solve_no_hashing. Qed.
Lemma nh_hash_send r : no_hashing (hash_send r).
Proof. unfold hash_send. solve_no_hashing. Qed.
Lemma nh_HashDisk_end : no_hashing HashDisk_end.
Proof. unfold HashDisk_end. solve_no_hashing. Qed.
#[export] Hint Resolve nh_handleJournalPacket nh_handleCorrectPacket nh_handleReplicationPacket
  nh_write nh_sync nh_HashDisk_start nh_hash_read nh_hash_send nh_HashDisk_end : bdr.

(** ** Worker steps *)

Lemma worker_set_writePc w s0 s : worker_keeps s0 s -> worker_keeps s0 (set_writePc w s).
Proof. by intros []. Qed.
Lemma worker_set_hashPc h s0 s : worker_keeps s0 s -> worker_keeps s0 (set_hashPc h s).
Proof. by intros []. Qed.
Lemma worker_set_correctPc p s0 s : worker_keeps s0 s -> worker_keeps s0 (set_correctPc p s).
Proof. by intros []. Qed.
Lemma worker_set_strays l s0 s : worker_keeps s0 s -> worker_keeps s0 (set_strays l s).
Proof. by intros []. Qed.
#[export] Hint Resolve worker_set_writePc worker_set_hashPc worker_set_correctPc worker_set_strays worker_keeps_refl : bdr.

(** A change of the replication workers and of their blocks. *)
Lemma worker_set_repl n l s0 s :
  worker_keeps s0 s -> (length (replicating s) <= replicationWorkers s -> length l <= n)%nat ->
  worker_keeps s0 (set_replicating l (set_workers (journalWorker s) n s)).
Proof. intros [] Hl. split; auto. Qed.

Section WorkerSteps.
Context (xxhash : list byte -> Z) (numWorkers : nat).

Lemma journal_step_keeps s s' : journal_step s = Done s' -> worker_keeps s s'.
Proof using.
  unfold journal_step. destruct (journalWorker s) eqn:Ew; [|done].
  intros ([[p|] c] & Er & H)%abind_Done.
  - eapply worker_on_srv; [apply nh_handleJournalPacket|by eapply (worker_recv QJournal)| |exact H].
    by intros a v Hk [= <-].
  - injection H as <-. apply recv_Done in Er as (_ & _ & _ & Hc & _). split; try done.
    intros _ Ho. simpl in Hc. congruence.
Qed.

Lemma correct_step_keeps s s' : correct_step s = Done s' -> worker_keeps s s'.
Proof using.
  unfold correct_step. destruct (correctPc s) as [packet|].
  - intros H. eapply worker_on_srv; [apply nh_handleCorrectPacket|apply worker_keeps_refl| |exact H].
    intros a v Hk [= <-]. auto with bdr.
  - intros ([[p|] c] & Er & [= <-])%abind_Done. apply worker_set_correctPc. by eapply (worker_recv QCorrect).
Qed.

Lemma write_step_keeps s s' : write_step s = Done s' -> worker_keeps s s'.
Proof using.
  unfold write_step. destruct (writePc s) as [|data off].
  - intros ([[p|] c] & Er & H)%abind_Done; [|done].
    pose proof (worker_recv QWrite _ _ _ Er) as Hk.
    destruct (negb _); [by injection H as <-|].
    destruct (slice _ _ _); [|done]. injection H as <-. by apply worker_set_writePc.
  - intros H. eapply worker_on_srv; [apply nh_write|apply worker_keeps_refl| |exact H].
    intros [u|e] v Hk H'; [|by injection H' as <-].
    eapply worker_on_srv; [apply nh_sync|exact Hk| |exact H'].
    intros a v' Hk' [= <-]. by apply worker_set_writePc.
Qed.

Lemma replication_step_keeps s s' : replication_step s = Done s' -> worker_keeps s s'.
Proof using.
  unfold replication_step. destruct (replicationWorkers s) as [|n] eqn:En; [done|].
  destruct (Nat.ltb_spec n (length (replicating s))) as [|Hle]; [done|].
  intros ([[p|] c] & Er & H)%abind_Done.
  - injection H as <-. pose proof (worker_recv QReplication _ _ _ Er) as Hk.
    destruct Hk. split; try done. intros _. cbn. rewrite length_app, En. cbn. lia.
  - assert (Hk : worker_keeps s (set_workers (journalWorker s) n s)) by (by split).
    destruct (n =? 0)%nat; [|by injection H as <-].
    eapply worker_on_srv; [apply nh_sync|exact Hk| |exact H]. by intros a v Hk' [= <-].
Qed.

Lemma replication_write_keeps i s s' : replication_write_step i s = Done s' -> worker_keeps s s'.
Proof using.
  unfold replication_write_step. destruct (replicating s !! i) as [p|] eqn:Ei; [|done].
  intros H. eapply worker_on_srv; [apply nh_handleReplicationPacket|apply worker_keeps_refl| |exact H].
  intros a v [] [= <-]. split; try done. cbn. intros Hl.
  rewrite length_delete by (by rewrite Ei). lia.
Qed.

(** What a step of the hashing goroutines does to the server. *)
Definition job_effect (v v' : Server) : Prop :=
  v' = v \/ (exists o, v' = (hash_read HashedSpaceBase o v).2) \/ (exists x, v' = (hash_send x v).2).

Lemma job_step_Done term e j s k s' :
  job_step xxhash term e j s k = Done s' ->
  exists v, job_effect (srv s) v /\
    (s' = upd_srv (fun _ => v) s \/ exists j', s' = k j' (upd_srv (fun _ => v) s)).
Proof using.
  destruct j as [ts r rd w h rs sd]. unfold job_step. intros H.
  assert (K : forall j', Done (k j' s) = Done s' -> exists v, job_effect (srv s) v /\
    (s' = upd_srv (fun _ => v) s \/ exists j', s' = k j' (upd_srv (fun _ => v) s))).
  { intros j' [= <-]. exists (srv s). split; [by left|]. right. exists j'. by rewrite upd_srv_same. }
  destruct e as [| | |i|i|i|]; [done|..|done].
  - destruct term; [by eapply K|done].
  - destruct r, ts; [done..|by eapply K].
  - destruct (rd !! i) as [o|]; [|done].
    apply on_srv_Done in H as [(x & v & E & H)|(x & v & E & ->)]; (exists v; split; [right; left; exists o; by rewrite E|]).
    + destruct x; [|destruct (_ =? _)%nat; [done|]|]; injection H as <-; eauto.
    + by left.
  - destruct h, (w !! i); [done..|by eapply K|done].
  - destruct sd as [|sd]; [done|]. destruct (rs !! i) as [x|]; [|done]. destruct term; [by eapply K|].
    apply on_srv_Done in H as [(y & v & E & H)|(y & v & E & ->)]; (exists v; split; [right; right; exists x; by rewrite E|]).
    + injection H as <-. eauto.
    + by left.
Qed.

(** Such a step preserves what reads and sends of the server preserve. *)
Lemma preserves_effect (P : Server -> Prop) v v' :
  (forall o, preserves P (hash_read HashedSpaceBase o)) -> (forall x, preserves P (hash_send x)) ->
  job_effect v v' -> P v -> P v'.
Proof using. intros H1 H2 [->|[(o & ->)|(x & ->)]] Hv; [done|by apply H1|by apply H2]. Qed.

Lemma job_effect_keeps s v : job_effect (srv s) v -> worker_keeps s (upd_srv (fun _ => v) s).
Proof using.
  intros H. split; try done. cbn. destruct H as [->|[(o & ->)|(x & ->)]]; [done|..].
  - apply nh_hash_read.
  - apply nh_hash_send.
Qed.

Lemma hash_step_keeps e s s' : hash_step xxhash numWorkers e s = Done s' -> worker_keeps s s'.
Proof using.
  unfold hash_step. destruct (hashPc s) as [| |j]; [done|..].
  - destruct e; try done. intros H.
    eapply worker_on_srv; [apply nh_HashDisk_start|apply worker_keeps_refl| |exact H].
    intros [] v Hk H'; [destruct (ClientInfo _); [|done]|]; injection H' as <-; by apply worker_set_hashPc.
  - assert (J : job_step xxhash (ChanHasTerminated (hashTermChan s)) e j s (fun j => set_hashPc (HRunning j)) = Done s' ->
      worker_keeps s s').
    { intros (v & Hv%job_effect_keeps & [->|(j' & ->)])%job_step_Done; [done|by apply worker_set_hashPc]. }
    destruct e; try exact J. destruct (_ || _); [|done].
    intros H. eapply worker_on_srv; [apply nh_HashDisk_end|apply worker_keeps_refl| |exact H].
    intros r v Hk [= <-]. auto with bdr.
Qed.

Lemma stray_step_keeps k e s s' : stray_step xxhash k e s = Done s' -> worker_keeps s s'.
Proof using.
  unfold stray_step. destruct (strays s !! k) as [[old j]|]; [|done].
  intros (v & Hv%job_effect_keeps & [->|(j' & ->)])%job_step_Done; [done|by apply worker_set_strays].
Qed.

Lemma shutdown_keeps s : worker_keeps s (shutdown s).
Proof using. unfold shutdown. destruct (ChanHasTerminated _); by split. Qed.
End WorkerSteps.

(** ** Steps of the main goroutine *)

(** Split the invariant of a session given by its fields. *)
Ltac inv_fields :=
  match goal with
  | I : session_inv ?s |- _ =>
      let I1 := fresh "I1" in let I2 := fresh "I2" in let I3 := fresh "I3" in
      let I4 := fresh "I4" in let I5 := fresh "I5" in
      let I6 := fresh "I6" in
      destruct I as [I1 I2 I3 I4 I5 I6];
      pose proof (I1 QWrite); pose proof (I1 QJournal);
      pose proof (I1 QCorrect); pose proof (I1 QReplication);
      pose proof (I3 QWrite); pose proof (I3 QJournal);
      pose proof (I3 QCorrect); pose proof (I3 QReplication);
      pose proof (I4 QWrite); pose proof (I4 QJournal);
      pose proof (I4 QCorrect); pose proof (I4 QReplication);
      clear I1 I3 I4; unfold journal_needed in I5
  end.

Ltac inv_close :=
  repeat match goal with
  | H : abind _ _ = Done _ |- _ =>
      apply abind_Done in H; let E := fresh "E" in destruct H as (? & E & H)
  | H : close_queue _ _ = Done _ |- _ => apply close_queue_Done in H; subst
  | H : close_hashTermChan _ = Done _ |- _ => apply close_hashTermChan_Done in H; subst
  | H : Done _ = Done _ |- _ => injection H as <-
  end.

(** A session whose fields are known after a step. *)
Ltac inv_done :=
  inv_fields; inv_close;
  split; [intros []|..|intros []|intros []|unfold journal_needed|];
  cbn in *; (congruence || lia || tauto || auto).

Lemma close_queue_ok q s :
  session_inv s -> closed_at (mainPc s) q = false -> exists s', close_queue q s = Done s'.
Proof.
  intros I Hq. unfold close_queue, chan_close. rewrite (si_closed _ I), Hq. simpl. eauto.
Qed.

Lemma dispatch_inv p s s' :
  session_inv s -> mainPc s = MLoop -> dispatch p s = Done s' -> session_inv s'.
Proof.
  intros I Hm H. unfold dispatch in H.
  destruct s as [v d T ht qw qj qc qr m w h jw rw cp rl st]; cbn in Hm; subst m.
  destruct (_ =? _); [inv_done|].
  destruct (_ =? _); [cbn in H; destruct (state v) eqn:Ev; inv_done|].
  destruct (_ =? _); [cbn in H; destruct (state v) eqn:Ev; inv_done|].
  do 4 (destruct (_ =? _); [inv_done|]).
  destruct (_ =? _); [inv_done|]. by injection H as <-.
Qed.

Lemma set_decoder_inv d s : session_inv s -> session_inv (set_decoder d s).
Proof. intros []. by split. Qed.

Lemma main_return_inv s s' :
  session_inv s -> mainPc s = MLoop -> main_return s = Done s' -> session_inv s'.
Proof.
  intros I Hm H. unfold main_return in H.
  destruct s as [v d T ht qw qj qc qr m w h jw rw cp rl st]; cbn in Hm; subst m. inv_done.
Qed.

Lemma send_queue_inv q p s s' :
  session_inv s -> mainPc s = MSend q p -> send_queue q p s = Done s' -> session_inv s'.
Proof.
  intros I Hm H. unfold send_queue in H. apply abind_Done in H as (c & E & [= <-]).
  assert (Ho : open (get_queue q s)) by (unfold open; by rewrite (si_closed _ I), Hm).
  destruct (send_cases p (get_queue q s) Ho) as [[Ec _]|[Ec Hlt]]; rewrite E in Ec; [done|].
  injection Ec as ->.
  destruct s as [v d T ht qw qj qc qr m w h jw rw cp rl st]; cbn in Hm; subst m.
  unfold open in Ho. destruct q; cbn in *; inv_fields;
    (split; [intros []|..|intros []|intros []|unfold journal_needed|]);
    cbn in *; rewrite ?length_app; cbn [length]; (congruence || lia || tauto || auto).
Qed.

Lemma main_step_inv numWorkers s s' :
  session_inv s -> main_step numWorkers s = Done s' -> session_inv s'.
Proof.
  intros I H. unfold main_step in H. destruct (mainPc s) as [|q p| | | | | | | | | | ] eqn:Hm.
  - destruct (ChanHasTerminated _); [by eapply main_return_inv|].
    destruct (decoder s) as [|[p|e] d]; [done| |].
    + eapply dispatch_inv; [by apply set_decoder_inv| |exact H]. done.
    + destruct (IsConnectionClosed _);
        [eapply main_return_inv; [by apply set_decoder_inv| |exact H]; done|].
      injection H as <-. by apply set_decoder_inv.
  - by eapply send_queue_inv.
  - destruct (journalWorker s) eqn:Ew; [done|].
    destruct s as [v d T ht qw qj qc qr m w h jw rw cp rl st]; cbn in *; subst. inv_done.
  - destruct (hash_idle s); [|done].
    destruct s as [v d T ht qw qj qc qr m w h jw rw cp rl st]; cbn in *; subst. inv_done.
  - destruct (journalWorker s) eqn:Ew; [done|]. unfold on_srv in H.
    destruct s as [v d T ht qw qj qc qr m w h jw rw cp rl st]; cbn in *; subst.
    unfold bind in H. destruct (HandleJournalWriting v) as [[u|e|] v'] eqn:E; cbn in H;
      [clear E; inv_done| |done].
    exfalso. revert E. unfold HandleJournalWriting, bind, GetState, gets.
    case_bool_decide; [done|]. unfold catch, ignore, bind, catch.
    destruct (WriteJournalToReplica v) as [[]]; [done| |done].
    by destruct (SendPacket _ _) as [[]].
  - destruct (_ =? _)%nat; [|done].
    destruct s as [v d T ht qw qj qc qr m w h jw rw cp rl st]; cbn in *; subst. inv_done.
  - destruct (Nat.eqb_spec (replicationWorkers s) 0) as [E0|]; [|done].
    destruct s as [v d T ht qw qj qc qr m w h jw rw cp rl st]; cbn in *; subst. inv_done.
  - destruct (hash_idle s); [|done].
    destruct s as [v d T ht qw qj qc qr m w h jw rw cp rl st]; cbn in *; subst. inv_done.
  - destruct (_ =? _)%nat; [|done].
    destruct s as [v d T ht qw qj qc qr m w h jw rw cp rl st]; cbn in *; subst. inv_done.
  - destruct (journalWorker s) eqn:Ew; [done|].
    destruct s as [v d T ht qw qj qc qr m w h jw rw cp rl st]; cbn in *; subst. inv_done.
  - destruct (hash_idle s); [|done].
    destruct s as [v d T ht qw qj qc qr m w h jw rw cp rl st]; cbn in *; subst. inv_done.
  - done.
Qed.

Lemma step_inv xxhash numWorkers e s s' :
  session_inv s -> step xxhash numWorkers e s = Done s' -> session_inv s'.
Proof.
  intros I H. destruct e; cbn [step] in H;
    [by eapply main_step_inv|eapply worker_keeps_inv; [|done]..].
  - by apply journal_step_keeps.
  - by apply correct_step_keeps.
  - by apply write_step_keeps.
  - by apply replication_step_keeps.
  - by eapply replication_write_keeps.
  - by eapply hash_step_keeps.
  - by eapply stray_step_keeps.
  - injection H as <-. apply shutdown_keeps.
Qed.

Lemma reachable_inv xxhash numWorkers v ps s :
  state v <> StateHashing -> reachable xxhash numWorkers (HandleClient_start v ps) s -> session_inv s.
Proof. intros Hv R. induction R; [by apply start_inv|by eapply step_inv]. Qed.

(** ** What the server has sent stays sent *)

Section Methods.
Context (l : list Packet).

(** The packets [l] have been sent. *)
Definition was_sent (v : Server) : Prop := l `prefix_of` sent v.

Lemma ws_target {A} (m : M Dev A) : preserves was_sent (on_target m).
Proof using. intros v Hv. unfold on_target, zoom. by destruct (m (TargetDevFd v)). Qed.
Lemma ws_journal {A} (m : M JState A) : preserves was_sent (on_journal m).
Proof using. intros v Hv. unfold on_journal. destruct (SJournal v); [|done]. by destruct (m _). Qed.
Lemma ws_Encode p : preserves was_sent (Encode p).
Proof using.
  intros v Hv. unfold Encode. destruct (sendFaults v) as [|[e|] fs]; [by apply prefix_app_r|done|by apply prefix_app_r].
Qed.
Lemma ws_SetState st : preserves was_sent (SetState st).
Proof using. by intros v Hv. Qed.
Hint Resolve ws_target ws_journal ws_Encode ws_SetState : preserves.

Ltac solve_sent :=
  repeat first
    [ progress eauto 2 with preserves
    | apply preserves_bind; [|intros ?] | apply preserves_map_err | apply preserves_catch
    | apply preserves_ignore | apply preserves_if | apply preserves_for_range; intros ?
    | case_match | progress unfold SendPacket ].

Lemma ws_handleJournalPacket p : preserves was_sent (handleJournalPacket p).
Proof using.
  unfold handleJournalPacket, journal_overflow, HandleJournalBufferWrite, HandleJournalCorrectBlock,
    WriteBufferWriteToJournal, WriteCorrectBlockToJournal, GetState. solve_sent.
Qed.
Lemma ws_handleCorrectPacket p : preserves was_sent (handleCorrectPacket p).
Proof using. unfold handleCorrectPacket, WriteCorrectBlockToReplica. solve_sent. Qed.
Lemma ws_handleReplicationPacket p : preserves was_sent (handleReplicationPacket p).
Proof using. unfold handleReplicationPacket. solve_sent. Qed.
Lemma ws_HashDisk_start : preserves was_sent HashDisk_start.
Proof using. unfold HashDisk_start, GetState. solve_sent. Qed.
Lemma ws_hash_read n o : preserves was_sent (hash_read n o).
Proof using. unfold hash_read. solve_sent. Qed.
Lemma ws_hash_send r : preserves was_sent (hash_send r).
Proof using. unfold hash_send. solve_sent. Qed.
Lemma ws_HashDisk_end : preserves was_sent HashDisk_end.
Proof using. unfold HashDisk_end. solve_sent. Qed.
Lemma ws_HandleJournalWriting : preserves was_sent HandleJournalWriting.
Proof using. unfold HandleJournalWriting, WriteJournalToReplica, GetState. solve_sent. Qed.
Hint Resolve ws_handleJournalPacket ws_handleCorrectPacket ws_handleReplicationPacket ws_HashDisk_start
  ws_hash_read ws_hash_send ws_HashDisk_end ws_HandleJournalWriting : preserves.

Lemma effect_sent v v' : job_effect v v' -> was_sent v -> was_sent v'.
Proof using. apply preserves_effect; auto with preserves. Qed.

Lemma on_srv_sent {A} (m : M Server A) s k s' :
  preserves was_sent m -> on_srv m s k = Done s' -> was_sent (srv s) ->
  (forall a t, was_sent (srv t) -> k a t = Done s' -> was_sent (srv s')) -> was_sent (srv s').
Proof using.
  intros Hm H Hs Hk. pose proof (Hm _ Hs) as Hv.
  apply on_srv_Done in H as [(a & v & E & H)|(e & v & E & ->)]; rewrite E in Hv; [|done].
  by apply (Hk a (upd_srv (fun _ => v) s)).
Qed.

Ltac split_sent :=
  repeat match goal with
  | H : Done _ = Done _ |- _ => injection H as <-
  | H : abind _ _ = Done _ |- _ => apply abind_Done in H as (? & ? & H)
  | H : on_srv _ _ _ = Done _ |- _ =>
      eapply on_srv_sent; [..|exact H| |]; clear H; [auto with preserves|try done|intros ? ? ? H; cbn beta in H]
  | H : Blocked = Done _ |- _ => discriminate H
  | H : Crash = Done _ |- _ => discriminate H
  | H : match ?x with _ => _ end = Done _ |- _ => destruct x
  end; try done.

Lemma step_was_sent xxhash nw e s s' : step xxhash nw e s = Done s' -> was_sent (srv s) -> was_sent (srv s').
Proof using.
  intros H Hs. destruct e as [| | | | |i|e|k e|]; cbn [step] in H.
  - unfold main_step, main_return, dispatch, close_queue, close_hashTermChan, send_queue in H. split_sent.
  - unfold journal_step in H. split_sent.
  - unfold correct_step in H. split_sent.
  - unfold write_step in H. split_sent.
  - unfold replication_step in H. split_sent.
  - unfold replication_write_step in H. split_sent.
  - unfold hash_step in H. destruct (hashPc s) as [| |j]; [done|split_sent|].
    assert (J : job_step xxhash (ChanHasTerminated (hashTermChan s)) e j s (fun j => set_hashPc (HRunning j)) = Done s' ->
      was_sent (srv s')) by (intros (v & Hv%effect_sent & [->|(j' & ->)])%job_step_Done; auto).
    destruct e; try (exact (J H)). split_sent.
  - unfold stray_step in H. destruct (strays s !! k) as [[old j]|]; [|done].
    apply job_step_Done in H as (v & Hv%effect_sent & [->|(j' & ->)]); auto.
  - injection H as <-. unfold shutdown. by destruct (ChanHasTerminated _).
Qed.
End Methods.

(** Every step of the server only adds to what was sent. *)
Lemma step_sends xxhash nw e s s' : step xxhash nw e s = Done s' -> sent (srv s) `prefix_of` sent (srv s').
Proof. intros E. apply (step_was_sent (sent (srv s)) xxhash nw e s s' E). unfold was_sent. reflexivity. Qed.
