(* ===== verification/SessionProps.v ===== *)
(** * Properties of a session under every schedule *)
From S2P Require Import Prelude GoInt GoMonad GoChan Utils BlockDev Blocks Networking Journal.
From S2P Require Import Server Session SessionSafety.
Open Scope Z_scope.

(** ** The demo session: a server that waits for packets *)

Definition idle_server : Server :=
  {| TargetDevFd := {| content := replicate 16 Byte.x00; faults := [] |};
     JournalDev := {| content := []; faults := [] |}; SJournal := None;
     ClientInfo := Some {| DeviceSize := 16; iWriteInfoSize := 12; BufferByteSize := 48 |};
     Connected := true; sent := []; sendFaults := []; state := StateWriting |}.

Definition no_hash (b : list byte) : Z := 0.

(** ** Channels *)

(** Evaluate the closes of a step on a session given by its fields. *)
Ltac eval_closes :=
  unfold close_hashTermChan, close_queue, chan_close; cbn in *;
  repeat (match goal with H : cclosed _ = _ |- _ => rewrite !H end; cbn); done.

Ltac open_session s Hm :=
  destruct s as [v_ d_ T_ ht_ qw_ qj_ qc_ qr_ m_ w_ h_ jw_ rw_ cp_ rl_ st_]; cbn in Hm; subst m_;
  inv_fields; cbn in *.

Lemma main_return_ok s : session_inv s -> mainPc s = MLoop -> main_return s <> Crash.
Proof. intros I Hm. open_session s Hm. unfold main_return. eval_closes. Qed.

Lemma dispatch_ok p s : session_inv s -> mainPc s = MLoop -> dispatch p s <> Crash.
Proof.
  intros I Hm. open_session s Hm. unfold dispatch.
  destruct (_ =? _); [eval_closes|].
  destruct (_ =? _); [by destruct (state _)|].
  destruct (_ =? _); [by destruct (state _)|].
  do 5 (destruct (_ =? _); [eval_closes|]). done.
Qed.

Lemma send_queue_ok q p s : session_inv s -> mainPc s = MSend q p -> send_queue q p s <> Crash.
Proof.
  intros I Hm. unfold send_queue.
  assert (Ho : open (get_queue q s)) by (unfold open; by rewrite (si_closed _ I), Hm).
  by destruct (send_cases p _ Ho) as [[-> _]|[-> _]].
Qed.

(** The only panic of the main goroutine is one of the replay. *)
Lemma main_step_crash numWorkers s :
  session_inv s -> main_step numWorkers s = Crash ->
  mainPc s = MHashingCompleted /\ (HandleJournalWriting (srv s)).1 = Panic.
Proof.
  intros I.
  unfold main_step. destruct (mainPc s) as [|q p| | | | | | | | | | ] eqn:Hm.
  - destruct (ChanHasTerminated _); [by intros ?%main_return_ok|].
    destruct (decoder s) as [|[p|e] d]; [done| |].
    + intros H. exfalso. revert H. apply dispatch_ok; [by apply set_decoder_inv|done].
    + destruct (IsConnectionClosed _); [|done].
      intros H. exfalso. revert H. apply main_return_ok; [by apply set_decoder_inv|done].
  - by intros ?%send_queue_ok.
  - destruct (journalWorker s) eqn:Ew; [done|]. intros H; exfalso; revert H. open_session s Hm. eval_closes.
  - by destruct (hash_idle s).
  - destruct (journalWorker s); [done|]. intros H. split; [done|]. revert H.
    unfold on_srv, bind. cbn [srv set_queue].
    by destruct (HandleJournalWriting (srv s)) as [[] ?].
  - by destruct (_ =? _)%nat.
  - by destruct (_ =? _)%nat.
  - by destruct (hash_idle s).
  - destruct (_ =? _)%nat; [|done]. intros H; exfalso; revert H. open_session s Hm. eval_closes.
  - destruct (journalWorker s) eqn:Ew; [done|]. intros H; exfalso; revert H. open_session s Hm. eval_closes.
  - by destruct (hash_idle s).
  - done.
Qed.

(** In no schedule does the main goroutine close a closed channel or send
    on one: the only panic it can meet is one of the replay itself, at the end
    of a scan. *)
Theorem session_channel_safety xxhash numWorkers v ps s :
  state v = StateWriting ->
  reachable xxhash numWorkers (HandleClient_start v ps) s ->
  main_step numWorkers s = Crash ->
  mainPc s = MHashingCompleted /\ (HandleJournalWriting (srv s)).1 = Panic.
Proof.
  intros Hv R. assert (I : session_inv s) by (eapply reachable_inv; [|exact R]; by rewrite Hv).
  by apply main_step_crash.
Qed.

(** A replay without a journal panics: the client completes a scan that was
    never started on a server without a journal. *)
Lemma session_channel_safety_witness :
  exists s, reachable no_hash 2 (HandleClient_start idle_server
      [inl (CreateInfoPacket PacketTypeInfoHashingCompleted)]) s /\
    main_step 2 s = Crash /\ mainPc s = MHashingCompleted /\ (HandleJournalWriting (srv s)).1 = Panic.
Proof.
  destruct (main_step 2 (HandleClient_start idle_server
      [inl (CreateInfoPacket PacketTypeInfoHashingCompleted)])) as [s| |] eqn:E;
    [|vm_compute in E; discriminate|vm_compute in E; discriminate].
  exists s.
  assert (R : reachable no_hash 2 (HandleClient_start idle_server
      [inl (CreateInfoPacket PacketTypeInfoHashingCompleted)]) s)
    by (apply (reach_step _ _ _ EMain _ _ (reach_refl _ _ _)); exact E).
  assert (Hc : main_step 2 s = Crash) by (vm_compute in E; injection E as <-; reflexivity).
  split; [exact R|]. split; [exact Hc|].
  exact (session_channel_safety no_hash 2 idle_server _ s eq_refl R Hc).
Defined.

(** ** Progress of the sends *)

(** The worker that takes from a queue; a replication worker writes first what it
    has received. *)
Definition worker_step (q : queue) : Session -> attempt Session :=
  match q with
  | QWrite => write_step
  | QJournal => journal_step
  | QCorrect => correct_step
  | QReplication => fun s => match replicating s with [] => replication_step s | _ => replication_write_step 0 s end
  end.

Lemma on_srv_runs {A} (m : M Server A) s k :
  (forall a s, k a s <> Blocked) -> on_srv m s k <> Blocked.
Proof. intros Hk. unfold on_srv. by destruct (m (srv s)) as [[] ?]. Qed.

(** A send of the main goroutine never waits for nothing: when its queue is
    full, the worker of the queue is there and can take a step, in every
    schedule; for the replication queue this needs a replication to be running. *)
Theorem session_send_progress xxhash numWorkers v ps s q p :
  state v = StateWriting ->
  reachable xxhash numWorkers (HandleClient_start v ps) s ->
  mainPc s = MSend q p -> (q = QReplication -> (0 < replicationWorkers s)%nat) ->
  main_step numWorkers s <> Blocked \/ worker_step q s <> Blocked.
Proof.
  intros Hv R Hm Hr. assert (I : session_inv s) by (eapply reachable_inv; [|exact R]; by rewrite Hv).
  assert (Ho : open (get_queue q s)) by (unfold open; by rewrite (si_closed _ I), Hm).
  unfold main_step. rewrite Hm. unfold send_queue.
  destruct (send_cases p _ Ho) as [[_ Hfull]|[-> _]]; [right|by left].
  rewrite (si_cap _ I) in Hfull.
  destruct (full_recv (get_queue q s)) as (x & c & Hx); [by intros E; rewrite E in Hfull; simpl in Hfull; lia|].
  destruct q; cbn [worker_step get_queue] in *.
  - unfold write_step. destruct (writePc s).
    + rewrite Hx. cbn. destruct (negb _); [done|]. by destruct (slice _ _ _).
    + apply on_srv_runs. intros [] s1; [|done]. by apply on_srv_runs.
  - unfold journal_step. rewrite (si_journal _ I) by (unfold journal_needed; by rewrite Hm).
    rewrite Hx. cbn. by apply on_srv_runs.
  - unfold correct_step. destruct (correctPc s); [by apply on_srv_runs|]. by rewrite Hx.
  - destruct (replicating s) as [|y l] eqn:El.
    + unfold replication_step. specialize (Hr eq_refl). destruct (replicationWorkers s); [lia|].
      rewrite El. cbn. by rewrite Hx.
    + unfold replication_write_step. rewrite El. by apply on_srv_runs.
Qed.

Definition demo_bw : Packet :=
  {| PacketType := PacketTypePayloadBufferWrite;
     Payload := PWriteInfo {| Offset := 3; Size := 1; Data := [Byte.x07] |} |}.

Lemma session_send_progress_witness :
  exists s, reachable no_hash 2 (HandleClient_start idle_server [inl demo_bw]) s /\
    mainPc s = MSend QWrite demo_bw /\ (main_step 2 s <> Blocked \/ worker_step QWrite s <> Blocked).
Proof.
  destruct (main_step 2 (HandleClient_start idle_server [inl demo_bw])) as [s| |] eqn:E;
    [|vm_compute in E; discriminate|vm_compute in E; discriminate].
  exists s.
  assert (R : reachable no_hash 2 (HandleClient_start idle_server [inl demo_bw]) s)
    by (apply (reach_step _ _ _ EMain _ _ (reach_refl _ _ _)); exact E).
  assert (Hm : mainPc s = MSend QWrite demo_bw) by (vm_compute in E; injection E as <-; reflexivity).
  split; [exact R|]. split; [exact Hm|].
  apply (session_send_progress no_hash 2 idle_server [inl demo_bw] s QWrite demo_bw eq_refl R Hm).
  discriminate.
Defined.

(** ** The replication queue without a replication *)

(** Stuck: the main goroutine sends a replication block to a full queue that
    nobody reads. *)
Definition hung (s : Session) : Prop :=
  (exists p, mainPc s = MSend QReplication p) /\ replicationWorkers s = 0%nat /\
  cclosed (replicationQueue s) = false /\
  (ccap (replicationQueue s) <= length (cbuf (replicationQueue s)))%nat.

Lemma hung_main numWorkers s : hung s -> main_step numWorkers s = Blocked.
Proof.
  intros ((p & Hm) & _ & Ho & Hl). unfold main_step. rewrite Hm. unfold send_queue, chan_send.
  cbn [get_queue]. rewrite Ho. destruct (_ <? _)%nat eqn:E; [|done]. apply Nat.ltb_lt in E. lia.
Qed.

(** What the other goroutines cannot change. *)
Definition repl_same (s s' : Session) : Prop :=
  mainPc s' = mainPc s /\ replicationWorkers s' = replicationWorkers s /\
  replicationQueue s' = replicationQueue s /\ decoder s' = decoder s.

Lemma on_srv_repl_same {A} (m : M Server A) s0 s k s' :
  repl_same s0 s -> (forall a s1, repl_same s0 s1 -> k a s1 = Done s' -> repl_same s0 s') ->
  on_srv m s k = Done s' -> repl_same s0 s'.
Proof. intros H0 Hk [(a & v & _ & H)|(e & v & _ & ->)]%on_srv_Done; [by apply (Hk a _) in H|done]. Qed.

Lemma other_repl_same xxhash numWorkers e s s' :
  e <> EMain -> hung s -> step xxhash numWorkers e s = Done s' -> repl_same s s'.
Proof.
  intros He (_ & Hr & _). destruct e as [| | | | |i|h|k h|]; cbn [step]; [done|..].
  - unfold journal_step. destruct (journalWorker s); [|done].
    intros ([[p|] c] & _ & H)%abind_Done; [|by injection H as <-].
    eapply on_srv_repl_same; [| |exact H]; [done|by intros ??? [= <-]].
  - unfold correct_step. destruct (correctPc s).
    + intros H. eapply on_srv_repl_same; [| |exact H]; [done|by intros ??? [= <-]].
    + by intros ([[p|] c] & _ & [= <-])%abind_Done.
  - unfold write_step. destruct (writePc s).
    + intros ([[p|] c] & _ & H)%abind_Done; [|done]. destruct (negb _); [by injection H as <-|].
      destruct (slice _ _ _); [|done]. by injection H as <-.
    + intros H. eapply on_srv_repl_same; [| |exact H]; [done|].
      intros [] s1 Hs1 H1; [|by injection H1 as <-].
      eapply on_srv_repl_same; [| |exact H1]; [done|by intros ??? [= <-]].
  - unfold replication_step. by rewrite Hr.
  - unfold replication_write_step. destruct (replicating s !! i); [|done].
    intros H. eapply on_srv_repl_same; [| |exact H]; [done|by intros ??? [= <-]].
  - unfold hash_step. destruct (hashPc s) as [| |j]; [done|..].
    + destruct h; try done. intros H. eapply on_srv_repl_same; [| |exact H]; [done|].
      intros [] s1 Hs1 H1; [destruct (ClientInfo _); [|done]|]; by injection H1 as <-.
    + assert (J : job_step xxhash (ChanHasTerminated (hashTermChan s)) h j s (fun j => set_hashPc (HRunning j)) = Done s' ->
        repl_same s s') by (by intros (v & _ & [->|(j' & ->)])%job_step_Done).
      destruct h; try exact J. destruct (_ || _); [|done].
      intros H. eapply on_srv_repl_same; [| |exact H]; [done|by intros ??? [= <-]].
  - unfold stray_step. destruct (strays s !! k) as [[old j]|]; [|done].
    by intros (v & _ & [->|(j' & ->)])%job_step_Done.
  - intros [= <-]. unfold shutdown. by destruct (ChanHasTerminated _).
Qed.

Lemma hung_forever xxhash numWorkers s s' :
  hung s -> reachable xxhash numWorkers s s' -> hung s' /\ decoder s' = decoder s.
Proof.
  intros H R. induction R as [|e s1 s2 R [IH1 IH2] E]; [done|].
  destruct (decide (e = EMain)) as [->|He].
  { cbn [step] in E. by rewrite hung_main in E. }
  apply (other_repl_same xxhash numWorkers e s1 s2) in E as (H1 & H2 & H3 & H4); [|done|done].
  unfold hung. rewrite H1, H2, H3. split; [done|congruence].
Qed.

Definition is_replication (p : Packet) : Prop := PacketType p = PacketTypePayloadReplicationBlock.

Lemma dispatch_replication p s :
  is_replication p -> dispatch p s = Done (set_mainPc (MSend QReplication p) s).
Proof. intros H. unfold dispatch. by rewrite H. Qed.

(** Two steps of the main goroutine queue one replication block. *)
Lemma queue_replication xxhash numWorkers s0 s p d :
  reachable xxhash numWorkers s0 s ->
  mainPc s = MLoop -> ChanHasTerminated (TermChan s) = false -> decoder s = inl p :: d ->
  is_replication p -> cclosed (replicationQueue s) = false ->
  (length (cbuf (replicationQueue s)) < ccap (replicationQueue s))%nat ->
  let c := replicationQueue s in
  reachable xxhash numWorkers s0
    (set_queue QReplication (mkChan (cbuf c ++ [p]) (ccap c) false) (set_decoder d s)).
Proof.
  intros R Hm Ht Hd Hp Ho Hl c.
  eapply (reach_step _ _ _ EMain); [eapply (reach_step _ _ _ EMain); [exact R|]|]; cbn [step].
  - unfold main_step. rewrite Hm, Ht, Hd. by apply dispatch_replication.
  - unfold main_step. cbn [mainPc set_mainPc]. unfold send_queue, chan_send.
    cbn [get_queue replicationQueue set_mainPc set_decoder]. rewrite Ho.
    apply Nat.ltb_lt in Hl. rewrite Hl. cbn. by rewrite <- Hm.
Qed.

(** Replication blocks that arrive in a session without a running
    replication hang it: after nine of them the main goroutine waits for ever,
    in every schedule, and reads no further packet. *)
Theorem replication_without_start_hangs xxhash numWorkers v (ps : list Packet) p rest :
  length ps = ReplicationPacketQueueSize -> Forall is_replication ps -> is_replication p ->
  exists s, reachable xxhash numWorkers
      (HandleClient_start v ((inl <$> ps) ++ inl p :: rest)) s /\
    forall s', reachable xxhash numWorkers s s' ->
      main_step numWorkers s' = Blocked /\ decoder s' = rest.
Proof.
  intros Hl Hps Hp. set (s0 := HandleClient_start v _).
  assert (F : forall pre post, ps = pre ++ post ->
    reachable xxhash numWorkers s0
      (set_queue QReplication (mkChan pre ReplicationPacketQueueSize false)
        (set_decoder ((inl <$> post) ++ inl p :: rest) s0))).
  { induction pre as [|x pre IH] using rev_ind; intros post Hpp.
    { simpl in Hpp. subst post. apply reach_refl. }
    rewrite <- app_assoc in Hpp. simpl in Hpp. specialize (IH (x :: post) Hpp).
    assert (Hx : is_replication x) by (rewrite Hpp in Hps; apply Forall_app in Hps as [_ [? _]%Forall_cons]; done).
    assert (length pre < ReplicationPacketQueueSize)%nat
      by (rewrite <- Hl, Hpp, length_app; simpl; lia).
    by apply (queue_replication _ _ _ _ x ((inl <$> post) ++ inl p :: rest) IH). }
  specialize (F ps [] (eq_sym (app_nil_r ps))). simpl in F.
  eexists. split.
  { eapply (reach_step _ _ _ EMain); [exact F|]. cbn [step]. unfold main_step.
    cbn. by apply dispatch_replication. }
  intros s' R. apply hung_forever in R as [H1 H2].
  - split; [by apply hung_main|]. done.
  - split_and!; cbn; [by eexists|done|done|]. by rewrite Hl.
Qed.

Definition demo_repl : Packet :=
  {| PacketType := PacketTypePayloadReplicationBlock;
     Payload := PReplicationBlockInfo {| Offset := 0; Size := 1; Data := [Byte.x01] |} |}.

Lemma replication_without_start_hangs_witness :
  exists s, reachable no_hash 2
      (HandleClient_start idle_server ((inl <$> replicate 8 demo_repl) ++ inl demo_repl ::
         [inl (CreateInfoPacket PacketTypeCmdStartHashing)])) s /\
    forall s', reachable no_hash 2 s s' ->
      main_step 2 s' = Blocked /\ decoder s' = [inl (CreateInfoPacket PacketTypeCmdStartHashing)].
Proof.
  apply (replication_without_start_hangs no_hash 2 idle_server (replicate 8 demo_repl) demo_repl);
    [reflexivity|repeat constructor|reflexivity].
Defined.
