(* ===== verification/SessionScan.v ===== *)
(** * A journalled scan under every schedule

    From the moment the server has reset the journal and announced the scan,
    the packets of the client pass through the journal queue to the journal
    worker while the hashing goroutines read the replica and send hashes.
    Whatever the interleaving, when the main goroutine is back in its loop
    after [HashingCompleted] the replica is the old one overwritten by the
    correct blocks and then by the buffer writes, in the order they were sent. *)
From S2P Require Import Prelude GoInt GoMonad GoChan Utils BlockDev Blocks Networking.
From S2P Require Import Journal JournalCodec JournalSlots JournalSpec JournalOps.
From S2P Require Import Server ServerReplay ServerJournal ServerProps Session SessionSafety.
Open Scope Z_scope.

Definition completed : Packet := CreateInfoPacket PacketTypeInfoHashingCompleted.

(** A packet for the journal. *)
Definition journal_packet (p : Packet) : Prop :=
  (PacketType p = PacketTypePayloadBufferWrite \/ PacketType p = PacketTypePayloadCorrectBlock) /\
  well_typed p.

Lemma a_append_all_app ps qs a : a_append_all (ps ++ qs) a = a_append_all qs (a_append_all ps a).
Proof. unfold a_append_all, blocks_of; simpl. by rewrite !omap_app, !app_assoc. Qed.

Lemma a_append_all_nil a : a_append_all [] a = a.
Proof. unfold a_append_all; simpl. rewrite !app_nil_r. by destruct a. Qed.

Section Scan.
Context (xxhash : list byte -> Z) (numWorkers : nat).
Context (v0 : Server) (j0 : Journal) (a0 : AJournal) (ps : list Packet).
Context (Hj0 : SJournal v0 = Some j0) (J0 : jrel (jstate v0 j0) a0).
Context (T0 : target_ok v0) (S0 : state v0 = StateHashing) (F0 : sendFaults v0 = []).
Context (Hok : Forall (pkt_ok (header j0)) ps) (Hty : Forall journal_packet ps).
Context (Hcap : forall x, Z.of_nat (length (a_sec a0 x) + length (blocks_of x ps)) <= slotCount (header j0) x).
Context (Hrep : replayable (length (content (TargetDevFd v0))) (a_append_all ps a0)).

(** The server while [done] has been journalled. *)
Definition scan_rel (done : list Packet) (v : Server) : Prop :=
  exists j, SJournal v = Some j /\ jrel (jstate v j) (a_append_all done a0) /\
  same_slots (header j0) (header j) /\ TargetDevFd v = TargetDevFd v0 /\
  state v = StateHashing /\ sendFaults v = [].

Lemma scan_rel_start : scan_rel [] v0.
Proof using Hj0 J0 S0 F0.
  exists j0. by rewrite a_append_all_nil.
Qed.

Lemma scan_rel_sent done v l : scan_rel done v -> scan_rel done (set_sent l [] v).
Proof using. intros (j & ? & ? & ? & ? & ? & ?). by exists j. Qed.

Lemma scan_rel_packet done p rest v :
  ps = done ++ p :: rest -> scan_rel done v ->
  exists v', handleJournalPacket p v = (Ret tt, v') /\ scan_rel (done ++ [p]) v' /\ sent v' = sent v.
Proof using Hok Hty Hcap.
  intros Hps (j & Hj & J & Hg & Ht & Hs & Hf).
  assert (Hp : pkt_ok (header j0) p /\ journal_packet p).
  { rewrite Hps in Hok, Hty. apply Forall_app in Hok as [_ [? _]%Forall_cons].
    apply Forall_app in Hty as [_ [? _]%Forall_cons]. done. }
  destruct Hp as [Hp [_ Hw]].
  destruct (handleJournalPacket_refines v v (header j0) (a_append_all done a0, false) p) as (v' & E & R);
    [by rewrite Hs|by exists j; split_and!|done|].
  exists v'. split; [done|].
  assert (Ea : a_packet (slotCount (header j0)) p (a_append_all done a0, false) =
    (a_append_all (done ++ [p]) a0, false)).
  { rewrite a_append_all_app. apply (a_packets_room _ [p]); [by apply Forall_singleton|].
    intros x. rewrite <- length_app, <- a_sec_append_all, <- a_append_all_app, a_sec_append_all.
    specialize (Hcap x). rewrite Hps in Hcap. rewrite length_app in *.
    assert (length (blocks_of x (done ++ [p])) <= length (blocks_of x (done ++ p :: rest)))%nat.
    { unfold blocks_of. replace (done ++ p :: rest) with ((done ++ [p]) ++ rest) by (by rewrite <- app_assoc).
      rewrite (omap_app _ (done ++ [p]) rest), length_app. lia. }
    lia. }
  rewrite Ea in R. destruct R as (j' & Hj' & J' & Hg' & Ht' & _ & _ & Hf' & Hs' & Hse).
  split; [|done]. exists j'. split_and!; try done; congruence.
Qed.

(** The server after the replay. *)
Definition scan_done (v : Server) : Prop :=
  content (TargetDevFd v) =
    apply_writes (a_replay (a_append_all ps a0)) (content (TargetDevFd v0)) /\
  srel v (a_mark false (a_append_all ps a0)) /\ state v = StateWriting /\
  sendFaults v = [] /\ healthy (TargetDevFd v).

Lemma scan_done_sent v l : scan_done v -> scan_done (set_sent l [] v).
Proof using. intros (H1 & H2 & H3 & H4 & H5). split_and!; done. Qed.

Lemma scan_rel_finish v :
  scan_rel ps v -> exists v', (HandleJournalWriting ;;; SetState StateWriting) v = (Ret tt, v') /\ scan_done v' /\
    sent v' = sent v.
Proof using T0 Hrep.
  intros (j & Hj & J & Hg & Ht & Hs & Hf).
  assert (T : target_ok v) by (unfold target_ok in *; by rewrite Ht).
  assert (Hr : replayable (length (content (TargetDevFd v))) (a_append_all ps a0)) by (by rewrite Ht).
  destruct (WriteJournalToReplica_spec v (a_append_all ps a0) T) as (v' & E & Hc & R & T' & Q).
  - by exists j.
  - by apply (replayable_writable _ (a_append_all ps a0) CorrBlocks).
  - by apply (replayable_writable _ (a_append_all ps a0) BufWrites).
  - exists (set_state StateWriting v'). destruct Q as (_ & _ & Qs & Qf & _).
    rewrite (bind_Ret _ _ _ tt v').
    + split; [done|]. split; [|done]. unfold scan_done.
      split_and!; [cbn; by rewrite Hc, Ht|exact R|done|cbn; congruence|apply T'].
    + unfold HandleJournalWriting, GetState. erewrite bind_Ret by done.
      rewrite bool_decide_eq_false_2 by (by rewrite Hs).
      by rewrite (bind_Ret _ _ _ _ _ (catch_Ret _ _ _ _ E)).
Qed.

(** ** The hashing goroutines are quiet *)

(** They read a healthy target and append to what was sent. *)
Lemma hash_read_quiet n o v :
  healthy (TargetDevFd v) -> exists r, hash_read n o v = (Ret r, v).
Proof using.
  intros Hh. unfold hash_read, on_target, zoom, bind.
  assert (E : exists b e, ReadAt (Z.to_nat n) (i64 o) (TargetDevFd v) = (Ret (b, e), TargetDevFd v)).
  { unfold ReadAt. destruct (_ <? _); [eauto|]. destruct (Z.to_nat n); [eauto|].
    rewrite syscall_healthy by done. eauto. }
  destruct E as (b & e & ->).
  replace (set_target (TargetDevFd v) v) with v by (by destruct v).
  destruct e as [[]|]; unfold ret; try destruct (_ =? _)%nat; eauto.
Qed.

Lemma Encode_quiet p v : sendFaults v = [] -> Encode p v = (Ret tt, set_sent (sent v ++ [p]) [] v).
Proof using. intros H. unfold Encode. by rewrite H. Qed.

Lemma hash_send_quiet r v :
  sendFaults v = [] -> exists l, hash_send r v = (Ret true, set_sent l [] v).
Proof using.
  intros H. unfold hash_send. destruct (r_err r) as [e|].
  - rewrite (bind_Ret _ _ _ tt (set_sent (sent v ++ [CreateInfoPacket PacketTypeErrHash]) [] v))
      by (eapply ignore_Ret, map_err_Ret; by apply Encode_quiet).
    erewrite bind_Ret by (by apply catch_Ret, Encode_quiet). eexists. reflexivity.
  - erewrite bind_Ret by done. erewrite bind_Ret by (by apply catch_Ret, Encode_quiet). by eexists.
Qed.

(** A step of the hashing goroutines only sends. *)
Lemma effect_quiet v v' :
  healthy (TargetDevFd v) -> sendFaults v = [] -> job_effect v v' -> v' = v \/ exists l, v' = set_sent l [] v.
Proof using.
  intros Hh Hf [->|[(o & ->)|(x & ->)]]; [by left|left|right].
  - by destruct (hash_read_quiet HashedSpaceBase o v Hh) as [r ->].
  - destruct (hash_send_quiet x v Hf) as [l ->]. by exists l.
Qed.

Lemma HashDisk_end_quiet v : sendFaults v = [] -> exists l, HashDisk_end v = (Ret tt, set_sent l [] v).
Proof using. intros H. eexists. eapply ignore_Ret, map_err_Ret. by apply Encode_quiet. Qed.

(** ** The invariant of the scan *)

(** The goroutines that have nothing to do. *)
Record quiet (s : Session) : Prop := {
  q_hash : hashPc s <> HStarted;
  q_term : hashTermChan s = make_chan 0;
  q_Term : TermChan s = make_chan 0;
  q_write : writePc s = WIdle /\ writeQueue s = make_chan WritePacketQueueSize;
  q_correct : correctPc s = None /\ correctQueue s = make_chan CorrectPacketQueueSize;
  q_repl : replicationWorkers s = 0%nat /\ replicating s = [];
  q_cap : ccap (journalQueue s) = JournalPacketQueueSize;
}.

(** Where the packets are: journalled, in the queue, still to be decoded. *)
Inductive scan_inv (s : Session) : Prop :=
| scan_loop done todo :
    mainPc s = MLoop -> scan_rel done (srv s) -> journalWorker s = true ->
    cclosed (journalQueue s) = false ->
    decoder s = (inl <$> todo) ++ [inl completed] ->
    ps = done ++ cbuf (journalQueue s) ++ todo -> scan_inv s
| scan_send done p todo :
    mainPc s = MSend QJournal p -> scan_rel done (srv s) -> journalWorker s = true ->
    cclosed (journalQueue s) = false ->
    decoder s = (inl <$> todo) ++ [inl completed] ->
    ps = done ++ cbuf (journalQueue s) ++ p :: todo -> scan_inv s
| scan_wait done :
    mainPc s = MHashingCompleted -> scan_rel done (srv s) -> cclosed (journalQueue s) = true ->
    (journalWorker s = false -> cbuf (journalQueue s) = []) ->
    decoder s = [] -> ps = done ++ cbuf (journalQueue s) -> scan_inv s
| scan_end :
    mainPc s = MLoop -> decoder s = [] -> journalWorker s = false -> scan_done (srv s) -> scan_inv s.

Lemma scan_inv_srv s v :
  (forall done, scan_rel done (srv s) -> scan_rel done v) -> (scan_done (srv s) -> scan_done v) ->
  scan_inv s -> scan_inv (upd_srv (fun _ => v) s).
Proof using.
  intros H1 H2 [done todo|done p todo|done|].
  - by apply (scan_loop _ done todo); auto.
  - by apply (scan_send _ done p todo); auto.
  - by apply (scan_wait _ done); auto.
  - by apply scan_end; auto.
Qed.

Lemma scan_inv_hashPc s h : scan_inv s -> scan_inv (set_hashPc h s).
Proof using.
  intros [done todo|done p todo|done|]; [by apply (scan_loop _ done todo)|
    by apply (scan_send _ done p todo)|by apply (scan_wait _ done)|by apply scan_end].
Qed.

Lemma scan_inv_strays s l : scan_inv s -> scan_inv (set_strays l s).
Proof using.
  intros [done todo|done p todo|done|]; [by apply (scan_loop _ done todo)|
    by apply (scan_send _ done p todo)|by apply (scan_wait _ done)|by apply scan_end].
Qed.

Lemma scan_faults s : scan_inv s -> healthy (TargetDevFd (srv s)) /\ sendFaults (srv s) = [].
Proof using T0.
  assert (R : forall done v, scan_rel done v -> healthy (TargetDevFd v) /\ sendFaults v = []).
  { intros done v (j & _ & _ & _ & Ht & _ & Hf). rewrite Ht. split; [apply T0|done]. }
  intros [done todo ? Hr|done p todo ? Hr|done ? Hr|??? (_ & _ & _ & Hf & Hh)]; eauto.
Qed.

Lemma scan_inv_sent s l : scan_inv s -> scan_inv (upd_srv (fun _ => set_sent l [] (srv s)) s).
Proof using.
  apply scan_inv_srv; [intros done; apply scan_rel_sent|apply scan_done_sent].
Qed.

Lemma scan_inv_same s : scan_inv s -> scan_inv (upd_srv (fun _ => srv s) s).
Proof using. by apply scan_inv_srv. Qed.

Lemma quiet_srv s v : quiet s -> quiet (upd_srv (fun _ => v) s).
Proof using. intros []. by split. Qed.
Lemma quiet_hashPc s h : quiet s -> h <> HStarted -> quiet (set_hashPc h s).
Proof using. intros []. by split. Qed.
Lemma quiet_strays s l : quiet s -> quiet (set_strays l s).
Proof using. intros []. by split. Qed.

Lemma scan_inv_effect s v : scan_inv s -> job_effect (srv s) v -> scan_inv (upd_srv (fun _ => v) s).
Proof using T0.
  intros I H. destruct (scan_faults s I) as [Hh Hf].
  destruct (effect_quiet _ _ Hh Hf H) as [->|[l ->]]; [by apply scan_inv_same|by apply scan_inv_sent].
Qed.

Lemma scan_hash_step e s s' :
  quiet s -> scan_inv s -> hash_step xxhash numWorkers e s = Done s' -> quiet s' /\ scan_inv s'.
Proof using T0.
  intros Q I. destruct (scan_faults s I) as [Hh Hf]. pose proof (q_hash _ Q) as Hq.
  unfold hash_step. destruct (hashPc s) as [| |j]; [done..|].
  assert (J : job_step xxhash (ChanHasTerminated (hashTermChan s)) e j s (fun j => set_hashPc (HRunning j)) = Done s' ->
    quiet s' /\ scan_inv s').
  { intros (v & Hv & [->|(j' & ->)])%job_step_Done; pose proof (scan_inv_effect s v I Hv);
      auto using quiet_srv, quiet_hashPc, scan_inv_hashPc. }
  destruct e; try exact J. destruct (_ || _); [|done].
  destruct (HashDisk_end_quiet (srv s) Hf) as [l E]. unfold on_srv. rewrite E. intros [= <-].
  split; [by apply quiet_strays, quiet_hashPc; [apply quiet_srv|]|]. by apply scan_inv_strays, scan_inv_hashPc, scan_inv_sent.
Qed.

Lemma scan_stray_step k e s s' :
  quiet s -> scan_inv s -> stray_step xxhash k e s = Done s' -> quiet s' /\ scan_inv s'.
Proof using T0.
  intros Q I. unfold stray_step. destruct (strays s !! k) as [[old j]|]; [|done].
  intros (v & Hv & [->|(j' & ->)])%job_step_Done; pose proof (scan_inv_effect s v I Hv);
    auto using quiet_srv, quiet_strays, scan_inv_strays.
Qed.

Lemma scan_journal_step s s' :
  quiet s -> scan_inv s -> journal_step s = Done s' -> quiet s' /\ scan_inv s'.
Proof using Hok Hty Hcap.
  intros Q I. unfold journal_step. destruct (journalWorker s) eqn:Ew; [|done].
  intros ([[p|] c] & Er & H)%abind_Done; apply recv_Done in Er as (Hcc & Hcl & Ho).
  - (* one packet journalled *)
    assert (Hj : exists done rest, scan_rel done (srv s) /\ ps = done ++ p :: rest /\
      (forall v, scan_rel (done ++ [p]) v -> scan_inv (upd_srv (fun _ => v) (set_queue QJournal c s)))).
    { destruct I as [done todo Hm R _ Hop Hd Hps|done p' todo Hm R _ Hop Hd Hps|done Hm R Hcd _ Hd Hps|? ? Hw ?];
        [| | |congruence].
      - rewrite Ho in Hps. exists done, (cbuf c ++ todo). split_and!; [done|done|]. intros v Rv.
        apply (scan_loop _ (done ++ [p]) todo); cbn; try done; [congruence|].
        rewrite Hps. by rewrite <- app_assoc.
      - rewrite Ho in Hps. exists done, (cbuf c ++ p' :: todo). split_and!; [done|done|]. intros v Rv.
        apply (scan_send _ (done ++ [p]) p' todo); cbn; try done; [congruence|].
        rewrite Hps. by rewrite <- app_assoc.
      - rewrite Ho in Hps. exists done, (cbuf c). split_and!; [done|done|]. intros v Rv.
        apply (scan_wait _ (done ++ [p])); cbn; try done; [congruence|congruence|].
        rewrite Hps. by rewrite <- app_assoc. }
    destruct Hj as (done & rest & R & Hps & Hk).
    destruct (scan_rel_packet done p rest (srv s) Hps R) as (v & E & Rv & _).
    unfold on_srv in H. cbn [srv set_queue] in H. rewrite E in H. injection H as <-.
    split; [destruct Q; split; cbn; done || congruence|]. by apply Hk.
  - (* the worker returns *)
    injection H as <-. destruct Ho as (Hb & Hc & _). split; [by destruct Q|].
    destruct I as [done todo Hm R _ Hop Hd Hps|done p' todo Hm R _ Hop Hd Hps|done Hm R Hcd _ Hd Hps|? ? Hw ?];
      [congruence|congruence| |congruence].
    by apply (scan_wait _ done).
Qed.

Lemma dispatch_journal p s :
  journal_packet p -> state (srv s) = StateHashing ->
  dispatch p s = Done (set_mainPc (MSend QJournal p) s).
Proof using.
  intros [[Ht|Ht] _] Hs; unfold dispatch; rewrite Ht; cbn; by rewrite Hs.
Qed.

Lemma scan_main_step s s' :
  quiet s -> scan_inv s -> main_step numWorkers s = Done s' -> quiet s' /\ scan_inv s'.
Proof using Hok Hty Hcap T0 Hrep.
  intros Q I H. unfold main_step in H. rewrite (q_Term _ Q) in H. cbn [ChanHasTerminated] in H.
  destruct I as [done todo Hm R Hw Hop Hd Hps|done p todo Hm R Hw Hop Hd Hps|done Hm R Hcd Hw Hd Hps|Hm Hd Hw D];
    rewrite Hm in H.
  - rewrite Hd in H. destruct todo as [|p todo]; cbn in H.
    + unfold dispatch in H. cbn in H. unfold close_queue, chan_close in H. cbn in H. rewrite Hop in H.
      injection H as <-. split; [by destruct Q|]. rewrite app_nil_r in Hps.
      apply (scan_wait _ done); cbn; done || congruence.
    + assert (Hp : journal_packet p).
      { rewrite Hps, app_assoc in Hty. apply Forall_app in Hty as [_ [? _]%Forall_cons]. done. }
      rewrite dispatch_journal in H; [|done|by destruct R as (j & _ & _ & _ & _ & ? & _)].
      injection H as <-. split; [by destruct Q|].
      apply (scan_send _ done p todo); cbn; done.
  - unfold send_queue in H. apply abind_Done in H as (c & E & [= <-]).
    destruct (send_cases p (journalQueue s) Hop) as [[E' _]|[E' _]]; cbn [get_queue] in E;
      rewrite E in E'; [done|injection E' as ->].
    split; [by destruct Q|].
    apply (scan_loop _ done todo); cbn; try done. by rewrite <- app_assoc.
  - destruct (journalWorker s) eqn:Ew; [done|]. specialize (Hw eq_refl).
    rewrite Hw, app_nil_r in Hps. rewrite <- Hps in R.
    destruct (scan_rel_finish (srv s) R) as (v & E & D & _).
    unfold on_srv in H. cbn [srv set_queue] in H. rewrite E in H. injection H as <-.
    split; [by destruct Q|]. by apply scan_end.
  - by rewrite Hd in H.
Qed.

Lemma scan_step e s s' :
  e <> EShutdown -> quiet s -> scan_inv s -> step xxhash numWorkers e s = Done s' -> quiet s' /\ scan_inv s'.
Proof using Hok Hty Hcap T0 Hrep.
  intros He Q I. destruct e; cbn [step]; [by apply scan_main_step|by apply scan_journal_step|..|done].
  - unfold correct_step. destruct (q_correct _ Q) as [-> ->]. done.
  - unfold write_step. destruct (q_write _ Q) as [-> ->]. done.
  - unfold replication_step. destruct (q_repl _ Q) as [-> _]. done.
  - unfold replication_write_step. destruct (q_repl _ Q) as [_ ->]. done.
  - by apply scan_hash_step.
  - by apply scan_stray_step.
Qed.

Lemma scan_run es s s' :
  EShutdown ∉ es -> quiet s -> scan_inv s -> run xxhash numWorkers es s = Done s' -> quiet s' /\ scan_inv s'.
Proof using Hok Hty Hcap T0 Hrep.
  revert s. induction es as [|e es IH]; intros s Hn Q I H; [by injection H as <-|].
  cbn [run] in H. apply abind_Done in H as (s1 & E & H). apply not_elem_of_cons in Hn as [He Hn].
  destruct (scan_step e s s1) as [Q1 I1]; [congruence|done..|]. by apply (IH s1).
Qed.

(** ** The scan can always go on *)

(** Steps of the main goroutine and the journal worker that are left. *)
Definition weight (s : Session) : nat :=
  match mainPc s with
  | MSend _ _ => 3 * length (decoder s) + length (cbuf (journalQueue s)) + 2
  | MHashingCompleted => length (cbuf (journalQueue s)) + (if journalWorker s then 2 else 1)
  | _ => 3 * length (decoder s) + length (cbuf (journalQueue s))
  end.

Definition finished (s : Session) : Prop := mainPc s = MLoop /\ decoder s = [].

Lemma scan_journal_enabled s :
  quiet s -> scan_inv s -> journalWorker s = true -> cbuf (journalQueue s) <> [] ->
  exists s', journal_step s = Done s' /\ (weight s' < weight s)%nat.
Proof using Hok Hty Hcap.
  intros Q I Hw Hb. unfold journal_step. rewrite Hw.
  destruct (cbuf (journalQueue s)) as [|p buf] eqn:Eb; [done|]. unfold chan_recv. rewrite Eb.
  assert (E : exists v, handleJournalPacket p (srv s) = (Ret tt, v)).
  { destruct I as [done todo Hm R _ Hop Hd Hps|done p' todo Hm R _ Hop Hd Hps|done Hm R Hcd _ Hd Hps|? ? Hw' ?];
      [| | |congruence]; rewrite Eb in Hps;
      edestruct scan_rel_packet as (v & E & _); [exact Hps|exact R|by exists v|
        exact Hps|exact R|by exists v|exact Hps|exact R|by exists v]. }
  destruct E as [v E]. cbn [abind]. unfold on_srv. cbn [srv set_queue]. rewrite E. eexists. split; [reflexivity|].
  unfold weight; cbn. rewrite Eb. cbn [length]. destruct (mainPc s); lia.
Qed.

Lemma scan_progress s :
  quiet s -> scan_inv s -> ~ finished s ->
  exists e s', e <> EShutdown /\ step xxhash numWorkers e s = Done s' /\ (weight s' < weight s)%nat.
Proof using Hok Hty Hcap T0 Hrep.
  intros Q I Hn.
  assert (W : journalWorker s = true -> cbuf (journalQueue s) <> [] ->
    exists e s', e <> EShutdown /\ step xxhash numWorkers e s = Done s' /\ (weight s' < weight s)%nat).
  { intros Hw Hb. destruct (scan_journal_enabled s Q I Hw Hb) as (s' & E & Hlt).
    exists EJournal, s'. done. }
  destruct I as [done todo Hm R Hw Hop Hd Hps|done p todo Hm R Hw Hop Hd Hps|done Hm R Hcd Hw Hd Hps|Hm Hd Hw D].
  - exists EMain. cbn [step]. unfold main_step. rewrite Hm, (q_Term _ Q). cbn [ChanHasTerminated].
    rewrite Hd. unfold weight. rewrite Hm, Hd. destruct todo as [|p todo]; cbn.
    + unfold close_queue, chan_close. cbn. rewrite Hop. eexists. split_and!; [done|reflexivity|].
      cbn. rewrite Hw. lia.
    + assert (Hp : journal_packet p).
      { rewrite Hps, app_assoc in Hty. apply Forall_app in Hty as [_ [? _]%Forall_cons]. done. }
      rewrite dispatch_journal; [|done|by destruct R as (j & _ & _ & _ & _ & ? & _)].
      eexists. split_and!; [done|reflexivity|]. cbn. rewrite length_app. cbn. lia.
  - destruct (send_cases p (journalQueue s) Hop) as [[_ Hfull]|[E Hlt]].
    + apply W; [done|]. intros Hb. rewrite Hb, (q_cap _ Q) in Hfull.
      unfold JournalPacketQueueSize in Hfull. simpl in Hfull. lia.
    + exists EMain. cbn [step]. unfold main_step. rewrite Hm. unfold send_queue. cbn [get_queue].
      rewrite E. cbn. eexists. split_and!; [done|reflexivity|]. unfold weight; cbn. rewrite Hm.
      rewrite length_app. cbn. lia.
  - destruct (journalWorker s) eqn:Ew.
    + destruct (cbuf (journalQueue s)) as [|x buf] eqn:Eb; [|by apply W].
      exists EJournal. cbn [step]. unfold journal_step. rewrite Ew. unfold chan_recv. rewrite Eb, Hcd.
      eexists. split_and!; [done|reflexivity|]. unfold weight; cbn. rewrite Hm, Eb, Ew. cbn. lia.
    + specialize (Hw eq_refl). rewrite Hw, app_nil_r in Hps. rewrite <- Hps in R.
      destruct (scan_rel_finish (srv s) R) as (v & E & D & _).
      exists EMain. cbn [step]. unfold main_step. rewrite Hm, Ew. unfold on_srv. cbn [srv set_queue].
      rewrite E. eexists. split_and!; [done|reflexivity|]. unfold weight; cbn. rewrite Hm, Hd, Ew. cbn. lia.
  - by destruct Hn.
Qed.

(** From every point of the scan some schedule finishes it. *)
Lemma scan_can_finish s :
  quiet s -> scan_inv s ->
  exists es s', (EShutdown ∉ es) /\ run xxhash numWorkers es s = Done s' /\ finished s'.
Proof using Hok Hty Hcap T0 Hrep.
  remember (weight s) as n eqn:En. revert s En.
  induction n as [n IH] using lt_wf_ind. intros s -> Q I.
  assert (F : finished s \/ ~ finished s)
    by (unfold finished; destruct (mainPc s), (decoder s); (by left) || (right; intros [? ?]; done)).
  destruct F as [F|F].
  { exists [], s. split_and!; [apply not_elem_of_nil|done|done..]. }
  destruct (scan_progress s Q I F) as (e & s1 & He & E & Hlt).
  destruct (scan_step e s s1 He Q I E) as [Q1 I1].
  destruct (IH _ Hlt s1 eq_refl Q1 I1) as (es & s2 & Hes & E2 & F2).
  exists (e :: es), s2. split_and!; [by apply not_elem_of_cons| |done].
  cbn [run]. by rewrite E.
Qed.
End Scan.
