(* ===== verification/SessionScanProps.v ===== *)
(** * What a scan does to the replica *)
From S2P Require Import Prelude GoInt GoMonad GoChan Utils BlockDev Blocks Networking.
From S2P Require Import Journal JournalCodec JournalSlots JournalSpec JournalOps JournalCheck.
From S2P Require Import Server ServerReplay ServerJournal ServerProps Session SessionSafety SessionScan.
Open Scope Z_scope.

(** ** A scan that has been announced *)

(** The journal [a] of the server has room for the packets, which are what the
    client sends during a scan, and they lie inside the target. *)
Record scan_ready (v : Server) (j : Journal) (a : AJournal) (ps : list Packet) : Prop := {
  sr_journal : SJournal v = Some j;
  sr_rel : jrel (jstate v j) a;
  sr_target : target_ok v;
  sr_state : state v = StateHashing;
  sr_send : sendFaults v = [];
  sr_ok : Forall (pkt_ok (header j)) ps;
  sr_typed : Forall journal_packet ps;
  sr_cap : forall x, Z.of_nat (length (a_sec a x) + length (blocks_of x ps)) <= slotCount (header j) x;
  sr_fits : replayable (length (content (TargetDevFd v))) (a_append_all ps a);
}.

(** The session at that point, with the packets and [HashingCompleted] to come; [h]
    is what the hashing goroutines still do, and [st] those of earlier scans. *)
Definition scanning_session (v : Server) (h : hash_pc) (st : list (bool * hash_job)) (ps : list Packet) : Session :=
  mkSession v ((inl <$> ps) ++ [inl completed]) (make_chan 0) (make_chan 0)
    (make_chan WritePacketQueueSize) (make_chan JournalPacketQueueSize)
    (make_chan CorrectPacketQueueSize) (make_chan ReplicationPacketQueueSize)
    MLoop WIdle h true 0 None [] st.

Lemma scanning_inv v j a ps h st :
  scan_ready v j a ps -> h <> HStarted ->
  quiet (scanning_session v h st ps) /\ scan_inv v j a ps (scanning_session v h st ps).
Proof.
  intros R Hh. split; [by split|].
  apply (scan_loop _ _ _ _ _ [] ps); try done. by apply scan_rel_start; apply R.
Qed.

Lemma scan_result xxhash numWorkers v j a ps h st es s :
  scan_ready v j a ps -> h <> HStarted -> EShutdown ∉ es ->
  run xxhash numWorkers es (scanning_session v h st ps) = Done s ->
  (finished s ->
     content (TargetDevFd (srv s)) =
       apply_writes ((to_write <$> (a_blocks a ++ blocks_of CorrBlocks ps)) ++
                     (to_write <$> (a_writes a ++ blocks_of BufWrites ps)))
                    (content (TargetDevFd v)) /\
     state (srv s) = StateWriting /\ srel (srv s) (a_mark false (a_append_all ps a))) /\
  exists es' s', (EShutdown ∉ es') /\ run xxhash numWorkers es' s = Done s' /\ finished s'.
Proof.
  intros R Hh Hes E. destruct (scanning_inv v j a ps h st R Hh) as [Q I].
  destruct R as [R1 R2 R3 R4 R5 R6 R7 R8 R9].
  destruct (scan_run xxhash numWorkers v j a ps R3 R6 R7 R8 R9 es _ s Hes Q I E) as [Q' I'].
  split.
  - intros [Hm Hd]. destruct I' as [done todo ? ? ? ? Hd'|? ? ? Hm'|? Hm'|_ _ _ (Hc & Hr & Hs & _)].
    + rewrite Hd in Hd'. by destruct todo.
    + by rewrite Hm in Hm'.
    + by rewrite Hm in Hm'.
    + done.
  - by apply (scan_can_finish xxhash numWorkers v j a ps).
Qed.

(** C9: a journalled scan gives the same replica in every interleaving of the
    main goroutine, the journal worker and the hashing goroutines, those that earlier
    scans have left behind included: once the
    main goroutine has handled [HashingCompleted], the replica is the old one
    with the correct blocks and then the buffer writes applied in the order
    they were sent, the journal is invalid and the server writes directly
    again; and from every point of every schedule the scan can be finished. *)
Theorem scan_any_schedule xxhash numWorkers v j a ps h st es s :
  scan_ready v j a ps -> h <> HStarted -> EShutdown ∉ es ->
  run xxhash numWorkers es (scanning_session v h st ps) = Done s ->
  (finished s ->
     content (TargetDevFd (srv s)) =
       apply_writes ((to_write <$> (a_blocks a ++ blocks_of CorrBlocks ps)) ++
                     (to_write <$> (a_writes a ++ blocks_of BufWrites ps)))
                    (content (TargetDevFd v)) /\
     state (srv s) = StateWriting /\ srel (srv s) (a_mark false (a_append_all ps a))) /\
  exists es' s', (EShutdown ∉ es') /\ run xxhash numWorkers es' s = Done s' /\ finished s'.
Proof. apply scan_result. Qed.

Definition demo_scan_server : Server := demo_server.

Lemma demo_ready : scan_ready demo_scan_server (jrn demo_state) demo_a demo_packets.
Proof.
  split.
  - reflexivity.
  - exact demo_jrel.
  - exact demo_target_ok.
  - reflexivity.
  - reflexivity.
  - exact demo_packets_ok.
  - repeat constructor; by left || right.
  - intros []; vm_compute; discriminate.
  - intros []; cbn; repeat constructor; vm_compute; repeat constructor; done.
Qed.

(** The worker and the main goroutine alternate; a block is hashed in between, and a
    reader that an aborted scan has left behind reads once more. *)
Definition demo_schedule : list event :=
  [EMain; EMain; EHash HTake; EHash (HRead 0); EMain; EJournal; EHash (HHash 0); EHash (HSend 0); EMain;
   EStray 0 (HRead 0); EMain; EJournal; EJournal; EHash HEnd; EMain].
Definition demo_job : hash_pc := HRunning (mkJob [0] 2 [] [] 2 [] 2).
Definition demo_stray : bool * hash_job := (true, mkJob [] 0 [0] [] 1 [] 0).

Lemma scan_any_schedule_witness :
  exists s, run (fun _ => 7) 2 demo_schedule
      (scanning_session demo_scan_server demo_job [demo_stray] demo_packets) = Done s /\
    finished s /\
    content (TargetDevFd (srv s)) =
      apply_writes ((to_write <$> (a_blocks demo_a ++ blocks_of CorrBlocks demo_packets)) ++
                    (to_write <$> (a_writes demo_a ++ blocks_of BufWrites demo_packets)))
                   (content (TargetDevFd demo_scan_server)).
Proof.
  destruct (run (fun _ => 7) 2 demo_schedule
    (scanning_session demo_scan_server demo_job [demo_stray] demo_packets)) as [s| |] eqn:E;
    [|vm_compute in E; discriminate|vm_compute in E; discriminate].
  exists s. split; [reflexivity|].
  assert (F : finished s) by (pose proof E as E'; vm_compute in E'; injection E' as <-; by split).
  split; [exact F|].
  apply (scan_any_schedule (fun _ => 7) 2 demo_scan_server (jrn demo_state) demo_a demo_packets
           demo_job [demo_stray] demo_schedule s demo_ready); [discriminate| |exact E|exact F].
  apply (bool_decide_unpack _). vm_compute. exact I.
Defined.
