(* ===== verification/SessionFullScan.v ===== *)
(** * A full scan under every schedule of the session

    In [StateDestroyingReplica] the corrections of the client pass through the
    correct-block queue to [HandleCorrectPackets], which writes them to the
    replica beside the main goroutine, the hashing goroutines and whatever
    workers are left.  In every interleaving the replica is the old one with a
    prefix of the corrections applied, and with all of them when the queue is
    empty after [HashingCompleted]. *)
From S2P Require Import Prelude GoInt GoMonad GoChan Utils BlockDev Blocks Networking.
From S2P Require Import Journal JournalSpec Server ServerReplay ServerJournal ServerProps.
From S2P Require Import Session SessionSafety SessionScan.
Open Scope Z_scope.

(** ** Goroutines that leave the replica alone

    While correct blocks or replication blocks are written to the replica, the
    hashing goroutines and a journal worker that an earlier scan has left may still
    take steps, which the invariants of a full scan and of a replication do not
    see. *)

(** Everything but the hashing goroutines, the numbers of workers and the parts
    of the server that they use. *)
Record unseen (s s' : Session) : Prop := {
  un_decoder : decoder s' = decoder s;
  un_main : mainPc s' = mainPc s;
  un_write : writePc s' = writePc s;
  un_writes : writeQueue s' = writeQueue s;
  un_journal : journalQueue s' = journalQueue s;
  un_correct : correctQueue s' = correctQueue s;
  un_repl : replicationQueue s' = replicationQueue s;
  un_term : TermChan s' = TermChan s;
  un_target : TargetDevFd (srv s') = TargetDevFd (srv s);
  un_state : state (srv s') = state (srv s);
  un_hand : correctPc s' = correctPc s;
  un_blocks : replicating s' = replicating s;
}.

(** A method that leaves target and state alone. *)
Definition off_replica {A} (m : M Server A) : Prop :=
  forall v, healthy (TargetDevFd v) -> TargetDevFd (m v).2 = TargetDevFd v /\ state (m v).2 = state v.

(** A step that ends with such a method. *)
Lemma unseen_on_srv {A} (m : M Server A) s s0 k s' (Q : Session -> Prop) :
  on_srv m s k = Done s' -> off_replica m -> healthy (TargetDevFd (srv s)) ->
  (forall v, TargetDevFd v = TargetDevFd (srv s) -> state v = state (srv s) ->
     unseen s0 (upd_srv (fun _ => v) s) /\ Q (upd_srv (fun _ => v) s)) ->
  (forall a v, TargetDevFd v = TargetDevFd (srv s) -> state v = state (srv s) ->
     k a (upd_srv (fun _ => v) s) = Done s' -> unseen s0 s' /\ Q s') ->
  unseen s0 s' /\ Q s'.
Proof.
  intros H Hm Hh Hs Hk. destruct (Hm _ Hh) as [H1 H2].
  apply on_srv_Done in H as [(a & v & E & H)|(e & v & E & ->)]; rewrite E in H1, H2; cbn in H1, H2.
  - by apply (Hk a v).
  - by apply Hs.
Qed.

(** *** The methods of the hashing goroutines *)

Lemma off_Encode v0 p : preserves (fun v => TargetDevFd v = TargetDevFd v0 /\ state v = state v0) (Encode p).
Proof. intros v Hv. unfold Encode. by destruct (sendFaults v) as [|[] ?]. Qed.
Lemma off_send v0 p : preserves (fun v => TargetDevFd v = TargetDevFd v0 /\ state v = state v0) (SendPacket p).
Proof. apply preserves_map_err, off_Encode. Qed.

Lemma off_hash_send r : off_replica (hash_send r).
Proof.
  intros v _. assert (P : preserves (fun v' => TargetDevFd v' = TargetDevFd v /\ state v' = state v) (hash_send r)); [|by apply P].
  pose proof (off_send v). pose proof (off_Encode v). unfold hash_send.
  apply preserves_bind; [destruct (r_err r); auto with preserves|]. intros _.
  apply preserves_bind; [auto with preserves|]. intros []; auto with preserves.
Qed.
Lemma off_HashDisk_end : off_replica HashDisk_end.
Proof. intros v _. unfold HashDisk_end. apply (preserves_ignore _ _ (off_send v _)). done. Qed.
Lemma off_hash_read n o : off_replica (hash_read n o).
Proof. intros v Hv. destruct (hash_read_quiet n o v Hv) as [r E]. by rewrite E. Qed.
Lemma off_effect v v' :
  healthy (TargetDevFd v) -> job_effect v v' -> TargetDevFd v' = TargetDevFd v /\ state v' = state v.
Proof. intros Hv [->|[(o & ->)|(x & ->)]]; [done|by apply off_hash_read|by apply off_hash_send]. Qed.
Lemma off_sync : off_replica (ignore (on_target Sync)).
Proof.
  intros v Hv. unfold ignore, bind, catch, on_target, zoom, Sync. rewrite sys_unit_healthy by done. done.
Qed.
Lemma off_HashDisk_start : off_replica HashDisk_start.
Proof.
  intros v _. assert (P : preserves (fun v' => TargetDevFd v' = TargetDevFd v /\ state v' = state v) HashDisk_start); [|by apply P].
  pose proof (off_send v). unfold HashDisk_start, GetState.
  assert (J : forall A (m : M JState A), preserves (fun v' => TargetDevFd v' = TargetDevFd v /\ state v' = state v) (on_journal m)).
  { intros A m v1 H1. unfold on_journal. destruct (SJournal v1); [|done]. by destruct (m _). }
  apply preserves_bind; [auto with preserves|]. intros st.
  apply preserves_bind; [|intros _; apply preserves_bind; [auto with preserves|]; intros []; auto with preserves].
  apply preserves_if; [|auto with preserves].
  do 2 (apply preserves_bind; [apply J|intros ?]). apply preserves_ignore, J.
Qed.

(** *** Steps *)

Lemma unseen_hash xxhash numWorkers e s s' :
  healthy (TargetDevFd (srv s)) -> hash_step xxhash numWorkers e s = Done s' ->
  unseen s s' /\ replicationWorkers s' = replicationWorkers s.
Proof.
  intros Hh H. set (Q := fun x => replicationWorkers x = replicationWorkers s).
  assert (U : forall h v, TargetDevFd v = TargetDevFd (srv s) -> state v = state (srv s) ->
    unseen s (set_hashPc h (upd_srv (fun _ => v) s)) /\ Q (set_hashPc h (upd_srv (fun _ => v) s))) by done.
  assert (U' : forall v, TargetDevFd v = TargetDevFd (srv s) -> state v = state (srv s) ->
    unseen s (upd_srv (fun _ => v) s) /\ Q (upd_srv (fun _ => v) s)) by done.
  unfold hash_step in H. destruct (hashPc s) as [| |j]; [done|..].
  - destruct e; try done. eapply (unseen_on_srv _ _ _ _ _ Q); [exact H|apply off_HashDisk_start|done|done|].
    intros [] v H1 H2 H3; [destruct (ClientInfo _); [|done]|]; injection H3 as <-; by apply U.
  - assert (J : job_step xxhash (ChanHasTerminated (hashTermChan s)) e j s (fun j => set_hashPc (HRunning j)) = Done s' ->
      unseen s s' /\ Q s').
    { intros (v & [H1 H2]%off_effect & [->|(j' & ->)])%job_step_Done; [by apply U'|by apply U|done]. }
    destruct e; try (exact (J H)). destruct (_ || _); [|done].
    eapply (unseen_on_srv _ _ _ _ _ Q); [exact H|apply off_HashDisk_end|done|done|]. by intros ? v H1 H2 [= <-].
Qed.

Lemma unseen_stray xxhash k e s s' :
  healthy (TargetDevFd (srv s)) -> stray_step xxhash k e s = Done s' ->
  unseen s s' /\ replicationWorkers s' = replicationWorkers s.
Proof.
  intros Hh H. unfold stray_step in H. destruct (strays s !! k) as [[old j]|]; [|done].
  by apply job_step_Done in H as (v & [H1 H2]%off_effect & [->|(j' & ->)]).
Qed.

Lemma empty_recv {A} (c : chan A) o c' : cbuf c = [] -> chan_recv c = Done (o, c') -> o = None /\ c' = c.
Proof. intros H. unfold chan_recv. rewrite H. destruct (cclosed c); [|done]. by intros [= <- <-]. Qed.

Lemma unseen_journal s s' :
  cbuf (journalQueue s) = [] -> journal_step s = Done s' ->
  unseen s s' /\ replicationWorkers s' = replicationWorkers s.
Proof.
  intros Hb H. unfold journal_step in H. destruct (journalWorker s); [|done].
  apply abind_Done in H as ([o c] & Er & H). apply empty_recv in Er as [-> ->]; [|done]. by injection H as <-.
Qed.

(** A replication worker that finds its queue empty and closed. *)
Lemma unseen_replication s s' :
  cbuf (replicationQueue s) = [] -> healthy (TargetDevFd (srv s)) -> replication_step s = Done s' ->
  unseen s s' /\ (S (replicationWorkers s') = replicationWorkers s /\ cclosed (replicationQueue s) = true).
Proof.
  intros Hb Hh H. unfold replication_step in H. destruct (replicationWorkers s) as [|n] eqn:En; [done|].
  destruct (_ <? _)%nat; [done|].
  unfold chan_recv in H. rewrite Hb in H. destruct (cclosed _) eqn:Ec; [|done]. cbn [abind] in H.
  destruct (_ =? _)%nat; [|by injection H as <-].
  apply (unseen_on_srv _ _ _ _ _ (fun x => S (replicationWorkers x) = S n /\ true = true) H off_sync); [done|done|].
  by intros ? v H1 H2 [= <-].
Qed.

Lemma idle_correct s s' : correctPc s = None -> cbuf (correctQueue s) = [] -> correct_step s = Done s' -> False.
Proof.
  intros Hp Hb H. unfold correct_step in H. rewrite Hp in H. apply abind_Done in H as ([o c] & Er & H).
  apply empty_recv in Er as [-> ->]; done.
Qed.

Lemma idle_write s s' : writePc s = WIdle -> cbuf (writeQueue s) = [] -> write_step s = Done s' -> False.
Proof.
  intros Hw Hb H. unfold write_step in H. rewrite Hw in H. apply abind_Done in H as ([o c] & Er & H).
  apply empty_recv in Er as [-> ->]; done.
Qed.

(** *** The channel discipline along a schedule *)

Lemma run_session_inv xxhash numWorkers es s s' :
  session_inv s -> run xxhash numWorkers es s = Done s' -> session_inv s'.
Proof.
  revert s. induction es as [|e es IH]; intros s I H; cbn [run] in H; [by injection H as <-|].
  apply abind_Done in H as (s1 & E & H). apply (IH s1); [|done]. by eapply step_inv.
Qed.

(** ** The full scan *)

Definition correct_block (b : CorrectBlockInfo) : Packet :=
  {| PacketType := PacketTypePayloadCorrectBlock; Payload := PCorrectBlockInfo b |}.

(** The worker with nothing left to do, no block in its hands, and the main
    goroutine with nothing to read. *)
Definition settled (s : Session) : Prop :=
  mainPc s = MLoop /\ decoder s = [] /\ cbuf (correctQueue s) = [] /\ correctPc s = None.

Section FullScan.
Context (xxhash : list byte -> Z) (numWorkers : nat).
Context (R : list byte) (bs : list CorrectBlockInfo).
Context (Hsize : Z.of_nat (length R) < 2 ^ 63) (Hbs : Forall (writable (length R)) bs).

(** ** The invariant *)

(** Nothing else of the session touches the target. *)
Record aside (s : Session) : Prop := {
  as_write : writePc s = WIdle;
  as_writes : cbuf (writeQueue s) = [];
  as_journal : cbuf (journalQueue s) = [];
  as_repl : cbuf (replicationQueue s) = [];
  as_blocks : replicating s = [];
  as_term : cbuf (TermChan s) = [] /\ cclosed (TermChan s) = false;
}.

(** Where the corrections are: written, in the hands of the worker, in the queue, on
    the way into it, not yet decoded; [tail] is the packet that ends the scan, unless it was read. *)
Record correcting (s : Session) (done hand queued mid todo : list CorrectBlockInfo) (tail : list Packet) : Prop := {
  co_all : bs = done ++ hand ++ queued ++ mid ++ todo;
  co_target : TargetDevFd (srv s) = {| content := apply_writes (to_write <$> done) R; faults := [] |};
  co_queue : cbuf (correctQueue s) = correct_block <$> queued;
  co_hand : match correctPc s with
            | None => hand = []
            | Some p => exists b, hand = [b] /\ p = correct_block b
            end;
  co_decoder : decoder s = inl <$> ((correct_block <$> todo) ++ tail);
  co_tail : tail = [completed] \/ tail = [] /\ todo = [];
  co_state : tail = [completed] \/ mainPc s = MHashingCompleted -> state (srv s) = StateDestroyingReplica;
  co_done : tail = [] -> mainPc s = MLoop -> state (srv s) = StateWriting;
  co_main : match mainPc s with
            | MLoop => mid = []
            | MSend QCorrect p => tail = [completed] /\ exists b, mid = [b] /\ p = correct_block b
            | MHashingCompleted => mid = [] /\ tail = []
            | _ => False
            end;
}.

Definition full_inv (s : Session) : Prop :=
  aside s /\ exists done hand queued mid todo tail, correcting s done hand queued mid todo tail.

Lemma unseen_aside s s' : unseen s s' -> aside s -> aside s'.
Proof using.
  intros [H1 H2 H3 H4 H5 H6 H7 H8 H9 H10 H11 H12] [A1 A2 A3 A4 A5 A6]. split; by rewrite ?H3, ?H4, ?H5, ?H7, ?H8, ?H12.
Qed.

Lemma unseen_inv s s' : unseen s s' -> full_inv s -> full_inv s'.
Proof using.
  intros U (A & done & hand & queued & mid & todo & tail & [C1 C2 C3 Ch C4 C5 C6 C7 C8]).
  split; [by apply (unseen_aside s)|]. destruct U as [H1 H2 H3 H4 H5 H6 H7 H8 H9 H10 H11 H12].
  exists done, hand, queued, mid, todo, tail. split; rewrite ?H1, ?H2, ?H6, ?H9, ?H10, ?H11; auto.
Qed.

(** The other goroutines are not seen. *)
Lemma unseen_workers e s s' :
  e <> EMain -> e <> ECorrect -> e <> EShutdown -> aside s -> healthy (TargetDevFd (srv s)) ->
  step xxhash numWorkers e s = Done s' -> unseen s s'.
Proof using.
  intros N1 N2 N3 [A1 A2 A3 A4 A5 A6] Hh H.
  destruct e as [| | | | |i|e|k e|]; try done; cbn [step] in H; clear N1 N2 N3.
  - by apply unseen_journal in H as [? _].
  - by apply idle_write in H.
  - by apply unseen_replication in H as [? _].
  - unfold replication_write_step in H. by rewrite A5 in H.
  - by apply unseen_hash in H as [? _].
  - by apply unseen_stray in H as [? _].
Qed.

(** ** The correct-block worker and the main goroutine *)

Lemma write_block b d v :
  writable (length R) b -> length d = length R -> TargetDevFd v = {| content := d; faults := [] |} ->
  handleCorrectPacket (correct_block b) v =
    (Ret tt, set_target {| content := apply_write d (to_write b); faults := [] |} v).
Proof using Hsize.
  intros Hb Hd Hv. eapply ignore_Ret, map_err_Ret.
  assert (T : target_ok v) by (unfold target_ok, dev_size; rewrite Hv; cbn; split; [done|lia]).
  pose proof (target_WriteAt v T d ltac:(by rewrite Hv) b ltac:(by rewrite Hd)) as E.
  unfold replica in E. rewrite Hv in E. cbn in E.
  replace (set_target (set_content d {| content := d; faults := [] |}) v) with v in E; [exact E|].
  destruct v; cbn in *. by subst.
Qed.

Lemma written_length done rest :
  bs = done ++ rest -> length (apply_writes (to_write <$> done) R) = length R.
Proof using Hbs.
  intros ->. apply Forall_app in Hbs as [Hd _]. apply length_apply_writes, Forall_fmap.
  eapply Forall_impl; [exact Hd|]. by intros x (_ & _ & ?).
Qed.

Lemma correct_inv s s' : full_inv s -> correct_step s = Done s' -> full_inv s'.
Proof using Hsize Hbs.
  intros (A & done & hand & queued & mid & todo & tail & [C1 C2 C3 Ch C4 C5 C6 C7 C8]) H.
  unfold correct_step in H. destruct (correctPc s) as [p|] eqn:Ep.
  - destruct Ch as (b & -> & ->). pose proof (written_length _ _ C1) as Hd.
    assert (Hb : writable (length R) b) by (rewrite C1, !Forall_app, Forall_singleton in Hbs; by destruct Hbs as (_ & ? & _)).
    unfold on_srv in H. rewrite (write_block b _ _ Hb Hd C2) in H. injection H as <-.
    split; [by destruct A|]. exists (done ++ [b]), [], queued, mid, todo, tail. split; cbn; try done.
    + rewrite C1. by rewrite <- !app_assoc.
    + f_equal. by rewrite fmap_app, apply_writes_app.
  - subst hand. apply abind_Done in H as ([[p|] c] & Er & H); [|done].
    apply recv_Done in Er as (_ & _ & Hq). rewrite C3 in Hq. destruct queued as [|b queued]; [done|].
    injection Hq as <- Hq. injection H as <-. split; [by destruct A|].
    exists done, [b], queued, mid, todo, tail. split; cbn; try done. by exists b.
Qed.

Lemma not_terminated s : aside s -> ChanHasTerminated (TermChan s) = false.
Proof using. intros [_ _ _ _ _ [H1 H2]]. unfold ChanHasTerminated, chan_recv. by rewrite H1, H2. Qed.

Lemma dispatch_correct b s :
  state (srv s) = StateDestroyingReplica ->
  dispatch (correct_block b) s = Done (set_mainPc (MSend QCorrect (correct_block b)) s).
Proof using. intros H. unfold dispatch. cbn. by rewrite H. Qed.

Lemma end_of_full_scan v :
  state v = StateDestroyingReplica ->
  (HandleJournalWriting ;;; SetState StateWriting) v = (Ret tt, set_state StateWriting v).
Proof using.
  intros H. unfold bind at 1. unfold HandleJournalWriting, GetState. erewrite bind_Ret by done.
  by rewrite bool_decide_eq_true_2.
Qed.

Lemma main_inv s s' : full_inv s -> main_step numWorkers s = Done s' -> full_inv s'.
Proof using.
  intros (A & done & hand & queued & mid & todo & tail & [C1 C2 C3 Ch C4 C5 C6 C7 C8]) H.
  unfold main_step in H. destruct (mainPc s) as [|q p| | | | | | | | | | ] eqn:Hm; try done.
  - rewrite not_terminated in H by done. subst mid. rewrite C4 in H.
    destruct todo as [|b todo]; [destruct C5 as [->|[-> _]]; [|done]|]; cbn [fmap list_fmap app] in H.
    + unfold dispatch in H. cbn in H. apply abind_Done in H as (s1 & E1 & [= <-]).
      apply close_queue_Done in E1 as ->. split; [by destruct A|].
      exists done, hand, queued, [], [], []. split; cbn; auto. done.
    + destruct C5 as [->|[-> ?]]; [|done].
      rewrite dispatch_correct in H by (apply C6; by left). injection H as <-. split; [by destruct A|].
      exists done, hand, queued, [b], todo, [completed]. split; cbn; auto; [done..|]. eauto.
  - destruct q; try done. destruct C8 as [-> (b & -> & ->)]. unfold send_queue in H.
    apply abind_Done in H as (c & E & [= <-]). unfold chan_send in E.
    destruct (cclosed _); [done|]. destruct (_ <? _)%nat; [|done]. injection E as <-.
    split; [by destruct A|]. exists done, hand, (queued ++ [b]), [], todo, [completed].
    split; cbn; auto; try done; [by rewrite C1, <- !app_assoc|by rewrite C3, fmap_app].
  - destruct C8 as [-> ->]. destruct (journalWorker s); [done|].
    unfold on_srv in H. cbn [srv set_queue] in H. rewrite end_of_full_scan in H by (apply C6; by right).
    injection H as <-. split; [by destruct A|]. exists done, hand, queued, [], todo, []. split; cbn; auto. by intros [?|?].
Qed.

Lemma full_step e s s' :
  e <> EShutdown -> full_inv s -> step xxhash numWorkers e s = Done s' -> full_inv s'.
Proof using Hsize Hbs.
  intros He I H. destruct (decide (e = EMain)) as [->|N1]; [by apply (main_inv s)|].
  destruct (decide (e = ECorrect)) as [->|N2]; [by apply (correct_inv s)|].
  apply (unseen_inv s); [|done]. destruct I as (A & done & hand & queued & mid & todo & tail & C).
  apply (unseen_workers e); try done. by rewrite (co_target _ _ _ _ _ _ _ C).
Qed.

Lemma full_run es s s' :
  EShutdown ∉ es -> full_inv s -> run xxhash numWorkers es s = Done s' -> full_inv s'.
Proof using Hsize Hbs.
  revert s. induction es as [|e es IH]; intros s Hes I H; cbn [run] in H; [by injection H as <-|].
  apply not_elem_of_cons in Hes as [He Hes]. apply abind_Done in H as (s1 & E & H).
  apply (IH s1); [done| |done]. by apply (full_step e s).
Qed.

(** At rest every correction is on the replica, and the server writes directly. *)
Lemma full_settled s :
  full_inv s -> settled s ->
  content (TargetDevFd (srv s)) = apply_writes (to_write <$> bs) R /\ state (srv s) = StateWriting.
Proof using.
  intros (_ & done & hand & queued & mid & todo & tail & [C1 C2 C3 Ch C4 C5 C6 C7 C8]) (S1 & S2 & S3 & S4).
  rewrite S1 in C8, C7. rewrite S4 in Ch. subst mid hand. rewrite S2 in C4. rewrite S3 in C3.
  destruct queued; [|done]. destruct todo; [|done]. destruct tail; [|done].
  rewrite C2, C1, !app_nil_r. cbn. auto.
Qed.

(** ** The scan can be finished *)

Definition left_over (s : Session) : nat :=
  4 * length (decoder s) + match mainPc s with MSend _ _ => 3 | MHashingCompleted => 1 | _ => 0 end +
  2 * length (cbuf (correctQueue s)) + (match correctPc s with None => 0 | _ => 1 end) +
  (if journalWorker s then 1 else 0).

Lemma full_progress s :
  session_inv s -> full_inv s ->
  settled s \/ exists e s', e <> EShutdown /\ step xxhash numWorkers e s = Done s' /\ (left_over s' < left_over s)%nat.
Proof using Hsize Hbs.
  intros I F. pose proof F as (A & done & hand & queued & mid & todo & tail & [C1 C2 C3 Ch C4 C5 C6 C7 C8]).
  destruct (correctPc s) as [p|] eqn:Ep.
  { destruct Ch as (b & -> & ->). right. exists ECorrect. cbn [step]. unfold correct_step. rewrite Ep.
    pose proof (written_length _ _ C1) as Hd.
    assert (Hb : writable (length R) b) by (rewrite C1, !Forall_app, Forall_singleton in Hbs; by destruct Hbs as (_ & ? & _)).
    unfold on_srv. rewrite (write_block b _ _ Hb Hd C2). eexists. split; [done|]. split; [reflexivity|].
    unfold left_over. cbn. rewrite Ep. lia. }
  subst hand.
  destruct queued as [|b queued].
  2:{ right. exists ECorrect. cbn [step]. unfold correct_step, chan_recv. rewrite Ep, C3. cbn [fmap list_fmap abind].
      eexists. split; [done|]. split; [reflexivity|]. unfold left_over. cbn. rewrite C3, Ep. cbn. lia. }
  cbn in C3. destruct (mainPc s) as [|q p| | | | | | | | | | ] eqn:Hm; try done.
  - subst mid. destruct todo as [|b todo].
    + destruct C5 as [->|[-> _]]; [|left; by repeat split].
      right. exists EMain. cbn [step]. unfold main_step. rewrite Hm, not_terminated, C4 by done. cbn [fmap list_fmap app].
      unfold dispatch. cbn. destruct (close_queue_ok QJournal (set_decoder [] s)) as [s1 E1];
        [by apply set_decoder_inv|cbn; by rewrite Hm|].
      rewrite E1. cbn. eexists. split; [done|]. split; [reflexivity|].
      apply close_queue_Done in E1 as ->. unfold left_over. cbn. rewrite C4, Hm. cbn. lia.
    + destruct C5 as [->|[-> ?]]; [|done]. right. exists EMain. cbn [step]. unfold main_step.
      rewrite Hm, not_terminated, C4 by done. cbn [fmap list_fmap app].
      rewrite dispatch_correct by (apply C6; by left). eexists. split; [done|]. split; [reflexivity|].
      unfold left_over. cbn. rewrite C4, Hm. cbn. lia.
  - destruct q; try done. right. exists EMain. cbn [step]. unfold main_step. rewrite Hm. unfold send_queue.
    assert (Ho : open (get_queue QCorrect s)) by (unfold open; by rewrite (si_closed _ I), Hm).
    destruct (send_cases p _ Ho) as [[_ Hf]|[-> _]].
    { rewrite (si_cap _ I) in Hf. cbn in Hf. rewrite C3 in Hf. cbn in Hf. lia. }
    cbn. eexists. split; [done|]. split; [reflexivity|]. unfold left_over. cbn. rewrite Hm, C3. cbn. lia.
  - right. destruct C8 as [-> ->]. destruct (journalWorker s) eqn:Ej.
    + exists EJournal. cbn [step]. unfold journal_step. rewrite Ej. unfold chan_recv. rewrite (as_journal _ A).
      pose proof (si_closed _ I QJournal) as Hc. rewrite Hm in Hc. cbn in Hc. rewrite Hc. cbn [abind].
      eexists. split; [done|]. split; [reflexivity|]. unfold left_over. cbn. rewrite Hm, Ej. lia.
    + exists EMain. cbn [step]. unfold main_step. rewrite Hm, Ej. unfold on_srv. cbn [srv set_queue].
      rewrite end_of_full_scan by (apply C6; by right). eexists. split; [done|]. split; [reflexivity|].
      unfold left_over. cbn. rewrite Hm, Ej. lia.
Qed.

Lemma full_can_finish s :
  session_inv s -> full_inv s ->
  exists es s', (EShutdown ∉ es) /\ run xxhash numWorkers es s = Done s' /\ settled s'.
Proof using Hsize Hbs.
  remember (left_over s) as k eqn:Hk. revert s Hk. induction k as [k IH] using lt_wf_ind. intros s -> I F.
  destruct (full_progress s I F) as [?|(e & s1 & He & E & Hlt)].
  - exists [], s. split_and!; [apply not_elem_of_nil|done|done].
  - destruct (IH _ Hlt s1 eq_refl) as (es & s2 & Hes & E2 & S).
    + by eapply step_inv.
    + by eapply full_step.
    + exists (e :: es), s2. split_and!; [by apply not_elem_of_cons|cbn [run]; by rewrite E|done].
Qed.
End FullScan.
