(* ===== verification/Pause.v ===== *)
(** * The pause controller ([pause.go])

    A channel of capacity one holds the latest request that the waiter has not
    seen.  [Pause], [Resume] and [IsPaused] run under a mutex; the waiter
    ([WaitIfPaused], [waitUntilResumed]) takes from the channel without it.
    The specification is one flag: the controller is paused exactly when the
    last completed request was [Pause]. *)
From S2P Require Import Prelude GoChan.

Inductive PauseState := Running | Paused.

#[global] Instance PauseState_eq_dec : EqDecision PauseState.
Proof. solve_decision. Defined.

(** ** The operations, each as one atomic action on [stateChan] *)

Definition PauseController : Type := chan PauseState.

Definition NewPauseController : PauseController := make_chan 1.

Definition drainChannel (p : PauseController) : PauseController :=
  match chan_recv p with Done (_, p) => p | _ => p end.

(** The body of [Pause] and [Resume] after the lock. *)
Definition request (st : PauseState) (p : PauseController) : attempt PauseController :=
  chan_send st (drainChannel p).
Definition Pause : PauseController -> attempt PauseController := request Paused.
Definition Resume : PauseController -> attempt PauseController := request Running.

Definition IsPaused (p : PauseController) : attempt (bool * PauseController) :=
  match chan_recv p with
  | Done (o, p) =>
      let st := default Running o in       (* the zero value of a closed channel *)
      match chan_send st p with
      | Done p => Done (bool_decide (st = Paused), p)
      | Blocked => Blocked
      | Crash => Crash
      end
  | _ => Done (false, p)
  end.

(** What a [select] of the waiter leads to. *)
Inductive waited :=
| WReturn (terminated : bool)
| WLoop.                        (* (again) in [waitUntilResumed] *)

(** One turn of the loop of [waitUntilResumed]; when both cases are ready the
    runtime picks one, [pick] being the choice of [termChan]. *)
Definition waitUntilResumed (pick : bool) (termChan : chan unit) (p : PauseController)
  : attempt (waited * PauseController) :=
  match chan_recv p with
  | Done (o, p') =>
      if ChanHasTerminated termChan && pick then Done (WReturn true, p)
      else match o with
           | Some Running | None => Done (WReturn false, p')
           | Some Paused => Done (WLoop, p')
           end
  | _ => if ChanHasTerminated termChan then Done (WReturn true, p) else Blocked
  end.

Definition WaitIfPaused (pick : bool) (termChan : chan unit) (p : PauseController)
  : waited * PauseController :=
  match chan_recv p with
  | Done (o, p') =>
      if ChanHasTerminated termChan && pick then (WReturn true, p)
      else match o with
           | Some Paused => (WLoop, p')
           | _ => (WReturn false, p')
           end
  | _ => (WReturn (ChanHasTerminated termChan), p)
  end.

(** ** Refinement to the flag, operation by operation *)

(** [waiting]: the waiter is inside [waitUntilResumed]. *)
Record pstate := mkP {
  ctl : PauseController;
  waiting : bool;
}.

Inductive pop :=
| OPause
| OResume
| OIsPaused
| OWait (pick : bool).

(** What an operation lets its caller see. *)
Inductive pres :=
| RNone
| RPaused (b : bool)
| RWaiter (go : bool)      (* the waiter is told to go on ([false]) or to stop *)
| RStuck.                  (* the caller waits *)

Definition pexec (termChan : chan unit) (o : pop) (s : pstate) : pres * pstate :=
  match o with
  | OPause => match Pause (ctl s) with Done p => (RNone, mkP p (waiting s)) | _ => (RStuck, s) end
  | OResume => match Resume (ctl s) with Done p => (RNone, mkP p (waiting s)) | _ => (RStuck, s) end
  | OIsPaused => match IsPaused (ctl s) with
                 | Done (b, p) => (RPaused b, mkP p (waiting s))
                 | _ => (RStuck, s)
                 end
  | OWait pick =>
      if waiting s then
        match waitUntilResumed pick termChan (ctl s) with
        | Done (WReturn b, p) => (RWaiter b, mkP p false)
        | Done (WLoop, p) => (RStuck, mkP p true)
        | _ => (RStuck, s)
        end
      else match WaitIfPaused pick termChan (ctl s) with
           | (WReturn b, p) => (RWaiter b, mkP p false)
           | (WLoop, p) => (RStuck, mkP p true)
           end
  end.

(** The flag. *)
Definition aexec (o : pop) (paused : bool) : bool :=
  match o with OPause => true | OResume => false | _ => paused end.

(** The pending request, or what the waiter was told last. *)
Definition pause_rel (s : pstate) (paused : bool) : Prop :=
  cclosed (ctl s) = false /\ ccap (ctl s) = 1%nat /\
  ((cbuf (ctl s) = [if paused then Paused else Running]) \/
   (cbuf (ctl s) = [] /\ waiting s = paused)).

Lemma new_rel : pause_rel (mkP NewPauseController false) false.
Proof. split_and!; auto. Qed.

Lemma request_spec st s paused :
  pause_rel s paused ->
  exists p, request st (ctl s) = Done p /\ cclosed p = false /\ ccap p = 1%nat /\ cbuf p = [st].
Proof.
  intros (Hc & Hk & Hb). unfold request, drainChannel, chan_recv, chan_send.
  destruct Hb as [Hb|[Hb _]]; rewrite Hb, ?Hc; cbn; rewrite ?Hc, ?Hk, ?Hb; eauto.
Qed.

Lemma IsPaused_spec s paused :
  pause_rel s paused ->
  IsPaused (ctl s) = Done (match cbuf (ctl s) with [] => false | _ => paused end, ctl s).
Proof.
  intros (Hc & Hk & Hb). destruct s as [[buf cap cl] w]; cbn in *. subst cap cl.
  destruct Hb as [->|[-> _]]; [by destruct paused|done].
Qed.

(** Everything an operation can show, and that it keeps the relation, unless the
    waiter leaves because of the termination channel. *)
Definition shows (termChan : chan unit) (o : pop) (paused waiting : bool) (r : pres) : Prop :=
  match o, r with
  | (OPause | OResume), RNone => True
  | OIsPaused, RPaused b => waiting = false -> b = paused
  | OWait _, RWaiter false => paused = false
  | OWait _, RWaiter true => ChanHasTerminated termChan = true
  | OWait _, RStuck => paused = true
  | _, _ => False
  end.

Lemma wait_cases (term : chan unit) pick s paused :
  pause_rel s paused ->
  shows term (OWait pick) paused (waiting s) (pexec term (OWait pick) s).1 /\
  ((pexec term (OWait pick) s).1 <> RWaiter true ->
   pause_rel (pexec term (OWait pick) s).2 paused).
Proof.
  intros (Hc & Hk & Hb). destruct s as [[buf cap cl] w]; cbn in Hc, Hk, Hb; subst cap cl.
  unfold pexec, waitUntilResumed, WaitIfPaused, chan_recv; cbn.
  destruct Hb as [->|[-> <-]].
  - destruct w, paused, (ChanHasTerminated term) eqn:Et, pick; cbn; unfold pause_rel; cbn; auto 10.
  - destruct w, (ChanHasTerminated term) eqn:Et; cbn; unfold pause_rel; cbn; auto 10.
Qed.

Lemma pexec_refines (term : chan unit) o s paused :
  pause_rel s paused ->
  shows term o paused (waiting s) (pexec term o s).1 /\
  ((pexec term o s).1 <> RWaiter true -> pause_rel (pexec term o s).2 (aexec o paused)).
Proof.
  intros R. destruct o as [| | |pick].
  - destruct (request_spec Paused s paused R) as (p & E & H1 & H2 & H3). cbn. unfold Pause. rewrite E.
    split; [done|]. intros _. split_and!; cbn; auto.
  - destruct (request_spec Running s paused R) as (p & E & H1 & H2 & H3). cbn. unfold Resume. rewrite E.
    split; [done|]. intros _. split_and!; cbn; auto.
  - cbn. rewrite (IsPaused_spec s paused R). cbn. split; [|by destruct s].
    intros Hw. destruct R as (_ & _ & [Hb|[Hb Hp]]); rewrite Hb; [done|congruence].
  - by apply wait_cases.
Qed.

Fixpoint pexecs (term : chan unit) (os : list pop) (s : pstate) : list pres * pstate :=
  match os with
  | [] => ([], s)
  | o :: os => let '(r, s1) := pexec term o s in let '(rs, s2) := pexecs term os s1 in (r :: rs, s2)
  end.

Fixpoint aexecs (os : list pop) (paused : bool) : bool :=
  match os with [] => paused | o :: os => aexecs os (aexec o paused) end.

(** ** Steps finer than an operation

    The mutex keeps [Pause], [Resume] and [IsPaused] apart, but not from the
    waiter: it can run between their receive and their send.  [IsPaused] locks
    for reading, so a second one can run while the first has the request. *)
Inductive holder :=
| HFree
| HSending (st : PauseState) (req : bool).    (* received, about to send [st] *)

Record fstate := mkF {
  fctl : pstate;
  fholder : holder;
  fpaused : bool;             (* the flag, set when a request is complete *)
}.

Inductive fop :=
| FRequest (st : PauseState)  (* lock, and drain the channel *)
| FCheck                      (* lock, and receive in [IsPaused] *)
| FSend                       (* the send that ends the critical section *)
| FWait (pick : bool).

Definition fexec (termChan : chan unit) (o : fop) (s : fstate) : option (pres * fstate) :=
  match o, fholder s with
  | FRequest st, HFree =>
      Some (RNone, mkF (mkP (drainChannel (ctl (fctl s))) (waiting (fctl s))) (HSending st true) (fpaused s))
  | FCheck, HFree =>
      match chan_recv (ctl (fctl s)) with
      | Done (Some st, p) => Some (RNone, mkF (mkP p (waiting (fctl s))) (HSending st false) (fpaused s))
      | _ => Some (RPaused false, s)
      end
  | FCheck, HSending _ false =>      (* the lock is held for reading only *)
      match chan_recv (ctl (fctl s)) with
      | Blocked => Some (RPaused false, s)
      | _ => None
      end
  | FSend, HSending st req =>
      match chan_send st (ctl (fctl s)) with
      | Done p =>
          Some (if req then RNone else RPaused (bool_decide (st = Paused)),
                mkF (mkP p (waiting (fctl s))) HFree
                    (if req then bool_decide (st = Paused) else fpaused s))
      | _ => None
      end
  | FWait pick, _ =>
      let '(r, s') := pexec termChan (OWait pick) (fctl s) in Some (r, mkF s' (fholder s) (fpaused s))
  | _, _ => None
  end.

Fixpoint fexecs (term : chan unit) (os : list fop) (s : fstate) : option (list pres * fstate) :=
  match os with
  | [] => Some ([], s)
  | o :: os =>
      match fexec term o s with
      | Some (r, s1) => match fexecs term os s1 with Some (rs, s2) => Some (r :: rs, s2) | None => None end
      | None => None
      end
  end.

Definition fnew : fstate := mkF (mkP NewPauseController false) HFree false.

(** The channel is open, and empty while the lock is held. *)
Definition fine_inv (s : fstate) : Prop :=
  let c := ctl (fctl s) in
  cclosed c = false /\ ccap c = 1%nat /\ (length (cbuf c) <= 1)%nat /\
  match fholder s with HFree => True | HSending _ _ => cbuf c = [] end.

Lemma recv_shrinks {A} (c : chan A) o c' :
  chan_recv c = Done (o, c') ->
  cclosed c' = cclosed c /\ ccap c' = ccap c /\ (length (cbuf c') <= length (cbuf c))%nat /\
  (length (cbuf c) <= 1 -> cbuf c' = [])%nat.
Proof.
  unfold chan_recv. destruct c as [[|v vs] cap cl]; cbn.
  - destruct cl; [|done]. intros [= <- <-]. done.
  - intros [= <- <-]. cbn. split_and!; [done|done|lia|]. intros H. apply nil_length_inv. lia.
Qed.

Lemma wait_chan (term : chan unit) pick s :
  ctl (pexec term (OWait pick) s).2 = ctl s \/
  exists o, chan_recv (ctl s) = Done (o, ctl (pexec term (OWait pick) s).2).
Proof.
  unfold pexec, waitUntilResumed, WaitIfPaused. destruct (chan_recv (ctl s)) as [[o p]| |] eqn:E.
  - destruct (waiting s), (ChanHasTerminated term && pick), o as [[]|]; cbn; eauto.
  - destruct (waiting s), (ChanHasTerminated term); cbn; auto.
  - destruct (waiting s), (ChanHasTerminated term); cbn; auto.
Qed.

Lemma fexec_inv (term : chan unit) o s r s' : fine_inv s -> fexec term o s = Some (r, s') -> fine_inv s'.
Proof.
  intros (Hc & Hk & Hl & Hh). unfold fexec. destruct o as [st| | |pick], (fholder s) as [|st' req] eqn:Eh; try done.
  - intros [= <- <-]. unfold fine_inv; cbn. unfold drainChannel.
    destruct (chan_recv _) as [[o p]| |] eqn:E.
    + apply recv_shrinks in E as (H1 & H2 & H3 & H4). split_and!; [congruence|congruence|lia|auto].
    + split_and!; try done. revert E. unfold chan_recv. destruct (cbuf _); [done|by intros].
    + revert E. unfold chan_recv. destruct (cbuf _); [by destruct (cclosed _)|done].
  - destruct (chan_recv _) as [[[st|] p]| |] eqn:E; intros [= <- <-]; try (unfold fine_inv; rewrite Eh; done).
    apply recv_shrinks in E as (H1 & H2 & H3 & H4). unfold fine_inv; cbn.
    split_and!; [congruence|congruence|lia|auto].
  - destruct req; [done|]. destruct (chan_recv _); [done| |done]. intros [= <- <-].
    unfold fine_inv. by rewrite Eh.
  - unfold chan_send. rewrite Hc, Hk, Hh. cbn. intros [= <- <-]. unfold fine_inv; cbn. auto.
  - destruct (pexec term (OWait pick) (fctl s)) as [r0 p0] eqn:E. intros [= <- <-].
    pose proof (wait_chan term pick (fctl s)) as W. rewrite E in W. cbn [snd] in W.
    unfold fine_inv; cbn [fctl fholder]. destruct W as [->|[o W]]; [done|].
    apply recv_shrinks in W as (H1 & H2 & H3 & H4). split_and!; [congruence|congruence|lia|done].
  - destruct (pexec term (OWait pick) (fctl s)) as [r0 p0] eqn:E. intros [= <- <-].
    pose proof (wait_chan term pick (fctl s)) as W. rewrite E in W. cbn [snd] in W.
    unfold fine_inv; cbn [fctl fholder]. destruct W as [->|[o W]]; [done|].
    apply recv_shrinks in W as (H1 & H2 & H3 & H4). split_and!; [congruence|congruence|lia|auto].
Qed.

(** The send that ends a critical section never waits. *)
Lemma fine_send (term : chan unit) s st req :
  fine_inv s -> fholder s = HSending st req -> exists r s', fexec term FSend s = Some (r, s').
Proof.
  intros (Hc & Hk & Hl & Hh) Eh. unfold fexec. rewrite Eh in *. unfold chan_send. rewrite Hc, Hk, Hh. eauto.
Qed.

(** ** Properties *)

(** C27: as long as the operations do not overlap, the controller behaves like
    one flag set by [Pause] and cleared by [Resume]: no caller ever waits for
    the channel, the waiter is told to go on only while the flag is clear and
    is held up only while it is set, and [IsPaused] returns the flag whenever
    the waiter is not being held up. *)
Theorem pause_refines_flag (term : chan unit) os o :
  let '(rs, s) := pexecs term os (mkP NewPauseController false) in
  (forall r, r ∈ rs -> r <> RWaiter true) ->
  shows term o (aexecs os false) (waiting s) (pexec term o s).1.
Proof.
  enough (H : forall s paused, pause_rel s paused ->
    let '(rs, s') := pexecs term os s in
    (forall r, r ∈ rs -> r <> RWaiter true) -> pause_rel s' (aexecs os paused)).
  { specialize (H _ _ new_rel). destruct (pexecs term os _) as [rs s]. intros Hrs.
    by apply pexec_refines, H. }
  induction os as [|o' os IH]; intros s paused R; cbn; [done|].
  destruct (pexec_refines term o' s paused R) as [_ R1].
  destruct (pexec term o' s) as [r s1]. cbn in R1.
  destruct (pexecs term os s1) as [rs s2] eqn:E. intros Hrs.
  specialize (IH s1 (aexec o' paused)). rewrite E in IH. apply IH.
  - apply R1, Hrs. apply elem_of_cons. by left.
  - intros r' Hr'. apply Hrs, elem_of_cons. by right.
Qed.

Lemma pause_refines_flag_witness :
  (pexecs (make_chan 0) [OPause; OWait false] (mkP NewPauseController false)).1 = [RNone; RStuck] /\
  shows (make_chan 0) OIsPaused true true
    (pexec (make_chan 0) OIsPaused
       (pexecs (make_chan 0) [OPause; OWait false] (mkP NewPauseController false)).2).1.
Proof.
  split; [reflexivity|].
  apply (pause_refines_flag (make_chan 0) [OPause; OWait false] OIsPaused).
  intros r Hr. cbn in Hr. rewrite !elem_of_cons in Hr.
  destruct Hr as [->|[->|Hr]]; [done|done|]. by apply not_elem_of_nil in Hr.
Defined.

(** Interleaving the waiter with the critical sections, the send that ends
    one never waits: the mutex is always released, for every schedule. *)
Theorem pause_lock_released (term : chan unit) os rs s st req :
  fexecs term os fnew = Some (rs, s) -> fholder s = HSending st req ->
  exists r s', fexec term FSend s = Some (r, s').
Proof.
  intros E. apply fine_send. revert E. assert (I : fine_inv fnew) by (split_and!; cbn; auto).
  generalize fnew, I. clear I. revert rs. induction os as [|o os IH]; intros rs s0 I; cbn.
  - by intros [= <- <-].
  - destruct (fexec term o s0) as [[r s1]|] eqn:E1; [|done].
    destruct (fexecs term os s1) as [[rs' s2]|] eqn:E2; [|done]. intros [= <- <-].
    apply (IH rs' s1); [by eapply fexec_inv|done].
Qed.

Lemma pause_lock_released_witness :
  exists s, fexecs (make_chan 0) [FRequest Paused] fnew = Some ([RNone], s) /\
    exists r s', fexec (make_chan 0) FSend s = Some (r, s').
Proof.
  eexists. split; [reflexivity|].
  apply (pause_lock_released (make_chan 0) [FRequest Paused] [RNone] _ Paused true); reflexivity.
Defined.

(** Interleaving the waiter with the critical sections the flag is not
    respected: while the controller is paused, a second [Pause], or an
    [IsPaused] of another goroutine, takes the request out of the channel for a
    moment: a waiter that looks just then is told to go on, and another
    [IsPaused] answers [false]. *)
Theorem pause_race :
  (exists s, fexecs (make_chan 0) [FRequest Paused; FSend; FCheck; FWait false] fnew =
     Some ([RNone; RNone; RNone; RWaiter false], s) /\ fpaused s = true) /\
  (exists s, fexecs (make_chan 0) [FRequest Paused; FSend; FRequest Paused; FWait false] fnew =
     Some ([RNone; RNone; RNone; RWaiter false], s) /\ fpaused s = true) /\
  (exists s, fexecs (make_chan 0) [FRequest Paused; FSend; FCheck; FCheck] fnew =
     Some ([RNone; RNone; RNone; RPaused false], s) /\ fpaused s = true).
Proof. split_and!; eexists; split; reflexivity. Qed.
