(* ===== verification/Ioctl.v ===== *)
(** * The ioctl requests of the client ([ioctl.go])

    A request packs a direction, a type, a number and a size into one word; the
    requests must be the ones the kernel module switches on, and pairwise
    different. *)
From S2P Require Import Prelude GoInt GoMonad.
Open Scope Z_scope.

Definition _IOC_NRBITS : Z := 8.
Definition _IOC_TYPEBITS : Z := 8.
Definition _IOC_SIZEBITS : Z := 14.
Definition _IOC_DIRBITS : Z := 2.
Definition _IOC_NRSHIFT : Z := 0.
Definition _IOC_TYPESHIFT : Z := _IOC_NRSHIFT + _IOC_NRBITS.
Definition _IOC_SIZESHIFT : Z := _IOC_TYPESHIFT + _IOC_TYPEBITS.
Definition _IOC_DIRSHIFT : Z := _IOC_SIZESHIFT + _IOC_SIZEBITS.
Definition _IOC_NONE : Z := 0.
Definition _IOC_WRITE : Z := 1.
Definition _IOC_READ : Z := 2.

(** Shifts of a 64-bit [uintptr]. *)
Definition shl (x n : Z) : Z := u64 (Z.shiftl x n).

Definition _IOC (dir t nr size : Z) : Z :=
  Z.lor (Z.lor (Z.lor (shl dir _IOC_DIRSHIFT) (shl t _IOC_TYPESHIFT)) (shl nr _IOC_NRSHIFT))
        (shl size _IOC_SIZESHIFT).
Definition _IO (t nr : Z) : Z := _IOC _IOC_NONE t nr 0.
Definition _IOR (t nr size : Z) : Z := _IOC _IOC_READ t nr size.
Definition _IOW (t nr size : Z) : Z := _IOC _IOC_WRITE t nr size.
Definition _IOWR (t nr size : Z) : Z := _IOC (Z.lor _IOC_READ _IOC_WRITE) t nr size.

Definition BDR_MAGIC : Z := 66.    (* 'B' *)

(** [unsafe.Sizeof] of a struct of integers: each field is aligned to its own
    size, the whole to its largest field. *)
Definition align (n a : Z) : Z := (n + a - 1) / a * a.
Definition Sizeof (fields : list Z) : Z :=
  align (foldl (fun off f => align off f + f) 0 fields) (foldl Z.max 1 fields).

(** [TargetInfo], [BufferInfo], [enum_t] and [offset_t]. *)
Definition sizeof_TargetInfo : Z := Sizeof [8; 4; 8; 8].
Definition sizeof_BufferInfo : Z := Sizeof [8; 8; 8; 4; 8].
Definition sizeof_enum_t : Z := Sizeof [4].
Definition sizeof_offset_t : Z := Sizeof [4].

Definition BDR_CMD_GET_TARGET_INFO : Z := _IOR BDR_MAGIC 1 sizeof_TargetInfo.
Definition BDR_CMD_GET_STATUS : Z := _IOR BDR_MAGIC 2 sizeof_enum_t.
Definition BDR_CMD_GET_BUFFER_INFO : Z := _IOR BDR_MAGIC 3 sizeof_BufferInfo.
Definition BDR_CMD_GET_BUFFER_INFO_WAIT : Z := _IOR BDR_MAGIC 4 sizeof_BufferInfo.
Definition BDR_CMD_READ_BUFFER_INFO : Z := _IOR BDR_MAGIC 5 sizeof_BufferInfo.
Definition BDR_CMD_READ_BUFFER_INFO_WAIT : Z := _IOR BDR_MAGIC 6 sizeof_BufferInfo.
Definition BDR_CMD_RESET_BUFFER : Z := _IO BDR_MAGIC 7.
Definition BDR_CMD_WRITE_TEST_VALUE : Z := _IOW BDR_MAGIC 8 sizeof_offset_t.

Definition ioctlCmdNames : list (Z * string) :=
  [(BDR_CMD_GET_TARGET_INFO, "GET_TARGET_INFO"%string);
   (BDR_CMD_GET_STATUS, "GET_STATUS"%string);
   (BDR_CMD_GET_BUFFER_INFO, "GET_BUFFER_INFO"%string);
   (BDR_CMD_GET_BUFFER_INFO_WAIT, "GET_BUFFER_INFO_WAIT"%string);
   (BDR_CMD_READ_BUFFER_INFO, "READ_BUFFER_INFO"%string);
   (BDR_CMD_READ_BUFFER_INFO_WAIT, "READ_BUFFER_INFO_WAIT"%string);
   (BDR_CMD_RESET_BUFFER, "RESET_BUFFER"%string);
   (BDR_CMD_WRITE_TEST_VALUE, "WRITE_TEST_VALUE"%string)].

(** The [%X] verb. *)
Definition hex_digit (d : Z) : string :=
  nth (Z.to_nat d) ["0";"1";"2";"3";"4";"5";"6";"7";"8";"9";"A";"B";"C";"D";"E";"F"]%string ""%string.
Fixpoint hex (fuel : nat) (x : Z) : string :=
  match fuel with
  | O => ""%string
  | S fuel => if x <? 16 then hex_digit x else hex fuel (x / 16) +:+ hex_digit (x mod 16)
  end.

Fixpoint lookup_name (cmd : Z) (names : list (Z * string)) : option string :=
  match names with
  | [] => None
  | (c, name) :: names => if cmd =? c then Some name else lookup_name cmd names
  end.

Definition GetIOCTLCommandName (cmd : Z) : string :=
  match lookup_name cmd ioctlCmdNames with
  | Some name => name
  | None => "Unknown command (0x" +:+ hex 16 cmd +:+ ")"
  end.

(** The wrapper of the system call: an [errno] other than 0 is its error. *)
Definition ioctl (errno : Z) : option Z := if negb (errno =? 0) then Some errno else None.

(** ** Reading a request back *)

Definition IOC_NR (x : Z) : Z := Z.land (Z.shiftr x _IOC_NRSHIFT) (Z.ones _IOC_NRBITS).
Definition IOC_TYPE (x : Z) : Z := Z.land (Z.shiftr x _IOC_TYPESHIFT) (Z.ones _IOC_TYPEBITS).
Definition IOC_SIZE (x : Z) : Z := Z.land (Z.shiftr x _IOC_SIZESHIFT) (Z.ones _IOC_SIZEBITS).
Definition IOC_DIR (x : Z) : Z := Z.land (Z.shiftr x _IOC_DIRSHIFT) (Z.ones _IOC_DIRBITS).

(** Fields that fit their bits do not overlap: the word is their sum. *)
Lemma lor_add a b n : 0 <= n -> 0 <= b < 2 ^ n -> Z.lor (a * 2 ^ n) b = a * 2 ^ n + b.
Proof.
  intros Hn Hb. rewrite <- Z.add_lor_land.
  enough (Z.land (a * 2 ^ n) b = 0) by lia.
  apply Z.bits_inj'. intros i Hi. rewrite Z.land_spec, Z.bits_0.
  destruct (decide (i < n)) as [Hlt|Hge].
  - by rewrite Z.mul_pow2_bits_low by lia.
  - rewrite andb_comm. replace b with (b mod 2 ^ n) by (apply Z.mod_small; lia).
    by rewrite Z.mod_pow2_bits_high by lia.
Qed.

Lemma IOC_sum dir t nr size :
  0 <= dir < 4 -> 0 <= t < 256 -> 0 <= nr < 256 -> 0 <= size < 2 ^ 14 ->
  _IOC dir t nr size = dir * 2 ^ 30 + size * 2 ^ 16 + t * 2 ^ 8 + nr.
Proof.
  intros Hd Ht Hn Hs. unfold _IOC, shl, _IOC_DIRSHIFT, _IOC_SIZESHIFT, _IOC_TYPESHIFT, _IOC_NRSHIFT,
    _IOC_NRBITS, _IOC_TYPEBITS, _IOC_SIZEBITS.
  change (0 + 8 + 8 + 14) with 30. change (0 + 8 + 8) with 16. change (0 + 8) with 8.
  rewrite !Z.shiftl_mul_pow2 by lia. rewrite Z.pow_0_r, Z.mul_1_r.
  rewrite !u64_small by (unfold is_u64; lia).
  replace (Z.lor (Z.lor (Z.lor (dir * 2 ^ 30) (t * 2 ^ 8)) nr) (size * 2 ^ 16))
    with (Z.lor (dir * 2 ^ 30) (Z.lor (size * 2 ^ 16) (Z.lor (t * 2 ^ 8) nr))).
  - rewrite (lor_add t nr 8), (lor_add size _ 16), (lor_add dir _ 30) by lia. lia.
  - apply Z.bits_inj'. intros i _. rewrite !Z.lor_spec. by repeat destruct (Z.testbit _ i).
Qed.

Lemma field k n x : 0 <= k -> 0 <= n -> Z.land (Z.shiftr x k) (Z.ones n) = (x / 2 ^ k) mod 2 ^ n.
Proof. intros. by rewrite Z.shiftr_div_pow2, Z.land_ones by lia. Qed.

(** The four fields of a request are recovered from it, so two requests are
    equal only if all their fields are. *)
Theorem ioctl_fields dir t nr size :
  0 <= dir < 4 -> 0 <= t < 256 -> 0 <= nr < 256 -> 0 <= size < 2 ^ 14 ->
  IOC_DIR (_IOC dir t nr size) = dir /\ IOC_TYPE (_IOC dir t nr size) = t /\
  IOC_NR (_IOC dir t nr size) = nr /\ IOC_SIZE (_IOC dir t nr size) = size.
Proof.
  intros Hd Ht Hn Hs. rewrite IOC_sum by done.
  unfold IOC_DIR, IOC_TYPE, IOC_NR, IOC_SIZE, _IOC_DIRSHIFT, _IOC_SIZESHIFT, _IOC_TYPESHIFT, _IOC_NRSHIFT,
    _IOC_NRBITS, _IOC_TYPEBITS, _IOC_SIZEBITS, _IOC_DIRBITS.
  rewrite !field by lia.
  change (2 ^ (0 + 8 + 8 + 14)) with 1073741824. change (2 ^ (0 + 8 + 8)) with 65536.
  change (2 ^ (0 + 8)) with 256. change (2 ^ 30) with 1073741824. change (2 ^ 16) with 65536.
  change (2 ^ 8) with 256. change (2 ^ 2) with 4. change (2 ^ 14) with 16384. change (2 ^ 0) with 1.
  split_and!; Z.to_euclidean_division_equations; lia.
Qed.

Lemma ioctl_fields_witness :
  IOC_DIR BDR_CMD_READ_BUFFER_INFO = 2 /\ IOC_TYPE BDR_CMD_READ_BUFFER_INFO = 66 /\
  IOC_NR BDR_CMD_READ_BUFFER_INFO = 5 /\ IOC_SIZE BDR_CMD_READ_BUFFER_INFO = 40.
Proof. apply (ioctl_fields 2 66 5 40); lia. Defined.

(** The eight requests are pairwise different and each has its name; any
    other word is reported as unknown. *)
Theorem ioctl_names :
  NoDup (fst <$> ioctlCmdNames) /\
  (forall cmd name, (cmd, name) ∈ ioctlCmdNames -> GetIOCTLCommandName cmd = name) /\
  (forall cmd, ~ (cmd ∈ fst <$> ioctlCmdNames) ->
     GetIOCTLCommandName cmd = ("Unknown command (0x" +:+ hex 16 cmd +:+ ")")%string).
Proof.
  assert (N : NoDup (fst <$> ioctlCmdNames)) by (apply (bool_decide_unpack _); vm_compute; exact I).
  split; [done|]. unfold GetIOCTLCommandName. split.
  - intros cmd name. induction ioctlCmdNames as [|[c x] l IH]; intros Hin; [by apply not_elem_of_nil in Hin|].
    cbn [lookup_name fmap list_fmap] in *. apply NoDup_cons in N as [Hc N].
    apply elem_of_cons in Hin as [[= -> ->]|Hin]; [by rewrite Z.eqb_refl|].
    destruct (cmd =? c) eqn:E; [|by apply IH]. apply Z.eqb_eq in E as ->. exfalso. apply Hc.
    by apply (list_elem_of_fmap_2 fst l (c, name)).
  - intros cmd. generalize ioctlCmdNames at 1 2 as l. intros l Hn.
    enough (lookup_name cmd l = None) as -> by done.
    induction l as [|[c x] l IH]; [done|]. cbn in *. apply not_elem_of_cons in Hn as [H1 H2].
    destruct (cmd =? c) eqn:E; [by apply Z.eqb_eq in E|by apply IH].
Qed.

Example sizes : sizeof_TargetInfo = 32 /\ sizeof_BufferInfo = 40.
Proof. split; reflexivity. Qed.
Example unknown_name : GetIOCTLCommandName 48879 = "Unknown command (0xBEEF)"%string.
Proof. reflexivity. Qed.
