(* ===== verification/Client.v ===== *)
(** * The client daemon ([client.go])

    The state of a [Client]: the ring it shares with the kernel module, the
    source device, the pause controller of its monitor and its connection.  The
    answers of the outside world are lists in the state: the outcomes of the
    coming [Encode] and [ioctl] calls, and the number of checks after which the termination channel is seen closed. *)
From S2P Require Import Prelude GoInt GoMonad GoChan Utils BlockDev Blocks Networking Journal Pause Ioctl RingBuffer.
Open Scope Z_scope.

Record TargetInfo := mkTargetInfo {
  PageSize : Z;
  tiWriteInfoSize : Z;
  tiBufferByteSize : Z;
  tiBitmapByteSize : Z;
}.

Inductive State :=
| StateHashing
| StateWriting
| StateReplicating
| StateReconnecting.

#[global] Instance State_eq_dec : EqDecision State.
Proof. solve_decision. Defined.

Definition State_String (s : State) : string :=
  match s with
  | StateHashing => "Hashing"
  | StateWriting => "Writing"
  | StateReplicating => "Replicating"
  | StateReconnecting => "StateReconnecting"
  end.

Definition BufferOverflownFlag : Z := Bit 0.
Definition KernelLogicalSectorSize : Z := 512.

Definition CheckOverflow (b : BufferInfo) : bool :=
  negb (Z.land (biFlags b) BufferOverflownFlag =? 0).
Definition HasNewWrites (b : BufferInfo) : bool := negb (biLength b =? 0).

Record Client := mkClient {
  cTarget : TargetInfo;
  UnderDevFile : Dev;
  kernel : bdr_ring_buffer;
  MonitorPauseContr : PauseController;
  cstate : State;
  csent : list Packet;
  encFaults : list (option error);
  ioctlFaults : list (option error);
  termIn : option nat;
}.

Definition set_net (l : list Packet) (fs : list (option error)) (c : Client) : Client :=
  mkClient (cTarget c) (UnderDevFile c) (kernel c) (MonitorPauseContr c) (cstate c) l fs
    (ioctlFaults c) (termIn c).
Definition set_kernel (fs : list (option error)) (k : bdr_ring_buffer) (c : Client) : Client :=
  mkClient (cTarget c) (UnderDevFile c) k (MonitorPauseContr c) (cstate c) (csent c)
    (encFaults c) fs (termIn c).
Definition set_termIn (t : option nat) (c : Client) : Client :=
  mkClient (cTarget c) (UnderDevFile c) (kernel c) (MonitorPauseContr c) (cstate c) (csent c)
    (encFaults c) (ioctlFaults c) t.
Definition set_cstate (s : State) (c : Client) : Client :=
  mkClient (cTarget c) (UnderDevFile c) (kernel c) (MonitorPauseContr c) s (csent c)
    (encFaults c) (ioctlFaults c) (termIn c).
Definition set_contr (p : PauseController) (c : Client) : Client :=
  mkClient (cTarget c) (UnderDevFile c) (kernel c) p (cstate c) (csent c)
    (encFaults c) (ioctlFaults c) (termIn c).
Definition set_under (d : Dev) (c : Client) : Client :=
  mkClient (cTarget c) d (kernel c) (MonitorPauseContr c) (cstate c) (csent c)
    (encFaults c) (ioctlFaults c) (termIn c).

(** The kernel's buffer, mapped into the client's memory. *)
Definition Buf (c : Client) : list byte := buffer (kernel c).

Definition GetState : M Client State := gets cstate.
Definition SetState (newState : State) : M Client unit := modify (set_cstate newState).

Definition CheckTermination : M Client bool := fun c =>
  match termIn c with
  | Some O => (Ret true, c)
  | Some (S n) => (Ret false, set_termIn (Some n) c)
  | None => (Ret false, c)
  end.

(** [c.Encoder.Encode(packet)]. *)
Definition Encode (packet : Packet) : M Client unit := fun c =>
  match encFaults c with
  | Some e :: fs => (Err e, set_net (csent c) fs c)
  | None :: fs => (Ret tt, set_net (csent c ++ [packet]) fs c)
  | [] => (Ret tt, set_net (csent c ++ [packet]) [] c)
  end.

(** ** Sending *)

(** The loop of [SendPacket]: each turn uses up one outcome of [Encode], so one
    turn more than there are outcomes left is enough. *)
Fixpoint send_loop (fuel : nat) (packet : Packet) : M Client unit :=
  match fuel with
  | O => ret tt
  | S fuel =>
      r <- catch (Encode packet) ;;
      match r with
      | inl _ => ret tt
      | inr _ =>
          terminated <- CheckTermination ;;
          if (terminated : bool) then ret tt else send_loop fuel packet
      end
  end.
Definition SendPacket (packet : Packet) : M Client unit :=
  n <- gets (fun c => length (encFaults c)) ;; send_loop (S n) packet.

Definition SendCorrectBlock (buf : list byte) (offset size : Z) : M Client unit :=
  SendPacket {| PacketType := PacketTypePayloadCorrectBlock;
                Payload := PCorrectBlockInfo {| Offset := offset; Size := size; Data := buf |} |}.

Definition SendReplicationBlock (data : list byte) (offset size : Z) : M Client unit :=
  SendPacket {| PacketType := PacketTypePayloadReplicationBlock;
                Payload := PReplicationBlockInfo {| Offset := offset; Size := size; Data := data |} |}.

(** The init packet, as [SendInitPacket] and [reconnectToServer] build it. *)
Definition init_packet (deviceSize : Z) (t : TargetInfo) : Packet :=
  {| PacketType := PacketTypeInfoInit;
     Payload := PInitInfo {| DeviceSize := deviceSize; iWriteInfoSize := tiWriteInfoSize t;
                             BufferByteSize := tiBufferByteSize t |} |}.

Definition SendInitPacket : M Client unit :=
  deviceSize <- zoom UnderDevFile set_under GetDeviceSize ;;
  t <- gets cTarget ;;
  SendPacket (init_packet deviceSize t).

(** ** IOCTLs *)

Inductive command := CmdResetBuffer | CmdReadBufferInfo.

(** The request word of a command. *)
Definition request_word (cmd : command) : Z :=
  match cmd with
  | CmdResetBuffer => BDR_CMD_RESET_BUFFER
  | CmdReadBufferInfo => BDR_CMD_READ_BUFFER_INFO
  end.

Definition zeroBufferInfo : BufferInfo := mkBufferInfo 0 0 0 0 0.

(** [executeIOCTL]: the buffer info the kernel has filled in. *)
Definition executeIOCTL (cmd : command) : M Client BufferInfo := fun c =>
  match ioctlFaults c with
  | Some e :: fs => (Err (Errorf_v (GetIOCTLCommandName (request_word cmd) +:+ " (0x" +:+ hex 16 (request_word cmd) +:+ ") failed: ") e), set_kernel fs (kernel c) c)
  | fs =>
      match cmd with
      | CmdResetBuffer =>
          (Ret zeroBufferInfo, set_kernel (tail fs) (bdr_ring_buffer_reset (kernel c)) c)
      | CmdReadBufferInfo =>
          let '(info, k) := bdr_buffer_read_routine (kernel c) in (Ret info, set_kernel (tail fs) k c)
      end
  end.

(** The loop of [ServeIOCTL]; a terminated call leaves the caller's buffer info
    at its zero value. *)
Fixpoint ioctl_loop (fuel : nat) (cmd : command) : M Client BufferInfo :=
  match fuel with
  | O => ret zeroBufferInfo
  | S fuel =>
      terminated <- CheckTermination ;;
      if (terminated : bool) then ret zeroBufferInfo
      else
        r <- catch (executeIOCTL cmd) ;;
        match r with
        | inl info => ret info
        | inr _ =>
            terminated <- CheckTermination ;;
            if (terminated : bool) then ret zeroBufferInfo else ioctl_loop fuel cmd
        end
  end.
Definition ServeIOCTL (cmd : command) : M Client BufferInfo :=
  n <- gets (fun c => length (ioctlFaults c)) ;; ioctl_loop (S n) cmd.

Definition ResetBufferIOCTL : M Client unit := ignore (ServeIOCTL CmdResetBuffer).

(** ** Starting a scan or a replication *)

(** A call of the pause controller; it never waits (see [Pause]). *)
Definition on_contr {A} (f : PauseController -> attempt (A * PauseController)) : M Client A := fun c =>
  match f (MonitorPauseContr c) with
  | Done (a, p) => (Ret a, set_contr p c)
  | _ => (Panic, c)
  end.
Definition lift_unit (f : PauseController -> attempt PauseController)
  : PauseController -> attempt (unit * PauseController) := fun p =>
  match f p with Done p => Done (tt, p) | Blocked => Blocked | Crash => Crash end.

(** The common body of [StartHashing], [FullScan] and [FullReplicate]. *)
Definition start (st : State) (t : Z) : M Client unit :=
  ResetBufferIOCTL ;;;
  on_contr (lift_unit Pause) ;;;
  SetState st ;;;
  SendPacket (CreateInfoPacket t).

Definition StartHashing : M Client unit := start StateHashing PacketTypeCmdStartHashing.
Definition FullScan : M Client unit := start StateHashing PacketTypeCmdStartFullScan.
Definition FullReplicate : M Client unit := start StateReplicating PacketTypeInfoStartReplication.

(** ** The shared buffer *)

(** A modulus of zero is a division by zero. *)
Definition GetBufferInfoByteOffset (t : TargetInfo) (bufferInfo : BufferInfo) (off : Z) : option Z :=
  if biMaxWrites bufferInfo =? 0 then None
  else Some (u64 (u64 (biOffset bufferInfo + off) mod biMaxWrites bufferInfo * tiWriteInfoSize t)).

(** Reading one entry: sector, size, and a page of data; [None] when the entry is
    too short for one of the reads. *)
Definition read_entry (t : TargetInfo) (data : list byte) : option WriteInfo :=
  if Z.of_nat (length data) <? 8 + PageSize t then None
  else Some {| Offset := u64 (KernelLogicalSectorSize * le_get (sub 0 4 data));
               Size := le_get (sub 4 4 data);
               Data := sub 8 (Z.to_nat (PageSize t)) data |}.

(** How the handling of one entry ends. *)
Inductive turn :=
| Next                (* sent *)
| Return              (* [ProcessBufferInfo] returns *)
| Spin.               (* the retry loop never ends *)

(** The send loop of [ProcessBufferInfo], which gives up while reconnecting. *)
Fixpoint send_write (fuel : nat) (packet : Packet) : M Client turn :=
  match fuel with
  | O => ret Spin
  | S fuel =>
      r <- catch (Encode packet) ;;
      match r with
      | inl _ => ret Next
      | inr _ =>
          state <- GetState ;;
          if bool_decide (state = StateReconnecting) then ret Return
          else
            terminated <- CheckTermination ;;
            if (terminated : bool) then ret Return else send_write fuel packet
      end
  end.

Definition process_entry (bufferInfo : BufferInfo) (i : Z) : M Client turn :=
  t <- gets cTarget ;;
  bufBegin <- lift_opt (GetBufferInfoByteOffset t bufferInfo i) ;;
  buf <- gets Buf ;;
  data <- lift_opt (slice buf bufBegin (u64 (bufBegin + tiWriteInfoSize t))) ;;
  match read_entry t data with
  | None =>
      (* the same read fails again until the daemon is terminated *)
      term <- gets termIn ;;
      match term with
      | Some _ => modify (set_termIn (Some O)) ;;; ret Return
      | None => ret Spin
      end
  | Some writeInfo =>
      n <- gets (fun c => length (encFaults c)) ;;
      send_write (S n) {| PacketType := PacketTypePayloadBufferWrite; Payload := PWriteInfo writeInfo |}
  end.

Fixpoint process_entries (n : nat) (i : Z) (bufferInfo : BufferInfo) (mainLoop : bool) : M Client bool :=
  match n with
  | O => ret true
  | S n =>
      paused <- on_contr IsPaused ;;
      if (paused : bool) && mainLoop then ret true
      else
        r <- process_entry bufferInfo i ;;
        match r with
        | Next => process_entries n (i + 1) bufferInfo mainLoop
        | Return => ret true
        | Spin => ret false
        end
  end.

(** [false] when it never returns. *)
Definition ProcessBufferInfo (bufferInfo : BufferInfo) (mainLoop : bool) : M Client bool :=
  process_entries (Z.to_nat (biLength bufferInfo)) 0 bufferInfo mainLoop.

(** [None] when it never returns. *)
Definition SendBuffer : M Client (option bool) :=
  bufferInfo <- ServeIOCTL CmdReadBufferInfo ;;
  if negb (HasNewWrites bufferInfo) then ret (Some true)
  else if CheckOverflow bufferInfo then ret (Some false)
  else
    returned <- ProcessBufferInfo bufferInfo false ;;
    ret (if (returned : bool) then Some true else None).

Definition ProcessBuffer : M Client bool :=
  sent <- SendBuffer ;;
  match sent with
  | None => ret false
  | Some false => StartHashing ;;; ret true
  | Some true =>
      SetState StateWriting ;;;
      on_contr (lift_unit Resume) ;;;
      SendPacket (CreateInfoPacket PacketTypeInfoHashingCompleted) ;;;
      ret true
  end.

(** ** Reading and replicating the disk *)

(** [ReadAt] into a fresh buffer of [n] bytes: what is not read stays zero. *)
Definition read_block (n : Z) (offset : Z) : M Client (list byte * option error) :=
  r <- zoom UnderDevFile set_under (ReadAt (Z.to_nat n) (i64 offset)) ;;
  let '(got, err) := r in
  ret (got ++ replicate (Z.to_nat n - length got) Byte.x00, err).

Definition not_EOF (err : option error) : bool :=
  match err with None | Some IoEOF => false | Some _ => true end.

(** A block of [InitReplication] through its three stages, each of which stops
    for good ([false]) when the daemon is being terminated. *)
Definition replicate_block (diskSize blockSize offset : Z) : M Client bool :=
  terminated <- CheckTermination ;;
  if (terminated : bool) then ret false else
  let size := u32 blockSize in
  let size := if diskSize <? u64 (offset + size) then u32 (diskSize - offset) else size in
  terminated <- CheckTermination ;;
  if (terminated : bool) then ret false else
  r <- read_block size offset ;;
  let '(buf, err) := r in
  if not_EOF err then ret true else
  terminated <- CheckTermination ;;
  if (terminated : bool) then ret false else
  SendReplicationBlock buf offset size ;;; ret true.

Fixpoint replicate_blocks (diskSize blockSize : Z) (offsets : list Z) : M Client unit :=
  match offsets with
  | [] => ret tt
  | o :: offsets =>
      go <- replicate_block diskSize blockSize o ;;
      if (go : bool) then replicate_blocks diskSize blockSize offsets else ret tt
  end.

(** [InitReplication]: its workers handle the blocks in the order [order], some
    permutation of the blocks of the disk. *)
Definition InitReplication (order : list Z) : M Client unit :=
  r <- catch (zoom UnderDevFile set_under GetDeviceSize) ;;
  let diskSize := match r with inl n => n | inr _ => 0 end in
  replicate_blocks diskSize HashedSpaceBase order ;;;
  SendPacket (CreateInfoPacket PacketTypeInfoReplicationCompleted) ;;;
  SetState StateWriting ;;;
  on_contr (lift_unit Resume).

(** What [Run] does before it starts its goroutines; [true] when it also starts
    [InitReplication]. *)
Definition Run_start (fullScan fullReplicate initialReplication : bool) : M Client bool :=
  if fullScan then FullScan ;;; ret false
  else if fullReplicate then FullReplicate ;;; ret true
  else if initialReplication then StartHashing ;;; ret false
  else ret false.
