(* ===== verification/Chardev.v ===== *)
(** * The control device of the kernel module ([kern/main.c], [kern/ioctl.c])

    The client opens a character device, maps the ring and talks to the module
    through ioctls.  A call is the request word, what [copy_to_user] does, whether
    the waiting calls are interrupted, and the argument of the test request; its
    result is what the caller gets and the target afterwards, a caller put to
    sleep, or an access outside the ring. *)
From S2P Require Import Prelude GoInt GoMonad GoChan Networking BlockDev.
From S2P Require Import RingBuffer Bitmap Ioctl Client.
Open Scope Z_scope.

Inductive bdr_status := ACTIVE | OVERFLOWING | STOPPED.

Record bdr_context := mkContext {
  ring_buf : bdr_ring_buffer;
  status : bdr_status;
  overflow : bdr_bitmap;
}.

Definition set_ring (rb : bdr_ring_buffer) (bc : bdr_context) : bdr_context :=
  mkContext rb (status bc) (overflow bc).

(** [struct bdr_target_info]. *)
Record bdr_target_info := mkTarget {
  page_size : Z;
  write_info_size : Z;
  buffer_byte_size : Z;
  bitmap_byte_size : Z;
}.

(** What is copied to the caller. *)
Inductive reply :=
| RBufferInfo (b : BufferInfo)
| RTargetInfo (t : bdr_target_info)
| RStatus (s : bdr_status).

Inductive ioctl_result :=
| Returned (ret : option errno) (out : option reply) (bc : bdr_context)
| Waiting
| Oops.

Section Chardev.
Context (PAGE_SIZE : nat).

Definition bdr_get_target_info (rb : bdr_ring_buffer) (bm : bdr_bitmap) : bdr_target_info :=
  mkTarget (Z.of_nat PAGE_SIZE) (Z.of_nat (BDR_WRITE_INFO_SIZE PAGE_SIZE))
    (bdr_ring_buffer_get_byte_size PAGE_SIZE rb) (bdr_bitmap_get_byte_size bm).

(** The words of [kern/ioctl.h]; the sizes are those of its structures. *)
Definition KERN_GET_TARGET_INFO : Z := _IOR BDR_MAGIC 1 (Sizeof [8; 4; 8; 8]).
Definition KERN_GET_STATUS : Z := _IOR BDR_MAGIC 2 (Sizeof [4]).
Definition KERN_GET_BUFFER_INFO : Z := _IOR BDR_MAGIC 3 (Sizeof [8; 8; 8; 4; 8]).
Definition KERN_GET_BUFFER_INFO_WAIT : Z := _IOR BDR_MAGIC 4 (Sizeof [8; 8; 8; 4; 8]).
Definition KERN_READ_BUFFER_INFO : Z := _IOR BDR_MAGIC 5 (Sizeof [8; 8; 8; 4; 8]).
Definition KERN_READ_BUFFER_INFO_WAIT : Z := _IOR BDR_MAGIC 6 (Sizeof [8; 8; 8; 4; 8]).
Definition KERN_RESET_BUFFER : Z := _IO BDR_MAGIC 7.
Definition KERN_WRITE_TEST_VALUE : Z := _IOW BDR_MAGIC 8 (Sizeof [4]).

(** [copy_to_user]; the target has changed whether or not it succeeds. *)
Definition reply_to (copied : bool) (r : reply) (bc : bdr_context) : ioctl_result :=
  if copied then Returned None (Some r) bc else Returned (Some EFAULT) None bc.

(** [wait_event_interruptible] on a ring with new entries; its result is not
    looked at. *)
Definition wait_event (interrupted : bool) (bc : bdr_context) (k : ioctl_result) : ioctl_result :=
  if negb (biLength (buffer_info (ring_buf bc)) =? 0) || interrupted then k else Waiting.

Definition read_info (copied : bool) (bc : bdr_context) : ioctl_result :=
  let '(b, rb) := bdr_buffer_read_routine (ring_buf bc) in
  reply_to copied (RBufferInfo b) (set_ring rb bc).

(** [vmalloc] of the ring is rounded up to pages. *)
Definition page_align (n : nat) : nat := (n + PAGE_SIZE - 1) / PAGE_SIZE * PAGE_SIZE.

Definition bdr_chardev_ioctl (cmd : Z) (copied interrupted : bool) (arg : Z) (bc : bdr_context) : ioctl_result :=
  if cmd =? KERN_GET_BUFFER_INFO then
    reply_to copied (RBufferInfo (bdr_ring_buffer_get_info (ring_buf bc))) bc
  else if cmd =? KERN_GET_TARGET_INFO then
    reply_to copied (RTargetInfo (bdr_get_target_info (ring_buf bc) (overflow bc))) bc
  else if cmd =? KERN_GET_STATUS then reply_to copied (RStatus (status bc)) bc
  else if cmd =? KERN_GET_BUFFER_INFO_WAIT then
    wait_event interrupted bc (reply_to copied (RBufferInfo (bdr_ring_buffer_get_info (ring_buf bc))) bc)
  else if cmd =? KERN_READ_BUFFER_INFO then read_info copied bc
  else if cmd =? KERN_READ_BUFFER_INFO_WAIT then wait_event interrupted bc (read_info copied bc)
  else if cmd =? KERN_RESET_BUFFER then Returned None None (set_ring (bdr_ring_buffer_reset (ring_buf bc)) bc)
  else if cmd =? KERN_WRITE_TEST_VALUE then
    if negb copied then Returned (Some EFAULT) None bc
    else
      let rb := ring_buf bc in
      let offset := Z.to_nat (u32 arg) in
      if (offset <? page_align (length (buffer rb)))%nat
      then Returned None None (set_ring (mkRing (splice offset (if (offset <? length (buffer rb))%nat then [Byte.xaa] else [])
                                          (buffer rb)) (buffer_info rb)) bc)
      else Oops
  else Returned (Some ENOTTY) None bc.

(** [bdr_chardev_read]: the overflow bitmap, which is cleared.  The bytes are
    those of its words. *)
Definition bdr_chardev_read (count : Z) (copied : bool) (bc : bdr_context)
  : errno * bdr_context + list byte * bdr_context :=
  let size := bdr_bitmap_get_byte_size (overflow bc) in
  if negb (size =? count) then inl (EINVAL, bc)
  else if negb copied then inl (EFAULT, bc)
  else
    let ws := default [] (bitmap (overflow bc)) in
    inr (take (Z.to_nat size) (concat ((fun w => le_put 8 w) <$> ws)),
         mkContext (ring_buf bc) (status bc) (bdr_bitmap_clear (overflow bc))).

(** [bdr_target_map] on the state of the target. *)
Definition target_write (bio : list segment) (bc : bdr_context) : option bdr_context :=
  if bdr_ring_buffer_is_full (ring_buf bc)
  then (fun bm => mkContext (ring_buf bc) (status bc) bm) <$> mark_bio bio (overflow bc)
  else Some (set_ring (bdr_target_map PAGE_SIZE bio (ring_buf bc)) bc).

(** ** The client's requests *)

(** The words of [client/ioctl.go] are those of [kern/ioctl.h]. *)
Theorem request_words :
  BDR_CMD_GET_TARGET_INFO = KERN_GET_TARGET_INFO /\ BDR_CMD_GET_STATUS = KERN_GET_STATUS /\
  BDR_CMD_GET_BUFFER_INFO = KERN_GET_BUFFER_INFO /\ BDR_CMD_GET_BUFFER_INFO_WAIT = KERN_GET_BUFFER_INFO_WAIT /\
  BDR_CMD_READ_BUFFER_INFO = KERN_READ_BUFFER_INFO /\
  BDR_CMD_READ_BUFFER_INFO_WAIT = KERN_READ_BUFFER_INFO_WAIT /\
  BDR_CMD_RESET_BUFFER = KERN_RESET_BUFFER /\ BDR_CMD_WRITE_TEST_VALUE = KERN_WRITE_TEST_VALUE.
Proof using. done. Qed.

(** Each request of the client meets the operation it means: without a fault of
    its own, a call returns what the kernel's handler returns and leaves the ring
    as the handler does. *)
Theorem requests_served cmd c c' b interrupted arg bc :
  ring_buf bc = kernel c -> (forall e fs, ioctlFaults c <> Some e :: fs) -> executeIOCTL cmd c = (Ret b, c') ->
  exists out bc', bdr_chardev_ioctl (request_word cmd) true interrupted arg bc = Returned None out bc' /\
    ring_buf bc' = kernel c' /\ status bc' = status bc /\ overflow bc' = overflow bc /\
    match cmd with CmdResetBuffer => b = zeroBufferInfo /\ out = None | CmdReadBufferInfo => out = Some (RBufferInfo b) end.
Proof using.
  intros Hr Hf E. unfold executeIOCTL in E. destruct (ioctlFaults c) as [|[e|] fs] eqn:Ef;
    [|by destruct (Hf e fs)|]; destruct cmd; cbn in E.
  1, 3: injection E as <- <-; do 2 eexists; split; [reflexivity|]; cbn; by rewrite Hr.
  all: injection E as <- <-; do 2 eexists; split; [reflexivity|]; cbn; by rewrite Hr.
Qed.

(** A test write behind the pages of the ring is not refused. *)
Lemma test_write_unchecked interrupted arg bc :
  0 <= arg < 2 ^ 32 -> Z.of_nat (page_align (length (buffer (ring_buf bc)))) <= arg ->
  bdr_chardev_ioctl KERN_WRITE_TEST_VALUE true interrupted arg bc = Oops.
Proof using.
  intros Ha Hp. unfold bdr_chardev_ioctl.
  change (KERN_WRITE_TEST_VALUE =? KERN_GET_BUFFER_INFO) with false.
  change (KERN_WRITE_TEST_VALUE =? KERN_GET_TARGET_INFO) with false.
  change (KERN_WRITE_TEST_VALUE =? KERN_GET_STATUS) with false.
  change (KERN_WRITE_TEST_VALUE =? KERN_GET_BUFFER_INFO_WAIT) with false.
  change (KERN_WRITE_TEST_VALUE =? KERN_READ_BUFFER_INFO) with false.
  change (KERN_WRITE_TEST_VALUE =? KERN_READ_BUFFER_INFO_WAIT) with false.
  change (KERN_WRITE_TEST_VALUE =? KERN_RESET_BUFFER) with false.
  rewrite Z.eqb_refl. cbn [negb]. rewrite u32_small by width_tac.
  destruct (_ <? _)%nat eqn:E; [|done]. apply Nat.ltb_lt in E. lia.
Qed.

(** *** The megabytes that an overflow has missed *)

(** After an overflow the ring stays as it is and the bitmap gains the blocks of
    the writes, until a reset. *)
Lemma overflow_marks bio bc bc' :
  Forall (fun seg => 0 <= bi_sector seg) bio ->
  is_overflown (buffer_info (ring_buf bc)) = true -> target_write bio bc = Some bc' ->
  ring_buf bc' = ring_buf bc /\
  forall k, 0 <= k ->
    bit_at (overflow bc') k =
    if bool_decide (k ∈ (fun seg => Z.shiftr (bi_sector seg) BDR_BLOCK_SIZE_SHIFT) <$> bio)
    then Some true else bit_at (overflow bc) k.
Proof using.
  intros Hs Ho. unfold target_write, bdr_ring_buffer_is_full. rewrite Ho. intros (bm & E & ->)%fmap_Some.
  split; [done|]. by apply mark_bio_spec.
Qed.
End Chardev.
