(* ===== verification/Target.v ===== *)
(** * Building and removing a target of the kernel module ([kern/main.c])

    [bdr_target_ctr] takes one resource after the other and, when a step fails,
    gives back those it has, from the label of that step on; [bdr_target_dtr]
    gives back all.  [bdr_init] and [bdr_exit] load and unload the module in the
    same way.  What the calls of the kernel answer is given.  Giving back
    what is not held, and a bit of the minor numbers outside their bitmap, is
    [None]. *)
From stdpp Require Import sets.
From S2P Require Import Prelude GoInt GoMonad Networking BlockDev RingBuffer Bitmap Chardev.
Open Scope Z_scope.

(** What a target holds besides its minor number. *)
Inductive resource :=
| RContext            (* [kzalloc] of the context *)
| RDevice             (* [dm_get_device] *)
| RName               (* [kstrdup] *)
| RRing               (* the buffer of the ring *)
| RNode (minor : Z)   (* [device_create] *)
| RCdev (minor : Z)   (* [cdev_add] *)
| ROverflow.          (* the words of the overflow bitmap *)

#[export] Instance resource_eq_dec : EqDecision resource.
Proof. solve_decision. Defined.

Record kworld := mkWorld {
  minors : bdr_bitmap;       (* [bdr_minor_bitmap] *)
  held : list resource;
}.

Fixpoint give_back `{EqDecision A} (r : A) (l : list A) : option (list A) :=
  match l with
  | [] => None
  | x :: l => if decide (x = r) then Some l else cons x <$> give_back r l
  end.

Definition acquire (r : resource) (w : kworld) : kworld := mkWorld (minors w) (r :: held w).
Definition release (r : resource) (w : kworld) : option kworld :=
  mkWorld (minors w) <$> give_back r (held w).
Definition release_minor (m : Z) (w : kworld) : option kworld :=
  (fun bm => mkWorld bm (held w)) <$> bdr_bitmap_free m (minors w).

(** The answers of the kernel to one [bdr_target_ctr]. *)
Record answers := mkAnswers {
  an_context : bool;                (* [kzalloc] *)
  an_device : option errno;         (* [dm_get_device] *)
  an_name : bool;                   (* [kstrdup] *)
  an_max_writes : option Z;         (* [sscanf] of the third argument *)
  an_ring : option (list byte);     (* [vmalloc] *)
  an_node : option errno;           (* [device_create] *)
  an_cdev : option errno;           (* [cdev_add] *)
  an_capacity : Z;                  (* [get_capacity] *)
  an_overflow : bool;               (* [kzalloc] of the bitmap *)
}.

Record target := mkTargetOf { context : bdr_context; chardev_minor : Z }.

(** ** The character device *)

Definition bdr_chardev_init (a : answers) (w : kworld) : option ((errno + Z) * kworld) :=
  '(r, bm) ← bdr_bitmap_allocate (minors w);
  match r with
  | inl _ => Some (inl ENOMEM, w)
  | inr minor =>
      let w := mkWorld bm (held w) in
      let err_device e w := w ← release_minor minor w; Some (inl e, w) in
      match an_node a with
      | Some e => err_device e w
      | None =>
          let w := acquire (RNode minor) w in
          match an_cdev a with
          | Some e => w ← release (RNode minor) w; err_device e w
          | None => Some (inr minor, acquire (RCdev minor) w)
          end
      end
  end.

(** [unregister_chrdev_region] of one number finds no region of that size and
    does nothing. *)
Definition bdr_chardev_destroy (minor : Z) (w : kworld) : option kworld :=
  w ← release_minor minor w; w ← release (RNode minor) w; release (RCdev minor) w.

(** ** The target *)

(** The labels of [bdr_target_ctr], the last one first. *)
Definition err_get_dev (ret : option errno) (w : kworld) : option (option errno * option target * kworld) :=
  w ← release RContext w; Some (ret, None, w).
Definition err_name (ret : option errno) (w : kworld) : option (option errno * option target * kworld) :=
  w ← release RDevice w; err_get_dev ret w.
Definition err_scanf_buffer (ret : option errno) (w : kworld) : option (option errno * option target * kworld) :=
  w ← release RName w; err_name ret w.
Definition err_chardev (ret : option errno) (w : kworld) : option (option errno * option target * kworld) :=
  w ← release RRing w; err_scanf_buffer ret w.
Definition err_bitmap (minor : Z) (ret : option errno) (w : kworld) : option (option errno * option target * kworld) :=
  w ← bdr_chardev_destroy minor w; err_chardev ret w.

(** The result is [ret], where [None] is 0, and what [ti->private] points to.  The
    last steps first: the character device and the bitmap, and before them the
    ring. *)
Definition ctr_chardev (rb : bdr_ring_buffer) (a : answers) (w : kworld)
  : option (option errno * option target * kworld) :=
  '(r, w) ← bdr_chardev_init a w;
  match r with
  | inl e => err_chardev (Some e) w
  | inr minor =>
      match overflow_bm (an_overflow a) (an_capacity a) with
      | inl e => err_bitmap minor (Some e) w
      | inr bm => Some (None, Some (mkTargetOf (mkContext rb ACTIVE bm) minor), acquire ROverflow w)
      end
  end.

Definition ctr_ring (max_writes : Z) (a : answers) (w : kworld) : option (option errno * option target * kworld) :=
  match bdr_ring_buffer_init (an_ring a) max_writes with
  | inl e => err_scanf_buffer (Some e) w
  | inr rb => ctr_chardev rb a (acquire RRing w)
  end.

Definition bdr_target_ctr (argc : Z) (a : answers) (w : kworld) : option (option errno * option target * kworld) :=
  if negb (argc =? 3) then Some (Some EINVAL, None, w)
  else if negb (an_context a) then Some (Some ENOMEM, None, w)
  else
    let w := acquire RContext w in
    let ret := an_device a in
    match ret with
    | Some _ => err_get_dev ret w
    | None =>
        let w := acquire RDevice w in
        if negb (an_name a) then err_name (Some ENOMEM) w
        else
          let w := acquire RName w in
          match an_max_writes a with
          | None | Some 0 => err_scanf_buffer ret w
          | Some max_writes =>
              ctr_ring max_writes a w
          end
    end.

Definition bdr_target_dtr (t : target) (w : kworld) : option kworld :=
  w ← bdr_chardev_destroy (chardev_minor t) w;
  w ← release RDevice w; w ← release RRing w; w ← release ROverflow w;
  w ← release RName w; release RContext w.

(** ** The module *)

Definition BDR_MAX_DEVICES : Z := 64.

(** What the module holds. *)
Inductive module_resource :=
| MTarget      (* [dm_register_target] *)
| MClass       (* [class_create] *)
| MRegion      (* [alloc_chrdev_region] *)
| MMinors.     (* the words of [bdr_minor_bitmap] *)

#[export] Instance module_resource_eq_dec : EqDecision module_resource.
Proof. solve_decision. Defined.

(** The answers of the kernel to [bdr_init]. *)
Record module_answers := mkModuleAnswers {
  ma_target : option errno;
  ma_class : option errno;
  ma_region : option errno;
  ma_minors : bool;                 (* [kzalloc] of the bitmap *)
}.

(** The labels of [bdr_init]; the error, or the bitmap of the minor numbers. *)
Definition init_err_class (ret : errno) (l : list module_resource)
  : option ((errno + bdr_bitmap) * list module_resource) :=
  l ← give_back MTarget l; Some (inl ret, l).
Definition init_err_region (ret : errno) (l : list module_resource)
  : option ((errno + bdr_bitmap) * list module_resource) :=
  l ← give_back MClass l; init_err_class ret l.
Definition init_err_bitmap (ret : errno) (l : list module_resource)
  : option ((errno + bdr_bitmap) * list module_resource) :=
  l ← give_back MRegion l; init_err_region ret l.

Definition bdr_init (a : module_answers) (l : list module_resource)
  : option ((errno + bdr_bitmap) * list module_resource) :=
  match ma_target a with
  | Some ret => Some (inl ret, l)
  | None =>
      let l := MTarget :: l in
      match ma_class a with
      | Some ret => init_err_class ret l
      | None =>
          let l := MClass :: l in
          match ma_region a with
          | Some ret => init_err_region ret l
          | None =>
              let l := MRegion :: l in
              match bdr_bitmap_init (ma_minors a) BDR_MAX_DEVICES with
              | inl ret => init_err_bitmap ret l
              | inr bm => Some (inr bm, MMinors :: l)
              end
          end
      end
  end.

Definition bdr_exit (l : list module_resource) : option (list module_resource) :=
  l ← give_back MClass l; l ← give_back MTarget l; give_back MRegion l.

(** ** Nothing is lost and nothing is given back twice *)

Definition same_minors (a b : bdr_bitmap) : Prop := forall k, 0 <= k -> bit_at a k = bit_at b k.

(** What a target holds. *)
Definition resources (minor : Z) : list resource := [RContext; RDevice; RName; RRing; RNode minor; RCdev minor; ROverflow].

Lemma give_back_in `{EqDecision A} (r : A) l : r ∈ l -> exists k, give_back r l = Some k /\ l ≡ₚ r :: k.
Proof.
  induction l as [|x l IH]; intros H; [by apply not_elem_of_nil in H|]. cbn.
  destruct (decide (x = r)) as [->|Hne]; [by exists l|]. apply elem_of_cons in H as [->|H]; [done|].
  destruct (IH H) as (k & -> & Hk). exists (x :: k). split; [done|]. rewrite Hk. apply Permutation_swap.
Qed.

Lemma release_spec r w l :
  held w ≡ₚ r :: l -> exists w', release r w = Some w' /\ held w' ≡ₚ l /\ minors w' = minors w.
Proof.
  intros Hl. destruct (give_back_in r (held w)) as (k & E & Hk); [rewrite Hl; by left|].
  unfold release. rewrite E. eexists. split; [done|]. split; [|done]. cbn. rewrite Hk in Hl. by apply Permutation_cons_inv in Hl.
Qed.

Lemma release_minor_spec m ws w :
  wf_bitmap ws (minors w) -> 0 <= m < max_bits (minors w) ->
  exists w' ws', release_minor m w = Some w' /\ held w' = held w /\ wf_bitmap ws' (minors w') /\
    max_bits (minors w') = max_bits (minors w) /\ bit_at (minors w') m = Some false /\
    forall k, 0 <= k -> k <> m -> bit_at (minors w') k = bit_at (minors w) k.
Proof.
  intros W Hm. destruct (bitmap_update_spec false m ws (minors w) W Hm) as (bm & ws' & E & W' & Em & Hb & Ho).
  unfold release_minor, bdr_bitmap_free. rewrite E. exists (mkWorld bm (held w)), ws'. by split_and!.
Qed.

(** The character device is removed. *)
Lemma chardev_destroy_spec m ws w l :
  wf_bitmap ws (minors w) -> 0 <= m < max_bits (minors w) -> held w ≡ₚ RNode m :: RCdev m :: l ->
  exists w' ws', bdr_chardev_destroy m w = Some w' /\ held w' ≡ₚ l /\ wf_bitmap ws' (minors w') /\
    bit_at (minors w') m = Some false /\ forall k, 0 <= k -> k <> m -> bit_at (minors w') k = bit_at (minors w) k.
Proof.
  intros W Hm Hp. unfold bdr_chardev_destroy.
  destruct (release_minor_spec m ws w W Hm) as (w1 & ws' & -> & H1 & W1 & _ & Hb & Ho). cbn [mbind option_bind].
  destruct (release_spec (RNode m) w1 (RCdev m :: l)) as (w2 & -> & H2 & M2); [by rewrite H1|]. cbn [mbind option_bind].
  destruct (release_spec (RCdev m) w2 l H2) as (w3 & -> & H3 & M3). exists w3, ws'. rewrite M3, M2. by split_and!.
Qed.

(** The labels give back what is held at them. *)
Section Labels.
Context (ret : option errno) (l : list resource).

Definition gone (w : kworld) (r : option (option errno * option target * kworld)) : Prop :=
  exists w', r = Some (ret, None, w') /\ held w' ≡ₚ l /\ minors w' = minors w.

Lemma err_get_dev_gone w : held w ≡ₚ RContext :: l -> gone w (err_get_dev ret w).
Proof using. intros H. unfold err_get_dev. destruct (release_spec _ w l H) as (w1 & -> & H1 & M1). by exists w1. Qed.

Lemma err_name_gone w : held w ≡ₚ RDevice :: RContext :: l -> gone w (err_name ret w).
Proof using.
  intros H. unfold err_name. destruct (release_spec _ w _ H) as (w1 & -> & H1 & M1).
  unfold gone. rewrite <- M1. by apply err_get_dev_gone.
Qed.

Lemma err_scanf_gone w : held w ≡ₚ RName :: RDevice :: RContext :: l -> gone w (err_scanf_buffer ret w).
Proof using.
  intros H. unfold err_scanf_buffer. destruct (release_spec _ w _ H) as (w1 & -> & H1 & M1).
  unfold gone. rewrite <- M1. by apply err_name_gone.
Qed.

Lemma err_chardev_gone w : held w ≡ₚ RRing :: RName :: RDevice :: RContext :: l -> gone w (err_chardev ret w).
Proof using.
  intros H. unfold err_chardev. destruct (release_spec _ w _ H) as (w1 & -> & H1 & M1).
  unfold gone. rewrite <- M1. by apply err_scanf_gone.
Qed.
End Labels.

(** The character device of a target is there, or the minor numbers are as
    before. *)
Lemma chardev_init_spec a ws w :
  wf_bitmap ws (minors w) ->
  exists r w', bdr_chardev_init a w = Some (r, w') /\
  match r with
  | inl _ => held w' ≡ₚ held w /\ same_minors (minors w') (minors w)
  | inr m => held w' = RCdev m :: RNode m :: held w /\ 0 <= m < max_bits (minors w') /\
      (exists ws', wf_bitmap ws' (minors w')) /\ bit_at (minors w) m = Some false /\ bit_at (minors w') m = Some true /\
      forall k, 0 <= k -> k <> m -> bit_at (minors w') k = bit_at (minors w) k
  end.
Proof.
  intros W. destruct (allocate_spec ws (minors w) W) as (r & bm & E & H). unfold bdr_chardev_init. rewrite E.
  cbn [mbind option_bind]. destruct r as [e|m].
  { exists (inl ENOMEM), w. split_and!; done. }
  destruct H as (Hm & Em & (ws' & W') & Hf & Hs & Ho).
  assert (Hback : forall w1, minors w1 = bm -> exists w2, release_minor m w1 = Some w2 /\ held w2 = held w1 /\
    same_minors (minors w2) (minors w)).
  { intros w1 <-. rewrite <- Em in Hm. destruct (release_minor_spec m ws' w1 W' Hm) as (w2 & _ & E2 & H2 & _ & _ & Hb & Ho2).
    exists w2. split_and!; [done|done|]. intros k Hk. destruct (decide (k = m)) as [->|]; [by rewrite Hb|].
    rewrite Ho2, Ho; done. }
  destruct (an_node a) as [e|].
  { destruct (Hback (mkWorld bm (held w)) eq_refl) as (w2 & -> & H2 & S2). exists (inl e), w2. by rewrite H2. }
  destruct (an_cdev a) as [e|].
  - destruct (release_spec (RNode m) (acquire (RNode m) (mkWorld bm (held w))) (held w)) as (w1 & -> & H1 & M1); [done|].
    cbn [mbind option_bind]. destruct (Hback w1 M1) as (w2 & -> & H2 & S2). exists (inl e), w2. by rewrite H2.
  - eexists (inr m), _. split; [done|]. cbn. rewrite Em. split_and!; try done; try lia. by exists ws'.
Qed.

(** The number of entries is missing or zero. *)
Definition no_entries (argc : Z) (a : answers) : Prop :=
  argc = 3 /\ an_context a = true /\ an_device a = None /\ an_name a = true /\
  (an_max_writes a = None \/ an_max_writes a = Some 0).

(** A construction that leaves nothing behind; its result is 0 only in that
    case. *)
Definition given_back (argc : Z) (a : answers) (w : kworld) (r : option (option errno * option target * kworld)) : Prop :=
  exists ret w', r = Some (ret, None, w') /\ held w' ≡ₚ held w /\ same_minors (minors w') (minors w) /\
    (ret = None <-> no_entries argc a).

Definition constructed (w : kworld) (r : option (option errno * option target * kworld)) : Prop :=
  exists t w', r = Some (None, Some t, w') /\ status (context t) = ACTIVE /\
    held w' ≡ₚ resources (chardev_minor t) ++ held w /\
    bit_at (minors w) (chardev_minor t) = Some false /\ bit_at (minors w') (chardev_minor t) = Some true /\
    forall k, 0 <= k -> k <> chardev_minor t -> bit_at (minors w') k = bit_at (minors w) k.

Lemma gone_given argc a w ret w1 r :
  gone ret (held w) w1 r -> same_minors (minors w1) (minors w) -> (ret = None <-> no_entries argc a) ->
  given_back argc a w r.
Proof. intros (w' & -> & H & M) S I. exists ret, w'. by rewrite M. Qed.

(** The destructor gives back what the target holds, whatever other targets have
    taken and given back in the meantime. *)
Lemma target_dtr_releases t ws w l :
  wf_bitmap ws (minors w) -> 0 <= chardev_minor t < max_bits (minors w) -> held w ≡ₚ resources (chardev_minor t) ++ l ->
  exists w', bdr_target_dtr t w = Some w' /\ held w' ≡ₚ l /\ bit_at (minors w') (chardev_minor t) = Some false /\
    forall k, 0 <= k -> k <> chardev_minor t -> bit_at (minors w') k = bit_at (minors w) k.
Proof.
  intros W Hm Hp. unfold bdr_target_dtr. set (m := chardev_minor t) in *.
  destruct (chardev_destroy_spec m ws w ([RDevice; RRing; ROverflow; RName; RContext] ++ l) W Hm)
    as (w1 & _ & -> & H1 & _ & Hb & Ho).
  { rewrite Hp.
    change (RNode m :: RCdev m :: [RDevice; RRing; ROverflow; RName; RContext] ++ l)
      with ([RNode m; RCdev m; RDevice; RRing; ROverflow; RName; RContext] ++ l).
    apply Permutation_app_tail, NoDup_Permutation.
    - unfold resources. repeat constructor; set_solver.
    - repeat constructor; set_solver.
    - set_solver. }
  cbn [mbind option_bind].
  destruct (release_spec _ w1 _ H1) as (w2 & -> & H2 & M2). cbn [mbind option_bind].
  destruct (release_spec _ w2 _ H2) as (w3 & -> & H3 & M3). cbn [mbind option_bind].
  destruct (release_spec _ w3 _ H3) as (w4 & -> & H4 & M4). cbn [mbind option_bind].
  destruct (release_spec _ w4 _ H4) as (w5 & -> & H5 & M5). cbn [mbind option_bind].
  destruct (release_spec _ w5 _ H5) as (w6 & -> & H6 & M6). exists w6. rewrite M6, M5, M4, M3, M2. by split_and!.
Qed.

(** From the ring on. *)
Lemma ctr_tail argc a ws w rb :
  wf_bitmap ws (minors w) -> ~ no_entries argc a ->
  let w1 := acquire RRing (acquire RName (acquire RDevice (acquire RContext w))) in
  given_back argc a w (ctr_chardev rb a w1) \/ constructed w (ctr_chardev rb a w1).
Proof.
  intros W Hn w1. unfold ctr_chardev. destruct (chardev_init_spec a ws w1 W) as (r & w2 & -> & H). cbn [mbind option_bind].
  destruct r as [e|m].
  { left. destruct H as [H S]. by apply (gone_given argc a w (Some e) w2); [apply err_chardev_gone|..]. }
  destruct H as (Hh & Hm & (ws' & W') & Hf & Hs & Ho).
  destruct (overflow_bm _ _) as [e|bm].
  - left. unfold err_bitmap.
    destruct (chardev_destroy_spec m ws' w2 (held w1) W' Hm) as (w3 & ws3 & -> & H3 & _ & Hb & Ho3);
      [rewrite Hh; apply Permutation_swap|]. cbn [mbind option_bind].
    apply (gone_given argc a w (Some e) w3); [by apply err_chardev_gone| |done].
    intros k Hk. destruct (decide (k = m)) as [->|]; [by rewrite Hb, <- Hf|]. by rewrite Ho3, Ho.
  - right. eexists _, _. split; [done|]. cbn. rewrite Hh. split_and!; try done.
    exact (Permutation_app_tail (held w) (reverse_Permutation (resources m))).
Qed.

(** C30: the constructor of a target either gives the target all it needs, with a
    minor number that was free, or gives everything back: nothing is leaked and
    nothing is given back twice, whatever step fails.  But it gives everything back
    and still returns 0 exactly when the number of entries is missing or zero: the
    device mapper then takes the target, whose context does not exist. *)
Theorem target_ctr_releases argc a ws w :
  wf_bitmap ws (minors w) ->
  given_back argc a w (bdr_target_ctr argc a w) \/ constructed w (bdr_target_ctr argc a w).
Proof.
  intros W. unfold bdr_target_ctr.
  destruct (Z.eqb_spec argc 3) as [->|Hargc]; cbn [negb].
  2:{ left. eexists _, _. split; [done|]. split_and!; [done|done|]. by split; [|intros (? & _)]. }
  destruct (an_context a) eqn:Ec; cbn [negb].
  2:{ left. eexists _, _. split; [done|]. split_and!; [done|done|]. split; [done|]. intros (_ & ? & _). congruence. }
  destruct (an_device a) as [e|] eqn:Ed.
  { left. eapply gone_given; [by apply err_get_dev_gone|done|]. split; [done|]. intros (_ & _ & ? & _). congruence. }
  destruct (an_name a) eqn:En; cbn [negb].
  2:{ left. eapply gone_given; [by apply err_name_gone|done|]. split; [done|]. intros (_ & _ & _ & ? & _). congruence. }
  assert (Hne : forall max, an_max_writes a = Some max -> max <> 0 -> ~ no_entries 3 a)
    by (intros max Em H0 (_ & _ & _ & _ & [H|H]); congruence).
  assert (Hz : an_max_writes a = None \/ an_max_writes a = Some 0 ->
    given_back 3 a w (err_scanf_buffer None (acquire RName (acquire RDevice (acquire RContext w))))).
  { intros H. eapply gone_given; [by apply err_scanf_gone|done|]. split; [intros _; unfold no_entries; by split_and!|done]. }
  assert (Hp : forall max, an_max_writes a = Some max -> max <> 0 ->
    let w1 := acquire RName (acquire RDevice (acquire RContext w)) in
    given_back 3 a w (ctr_ring max a w1) \/ constructed w (ctr_ring max a w1)).
  { intros max Em H0 w1. unfold ctr_ring. destruct (bdr_ring_buffer_init _ _) as [e|rb].
    - left. eapply gone_given; [by apply err_scanf_gone|done|]. split; [done|]. intros H. by destruct (Hne max Em H0).
    - apply (ctr_tail 3 a ws w rb W). by eapply Hne. }
  destruct (an_max_writes a) as [[|p|p]|] eqn:Em; [left; apply Hz; auto|by apply Hp|by apply Hp|left; apply Hz; auto].
Qed.

(** A target of two entries, and one of none. *)
Definition fresh_world : kworld := mkWorld (mkBitmap (Some [0]) 64) [].
Definition willing (max_writes : option Z) : answers :=
  mkAnswers true None true max_writes (Some (replicate 8208 Byte.x00)) None None 4096 true.

Lemma target_ctr_releases_witness :
  constructed fresh_world (bdr_target_ctr 3 (willing (Some 2)) fresh_world) /\
  bdr_target_ctr 3 (willing (Some 0)) fresh_world = Some (None, None, fresh_world).
Proof.
  assert (W : wf_bitmap [0] (minors fresh_world)) by (by split_and!).
  split; [|reflexivity]. destruct (target_ctr_releases 3 (willing (Some 2)) [0] fresh_world W) as [H|H]; [|exact H].
  exfalso. destruct H as (ret & w' & E & _). vm_compute in E. discriminate E.
Defined.

(** Loading the module either fails and has given back all it took, or makes a
    bitmap with a bit for each of the 64 minor numbers, all free; and then
    unloading it does not fail but leaves the words of that bitmap allocated. *)
Lemma module_load_unload a l :
  (exists ret, bdr_init a l = Some (inl ret, l)) \/
  (exists ws bm l', bdr_init a l = Some (inr bm, l') /\ wf_bitmap ws bm /\ max_bits bm = 64 /\
    (forall k, 0 <= k < 64 -> bit_at bm k = Some false) /\ bdr_exit l' = Some (MMinors :: l)).
Proof.
  unfold bdr_init. destruct (ma_target a) as [e|]; [left; by exists e|].
  destruct (ma_class a) as [e|]; [left; by exists e|]. destruct (ma_region a) as [e|]; [left; by exists e|].
  destruct (ma_minors a); [|left; by exists ENOMEM]. right. cbn.
  eexists [0], _, _. split; [reflexivity|]. split_and!; try done.
  intros k Hk. unfold bit_at. cbn. unfold test_bit.
  unfold word_of. rewrite Z.div_small by (unfold BITS_PER_LONG; lia). exact (f_equal Some (Z.testbit_0_l (bit_of k))).
Qed.
