(* ===== verification/ClientFacts.v ===== *)
(** * Facts about the client's operations *)
From S2P Require Import Prelude GoInt GoMonad GoChan Utils BlockDev Blocks Networking Journal JournalCodec Pause RingBuffer Client.
Open Scope Z_scope.

(** ** A client whose calls succeed *)

Definition connected (c : Client) : Prop := encFaults c = [] /\ ioctlFaults c = [] /\ termIn c = None.

Lemma Encode_ok p c : encFaults c = [] -> Encode p c = (Ret tt, set_net (csent c ++ [p]) [] c).
Proof. intros H. unfold Encode. by rewrite H. Qed.

Lemma SendPacket_ok p c : encFaults c = [] -> SendPacket p c = (Ret tt, set_net (csent c ++ [p]) [] c).
Proof.
  intros H. unfold SendPacket. erewrite bind_Ret by done. cbn [send_loop].
  by rewrite (bind_Ret _ _ _ _ _ (catch_Ret _ _ _ _ (Encode_ok p c H))).
Qed.

Lemma CheckTermination_up c : termIn c = None -> CheckTermination c = (Ret false, c).
Proof. intros H. unfold CheckTermination. by rewrite H. Qed.

(** ** Transient send errors *)

(** Outcomes of [Encode] that start with [n] errors. *)
Definition transient (n : nat) (fs : list (option error)) : Prop :=
  exists es rest, fs = (Some <$> es) ++ rest /\ length es = n /\
    match rest with Some _ :: _ => False | _ => True end.

(** The fuel of [SendPacket] is enough: without a termination request the packet
    is sent, after as many retries as there are errors. *)
Lemma send_loop_retries fuel p c es rest :
  encFaults c = (Some <$> es) ++ rest -> match rest with Some _ :: _ => False | _ => True end ->
  termIn c = None -> (length es < fuel)%nat ->
  send_loop fuel p c = (Ret tt, set_net (csent c ++ [p]) (tail rest) c).
Proof.
  revert c es. induction fuel as [|fuel IH]; intros c es He Hr Ht Hl; [lia|]. cbn [send_loop].
  destruct es as [|e es]; cbn in He.
  - unfold bind, catch, Encode. rewrite He. destruct rest as [|[e|] rest]; done.
  - unfold bind at 1. unfold catch, Encode. rewrite He. cbn.
    unfold bind, CheckTermination. cbn. rewrite Ht.
    rewrite (IH (set_net (csent c) ((Some <$> es) ++ rest) c) es); [done|done|done|done|].
    cbn in Hl. lia.
Qed.

(** ** The kernel *)

Lemma executeIOCTL_ok cmd c :
  ioctlFaults c = [] ->
  executeIOCTL cmd c =
  match cmd with
  | CmdResetBuffer => (Ret zeroBufferInfo, set_kernel [] (bdr_ring_buffer_reset (kernel c)) c)
  | CmdReadBufferInfo =>
      (Ret (buffer_info (kernel c)), set_kernel [] (bdr_buffer_read_routine (kernel c)).2 c)
  end.
Proof. intros H. unfold executeIOCTL. by rewrite H. Qed.

Lemma ServeIOCTL_ok cmd c :
  ioctlFaults c = [] -> termIn c = None -> ServeIOCTL cmd c = executeIOCTL cmd c.
Proof.
  intros H Ht. unfold ServeIOCTL. erewrite bind_Ret by done. cbn [ioctl_loop].
  rewrite (bind_Ret _ _ _ _ _ (CheckTermination_up c Ht)).
  unfold bind, catch. rewrite (executeIOCTL_ok cmd c H). by destruct cmd.
Qed.

(** ** The pause controller *)

(** The channel of the controller is open and holds at most one request. *)
Definition contr_ok (p : PauseController) : Prop :=
  cclosed p = false /\ ccap p = 1%nat /\ (length (cbuf p) <= 1)%nat.

Lemma request_ok st p :
  contr_ok p -> request st p = Done (mkChan [st] 1 false).
Proof.
  destruct p as [buf cap cl]. intros (Hc & Hk & Hl); cbn in *; subst. unfold request, drainChannel, chan_recv; cbn.
  destruct buf as [|x [|y buf]]; cbn in *; [done|done|lia].
Qed.

Lemma IsPaused_ok p :
  contr_ok p -> IsPaused p = Done (match cbuf p with Paused :: _ => true | _ => false end, p).
Proof.
  destruct p as [buf cap cl]. intros (Hc & Hk & Hl); cbn in *; subst. unfold IsPaused, chan_recv; cbn.
  destruct buf as [|x [|y buf]]; cbn in *; [done| |lia]. by destruct x.
Qed.

(** [start] resets the kernel buffer before it pauses the monitor, and announces
    the scan last. *)
Lemma start_ok st t c :
  connected c -> contr_ok (MonitorPauseContr c) ->
  start st t c =
  (Ret tt, set_net (csent c ++ [CreateInfoPacket t]) []
            (set_cstate st (set_contr (mkChan [Paused] 1 false)
              (set_kernel [] (bdr_ring_buffer_reset (kernel c)) c)))).
Proof.
  intros (He & Hi & Ht) Hp. unfold start.
  rewrite (bind_Ret _ _ _ tt (set_kernel [] (bdr_ring_buffer_reset (kernel c)) c)).
  2:{ eapply ignore_Ret. rewrite ServeIOCTL_ok by done. by rewrite executeIOCTL_ok. }
  rewrite (bind_Ret _ _ _ tt (set_contr (mkChan [Paused] 1 false)
             (set_kernel [] (bdr_ring_buffer_reset (kernel c)) c))).
  2:{ unfold on_contr, lift_unit, Pause. cbn [MonitorPauseContr set_kernel]. by rewrite request_ok. }
  erewrite bind_Ret by done. by rewrite SendPacket_ok.
Qed.

(** ** Entries of the shared buffer *)

(** The kernel's [struct bdr_write_info]. *)
Definition entry_bytes (sector size : Z) (page : list byte) : list byte :=
  le_put 4 sector ++ le_put 4 size ++ page.

(** A buffer of [n] entries, all of the size the kernel announced. *)
Record wf_buffer (t : TargetInfo) (n : nat) (buf : list byte) : Prop := {
  wb_page : 0 <= PageSize t < 2 ^ 31;
  wb_entry : tiWriteInfoSize t = 8 + PageSize t;
  wb_len : length buf = (n * Z.to_nat (tiWriteInfoSize t))%nat;
  wb_max : Z.of_nat n * tiWriteInfoSize t < 2 ^ 63;
}.

(** The [k]-th entry. *)
Definition slot_at (t : TargetInfo) (k : nat) (buf : list byte) : list byte :=
  sub (k * Z.to_nat (tiWriteInfoSize t)) (Z.to_nat (tiWriteInfoSize t)) buf.

Definition entry_at (t : TargetInfo) (k : nat) (buf : list byte) : WriteInfo :=
  {| Offset := KernelLogicalSectorSize * le_get (sub 0 4 (slot_at t k buf));
     Size := le_get (sub 4 4 (slot_at t k buf));
     Data := sub 8 (Z.to_nat (PageSize t)) (slot_at t k buf) |}.

(** The kernel's description of the new entries. *)
Record wf_info (n : nat) (b : BufferInfo) : Prop := {
  wi_n : (0 < n)%nat;
  wi_max : biMaxWrites b = Z.of_nat n;
  wi_off : 0 <= biOffset b < Z.of_nat n;
  wi_len : 0 <= biLength b <= Z.of_nat n;
}.

Definition ring (n : nat) (b : BufferInfo) (i : Z) : nat := Z.to_nat ((biOffset b + i) mod Z.of_nat n).

Section Entries.
Context (t : TargetInfo) (n : nat) (buf : list byte) (B : wf_buffer t n buf).
Context (b : BufferInfo) (W : wf_info n b).

Lemma ring_lt i : (ring n b i < n)%nat.
Proof using W.
  destruct W. unfold ring. pose proof (Z.mod_pos_bound (biOffset b + i) (Z.of_nat n)). lia.
Qed.

Lemma byte_offset i :
  0 <= i < biLength b ->
  GetBufferInfoByteOffset t b i = Some (Z.of_nat (ring n b i) * tiWriteInfoSize t) /\
  (Z.of_nat (ring n b i) + 1) * tiWriteInfoSize t <= Z.of_nat (length buf).
Proof using B W.
  intros Hi. pose proof (ring_lt i) as Hr. destruct W as [W1 W2 W3 W4]. destruct B as [B1 B2 B3 B4].
  unfold GetBufferInfoByteOffset. rewrite W2. destruct (_ =? _) eqn:E; [lia|].
  assert (Hn : Z.of_nat n < 2 ^ 63) by nia.
  rewrite (u64_small (biOffset b + i)) by width_tac.
  replace ((biOffset b + i) mod Z.of_nat n) with (Z.of_nat (ring n b i))
    by (unfold ring; rewrite Z2Nat.id; [done|]; apply Z.mod_pos_bound; lia).
  assert (Z.of_nat (ring n b i) * tiWriteInfoSize t <= Z.of_nat n * tiWriteInfoSize t) by nia.
  rewrite u64_small by width_tac. split; [done|]. rewrite B3. nia.
Qed.

Lemma length_slot_at k : (k < n)%nat -> length (slot_at t k buf) = Z.to_nat (tiWriteInfoSize t).
Proof using B. intros Hk. destruct B as [B1 B2 B3 B4]. apply length_sub. rewrite B3. nia. Qed.

Lemma read_entry_at k : (k < n)%nat -> read_entry t (slot_at t k buf) = Some (entry_at t k buf).
Proof using B.
  intros Hk. pose proof (length_slot_at k Hk) as Hl. destruct B as [B1 B2 B3 B4].
  unfold read_entry. rewrite Hl. destruct (_ <? _) eqn:E; [apply Z.ltb_lt in E; exfalso; lia|]. unfold entry_at. do 2 f_equal.
  apply u64_small. unfold KernelLogicalSectorSize.
  assert (length (sub 0 4 (slot_at t k buf)) = 4%nat) by (apply length_sub; lia).
  pose proof (le_get_u32 (sub 0 4 (slot_at t k buf)) ltac:(done)). width_tac.
Qed.
End Entries.
