(* ===== verification/ClientProps.v ===== *)
(** * Correctness of the client's buffer handling *)
From S2P Require Import Prelude GoInt GoMonad GoChan Utils BlockDev Blocks Networking Journal JournalCodec Pause.
From S2P Require Import RingBuffer Client ClientFacts.
Open Scope Z_scope.

(** ** Reading the shared buffer *)

Definition buffer_packet (w : WriteInfo) : Packet :=
  {| PacketType := PacketTypePayloadBufferWrite; Payload := PWriteInfo w |}.

(** The packets for the new entries, oldest first. *)
Definition buffer_packets (t : TargetInfo) (n : nat) (b : BufferInfo) (buf : list byte) : list Packet :=
  (fun i => buffer_packet (entry_at t (ring n b (Z.of_nat i)) buf)) <$> seq 0 (Z.to_nat (biLength b)).

(** The monitor may go on: it is not paused, or the caller is not the monitor. *)
Definition may_send (c : Client) (mainLoop : bool) : Prop :=
  mainLoop = false \/ match cbuf (MonitorPauseContr c) with Paused :: _ => False | _ => True end.

Section Process.
Context (n : nat) (b : BufferInfo) (mainLoop : bool) (c0 : Client).
Context (Hc : connected c0) (Hp : contr_ok (MonitorPauseContr c0)).
Context (B : wf_buffer (cTarget c0) n (Buf c0)) (W : wf_info n b).

Lemma process_entry_ok i l :
  0 <= i < biLength b ->
  process_entry b i (set_net l [] c0) =
  (Ret Next, set_net (l ++ [buffer_packet (entry_at (cTarget c0) (ring n b i) (Buf c0))]) [] c0).
Proof using B W.
  intros Hi. destruct (byte_offset _ n _ B b W i Hi) as [E Hle]. pose proof B as [B1 B2 B3 B4].
  pose proof (ring_lt n b W i) as Hr.
  unfold process_entry. erewrite bind_Ret by done. cbn [cTarget set_net].
  rewrite E. cbn [lift_opt]. erewrite bind_Ret by done. erewrite bind_Ret by done.
  change (Buf (set_net l [] c0)) with (Buf c0).
  assert (Hb : Z.of_nat (ring n b i) * tiWriteInfoSize (cTarget c0) + tiWriteInfoSize (cTarget c0)
    <= Z.of_nat (length (Buf c0))) by lia.
  assert (Hm : Z.of_nat (length (Buf c0)) < 2 ^ 63) by (rewrite B3; lia).
  rewrite u64_small by width_tac. rewrite slice_Some by nia.
  cbn [lift_opt]. erewrite bind_Ret by done.
  replace (sub _ _ (Buf c0)) with (slot_at (cTarget c0) (ring n b i) (Buf c0))
    by (unfold slot_at; f_equal; lia).
  rewrite (read_entry_at _ n _ B) by done. erewrite bind_Ret by done. cbn [encFaults set_net length].
  cbn [send_write]. erewrite bind_Ret by (apply catch_Ret, Encode_ok; done). done.
Qed.

Lemma process_entries_ok m i l :
  may_send c0 mainLoop -> 0 <= i -> i + Z.of_nat m <= biLength b ->
  process_entries m i b mainLoop (set_net l [] c0) =
  (Ret true, set_net (l ++ ((fun k => buffer_packet (entry_at (cTarget c0) (ring n b (i + Z.of_nat k)) (Buf c0)))
                             <$> seq 0 m)) [] c0).
Proof using Hp B W.
  intros Hmay. revert i l. induction m as [|m IH]; intros i l Hi Hm.
  { cbn. by rewrite app_nil_r. }
  cbn [process_entries].
  rewrite (bind_Ret _ _ _ (match cbuf (MonitorPauseContr c0) with Paused :: _ => true | _ => false end)
             (set_net l [] c0)).
  2:{ unfold on_contr. cbn [MonitorPauseContr set_net]. by rewrite IsPaused_ok. }
  assert (Ho : (match cbuf (MonitorPauseContr c0) with Paused :: _ => true | _ => false end) && mainLoop = false).
  { destruct Hmay as [->|Hq]; [apply andb_false_r|]. by destruct (cbuf (MonitorPauseContr c0)) as [|[] ?]. }
  rewrite Ho. rewrite (bind_Ret _ _ _ _ _ (process_entry_ok i l ltac:(lia))).
  rewrite IH by lia. do 2 f_equal. cbn [seq fmap list_fmap]. rewrite <- app_assoc. cbn [app].
  rewrite Z.add_0_r. do 2 f_equal. rewrite <- fmap_S_seq, <- list_fmap_compose.
  apply list_fmap_ext. intros k x _. cbn. do 3 f_equal. lia.
Qed.
End Process.

Lemma process_all n b mainLoop c :
  connected c -> contr_ok (MonitorPauseContr c) ->
  wf_buffer (cTarget c) n (Buf c) -> wf_info n b -> may_send c mainLoop ->
  ProcessBufferInfo b mainLoop c =
  (Ret true, set_net (csent c ++ buffer_packets (cTarget c) n b (Buf c)) [] c).
Proof.
  intros Hc Hp B W Hm. unfold ProcessBufferInfo.
  assert (E : c = set_net (csent c) [] c) by (destruct Hc as (<- & _); by destruct c).
  rewrite E at 1. rewrite (process_entries_ok n b mainLoop c Hp B W); [done|done|lia|].
  destruct W. lia.
Qed.

(** C20: [ProcessBufferInfo] sends exactly the new entries of the shared buffer,
    oldest first and wrapping around at its end, one [WriteInfo] packet each,
    never reading outside the buffer, and returns; for the monitor, as long as it
    is not paused ([may_send]). *)
Theorem ProcessBufferInfo_sends n b mainLoop c :
  connected c -> contr_ok (MonitorPauseContr c) ->
  wf_buffer (cTarget c) n (Buf c) -> wf_info n b -> may_send c mainLoop ->
  ProcessBufferInfo b mainLoop c =
  (Ret true, set_net (csent c ++ buffer_packets (cTarget c) n b (Buf c)) [] c).
Proof. apply process_all. Qed.

(** A buffer of three entries of ten bytes (two-byte pages); the two new ones
    are the last and the first. *)
Definition demo_info : BufferInfo := mkBufferInfo 2 2 0 0 3.
Definition demo_client : Client :=
  {| cTarget := mkTargetInfo 2 10 30 1;
     UnderDevFile := {| content := replicate 16 Byte.x00; faults := [] |};
     kernel := mkRing (entry_bytes 7 2 [Byte.x0a; Byte.x0b] ++ entry_bytes 8 2 [Byte.x0c; Byte.x0d] ++
                       entry_bytes 9 1 [Byte.x0e; Byte.x0f]) demo_info;
     MonitorPauseContr := NewPauseController; cstate := StateWriting; csent := []; encFaults := [];
     ioctlFaults := []; termIn := None |}.

Lemma demo_wf_buffer : wf_buffer (cTarget demo_client) 3 (Buf demo_client).
Proof. split; vm_compute; try (split; intros; discriminate); done. Qed.
Lemma demo_wf_info : wf_info 3 demo_info.
Proof. split; cbn; lia. Qed.
Lemma demo_contr : contr_ok (MonitorPauseContr demo_client).
Proof. split_and!; cbn; [done|done|lia]. Qed.
Lemma demo_connected : connected demo_client.
Proof. done. Qed.

Lemma ProcessBufferInfo_sends_witness :
  buffer_packets (cTarget demo_client) 3 demo_info (Buf demo_client) =
    [buffer_packet {| Offset := 512 * 9; Size := 1; Data := [Byte.x0e; Byte.x0f] |};
     buffer_packet {| Offset := 512 * 7; Size := 2; Data := [Byte.x0a; Byte.x0b] |}] /\
  ProcessBufferInfo demo_info true demo_client =
    (Ret true, set_net (csent demo_client ++
       buffer_packets (cTarget demo_client) 3 demo_info (Buf demo_client)) [] demo_client).
Proof.
  split; [vm_compute; reflexivity|].
  apply (ProcessBufferInfo_sends 3 demo_info true demo_client);
    [exact demo_connected|exact demo_contr|exact demo_wf_buffer|exact demo_wf_info|].
  right. exact I.
Defined.

(** A [struct bdr_write_info] of the kernel is read back as the write it
    describes: byte offset 512 times the sector, the size, and the page. *)
Theorem entry_roundtrip t sector size page :
  is_u32 sector -> is_u32 size -> Z.of_nat (length page) = PageSize t ->
  read_entry t (entry_bytes sector size page) =
  Some {| Offset := 512 * sector; Size := size; Data := page |}.
Proof.
  intros Hs Hz Hp. unfold read_entry, entry_bytes.
  rewrite !length_app, !length_le_put. destruct (_ <? _) eqn:E; [apply Z.ltb_lt in E; lia|].
  rewrite sub_app_l by (by rewrite length_le_put).
  rewrite sub_app_r, length_le_put by (rewrite length_le_put; lia).
  rewrite sub_app_l by (rewrite length_le_put; lia).
  rewrite sub_app_r, length_le_put by (rewrite length_le_put; lia).
  rewrite sub_app_r, length_le_put by (rewrite length_le_put; lia).
  rewrite sub_full by lia.
  rewrite !le_get_put by (change (256 ^ Z.of_nat 4) with (2 ^ 32); width_tac).
  unfold KernelLogicalSectorSize. by rewrite u64_small by width_tac.
Qed.

Lemma entry_roundtrip_witness :
  read_entry (cTarget demo_client) (entry_bytes 9 1 [Byte.x0e; Byte.x0f]) =
  Some {| Offset := 512 * 9; Size := 1; Data := [Byte.x0e; Byte.x0f] |}.
Proof. apply (entry_roundtrip (cTarget demo_client) 9 1 [Byte.x0e; Byte.x0f]); [done|done|reflexivity]. Defined.

(** ** Sending and the end of a scan *)

(** [SendPacket] outlasts transient errors: unless the daemon is being
    terminated, the packet is sent exactly once, after one retry per error. *)
Theorem SendPacket_retries p c es rest :
  encFaults c = (Some <$> es) ++ rest -> match rest with Some _ :: _ => False | _ => True end ->
  termIn c = None ->
  SendPacket p c = (Ret tt, set_net (csent c ++ [p]) (tail rest) c).
Proof.
  intros He Hr Ht. unfold SendPacket. erewrite bind_Ret by done.
  apply (send_loop_retries _ p c es rest); [done|done|done|].
  rewrite He, length_app, length_fmap. lia.
Qed.

Definition demo_flaky : Client :=
  set_net [] [Some (ErrMsg "write: broken pipe"); Some (ErrMsg "write: broken pipe"); None] demo_client.

Lemma SendPacket_retries_witness :
  SendPacket (CreateInfoPacket PacketTypeCmdStartHashing) demo_flaky =
  (Ret tt, set_net [CreateInfoPacket PacketTypeCmdStartHashing] [] demo_flaky).
Proof.
  apply (SendPacket_retries (CreateInfoPacket PacketTypeCmdStartHashing) demo_flaky
           [ErrMsg "write: broken pipe"; ErrMsg "write: broken pipe"] [None]);
    [reflexivity|exact I|reflexivity].
Defined.

(** What the kernel reports next. *)
Definition next_info (c : Client) : BufferInfo := buffer_info (kernel c).
Definition after_read (c : Client) : Client := set_kernel [] (bdr_buffer_read_routine (kernel c)).2 c.

Lemma Buf_after_read c : Buf (after_read c) = Buf c.
Proof.
  unfold Buf, after_read, bdr_buffer_read_routine; cbn. by destruct (is_overflown (buffer_info (kernel c))).
Qed.

Lemma read_info_ok c : connected c -> ServeIOCTL CmdReadBufferInfo c = (Ret (next_info c), after_read c).
Proof. intros (_ & Hi & Ht). rewrite ServeIOCTL_ok by done. by rewrite executeIOCTL_ok. Qed.

Lemma resume_ok c :
  contr_ok (MonitorPauseContr c) ->
  on_contr (lift_unit Resume) c = (Ret tt, set_contr (mkChan [Running] 1 false) c).
Proof. intros H. unfold on_contr, lift_unit, Resume. by rewrite request_ok. Qed.

(** When the server has finished hashing, the client either sends all writes
    buffered during the scan and only then announces the end of the scan and
    lets the monitor run, or, if the kernel buffer has overflown, resets it,
    pauses the monitor and starts a new scan, sending none of them. *)
Theorem ProcessBuffer_spec n c :
  connected c -> contr_ok (MonitorPauseContr c) ->
  wf_buffer (cTarget c) n (Buf c) -> wf_info n (next_info c) ->
  exists c', ProcessBuffer c = (Ret true, c') /\
    if HasNewWrites (next_info c) && CheckOverflow (next_info c)
    then csent c' = csent c ++ [CreateInfoPacket PacketTypeCmdStartHashing] /\
         cstate c' = StateHashing /\ kernel c' = bdr_ring_buffer_reset (kernel (after_read c)) /\
         cbuf (MonitorPauseContr c') = [Paused]
    else csent c' = csent c ++ buffer_packets (cTarget c) n (next_info c) (Buf c) ++
                    [CreateInfoPacket PacketTypeInfoHashingCompleted] /\
         cstate c' = StateWriting /\ kernel c' = kernel (after_read c) /\
         cbuf (MonitorPauseContr c') = [Running].
Proof.
  intros Hc Hp B W. pose proof Hc as (He & Hi & Ht).
  assert (F : forall l, exists c', (SetState StateWriting ;;; on_contr (lift_unit Resume) ;;;
      SendPacket (CreateInfoPacket PacketTypeInfoHashingCompleted) ;;; ret true) (set_net l [] (after_read c)) =
      (Ret true, c') /\ csent c' = l ++ [CreateInfoPacket PacketTypeInfoHashingCompleted] /\
      cstate c' = StateWriting /\ kernel c' = kernel (after_read c) /\ cbuf (MonitorPauseContr c') = [Running]).
  { intros l. eexists. split.
    - erewrite bind_Ret by done. erewrite bind_Ret by (apply resume_ok; exact Hp).
      erewrite bind_Ret by (apply SendPacket_ok; done). reflexivity.
    - done. }
  unfold ProcessBuffer, SendBuffer.
  destruct (HasNewWrites (next_info c)) eqn:En; [destruct (CheckOverflow (next_info c)) eqn:Eo|]; cbn [andb].
  - rewrite (bind_Ret _ _ _ (Some false) (after_read c)).
    2:{ rewrite (bind_Ret _ _ _ _ _ (read_info_ok c Hc)). by rewrite En, Eo. }
    eexists. split; [|].
    + unfold StartHashing. rewrite (bind_Ret _ _ _ _ _ (start_ok StateHashing PacketTypeCmdStartHashing
        (after_read c) ltac:(done) Hp)). reflexivity.
    + done.
  - rewrite (bind_Ret _ _ _ (Some true) (set_net (csent c ++
      buffer_packets (cTarget c) n (next_info c) (Buf c)) [] (after_read c))).
    2:{ rewrite (bind_Ret _ _ _ _ _ (read_info_ok c Hc)). rewrite En, Eo. cbn [negb].
        rewrite (bind_Ret _ _ _ true (set_net (csent c ++
          buffer_packets (cTarget c) n (next_info c) (Buf c)) [] (after_read c))); [done|].
        rewrite <- (Buf_after_read c) in B |- *.
        apply (process_all n (next_info c) false (after_read c)); try done. by left. }
    destruct (F (csent c ++ buffer_packets (cTarget c) n (next_info c) (Buf c))) as (c' & E & H1 & H2).
    exists c'. split; [exact E|]. by rewrite H1, <- app_assoc.
  - rewrite (bind_Ret _ _ _ (Some true) (after_read c)).
    2:{ rewrite (bind_Ret _ _ _ _ _ (read_info_ok c Hc)). by rewrite En. }
    destruct (F (csent c)) as (c' & E & H1 & H2).
    exists c'. split.
    + rewrite <- E. f_equal. unfold after_read, set_kernel, set_net; cbn. by rewrite He.
    + unfold HasNewWrites in En. apply negb_false_iff, Z.eqb_eq in En.
      unfold buffer_packets. rewrite En. by rewrite H1.
Qed.

Lemma ProcessBuffer_spec_witness :
  exists c', ProcessBuffer demo_client = (Ret true, c') /\
    csent c' = csent demo_client ++
      buffer_packets (cTarget demo_client) 3 (next_info demo_client) (Buf demo_client) ++
      [CreateInfoPacket PacketTypeInfoHashingCompleted] /\
    cstate c' = StateWriting /\ kernel c' = kernel (after_read demo_client) /\
    cbuf (MonitorPauseContr c') = [Running].
Proof.
  apply (ProcessBuffer_spec 3 demo_client);
    [exact demo_connected|exact demo_contr|exact demo_wf_buffer|exact demo_wf_info].
Defined.
