(* ===== verification/ClientSession.v ===== *)
(** * The goroutines of the client: [ListenPackets], [MonitorChanges] and the rest

    The listener receives the server's packets, reconnects when the connection
    is closed, and drives the scans; the workers of [InitHashing] compare hashes;
    the monitor sends new writes; [InitReplication] copies the disk.  They share
    one [Client].  [cstep e s] is one atomic action, a schedule a list of
    [cevent]s; one of these is the environment: a write to the mapped device, which
    the kernel puts into the ring and submits to the source. *)
From S2P Require Import Prelude GoInt GoMonad GoChan Utils BlockDev Blocks Networking Journal Pause RingBuffer Client.
Open Scope Z_scope.

(** What a [Decode] of the listener gives: a packet, the expiry of the read
    deadline, or another error. *)
Inductive received :=
| RPacket (p : Packet)
| RTimeout
| RError (e : error).

(** A connection that [net.DialTimeout] returns: the outcomes of the [Encode]s on
    it (see [encFaults]), and what its [Decode]s will give. *)
Record connection := mkConn {
  conn_enc : list (option error);
  conn_in : list received;
}.

(** Where the listener is. *)
Inductive listen_pc :=
| LReceive                            (* in [ReceivePacket] *)
| LReconnect (pastState : State)      (* in the loop of [reconnectToServer] *)
| LSendHash (p : Packet)              (* hashQueue <- packet *)
| LStartHashing                       (* hashWg.Wait() of the three handlers *)
| LHashingCompleted
| LJournalOverflow
| LSendBuffer                         (* [ProcessBuffer]: read the buffer info *)
| LEntries (b : BufferInfo) (i : Z)   (* in the loop of [ProcessBufferInfo] *)
| LResume                             (* SetState, Resume *)
| LAnnounce                           (* send HashingCompleted *)
| LReturn                             (* deferred hashWg.Wait() *)
| LReturned
| LShutdown                           (* InitiateShutdown: its [select] *)
| LClose (returns : bool).            (* ... which has found [TermChan] open: close it; after a journal
                                         overflow the listener then returns *)

(** Where the monitor is. *)
Inductive monitor_pc :=
| MWait                               (* [WaitIfPaused] *)
| MWaiting                            (* in [waitUntilResumed] *)
| MRead                               (* read the buffer info *)
| MEntries (b : BufferInfo) (i : Z)   (* in the loop of [ProcessBufferInfo] *)
| MReturned.

(** [hashers]: the blocks the running [InitHashing] has read and not yet
    compared; [replicator]: the disk size and the blocks [InitReplication] has
    not yet sent. *)
Record CSession := mkCSession {
  cl : Client;
  incoming : list received;
  dials : list (error + connection);
  hashQueue : chan Packet;
  listenPc : listen_pc;
  hashers : option (list (HashInfo * list byte));
  monitorPc : monitor_pc;
  replicator : option (Z * list Z);
}.

(** ** Field updates *)

Definition set_cl (c : Client) (s : CSession) : CSession :=
  mkCSession c (incoming s) (dials s) (hashQueue s) (listenPc s) (hashers s) (monitorPc s) (replicator s).
Definition set_incoming (l : list received) (s : CSession) : CSession :=
  mkCSession (cl s) l (dials s) (hashQueue s) (listenPc s) (hashers s) (monitorPc s) (replicator s).
Definition set_dials (l : list (error + connection)) (s : CSession) : CSession :=
  mkCSession (cl s) (incoming s) l (hashQueue s) (listenPc s) (hashers s) (monitorPc s) (replicator s).
Definition set_hashQueue (q : chan Packet) (s : CSession) : CSession :=
  mkCSession (cl s) (incoming s) (dials s) q (listenPc s) (hashers s) (monitorPc s) (replicator s).
Definition set_listen (l : listen_pc) (s : CSession) : CSession :=
  mkCSession (cl s) (incoming s) (dials s) (hashQueue s) l (hashers s) (monitorPc s) (replicator s).
Definition set_hashers (h : option (list (HashInfo * list byte))) (s : CSession) : CSession :=
  mkCSession (cl s) (incoming s) (dials s) (hashQueue s) (listenPc s) h (monitorPc s) (replicator s).
Definition set_monitor (m : monitor_pc) (s : CSession) : CSession :=
  mkCSession (cl s) (incoming s) (dials s) (hashQueue s) (listenPc s) (hashers s) m (replicator s).
Definition set_replicator (r : option (Z * list Z)) (s : CSession) : CSession :=
  mkCSession (cl s) (incoming s) (dials s) (hashQueue s) (listenPc s) (hashers s) (monitorPc s) r.

(** A method of [*Client] called in the middle of a step. *)
Definition on_cl {A} (m : M Client A) (s : CSession) (k : A -> CSession -> attempt CSession)
  : attempt CSession :=
  match m (cl s) with
  | (Ret a, c) => k a (set_cl c s)
  | (Err _, c) => Done (set_cl c s)
  | (Panic, _) => Crash
  end.

(** In a session the termination channel is closed by [InitiateShutdown] only.  It
    looks whether the channel is closed, and closes it in a second step. *)
Definition terminated (s : CSession) : bool :=
  match termIn (cl s) with Some O => true | _ => false end.
Definition InitiateShutdown (s : CSession) : CSession := set_cl (set_termIn (Some O) (cl s)) s.
Definition close_TermChan (s : CSession) : attempt CSession :=
  if terminated s then Crash else Done (InitiateShutdown s).

(** [c.TermChan], for the waiter of the pause controller. *)
Definition TermChan (s : CSession) : chan unit := mkChan [] 0 (terminated s).

Definition HashPacketQueueSize : nat := 8.

Definition close_hashQueue (next : listen_pc) (s : CSession) : attempt CSession :=
  abind (chan_close (hashQueue s)) (fun q => Done (set_listen next (set_hashQueue q s))).
Definition new_hashQueue (s : CSession) : CSession := set_hashQueue (make_chan HashPacketQueueSize) s.

(** ** The listener *)

(** One turn of the loop of [reconnectToServer]. *)
Definition reconnect_turn (pastState : State) (s : CSession) : attempt CSession :=
  if terminated s then Done (set_listen LReceive s)
  else
    match dials s with
    | [] => Blocked
    | inl _ :: ds => Done (set_dials ds s)
    | inr conn :: ds =>
        on_cl (catch (zoom UnderDevFile set_under GetDeviceSize)) (set_dials ds s) (fun r s =>
          match r, conn_enc conn with
          | inr _, _ => Done s
          | inl _, Some _ :: _ => Done s
          | inl deviceSize, enc =>
              let packet := init_packet deviceSize (cTarget (cl s)) in
              let s := set_incoming (conn_in conn) (set_cl (set_net (csent (cl s) ++ [packet]) (tail enc) (cl s)) s) in
              on_cl (if bool_decide (pastState = StateReconnecting) then SetState pastState else StartHashing) s
                (fun _ s => Done (set_listen LReceive s))
          end)
    end.

(** The [switch] of [ListenPackets], up to the first blocking operation. *)
Definition listen_dispatch (packet : Packet) (s : CSession) : attempt CSession :=
  let t := PacketType packet in
  if t =? PacketTypeInfoStartHashing then close_hashQueue LStartHashing s
  else if t =? PacketTypePayloadHash then Done (set_listen (LSendHash packet) s)
  else if t =? PacketTypeInfoHashingCompleted then close_hashQueue LHashingCompleted s
  else if t =? PacketTypeErrJournalOverflow then close_hashQueue LJournalOverflow s
  else if (t =? PacketTypeErrInit) || (t =? PacketTypeErrInvalidSizes) || (t =? PacketTypeErrJournalCreate)
  then Done (set_listen LShutdown s)
  else Done s.

(** One turn of the loop of [ReceivePacket], and what [ListenPackets] does with
    the packet. *)
Definition receive (s : CSession) : attempt CSession :=
  if terminated s then close_hashQueue LReturn s
  else
    match incoming s with
    | [] => Blocked
    | RTimeout :: l => Done (set_incoming l s)
    | RError IoEOF :: _ =>
        let s := set_incoming [] s in              (* nothing follows on this connection *)
        Done (set_listen (LReconnect (cstate (cl s))) (set_cl (set_cstate StateReconnecting (cl s)) s))
    | RError _ :: l => Done (set_incoming l s)
    | RPacket packet :: l => listen_dispatch packet (set_incoming l s)
    end.

Definition hash_idle (s : CSession) : bool := match hashers s with None => true | Some _ => false end.

Definition listen_step (s : CSession) : attempt CSession :=
  match listenPc s with
  | LReceive => receive s
  | LReconnect pastState => reconnect_turn pastState s
  | LSendHash packet =>
      abind (chan_send packet (hashQueue s)) (fun q => Done (set_listen LReceive (set_hashQueue q s)))
  | LStartHashing =>
      if hash_idle s then Done (set_listen LReceive (set_hashers (Some []) (new_hashQueue s))) else Blocked
  | LHashingCompleted => if hash_idle s then Done (set_listen LSendBuffer s) else Blocked
  | LJournalOverflow =>
      if hash_idle s then Done (set_listen (if terminated s then LReturned else LClose true) s) else Blocked
  | LSendBuffer =>
      on_cl (ServeIOCTL CmdReadBufferInfo) s (fun b s =>
        if negb (HasNewWrites b) then Done (set_listen LResume s)
        else if CheckOverflow b
        then on_cl StartHashing s (fun _ s => Done (set_listen LReceive (new_hashQueue s)))
        else Done (set_listen (LEntries b 0) s))
  | LEntries b i =>
      if i <? biLength b then
        on_cl (on_contr IsPaused ;;; process_entry b i) s (fun r s =>
          Done (set_listen (match r with Next => LEntries b (i + 1) | Return => LResume | Spin => LEntries b i end) s))
      else Done (set_listen LResume s)
  | LResume =>
      on_cl (SetState StateWriting ;;; on_contr (lift_unit Resume)) s (fun _ s => Done (set_listen LAnnounce s))
  | LAnnounce =>
      on_cl (SendPacket (CreateInfoPacket PacketTypeInfoHashingCompleted)) s (fun _ s =>
        Done (set_listen LReceive (new_hashQueue s)))
  | LReturn => if hash_idle s then Done (set_listen LReturned s) else Blocked
  | LReturned => Blocked
  | LShutdown => Done (set_listen (if terminated s then LReceive else LClose false) s)
  | LClose returns =>
      abind (close_TermChan s) (fun s => Done (set_listen (if (returns : bool) then LReturned else LReceive) s))
  end.

(** ** The workers of [InitHashing] *)

(** A first-stage worker takes a packet and reads its block. *)
Definition hash_read_step (s : CSession) : attempt CSession :=
  match hashers s with
  | None => Blocked
  | Some items =>
      abind (chan_recv (hashQueue s)) (fun r =>
        match r with
        | (Some packet, q) =>
            let s := set_hashQueue q s in
            match Payload packet with
            | PHashInfo hashInfo =>
                on_cl (read_block (hSize hashInfo) (hOffset hashInfo)) s (fun r s =>
                  if not_EOF r.2 then on_cl StartHashing s (fun _ s => Done s)
                  else Done (set_hashers (Some (items ++ [(hashInfo, r.1)])) s))
            | _ => on_cl StartHashing s (fun _ s => Done s)
            end
        | (None, _) => if (length items =? 0)%nat then Done (set_hashers None s) else Blocked
        end)
  end.

(** The later stages on one of the blocks read. *)
Definition hash_send_step (xxhash : list byte -> Z) (i : nat) (s : CSession) : attempt CSession :=
  match hashers s with
  | None => Blocked
  | Some items =>
      match items !! i with
      | None => Blocked
      | Some (hashInfo, buffer) =>
          let s := set_hashers (Some (delete i items)) s in
          if xxhash buffer =? hHash hashInfo then Done s
          else on_cl (SendCorrectBlock buffer (hOffset hashInfo) (hSize hashInfo)) s (fun _ s => Done s)
      end
  end.

(** ** The monitor *)

Definition monitor_waited (r : waited) (p : PauseController) (s : CSession) : CSession :=
  set_monitor (match r with WReturn true => MReturned | WReturn false => MRead | WLoop => MWaiting end)
    (set_cl (set_contr p (cl s)) s).

(** [pick] resolves the [select] of the waiter when both its cases are ready. *)
Definition monitor_step (pick : bool) (s : CSession) : attempt CSession :=
  match monitorPc s with
  | MWait =>
      let '(r, p) := WaitIfPaused pick (TermChan s) (MonitorPauseContr (cl s)) in
      Done (monitor_waited r p s)
  | MWaiting =>
      abind (waitUntilResumed pick (TermChan s) (MonitorPauseContr (cl s))) (fun '(r, p) =>
        Done (monitor_waited r p s))
  | MRead =>
      on_cl (ServeIOCTL CmdReadBufferInfo) s (fun b s =>
        if negb (HasNewWrites b) then Done (set_monitor MWait s)
        else if CheckOverflow b then on_cl StartHashing s (fun _ s => Done (set_monitor MWait s))
        else Done (set_monitor (MEntries b 0) s))
  | MEntries b i =>
      if i <? biLength b then
        on_cl (on_contr IsPaused) s (fun (paused : bool) s =>
          if paused then Done (set_monitor MWait s)
          else on_cl (process_entry b i) s (fun r s =>
            Done (set_monitor (match r with Next => MEntries b (i + 1) | Return => MWait | Spin => MEntries b i end) s)))
      else Done (set_monitor MWait s)
  | MReturned => Blocked
  end.

(** ** [InitReplication] *)

(** Its workers take the [i]-th of the remaining blocks, or all are done. *)
Definition replicate_step (i : nat) (s : CSession) : attempt CSession :=
  match replicator s with
  | None => Blocked
  | Some (diskSize, []) =>
      on_cl (SendPacket (CreateInfoPacket PacketTypeInfoReplicationCompleted) ;;;
             SetState StateWriting ;;; on_contr (lift_unit Resume)) s (fun _ s => Done (set_replicator None s))
  | Some (diskSize, offsets) =>
      match offsets !! i with
      | None => Blocked
      | Some offset =>
          on_cl (replicate_block diskSize HashedSpaceBase offset) s (fun go s =>
            Done (set_replicator (Some (diskSize, if (go : bool) then delete i offsets else [])) s))
      end
  end.

(** ** Schedules *)

Inductive cevent :=
| CListen
| CHashRead
| CHashSend (i : nat)
| CMonitor (pick : bool)
| CReplicate (i : nat)
| CShutdown
| CSource (bio : list segment).   (* a write to the mapped device: [bdr_target_map] *)

(** An entry, and a segment, on the device. *)
Definition entry_write (e : entry) : write := (Z.to_nat (KernelLogicalSectorSize * e.1), e.2).
Definition seg_write (seg : segment) : write := entry_write (seg_entry seg).

(** The kernel puts a write into the ring ([write_put]) and then submits it to the
    source device ([write_submit]); a write event is both at once.  What a reset of
    the ring between the two loses is in [ClientSessionProps.reset_between_put_and_submit]. *)
Definition write_put (bio : list segment) (c : Client) : Client :=
  set_kernel (ioctlFaults c) (bdr_target_map (Z.to_nat (PageSize (cTarget c))) bio (kernel c)) c.

Definition write_submit (bio : list segment) (c : Client) : Client :=
  set_under {| content := apply_writes (seg_write <$> bio) (content (UnderDevFile c));
               faults := faults (UnderDevFile c) |} c.

Definition write_source (bio : list segment) (c : Client) : Client := write_submit bio (write_put bio c).

Lemma kernel_write_source bio c :
  kernel (write_source bio c) = bdr_target_map (Z.to_nat (PageSize (cTarget c))) bio (kernel c).
Proof. done. Qed.

Definition cstep (xxhash : list byte -> Z) (e : cevent) (s : CSession) : attempt CSession :=
  match e with
  | CListen => listen_step s
  | CHashRead => hash_read_step s
  | CHashSend i => hash_send_step xxhash i s
  | CMonitor pick => monitor_step pick s
  | CReplicate i => replicate_step i s
  | CShutdown => Done (InitiateShutdown s)
  | CSource bio => Done (set_cl (write_source bio (cl s)) s)
  end.

Fixpoint crun (xxhash : list byte -> Z) (es : list cevent) (s : CSession) : attempt CSession :=
  match es with
  | [] => Done s
  | e :: es => abind (cstep xxhash e s) (crun xxhash es)
  end.

Inductive creachable (xxhash : list byte -> Z) (s0 : CSession) : CSession -> Prop :=
| creach_refl : creachable xxhash s0 s0
| creach_step e s s' : creachable xxhash s0 s -> cstep xxhash e s = Done s' -> creachable xxhash s0 s'.

(** [NewClient] on what its calls return: opening the character device, the
    target info, the mapping of the buffer, the connection, and the device node
    of the source. *)
Definition NewClient (charDev : option error) (target : TargetInfo + error) (mmap : bdr_ring_buffer + error)
  (dial : error + connection) (underDev : Dev) : outcome (Client * list received) :=
  match charDev, target, mmap, dial, OpenFile underDev with
  | Some e, _, _, _, _ => Err (ErrWrap "falied to open charecter device: " e)
  | None, inr e, _, _, _ => Err (Errorf_v "ioctl get info from target failed: " e)
  | None, inl _, inr e, _, _ => Err (ErrWrap "mmap failed: " e)
  | None, inl _, inl _, inl e, _ => Err (ErrWrap "failed to connect to receiver: " e)
  | None, inl _, inl _, inr _, (Err e, _) => Err (ErrWrap "failed to open target device: " e)
  | None, inl _, inl _, inr _, (Panic, _) => Panic
  | None, inl targetInfo, inl rb, inr conn, (Ret _, underDev) =>
      Ret ({| cTarget := targetInfo; UnderDevFile := underDev; kernel := rb;
              MonitorPauseContr := NewPauseController; cstate := StateWriting; csent := [];
              encFaults := conn_enc conn; ioctlFaults := [];
              termIn := None |}, conn_in conn)
  end.

(** [Run] on a connected client: the start of its mode, then the goroutines. *)
Definition Run (fullScan fullReplicate initialReplication : bool) (c : Client)
  (packets : list received) (attempts : list (error + connection)) : attempt CSession :=
  match Run_start fullScan fullReplicate initialReplication c with
  | (Ret replicating, c) =>
      let r := catch (zoom UnderDevFile set_under GetDeviceSize) c in
      let diskSize := match r.1 with Ret (inl n) => n | _ => 0 end in
      Done (mkCSession (if (replicating : bool) then r.2 else c) packets attempts
              (make_chan HashPacketQueueSize) LReceive None MWait
              (if replicating then Some (diskSize, block_offsets diskSize HashedSpaceBase) else None))
  | _ => Crash
  end.
