(* ===== verification/ClientSafety.v ===== *)
(** * Channel discipline of the client's goroutines

    The pause controller stays usable whatever the goroutines do, the hash queue
    is open exactly where the listener can send to it or close it, and while
    the listener sends hashes there are workers that take them. *)
From S2P Require Import Prelude GoInt GoMonad GoChan Utils BlockDev Blocks Networking Journal Pause.
From S2P Require Import RingBuffer Client ClientFacts ClientSession.
Open Scope Z_scope.

(** ** The operations of the client keep the pause controller and do not panic *)

Definition cinv (c : Client) : Prop := contr_ok (MonitorPauseContr c).

Lemma calm_Encode p : calm cinv (Encode p).
Proof. intros c Hc. unfold Encode. by destruct (encFaults c) as [|[e|] fs]. Qed.

Lemma calm_CheckTermination : calm cinv CheckTermination.
Proof. intros c Hc. unfold CheckTermination. by destruct (termIn c) as [[|n]|]. Qed.
#[export] Hint Resolve calm_Encode calm_CheckTermination : calm.

Lemma calm_send_loop fuel p : calm cinv (send_loop fuel p).
Proof.
  induction fuel as [|fuel IH]; cbn [send_loop]; [auto with calm|].
  apply calm_bind; [auto with calm|]. intros [[]|e]; [auto with calm|].
  apply calm_bind; [auto with calm|]. intros []; auto with calm.
Qed.
#[export] Hint Resolve calm_send_loop : calm.

Lemma calm_SendPacket p : calm cinv (SendPacket p).
Proof. unfold SendPacket. auto with calm. Qed.

Lemma calm_executeIOCTL cmd : calm cinv (executeIOCTL cmd).
Proof. intros c Hc. unfold executeIOCTL. destruct (ioctlFaults c) as [|[e|] fs]; by destruct cmd. Qed.
#[export] Hint Resolve calm_SendPacket calm_executeIOCTL : calm.

Lemma calm_ioctl_loop fuel cmd : calm cinv (ioctl_loop fuel cmd).
Proof.
  induction fuel as [|fuel IH]; cbn [ioctl_loop]; [auto with calm|].
  apply calm_bind; [auto with calm|]. intros []; [auto with calm|].
  apply calm_bind; [auto with calm|]. intros [b|e]; [auto with calm|].
  apply calm_bind; [auto with calm|]. intros []; auto with calm.
Qed.
#[export] Hint Resolve calm_ioctl_loop : calm.

Lemma calm_ServeIOCTL cmd : calm cinv (ServeIOCTL cmd).
Proof. unfold ServeIOCTL. auto with calm. Qed.

Lemma calm_request st : calm cinv (on_contr (lift_unit (request st))).
Proof. intros c Hc. unfold on_contr, lift_unit. rewrite request_ok by done. split; [|done]. split_and!; cbn; auto. Qed.

Lemma IsPaused_same c :
  cinv c -> on_contr IsPaused c =
  (Ret match cbuf (MonitorPauseContr c) with Paused :: _ => true | _ => false end, c).
Proof. intros Hc. unfold on_contr. rewrite IsPaused_ok by done. f_equal. by destruct c. Qed.

Lemma calm_IsPaused : calm cinv (on_contr IsPaused).
Proof. intros c Hc. by rewrite IsPaused_same. Qed.

Lemma calm_SetState st : calm cinv (SetState st).
Proof. by apply calm_modify. Qed.
#[export] Hint Resolve calm_ServeIOCTL calm_request calm_IsPaused calm_SetState : calm.

Lemma calm_start st t : calm cinv (start st t).
Proof. unfold start, ResetBufferIOCTL, Pause. auto with calm. Qed.

Lemma calm_under {A} (m : M Dev A) : (forall d, (m d).1 <> Panic) -> calm cinv (zoom UnderDevFile set_under m).
Proof.
  intros H c Hc. specialize (H (UnderDevFile c)). unfold zoom.
  by destruct (m (UnderDevFile c)) as [r d].
Qed.

Lemma calm_GetDeviceSize : calm cinv (zoom UnderDevFile set_under GetDeviceSize).
Proof. apply calm_under, GetDeviceSize_no_panic. Qed.
Lemma calm_read_block n off : calm cinv (read_block n off).
Proof.
  unfold read_block. apply calm_bind; [apply calm_under, ReadAt_no_panic|].
  intros [got err]. auto with calm.
Qed.
#[export] Hint Resolve calm_start calm_GetDeviceSize calm_read_block : calm.

Lemma calm_StartHashing : calm cinv StartHashing.
Proof. unfold StartHashing. auto with calm. Qed.
#[export] Hint Resolve calm_StartHashing : calm.

Lemma calm_replicate_block n b o : calm cinv (replicate_block n b o).
Proof.
  unfold replicate_block, SendReplicationBlock.
  apply calm_bind; [auto with calm|]. intros []; [auto with calm|].
  apply calm_bind; [auto with calm|]. intros []; [auto with calm|].
  apply calm_bind; [auto with calm|]. intros [buf err]. destruct (not_EOF err); [auto with calm|].
  apply calm_bind; [auto with calm|]. intros []; auto with calm.
Qed.

Lemma preserves_send_write fuel p : preserves cinv (send_write fuel p).
Proof.
  apply calm_preserves. induction fuel as [|fuel IH]; cbn [send_write]; [auto with calm|].
  apply calm_bind; [auto with calm|]. intros [[]|e]; [auto with calm|].
  apply calm_bind; [unfold GetState; auto with calm|]. intros st. destruct (bool_decide _); [auto with calm|].
  apply calm_bind; [auto with calm|]. intros []; auto with calm.
Qed.

Lemma preserves_process_entry b i : preserves cinv (process_entry b i).
Proof.
  unfold process_entry. repeat (apply preserves_bind; [auto with preserves|intros ?]).
  destruct (read_entry _ _).
  - apply preserves_bind; [auto with preserves|]. intros n. apply preserves_send_write.
  - apply preserves_bind; [auto with preserves|]. intros []; [|auto with preserves].
    apply preserves_bind; [|auto with preserves]. by apply preserves_modify.
Qed.
#[export] Hint Resolve calm_replicate_block : calm.

(** ** The queue is open where the listener needs it *)

Definition queue_closed_at (l : listen_pc) : bool :=
  match l with LReceive | LReconnect _ | LSendHash _ | LShutdown | LClose false => false | _ => true end.

Record cchan_inv (s : CSession) : Prop := {
  cc_contr : cinv (cl s);
  cc_closed : cclosed (hashQueue s) = queue_closed_at (listenPc s);
  cc_cap : ccap (hashQueue s) = HashPacketQueueSize;
}.

(** ** Hashes arrive while they are expected

    In what a connection delivers, hash packets come only between
    [InfoStartHashing] and the packet that ends the scan. *)
Fixpoint hashes_ok (scanning : bool) (l : list received) : bool :=
  match l with
  | [] | RError IoEOF :: _ => true
  | RPacket p :: l =>
      let t := PacketType p in
      if t =? PacketTypeInfoStartHashing then hashes_ok true l
      else if t =? PacketTypePayloadHash then scanning && hashes_ok scanning l
      else if (t =? PacketTypeInfoHashingCompleted) || (t =? PacketTypeErrJournalOverflow)
      then hashes_ok false l
      else hashes_ok scanning l
  | _ :: l => hashes_ok scanning l
  end.

Lemma hashes_ok_mono b l : hashes_ok false l = true -> hashes_ok b l = true.
Proof.
  destruct b; [|done]. induction l as [|[p| |[]] l IH]; cbn; try done.
  destruct (_ =? _); [done|]. destruct (_ =? _); [done|]. by destruct (_ || _).
Qed.

Definition conn_ok (r : error + connection) : bool :=
  match r with inl _ => true | inr conn => hashes_ok false (conn_in conn) end.

Definition running (s : CSession) : bool := negb (hash_idle s).

Definition expects (s : CSession) : Prop :=
  match listenPc s with
  | LReceive | LShutdown | LClose false => hashes_ok (running s) (incoming s) = true
  | LReconnect _ => hashes_ok false (incoming s) = true
  | LSendHash _ => running s = true /\ hashes_ok true (incoming s) = true
  | LStartHashing => hashes_ok true (incoming s) = true
  | LHashingCompleted | LSendBuffer | LEntries _ _ | LResume | LAnnounce => hashes_ok false (incoming s) = true
  | LJournalOverflow | LReturn | LReturned | LClose true => True
  end.

Record serve_inv (s : CSession) : Prop := {
  sv_chan : cchan_inv s;
  sv_expects : expects s;
  sv_dials : forallb conn_ok (dials s) = true;
}.

(** ** Steps of the other goroutines *)

Record other_keeps (s s' : CSession) : Prop := {
  ok_listen : listenPc s' = listenPc s;
  ok_incoming : incoming s' = incoming s;
  ok_dials : dials s' = dials s;
  ok_closed : cclosed (hashQueue s') = cclosed (hashQueue s);
  ok_cap : ccap (hashQueue s') = ccap (hashQueue s);
  ok_running : cclosed (hashQueue s) = false -> running s' = running s;
  ok_contr : cinv (cl s) -> cinv (cl s');
}.

Lemma other_chan s s' : other_keeps s s' -> cchan_inv s -> cchan_inv s'.
Proof.
  intros [H1 H2 H3 H4 H5 H6 H7] [C1 C2 C3]. split; [auto|by rewrite H4, H1|by rewrite H5].
Qed.

Lemma other_serve s s' : other_keeps s s' -> serve_inv s -> serve_inv s'.
Proof.
  intros K [C E D]. pose proof (other_chan _ _ K C) as C'. destruct K as [H1 H2 H3 H4 H5 H6 H7].
  split; [done| |by rewrite H3]. unfold expects in *. rewrite H1, H2.
  pose proof (cc_closed _ C) as Hc. rewrite Hc in H6.
  destruct (listenPc s) as [| | | | | | | | | | | | |[]]; try done; by rewrite H6.
Qed.

Lemma on_cl_Done {A} (m : M Client A) s k s' :
  on_cl m s k = Done s' ->
  (exists a, m (cl s) = (Ret a, (m (cl s)).2) /\ k a (set_cl (m (cl s)).2 s) = Done s') \/
  s' = set_cl (m (cl s)).2 s.
Proof. unfold on_cl. destruct (m (cl s)) as [[a|e|] c]; cbn; [left; by exists a|right; congruence|done]. Qed.

(** Changing the client only. *)
Lemma set_cl_keeps s c : (cinv (cl s) -> cinv c) -> other_keeps s (set_cl c s).
Proof. by split. Qed.

Lemma keeps_refl s : other_keeps s s.
Proof. by split. Qed.

Lemma keeps_trans s1 s2 s3 : other_keeps s1 s2 -> other_keeps s2 s3 -> other_keeps s1 s3.
Proof.
  intros [A1 A2 A3 A4 A5 A6 A7] [B1 B2 B3 B4 B5 B6 B7]. split; try congruence; [|auto].
  intros H. rewrite B6, A6; congruence.
Qed.

(** A call of a method that keeps the controller, and then a continuation. *)
Lemma on_cl_keeps {A} (m : M Client A) s k s' :
  preserves cinv m -> (forall a s1 s2, k a s1 = Done s2 -> other_keeps s1 s2) ->
  on_cl m s k = Done s' -> other_keeps s s'.
Proof.
  intros Hm Hk [(a & _ & E)| ->]%on_cl_Done.
  - eapply keeps_trans; [apply set_cl_keeps|by apply (Hk a)]. apply Hm.
  - apply set_cl_keeps, Hm.
Qed.

Lemma set_monitor_keeps s m : other_keeps s (set_monitor m s).
Proof. by split. Qed.
Lemma set_replicator_keeps s r : other_keeps s (set_replicator r s).
Proof. by split. Qed.

Lemma hash_read_keeps s s' : hash_read_step s = Done s' -> other_keeps s s'.
Proof.
  unfold hash_read_step. destruct (hashers s) as [items|] eqn:Eh; [|done].
  intros ([o q] & (Hk & Hcl & Ho)%recv_Done & E)%abind_Done.
  assert (Hr : running s = true) by (unfold running, hash_idle; by rewrite Eh).
  destruct o as [p|].
  - apply (keeps_trans _ (set_hashQueue q s)); [by split|].
    destruct (Payload p) as [| |h| | |]; try (revert E; apply on_cl_keeps; [apply calm_preserves; auto with calm|];
      intros a s1 s2 [= <-]; apply keeps_refl).
    apply on_cl_Done in E as [([b err] & _ & E)| ->]; cbn [fst snd] in *.
    + eapply keeps_trans; [apply set_cl_keeps, (calm_preserves cinv _ (calm_read_block (hSize h) (hOffset h)))|].
      destruct (not_EOF err).
      * revert E. apply on_cl_keeps; [apply calm_preserves; auto with calm|].
        intros a s1 s2 [= <-]. by split.
      * injection E as <-. split; try done.
    + apply set_cl_keeps, (calm_preserves cinv _ (calm_read_block (hSize h) (hOffset h))).
  - destruct Ho as (_ & Hcl' & _). destruct (_ =? _)%nat; [|done]. injection E as <-.
    split; try done. intros H. congruence.
Qed.

Lemma hash_send_keeps xxhash i s s' : hash_send_step xxhash i s = Done s' -> other_keeps s s'.
Proof.
  unfold hash_send_step. destruct (hashers s) as [items|] eqn:Eh; [|done].
  destruct (items !! i) as [[h buf]|]; [|done].
  assert (K : other_keeps s (set_hashers (Some (delete i items)) s)).
  { split; try done. intros _. unfold running, hash_idle. cbn. by rewrite Eh. }
  destruct (_ =? _); [by intros [= <-]|]. intros E. eapply keeps_trans; [exact K|]. revert E.
  apply on_cl_keeps; [apply calm_preserves; unfold SendCorrectBlock; auto with calm|].
  intros a s1 s2 [= <-]. by split.
Qed.

Lemma waited_keeps s r p :
  (cinv (cl s) -> contr_ok p) -> other_keeps s (monitor_waited r p s).
Proof.
  intros H. unfold monitor_waited. eapply keeps_trans; [apply set_cl_keeps|apply set_monitor_keeps]. done.
Qed.

Lemma recv_contr p o p' : contr_ok p -> chan_recv p = Done (o, p') -> contr_ok p'.
Proof.
  intros (H1 & H2 & H3) (Hk & Hc & Ho)%recv_Done. split_and!; [congruence|congruence|].
  destruct o; [rewrite Ho in H3; cbn in H3; lia|]. by destruct Ho as (_ & _ & ->).
Qed.

Lemma monitor_keeps pick s s' : monitor_step pick s = Done s' -> other_keeps s s'.
Proof.
  unfold monitor_step. destruct (monitorPc s) as [| | |b i|]; [| | | |done].
  - unfold WaitIfPaused. destruct (chan_recv _) as [[o p]| |] eqn:Er.
    + destruct (_ && _); [|destruct o as [[]|]]; intros [= <-]; apply waited_keeps;
        auto; intros; by eapply recv_contr.
    + intros [= <-]. by apply waited_keeps.
    + intros [= <-]. by apply waited_keeps.
  - unfold waitUntilResumed. intros ([r p] & E & [= <-])%abind_Done. apply waited_keeps. intros Hc.
    destruct (chan_recv _) as [[o p']| |] eqn:Er.
    + destruct (_ && _); [injection E as <- <-; done|].
      destruct o as [[]|]; injection E as <- <-; by eapply recv_contr.
    + destruct (ChanHasTerminated _); [injection E as <- <-; done|done].
    + destruct (ChanHasTerminated _); [injection E as <- <-; done|done].
  - apply on_cl_keeps; [apply calm_preserves; auto with calm|]. intros b s1 s2.
    destruct (HasNewWrites b); cbn [negb]; [|intros [= <-]; apply set_monitor_keeps].
    destruct (CheckOverflow b); [|intros [= <-]; apply set_monitor_keeps].
    apply on_cl_keeps; [apply calm_preserves; auto with calm|]. intros a s3 s4 [= <-]. apply set_monitor_keeps.
  - destruct (_ <? _); [|intros [= <-]; apply set_monitor_keeps].
    apply on_cl_keeps; [apply calm_preserves; auto with calm|]. intros paused s1 s2.
    destruct paused; [intros [= <-]; apply set_monitor_keeps|].
    apply on_cl_keeps; [apply preserves_process_entry|]. intros a s3 s4 [= <-]. apply set_monitor_keeps.
Qed.

Lemma replicate_keeps i s s' : replicate_step i s = Done s' -> other_keeps s s'.
Proof.
  unfold replicate_step. destruct (replicator s) as [[n [|o os]]|]; [| |done].
  - apply on_cl_keeps; [apply calm_preserves; unfold Resume; auto with calm|].
    intros a s1 s2 [= <-]. apply set_replicator_keeps.
  - destruct (_ !! i) as [o'|]; [|done]. apply on_cl_keeps; [apply calm_preserves; auto with calm|].
    intros a s1 s2 [= <-]. apply set_replicator_keeps.
Qed.

Lemma other_step xxhash e s s' : e <> CListen -> cstep xxhash e s = Done s' -> other_keeps s s'.
Proof.
  destruct e; cbn [cstep]; intros He E; try done.
  - by apply hash_read_keeps.
  - by apply (hash_send_keeps xxhash i).
  - by apply (monitor_keeps pick).
  - by apply (replicate_keeps i).
  - injection E as <-. by apply set_cl_keeps.
  - injection E as <-. by apply set_cl_keeps.
Qed.

(** ** Steps of the listener *)

(** To show [P] after a call, show it for every client the call may leave. *)
Lemma on_cl_after {A} (P : CSession -> Prop) (m : M Client A) s k s' :
  preserves cinv m -> cinv (cl s) -> on_cl m s k = Done s' ->
  (forall c, cinv c -> P (set_cl c s)) ->
  (forall a c, cinv c -> k a (set_cl c s) = Done s' -> P s') -> P s'.
Proof.
  intros Hm Hc E H1 H2. specialize (Hm _ Hc).
  destruct (on_cl_Done _ _ _ _ E) as [(a & _ & E')| ->]; [by apply (H2 a (m (cl s)).2)|by apply H1].
Qed.

Lemma set_cl_chan c s : cinv c -> cchan_inv s -> cchan_inv (set_cl c s).
Proof. intros Hc [C1 C2 C3]. by split. Qed.

(** [after_call P E]: go through the call that [E] evaluates; what is left are
    the two kinds of result. *)
Ltac keeps_contr := apply calm_preserves; unfold Resume; auto with calm.
Ltac after_call P E :=
  refine (on_cl_after P _ _ _ _ _ _ E _ _);
  [try solve [keeps_contr]|try done|try (intros; apply set_cl_chan; done)|clear E].

Lemma close_chan next s s' :
  cchan_inv s -> queue_closed_at next = true -> close_hashQueue next s = Done s' -> cchan_inv s'.
Proof.
  intros [C1 C2 C3] Hn. unfold close_hashQueue, chan_close. destruct (cclosed _); [done|].
  intros [= <-]. by split.
Qed.

Lemma move_chan l s :
  cchan_inv s -> queue_closed_at l = queue_closed_at (listenPc s) -> cchan_inv (set_listen l s).
Proof. intros [C1 C2 C3] Hl. split; [done|by cbn; rewrite Hl|done]. Qed.

Lemma renew_chan s : cinv (cl s) -> cchan_inv (set_listen LReceive (new_hashQueue s)).
Proof. by split. Qed.

Lemma dispatch_chan p s s' :
  cchan_inv s -> listenPc s = LReceive -> listen_dispatch p s = Done s' -> cchan_inv s'.
Proof.
  intros C Hl. unfold listen_dispatch.
  destruct (_ =? _); [by apply close_chan|].
  destruct (_ =? _); [intros [= <-]; apply move_chan; [done|by rewrite Hl]|].
  do 2 (destruct (_ =? _); [by apply close_chan|]).
  destruct (_ || _); intros [= <-]; [by apply move_chan; [|rewrite Hl]|done].
Qed.

Lemma reconnect_chan st s s' :
  cchan_inv s -> listenPc s = LReconnect st -> reconnect_turn st s = Done s' -> cchan_inv s'.
Proof.
  intros C Hl. unfold reconnect_turn.
  destruct (terminated s); [intros [= <-]; by apply move_chan; [|rewrite Hl]|].
  destruct (dials s) as [|[e|conn] ds]; [done|intros [= <-]; by destruct C|].
  assert (C1 : cchan_inv (set_dials ds s)) by (by destruct C). intros E.
  after_call cchan_inv E; [apply C1|].
  intros [n|e] c Hc E; [|injection E as <-; by apply set_cl_chan].
  assert (C2 : forall l fs, cchan_inv (set_incoming (conn_in conn) (set_cl (set_net l fs c) (set_cl c (set_dials ds s))))).
  { intros l fs. destruct C1 as [D1 D2 D3]. by split. }
  destruct (conn_enc conn) as [|[e|] fs]; [|injection E as <-; by apply set_cl_chan|];
    (after_call cchan_inv E; [intros a c' Hc' [= <-]; apply move_chan; [apply set_cl_chan; [done|apply C2]|by cbn; rewrite Hl]]).
Qed.

Lemma listen_chan s s' : cchan_inv s -> listen_step s = Done s' -> cchan_inv s'.
Proof.
  intros C. pose proof (cc_contr _ C) as Hc.
  assert (K : forall c, cinv c -> cchan_inv (set_cl c s)) by (intros; by apply set_cl_chan).
  unfold listen_step. destruct (listenPc s) as [|st|p| | | | |b i| | | | | |r] eqn:Hl; [| | | | | | | | | | |done| |].
  - unfold receive. destruct (terminated s); [by apply close_chan|].
    destruct (incoming s) as [|[p| |[]] l]; try done; try (intros [= <-]; by destruct C).
    + intros E. apply (dispatch_chan p (set_incoming l s)); [by destruct C|done|done].
    + intros [= <-]. destruct C as [C1 C2 C3]. split; [done|by cbn; rewrite C2, Hl|done].
  - by apply reconnect_chan.
  - intros (q & E & [= <-])%abind_Done. revert E. unfold chan_send. destruct C as [C1 C2 C3].
    destruct (cclosed _); [done|]. destruct (_ <? _)%nat; [|done]. intros [= <-]. by split.
  - destruct (hash_idle s); [|done]. intros [= <-]. by split.
  - destruct (hash_idle s); [|done]. intros [= <-]. by apply move_chan; [|rewrite Hl].
  - destruct (hash_idle s); [|done]. intros [= <-]. apply move_chan; [done|rewrite Hl; by destruct (terminated s)].
  - intros E. after_call cchan_inv E. intros b c Hc1 E.
    destruct (HasNewWrites b); cbn [negb] in E;
      [|injection E as <-; apply move_chan; [by apply K|by cbn; rewrite Hl]].
    destruct (CheckOverflow b); [|injection E as <-; apply move_chan; [by apply K|by cbn; rewrite Hl]].
    after_call cchan_inv E; [intros c2 Hc2; apply set_cl_chan; [done|by apply K]|].
    intros a c2 Hc2 [= <-]. by apply renew_chan.
  - destruct (_ <? _); [|intros [= <-]; apply move_chan; [done|by rewrite Hl]]. intros E.
    after_call cchan_inv E.
    + apply preserves_bind; [keeps_contr|]. intros _. apply preserves_process_entry.
    + intros r c Hc1 [= <-]. apply move_chan; [by apply K|]. cbn. rewrite Hl. by destruct r.
  - intros E. after_call cchan_inv E.
    intros a c Hc1 [= <-]. apply move_chan; [by apply K|by cbn; rewrite Hl].
  - intros E. after_call cchan_inv E.
    intros a c Hc1 [= <-]. by apply renew_chan.
  - destruct (hash_idle s); [|done]. intros [= <-]. by apply move_chan; [|rewrite Hl].
  - intros [= <-]. apply move_chan; [done|rewrite Hl; by destruct (terminated s)].
  - unfold close_TermChan. destruct (terminated s); [done|]. intros [= <-].
    apply move_chan; [by apply K|cbn; rewrite Hl; by destruct r].
Qed.

Lemma listen_or_not (e : cevent) : e = CListen \/ e <> CListen.
Proof. destruct e; auto. Qed.

Lemma creachable_chan xxhash s0 s : cchan_inv s0 -> creachable xxhash s0 s -> cchan_inv s.
Proof.
  intros C. induction 1 as [|e s s' _ IH E]; [done|].
  destruct (listen_or_not e) as [->|He]; [by apply (listen_chan s)|].
  eapply other_chan; [by eapply other_step|done].
Qed.

(** ** Hashes find workers *)

Lemma dispatch_serve p l s s' :
  expects s -> listenPc s = LReceive -> incoming s = RPacket p :: l -> forallb conn_ok (dials s) = true ->
  listen_dispatch p (set_incoming l s) = Done s' -> expects s' /\ forallb conn_ok (dials s') = true.
Proof.
  unfold expects, listen_dispatch. intros E Hl Hi D. rewrite Hl, Hi in E. cbn in E.
  destruct (_ =? PacketTypeInfoStartHashing).
  { unfold close_hashQueue, chan_close. destruct (cclosed _); [done|]. by intros [= <-]. }
  destruct (_ =? PacketTypePayloadHash).
  { apply andb_true_iff in E as [Er E]. intros [= <-]. cbn. rewrite Er in E. auto. }
  destruct (_ =? PacketTypeInfoHashingCompleted); cbn [orb] in E.
  { unfold close_hashQueue, chan_close. destruct (cclosed _); [done|]. by intros [= <-]. }
  destruct (_ =? PacketTypeErrJournalOverflow); cbn [orb] in E.
  { unfold close_hashQueue, chan_close. destruct (cclosed _); [done|]. by intros [= <-]. }
  destruct (_ || _); intros [= <-]; cbn; by rewrite ?Hl.
Qed.

Lemma reconnect_serve st s s' :
  hashes_ok false (incoming s) = true -> listenPc s = LReconnect st -> forallb conn_ok (dials s) = true ->
  reconnect_turn st s = Done s' -> expects s' /\ forallb conn_ok (dials s') = true.
Proof.
  intros Hi Hl D. unfold reconnect_turn.
  destruct (terminated s); [intros [= <-]; split; [by apply hashes_ok_mono|done]|].
  destruct (dials s) as [|[e|conn] ds]; [done|intros [= <-]; unfold expects; cbn; by rewrite Hl|].
  cbn in D. apply andb_true_iff in D as [D1 D2]. intros E.
  assert (F : forall c, expects (set_cl c (set_dials ds s)) /\ forallb conn_ok ds = true)
    by (unfold expects; cbn; by rewrite Hl).
  destruct (on_cl_Done _ _ _ _ E) as [(r & _ & E')| ->]; [|by apply F]. clear E.
  destruct r as [n|e]; [|injection E' as <-; by apply F].
  destruct (conn_enc conn) as [|[e|] fs]; [|injection E' as <-; by apply F|];
    (destruct (on_cl_Done _ _ _ _ E') as [(a & _ & [= <-])| ->];
      [split; [by apply hashes_ok_mono|done]|unfold expects; cbn; by rewrite Hl]).
Qed.

Lemma receive_serve s s' :
  expects s -> listenPc s = LReceive -> forallb conn_ok (dials s) = true ->
  receive s = Done s' -> expects s' /\ forallb conn_ok (dials s') = true.
Proof.
  intros E Hl D. unfold receive. destruct (terminated s).
  { unfold close_hashQueue, chan_close. destruct (cclosed _); [done|]. by intros [= <-]. }
  unfold expects in E. rewrite Hl in E.
  destruct (incoming s) as [|[p| |[]] l] eqn:Hi; [done| |..];
    try (intros [= <-]; unfold expects; cbn; rewrite ?Hl; by split).
  intros H. apply (dispatch_serve p l s); [|done..]. unfold expects. by rewrite Hl, Hi.
Qed.

(** A call that leaves the listener where [expects] says the same. *)
Lemma call_serve {A} (m : M Client A) s k s' :
  on_cl m s k = Done s' ->
  (forall c, expects (set_cl c s)) -> forallb conn_ok (dials s) = true ->
  (forall a c, k a (set_cl c s) = Done s' -> expects s' /\ forallb conn_ok (dials s') = true) ->
  expects s' /\ forallb conn_ok (dials s') = true.
Proof. intros [(a & _ & E)| ->]%on_cl_Done H1 H2 H3; [by eapply H3|done]. Qed.

Lemma listen_serve s s' :
  expects s -> forallb conn_ok (dials s) = true -> listen_step s = Done s' ->
  expects s' /\ forallb conn_ok (dials s') = true.
Proof.
  intros I D. assert (K : forall c, expects (set_cl c s)) by done.
  unfold listen_step. destruct (listenPc s) as [|st|p| | | | |b i| | | | | |r] eqn:Hl;
    try (unfold expects in I; rewrite Hl in I); [| | | | | | | | | | |done| |].
  - apply receive_serve; [unfold expects; by rewrite Hl|done..].
  - by apply reconnect_serve.
  - destruct I as [Hr I]. intros (q & _ & [= <-])%abind_Done. split; [|done].
    change (hashes_ok (running s) (incoming s) = true). by rewrite Hr.
  - destruct (hash_idle s); [|done]. by intros [= <-].
  - destruct (hash_idle s); [|done]. by intros [= <-].
  - destruct (hash_idle s); [|done]. intros [= <-]. unfold expects. by destruct (terminated s).
  - intros E. apply (call_serve _ _ _ _ E K D). intros b c.
    destruct (HasNewWrites b); cbn [negb]; [|by intros [= <-]].
    destruct (CheckOverflow b); [|by intros [= <-]]. intros E2.
    apply (call_serve _ _ _ _ E2); [done|done|]. intros a c2 [= <-].
    split; [by apply hashes_ok_mono|done].
  - destruct (_ <? _); [|by intros [= <-]]. intros E. apply (call_serve _ _ _ _ E K D).
    intros r c [= <-]. by destruct r.
  - intros E. apply (call_serve _ _ _ _ E K D). by intros a c [= <-].
  - intros E. apply (call_serve _ _ _ _ E K D). intros a c [= <-].
    split; [by apply hashes_ok_mono|done].
  - destruct (hash_idle s); [|done]. by intros [= <-].
  - intros [= <-]. unfold expects. by destruct (terminated s).
  - unfold close_TermChan. destruct (terminated s); [done|]. intros [= <-]. by destruct r.
Qed.

Lemma creachable_serve xxhash s0 s : serve_inv s0 -> creachable xxhash s0 s -> serve_inv s.
Proof.
  intros C. induction 1 as [|e s s' _ IH E]; [done|].
  destruct (listen_or_not e) as [->|He].
  - destruct IH as [I1 I2 I3]. destruct (listen_serve s s' I2 I3 E). split; [by apply (listen_chan s)|done..].
  - eapply other_serve; [by eapply other_step|done].
Qed.

(** A session that [Run] has just set up. *)
Lemma Run_inv f r i c ps ds s :
  cinv c -> Run f r i c ps ds = Done s ->
  cchan_inv s /\ listenPc s = LReceive /\ incoming s = ps /\ dials s = ds.
Proof.
  intros Hc. unfold Run.
  assert (H : calm cinv (Run_start f r i)).
  { unfold Run_start, FullScan, FullReplicate. repeat apply calm_if; auto with calm. }
  specialize (H c Hc). destruct (Run_start f r i c) as [[go|e|] c1]; [|done..].
  intros [= <-]. split; [|done]. split; [|done..]. cbn [cl]. destruct go; [|apply H].
  apply (calm_preserves cinv _ (calm_catch _ _ calm_GetDeviceSize)), H.
Qed.
