(* ===== verification/ClientSessionProps.v ===== *)
(** * Properties of the client's goroutines *)
From S2P Require Import Prelude GoInt GoMonad GoChan Utils BlockDev Blocks Networking Journal Pause.
From S2P Require Import RingBuffer Client ClientFacts ClientProps ClientSession ClientSafety.
Open Scope Z_scope.

Definition any_hash (b : list byte) : Z := 1.

(** ** Channels *)

Lemma on_cl_calm {A} (m : M Client A) s k :
  calm cinv m -> cinv (cl s) ->
  (forall a c, cinv c -> k a (set_cl c s) <> Crash) -> on_cl m s k <> Crash.
Proof.
  intros Hm H Hk. destruct (Hm _ H) as [H1 H2]. unfold on_cl.
  destruct (m (cl s)) as [[a|e|] c1]; [by apply Hk|done|done].
Qed.

Lemma close_hashQueue_open next s : cclosed (hashQueue s) = false -> close_hashQueue next s <> Crash.
Proof. intros H. unfold close_hashQueue, chan_close. by rewrite H. Qed.

Lemma receive_no_crash s : cclosed (hashQueue s) = false -> receive s <> Crash.
Proof.
  intros Hq. pose proof (fun next l => close_hashQueue_open next (set_incoming l s) Hq) as N.
  unfold receive. destruct (terminated s); [by apply close_hashQueue_open|].
  destruct (incoming s) as [|[p| |[]] l]; try done. unfold listen_dispatch.
  destruct (_ =? _); [apply N|]. destruct (_ =? _); [done|].
  do 2 (destruct (_ =? _); [apply N|]). by destruct (_ || _).
Qed.

Lemma reconnect_no_crash st s : cinv (cl s) -> reconnect_turn st s <> Crash.
Proof.
  intros C. unfold reconnect_turn. destruct (terminated s); [done|].
  destruct (dials s) as [|[e|conn] ds]; [done|done|].
  apply on_cl_calm; [auto with calm|done|]. intros [n|e] c Hc; [|done].
  destruct (conn_enc conn) as [|[e|] fs]; [|done|];
    (apply on_cl_calm; [destruct (bool_decide _); auto with calm|done|done]).
Qed.

(** In no schedule of the client's goroutines does the listener close a
    closed channel or send on one, and the pause controller never makes it
    wait; the only panics it can meet are that of an entry which lies outside the
    buffer shared with the kernel, and the second close of the termination channel
    when a signal closes it between the two steps of its own [InitiateShutdown]. *)
Theorem client_channel_safety xxhash f r i c ps ds s0 s :
  contr_ok (MonitorPauseContr c) -> Run f r i c ps ds = Done s0 ->
  creachable xxhash s0 s -> listen_step s = Crash ->
  (exists b k, listenPc s = LEntries b k /\ (process_entry b k (cl s)).1 = Panic) \/
  (exists r, listenPc s = LClose r) /\ terminated s = true.
Proof.
  intros Hc E R. destruct (Run_inv f r i c ps ds s0 Hc E) as [C0 _].
  destruct (creachable_chan xxhash s0 s C0 R) as [C1 C2 C3]. clear E R C0 Hc.
  unfold listen_step. destruct (listenPc s) as [|st|p| | | | |b k| | | | | |ret0] eqn:Hl; cbn in C2;
    try (by destruct (hash_idle s)); try done.
  - by intros ?%receive_no_crash.
  - by intros ?%reconnect_no_crash.
  - by destruct (send_cases p (hashQueue s) C2) as [[-> _]|[-> _]].
  - intros H. exfalso. revert H. apply on_cl_calm; [auto with calm|done|]. intros b c1 Hc1.
    destruct (HasNewWrites b); [|done]. destruct (CheckOverflow b); [|done].
    apply on_cl_calm; [auto with calm|done|done].
  - destruct (k <? biLength b); [|done]. unfold on_cl, bind. rewrite IsPaused_same by done.
    intros H. left. exists b, k. split; [done|]. by destruct (process_entry b k (cl s)) as [[] ?].
  - intros H. exfalso. revert H. apply on_cl_calm; [unfold Resume; auto with calm|done|done].
  - intros H. exfalso. revert H. apply on_cl_calm; [auto with calm|done|done].
  - unfold close_TermChan. destruct (terminated s); [|done]. intros _. right. by split; [exists ret0|].
Qed.

Lemma crun_reachable xxhash es s0 s : crun xxhash es s0 = Done s -> creachable xxhash s0 s.
Proof.
  enough (H : forall s1, creachable xxhash s0 s1 -> crun xxhash es s1 = Done s -> creachable xxhash s0 s)
    by (apply H; constructor).
  induction es as [|e es IH]; intros s1 R; cbn; [by intros [= <-]|].
  intros (s2 & E & H)%abind_Done. apply (IH s2); [|done]. by apply (creach_step _ _ e s1).
Qed.

(** A kernel that reports an entry of an empty buffer. *)
Definition demo_broken : Client := set_kernel [] (mkRing [] (mkBufferInfo 0 1 0 0 0)) demo_client.
Definition run_of (c : Client) (ps : list received) : CSession :=
  mkCSession c ps [] (make_chan HashPacketQueueSize) LReceive None MWait None.
Definition info (t : Z) : received := RPacket (CreateInfoPacket t).

Lemma client_channel_safety_witness :
  exists s, creachable any_hash (run_of demo_broken [info PacketTypeInfoHashingCompleted]) s /\
    listen_step s = Crash /\
    ((exists b k, listenPc s = LEntries b k /\ (process_entry b k (cl s)).1 = Panic) \/
     (exists r, listenPc s = LClose r) /\ terminated s = true).
Proof.
  destruct (crun any_hash [CListen; CListen; CListen] (run_of demo_broken [info PacketTypeInfoHashingCompleted]))
    as [s| |] eqn:E; [|vm_compute in E; discriminate|vm_compute in E; discriminate].
  assert (Hc : listen_step s = Crash) by (vm_compute in E; injection E as <-; reflexivity).
  pose proof (crun_reachable _ _ _ _ E) as R. exists s. split; [exact R|]. split; [exact Hc|].
  exact (client_channel_safety any_hash false false false demo_broken [info PacketTypeInfoHashingCompleted] []
    _ s demo_contr eq_refl R Hc).
Defined.

(** ** Progress *)

(** When the listener waits for room in the hash queue, a worker can take a
    packet, in every schedule, as long as the server sends hashes only during a
    scan. *)
Theorem client_send_progress xxhash f r i c ps ds s0 s p :
  contr_ok (MonitorPauseContr c) -> Run f r i c ps ds = Done s0 ->
  hashes_ok false ps = true -> forallb conn_ok ds = true ->
  creachable xxhash s0 s -> listenPc s = LSendHash p ->
  listen_step s <> Blocked \/ hash_read_step s <> Blocked.
Proof.
  intros Hc E Hps Hds R Hl. destruct (Run_inv f r i c ps ds s0 Hc E) as (C0 & Hl0 & Hi & Hd).
  assert (I0 : serve_inv s0).
  { split; [done| |by rewrite Hd]. unfold expects. rewrite Hl0, Hi. by apply hashes_ok_mono. }
  destruct (creachable_serve xxhash s0 s I0 R) as [[C1 C2 C3] Ex _].
  unfold expects in Ex. rewrite Hl in Ex, C2. destruct Ex as [Hr _].
  unfold listen_step. rewrite Hl.
  destruct (send_cases p (hashQueue s) C2) as [[-> Hfull]|[-> _]]; [right|by left].
  unfold running, hash_idle in Hr. unfold hash_read_step.
  destruct (hashers s) as [items|]; [|done].
  destruct (full_recv (hashQueue s)) as (v & q & ->).
  { intros Hn. rewrite Hn, C3 in Hfull. cbn in Hfull. unfold HashPacketQueueSize in Hfull. lia. }
  cbn [abind]. assert (N : forall A (m : M Client A) s k, (forall a s1, k a s1 <> Blocked) -> on_cl m s k <> Blocked).
  { intros A m s1 k Hk. unfold on_cl. by destruct (m (cl s1)) as [[] ?]. }
  destruct (Payload v); apply N; try done. intros [b err] s1. destruct (not_EOF _); [by apply N|done].
Qed.

Definition demo_hash : Packet :=
  {| PacketType := PacketTypePayloadHash; Payload := PHashInfo {| hOffset := 0; hSize := 4; hHash := 7 |} |}.
Definition demo_hashes : list received := info PacketTypeInfoStartHashing :: replicate 9 (RPacket demo_hash).

Lemma client_send_progress_witness :
  exists s, creachable any_hash (run_of demo_client demo_hashes) s /\ listen_step s = Blocked /\
    (listen_step s <> Blocked \/ hash_read_step s <> Blocked).
Proof.
  destruct (crun any_hash (replicate 19 CListen) (run_of demo_client demo_hashes))
    as [s| |] eqn:E; [|vm_compute in E; discriminate|vm_compute in E; discriminate].
  assert (Hc : listen_step s = Blocked /\ listenPc s = LSendHash demo_hash)
    by (vm_compute in E; injection E as <-; split; reflexivity).
  pose proof (crun_reachable _ _ _ _ E) as R. exists s. split; [exact R|]. split; [exact (proj1 Hc)|].
  exact (client_send_progress any_hash false false false demo_client demo_hashes [] _ s demo_hash
    demo_contr eq_refl eq_refl eq_refl R (proj2 Hc)).
Defined.

(** ** Reconnecting *)

(** The listener alone, [n] steps. *)
Definition listens (n : nat) (s : CSession) : attempt CSession := crun any_hash (replicate n CListen) s.

Lemma listens_app m n s : listens (m + n) s = abind (listens m s) (listens n).
Proof.
  unfold listens. revert s. induction m as [|m IH]; intros s; [done|].
  cbn. destruct (listen_step s); cbn; [apply IH|done|done].
Qed.

Lemma attempts_fail st s (es : list error) ds :
  listenPc s = LReconnect st -> termIn (cl s) = None -> dials s = (inl <$> es) ++ ds ->
  listens (length es) s = Done (set_dials ds s).
Proof.
  revert s. induction es as [|e es IH]; intros s Hl Ht Hd; unfold listens; cbn.
  { cbn in Hd. rewrite <- Hd. by destruct s. }
  unfold listen_step. rewrite Hl. unfold reconnect_turn, terminated. rewrite Ht, Hd. cbn.
  exact (IH (set_dials ((inl <$> es) ++ ds) s) Hl Ht eq_refl).
Qed.

Lemma attempt_succeeds st s conn ds :
  listenPc s = LReconnect st -> termIn (cl s) = None -> dials s = inr conn :: ds -> conn_enc conn = [] ->
  ioctlFaults (cl s) = [] -> healthy (UnderDevFile (cl s)) -> contr_ok (MonitorPauseContr (cl s)) ->
  st <> StateReconnecting ->
  listens 1 s = Done (set_listen LReceive (set_cl
    (set_net (csent (cl s) ++ [init_packet (dev_size (UnderDevFile (cl s))) (cTarget (cl s));
                               CreateInfoPacket PacketTypeCmdStartHashing]) []
      (set_cstate StateHashing (set_contr (mkChan [Paused] 1 false)
        (set_kernel [] (bdr_ring_buffer_reset (kernel (cl s))) (cl s)))))
    (set_incoming (conn_in conn) (set_dials ds s)))).
Proof.
  intros Hl Ht Hd Hc Hio Hh Hp Hst. unfold listens; cbn. unfold listen_step. rewrite Hl.
  unfold reconnect_turn, terminated. rewrite Ht, Hd. unfold on_cl at 1.
  rewrite (catch_Ret _ _ (dev_size (UnderDevFile (cl s))) (cl s)).
  2:{ unfold zoom. cbn [cl set_dials]. rewrite GetDeviceSize_healthy by done. f_equal. by destruct (cl s). }
  rewrite Hc. rewrite bool_decide_false by done. unfold on_cl, StartHashing.
  cbn [cl set_incoming set_cl tail set_dials].
  rewrite start_ok by done. cbn [csent set_net]. rewrite <- app_assoc. done.
Qed.

(** The listener of a client whose connection is closed, after the attempts [es]
    have failed and the next one has succeeded. *)
Lemma reconnect_eq s (es : list error) conn ds :
  listenPc s = LReceive -> hd RTimeout (incoming s) = RError IoEOF -> termIn (cl s) = None ->
  ioctlFaults (cl s) = [] -> healthy (UnderDevFile (cl s)) -> contr_ok (MonitorPauseContr (cl s)) ->
  cstate (cl s) <> StateReconnecting ->
  dials s = (inl <$> es) ++ inr conn :: ds -> conn_enc conn = [] ->
  listens (S (S (length es))) s = Done (set_listen LReceive (set_cl
    (set_net (csent (cl s) ++ [init_packet (dev_size (UnderDevFile (cl s))) (cTarget (cl s));
                               CreateInfoPacket PacketTypeCmdStartHashing]) []
      (set_cstate StateHashing (set_contr (mkChan [Paused] 1 false)
        (set_kernel [] (bdr_ring_buffer_reset (kernel (cl s))) (set_cstate StateReconnecting (cl s))))))
    (set_incoming (conn_in conn) (set_dials ds
      (set_listen (LReconnect (cstate (cl s))) (set_cl (set_cstate StateReconnecting (cl s)) (set_incoming [] s))))))).
Proof.
  intros Hl Hi Ht Hio Hh Hp Hst Hd Hc.
  set (s1 := set_listen (LReconnect (cstate (cl s))) (set_cl (set_cstate StateReconnecting (cl s)) (set_incoming [] s))).
  assert (E1 : listens 1 s = Done s1).
  { unfold listens; cbn. unfold listen_step. rewrite Hl. unfold receive, terminated. rewrite Ht.
    by destruct (incoming s) as [|[p| |[]] l]. }
  replace (S (S (length es))) with (1 + (length es + 1))%nat by lia.
  rewrite listens_app, E1. cbn [abind]. rewrite listens_app.
  rewrite (attempts_fail (cstate (cl s)) s1 es (inr conn :: ds)) by done. cbn [abind].
  by rewrite (attempt_succeeds (cstate (cl s)) _ conn ds) by done.
Qed.

(** When the connection is closed, the listener connects again, however many
    attempts fail, introduces itself, and starts a scan that resets the kernel
    buffer and pauses the monitor: whatever was lost with the connection is
    brought over by the scan. *)
Theorem reconnect_resyncs s es conn ds :
  listenPc s = LReceive -> hd RTimeout (incoming s) = RError IoEOF -> termIn (cl s) = None ->
  ioctlFaults (cl s) = [] -> healthy (UnderDevFile (cl s)) -> contr_ok (MonitorPauseContr (cl s)) ->
  cstate (cl s) <> StateReconnecting ->
  dials s = (inl <$> es) ++ inr conn :: ds -> conn_enc conn = [] ->
  exists s', listens (S (S (length es))) s = Done s' /\
    listenPc s' = LReceive /\ incoming s' = conn_in conn /\ dials s' = ds /\
    csent (cl s') = csent (cl s) ++
      [init_packet (dev_size (UnderDevFile (cl s))) (cTarget (cl s));
       CreateInfoPacket PacketTypeCmdStartHashing] /\
    cstate (cl s') = StateHashing /\ kernel (cl s') = bdr_ring_buffer_reset (kernel (cl s)) /\
    cbuf (MonitorPauseContr (cl s')) = [Paused] /\ encFaults (cl s') = [].
Proof.
  intros Hl Hi Ht Hio Hh Hp Hst Hd Hc. rewrite (reconnect_eq s es conn ds) by done.
  eexists. split; [reflexivity|]. done.
Qed.

Definition demo_lost : CSession :=
  set_dials [inl (ErrMsg "connection refused"); inr (mkConn [] demo_hashes)]
    (run_of demo_client [RError IoEOF]).

Lemma reconnect_resyncs_witness :
  exists s', listens 3 demo_lost = Done s' /\
    listenPc s' = LReceive /\ incoming s' = demo_hashes /\ dials s' = [] /\
    csent (cl s') = [init_packet 16 (cTarget demo_client); CreateInfoPacket PacketTypeCmdStartHashing] /\
    cstate (cl s') = StateHashing /\ kernel (cl s') = bdr_ring_buffer_reset (kernel demo_client) /\
    cbuf (MonitorPauseContr (cl s')) = [Paused] /\ encFaults (cl s') = [].
Proof.
  apply (reconnect_resyncs demo_lost [ErrMsg "connection refused"] (mkConn [] demo_hashes) []);
    [reflexivity..|exact demo_contr|discriminate|reflexivity|reflexivity].
Defined.

(** ** The monitor at the start of a scan *)

(** A client that loses its connection; the new one delivers a scan of one
    block, whose hash agrees. *)
Definition demo_rescan : CSession :=
  set_dials [inr (mkConn [] [info PacketTypeInfoStartHashing;
                             RPacket {| PacketType := PacketTypePayloadHash;
                                        Payload := PHashInfo {| hOffset := 0; hSize := 4; hHash := 1 |} |};
                             info PacketTypeInfoHashingCompleted])]
    (run_of (set_kernel [] (bdr_ring_buffer_reset (kernel demo_client)) demo_client) [RError IoEOF]).

(** C31: a write made during a scan can be lost.  When the listener pauses a monitor
    that has passed [WaitIfPaused] and not yet read the buffer info ([MRead], with
    [Paused] in the controller: the state at the start of every scan that meets it
    there), the writes that then reach the source device are taken out of the
    kernel's ring and dropped: for every such client and every write that fits the
    ring, two steps of the monitor leave the client as it was, nothing sent, the
    write on the source and no entry in the ring that anybody will still read. *)
Theorem monitor_drops_writes xxhash pick1 pick2 n s a bio :
  monitorPc s = MRead -> cinv (cl s) -> cbuf (MonitorPauseContr (cl s)) = [Paused] ->
  ioctlFaults (cl s) = [] -> termIn (cl s) = None ->
  ring_rel (Z.to_nat (PageSize (cTarget (cl s)))) n (kernel (cl s)) a ->
  Forall (wf_segment (Z.to_nat (PageSize (cTarget (cl s))))) bio -> bio <> [] ->
  a_lost (foldl (fun a e => a_put n e a) a (seg_entry <$> bio)) = false ->
  exists k, crun xxhash [CSource bio; CMonitor pick1; CMonitor pick2] s =
      Done (set_monitor MWait (set_cl (set_kernel [] k (set_under
        {| content := apply_writes (seg_write <$> bio) (content (UnderDevFile (cl s)));
           faults := faults (UnderDevFile (cl s)) |} (cl s))) s)) /\
    ring_rel (Z.to_nat (PageSize (cTarget (cl s)))) n k (mkARing (a_pending a ++ (seg_entry <$> bio)) [] false) /\
    HasNewWrites (buffer_info k) = false.
Proof.
  intros Hm Hc Hp Hio Ht R W Hne Hl.
  pose proof (target_map_refines _ n bio (kernel (cl s)) a R W) as R1.
  pose proof (proj2 (puts_pending n _ a Hl)) as Hpend. set (a1 := foldl _ a _) in *.
  set (c1 := write_source bio (cl s)). change (bdr_target_map _ bio (kernel (cl s))) with (kernel c1) in R1.
  pose proof (read_refines _ n (kernel c1) a1 R1) as R2.
  destruct (bdr_buffer_read_routine (kernel c1)) as [b k] eqn:Eb. destruct R2 as (R2 & _ & Ho & Hd).
  destruct (Hd Hl) as [_ D]. unfold a_read in R2. rewrite Hl, Hpend in R2. rewrite Hl in Ho.
  assert (Hn : HasNewWrites b = true).
  { unfold HasNewWrites. rewrite (hd_len _ _ _ _ _ D), Hpend, length_app, length_fmap. destruct bio; [done|]. cbn.
    destruct (Z.eqb_spec (Z.of_nat (length (a_pending a) + S (length bio))) 0); [lia|done]. }
  assert (Hlen : 0 < biLength b) by (unfold HasNewWrites in Hn; pose proof (hd_len _ _ _ _ _ D);
    destruct (Z.eqb_spec (biLength b) 0); [done|lia]).
  exists k. split; [|split; [done|]].
  - cbn [crun cstep]. fold c1. cbn [abind]. unfold monitor_step at 1. cbn [monitorPc set_cl]. rewrite Hm.
    unfold on_cl at 1. cbn [cl set_cl]. rewrite ServeIOCTL_ok, executeIOCTL_ok by done. rewrite Eb.
    assert (Ebb : b = buffer_info (kernel c1)) by (by injection Eb as <- _). rewrite <- Ebb.
    rewrite Hn. cbn [negb]. change (CheckOverflow b) with (is_overflown b). rewrite Ho. cbn [abind].
    unfold monitor_step. cbn [monitorPc set_monitor]. destruct (Z.ltb_spec 0 (biLength b)); [|lia].
    unfold on_cl. rewrite IsPaused_same by done. cbn [cl set_cl set_monitor MonitorPauseContr set_kernel c1 write_source write_submit write_put set_under].
    rewrite Hp. by destruct s.
  - unfold HasNewWrites. rewrite (rr_length _ _ _ _ R2). done.
Qed.

(** The kernel puts a write into the ring before it submits it.  When a scan
    resets the ring in between, the block can be read as it was before the write,
    and afterwards the write is on the source and no longer in the ring. *)
Lemma reset_between_put_and_submit n bio c a :
  ring_rel (Z.to_nat (PageSize (cTarget c))) n (kernel c) a -> ioctlFaults c = [] -> termIn c = None ->
  Forall (wf_segment (Z.to_nat (PageSize (cTarget c)))) bio ->
  exists c1, ResetBufferIOCTL (write_put bio c) = (Ret tt, c1) /\
    content (UnderDevFile c1) = content (UnderDevFile c) /\
    content (UnderDevFile (write_submit bio c1)) = apply_writes (seg_write <$> bio) (content (UnderDevFile c)) /\
    ring_rel (Z.to_nat (PageSize (cTarget c))) n (kernel (write_submit bio c1)) a_reset.
Proof.
  intros R Hf Ht W. pose proof (target_map_refines _ n bio _ a R W) as R1.
  exists (set_kernel [] (bdr_ring_buffer_reset (kernel (write_put bio c))) (write_put bio c)). split_and!.
  - apply (ignore_Ret _ _ zeroBufferInfo). by rewrite ServeIOCTL_ok, executeIOCTL_ok by done.
  - done.
  - done.
  - cbn. eapply reset_refines, R1.
Qed.

(** The monitor passes [WaitIfPaused]; then the listener reconnects and the block is
    compared. *)
Definition demo_passed : list cevent := [CMonitor false] ++ replicate 6 CListen ++ [CHashRead; CHashSend 0].
Definition demo_lost_bio : list segment := [mkSegment 0 [Byte.xcc] 0 1].

Lemma demo_rescan_ring : ring_rel 2 3 (kernel (cl demo_rescan)) a_reset.
Proof. split; cbn; try done; try lia. Qed.

(** The scan then ends without the write. *)
Lemma monitor_drops_writes_witness :
  exists s1 s2 s3, crun any_hash demo_passed demo_rescan = Done s1 /\
    crun any_hash [CSource demo_lost_bio; CMonitor false; CMonitor false] s1 = Done s2 /\
    crun any_hash ([CListen; CHashRead] ++ replicate 4 CListen) s2 = Done s3 /\
    content (UnderDevFile (cl s3)) !! 0%nat = Some Byte.xcc /\ cstate (cl s3) = StateWriting /\
    HasNewWrites (buffer_info (kernel (cl s3))) = false /\
    csent (cl s3) = [init_packet 16 (cTarget demo_client); CreateInfoPacket PacketTypeCmdStartHashing;
                     CreateInfoPacket PacketTypeInfoHashingCompleted].
Proof.
  destruct (crun any_hash demo_passed demo_rescan) as [s1| |] eqn:E; [|vm_compute in E; discriminate..].
  assert (H : monitorPc s1 = MRead /\ cbuf (MonitorPauseContr (cl s1)) = [Paused] /\ ioctlFaults (cl s1) = [] /\
    termIn (cl s1) = None /\ kernel (cl s1) = kernel (cl demo_rescan) /\ cTarget (cl s1) = cTarget demo_client /\
    MonitorPauseContr (cl s1) = mkChan [Paused] 1 false)
    by (vm_compute in E; injection E as <-; repeat split; reflexivity).
  destruct H as (H1 & H2 & H3 & H4 & H5 & H6 & H7).
  destruct (monitor_drops_writes any_hash false false 3 s1 a_reset demo_lost_bio) as (k & E2 & _ & Hk).
  - exact H1.
  - unfold cinv. rewrite H7. split_and!; cbn; [reflexivity|reflexivity|lia].
  - exact H2.
  - exact H3.
  - exact H4.
  - rewrite H5, H6. exact demo_rescan_ring.
  - rewrite H6. repeat constructor; cbn; try lia; unfold is_u32; lia.
  - discriminate.
  - reflexivity.
  - pose proof E2 as E3. vm_compute in E. injection E as <-. vm_compute in E3. injection E3 as E3.
    eexists _, _, _. split; [reflexivity|]. split; [exact E2|].
    rewrite <- E3. split; [vm_compute; reflexivity|]. repeat split; vm_compute; reflexivity.
Defined.

(** ** The end of a scan *)

Lemma listens_one s s1 n : listen_step s = Done s1 -> listens (S n) s = listens n s1.
Proof. intros E. unfold listens. cbn. by rewrite E. Qed.

Lemma entries_listens m b i s c' :
  listenPc s = LEntries b i -> m = Z.to_nat (biLength b - i) -> cinv (cl s) ->
  process_entries m i b false (cl s) = (Ret true, c') ->
  cinv c' /\ exists n, listens n s = Done (set_listen LResume (set_cl c' s)).
Proof.
  revert i s. induction m as [|m IH]; intros i s Hl Hi Hc E; cbn [process_entries] in E.
  { injection E as <-. split; [done|]. exists 1%nat. unfold listens; cbn. unfold listen_step. rewrite Hl.
    destruct (Z.ltb_spec i (biLength b)); [lia|]. cbn. by destruct s. }
  rewrite (bind_Ret _ _ _ _ _ (IsPaused_same _ Hc)), andb_false_r in E.
  apply bind_inv_Ret in E as (r & c1 & E1 & E).
  assert (Hc1 : cinv c1) by (pose proof (preserves_process_entry b i _ Hc) as H; by rewrite E1 in H).
  assert (E2 : listen_step s = Done (set_listen
    (match r with Next => LEntries b (i + 1) | Return => LResume | Spin => LEntries b i end) (set_cl c1 s))).
  { unfold listen_step. rewrite Hl. destruct (Z.ltb_spec i (biLength b)); [|lia].
    unfold on_cl. rewrite (bind_Ret _ _ _ _ _ (IsPaused_same _ Hc)). by rewrite E1. }
  destruct r.
  - destruct (IH (i + 1) (set_listen (LEntries b (i + 1)) (set_cl c1 s))) as [Hc' [n H]]; [done|cbn; lia|done|done|].
    split; [done|]. exists (S n). rewrite (listens_one _ _ _ E2). exact H.
  - injection E as <-. split; [done|]. exists 1%nat. by rewrite (listens_one _ _ _ E2).
  - done.
Qed.

(** The steps of the listener at the end of a scan are [ProcessBuffer]: run
    without interruption, they leave the client as the function does, and the
    listener back in its loop with a new hash queue. *)
Theorem listener_ProcessBuffer s c' :
  listenPc s = LSendBuffer -> contr_ok (MonitorPauseContr (cl s)) -> ProcessBuffer (cl s) = (Ret true, c') ->
  exists n, listens n s = Done (set_listen LReceive (new_hashQueue (set_cl c' s))).
Proof.
  intros Hl Hc E. unfold ProcessBuffer, SendBuffer in E.
  apply bind_inv_Ret in E as (sent & c2 & Es & E).
  apply bind_inv_Ret in Es as (b & c1 & Eb & Es).
  assert (Hc1 : cinv c1) by (destruct (calm_ServeIOCTL CmdReadBufferInfo _ Hc) as [H _]; by rewrite Eb in H).
  assert (F : forall s2, listenPc s2 = LResume -> cinv (cl s2) -> (SetState StateWriting ;;;
      on_contr (lift_unit Resume) ;;; SendPacket (CreateInfoPacket PacketTypeInfoHashingCompleted) ;;; ret true)
      (cl s2) = (Ret true, c') ->
      listens 2 s2 = Done (set_listen LReceive (new_hashQueue (set_cl c' s2)))).
  { intros s2 Hl2 Hc2 E2. apply bind_inv_Ret in E2 as (u & c3 & E3 & E2).
    apply bind_inv_Ret in E2 as (u2 & c4 & E4 & E2). apply bind_inv_Ret in E2 as (u3 & c5 & E5 & E2).
    injection E2 as <-. unfold listens; cbn. unfold listen_step at 1. rewrite Hl2. unfold on_cl.
    rewrite (bind_Ret _ _ _ _ _ E3), E4. cbn [abind]. unfold listen_step.
    cbn [listenPc set_listen]. unfold on_cl. cbn [cl set_cl set_listen]. by rewrite E5. }
  assert (E1 : forall k, on_cl (ServeIOCTL CmdReadBufferInfo) s k = k b (set_cl c1 s))
    by (intros k; unfold on_cl; by rewrite Eb).
  assert (S1 : listen_step s = if negb (HasNewWrites b) then Done (set_listen LResume (set_cl c1 s))
    else if CheckOverflow b
    then on_cl StartHashing (set_cl c1 s) (fun _ s => Done (set_listen LReceive (new_hashQueue s)))
    else Done (set_listen (LEntries b 0) (set_cl c1 s))) by (unfold listen_step; by rewrite Hl, E1).
  destruct (HasNewWrites b); cbn [negb] in *; [destruct (CheckOverflow b)|].
  - injection Es as <- <-. apply bind_inv_Ret in E as (u & c3 & E3 & E). injection E as <-.
    exists 1%nat. unfold on_cl in S1. cbn [cl set_cl] in S1. rewrite E3 in S1.
    by rewrite (listens_one _ _ _ S1).
  - apply bind_inv_Ret in Es as (go & c3 & E3 & Es). destruct go; injection Es as <- <-; [|done].
    destruct (entries_listens (Z.to_nat (biLength b)) b 0 (set_listen (LEntries b 0) (set_cl c1 s)) c3)
      as [Hc3 [n Hn]]; [done|by rewrite Z.sub_0_r|done|exact E3|].
    exists (S (n + 2)). rewrite (listens_one _ _ _ S1), listens_app, Hn. cbn [abind].
    rewrite F; [done|done|exact Hc3|exact E].
  - injection Es as <- <-. exists 3%nat. rewrite (listens_one _ _ _ S1). by rewrite F.
Qed.

Lemma listener_ProcessBuffer_witness :
  exists n, listens n (set_listen LSendBuffer (run_of demo_client [])) =
    Done (set_listen LReceive (new_hashQueue (set_cl (ProcessBuffer demo_client).2
      (set_listen LSendBuffer (run_of demo_client []))))).
Proof.
  apply (listener_ProcessBuffer (set_listen LSendBuffer (run_of demo_client [])));
    [reflexivity|exact demo_contr|vm_compute; reflexivity].
Defined.
