(* ===== verification/ClientSends.v ===== *)
(** * The two ends of the connection, seen from the client

    What the client has sent stays sent; and packets that arrive later do not
    change what it did before they arrived. *)
From S2P Require Import Prelude GoInt GoMonad GoChan Utils BlockDev Blocks Networking Journal Pause.
From S2P Require Import RingBuffer Client ClientSession ClientSafety.
Open Scope Z_scope.

(** ** What has been sent only grows *)

Section Grows.
Context (l : list Packet).

(** The packets [l] have been sent. *)
Definition has_sent (c : Client) : Prop := l `prefix_of` csent c.

Lemma grows_Encode p : preserves has_sent (Encode p).
Proof.
  intros c H. unfold Encode. destruct (encFaults c) as [|[e|] fs]; [by apply prefix_app_r|done|by apply prefix_app_r].
Qed.
Lemma grows_CheckTermination : preserves has_sent CheckTermination.
Proof. intros c H. unfold CheckTermination. by destruct (termIn c) as [[|n]|]. Qed.
Hint Resolve grows_Encode grows_CheckTermination : preserves.

Lemma grows_SendPacket p : preserves has_sent (SendPacket p).
Proof.
  unfold SendPacket. apply preserves_bind; [auto with preserves|]. intros n. generalize (S n). clear n.
  induction n as [|n IH]; cbn [send_loop]; [auto with preserves|].
  apply preserves_bind; [auto with preserves|]. intros [[]|e]; [auto with preserves|].
  apply preserves_bind; [auto with preserves|]. intros []; auto with preserves.
Qed.

Lemma grows_executeIOCTL cmd : preserves has_sent (executeIOCTL cmd).
Proof. intros c H. unfold executeIOCTL. destruct (ioctlFaults c) as [|[e|] fs]; by destruct cmd. Qed.
Hint Resolve grows_SendPacket grows_executeIOCTL : preserves.

Lemma grows_ServeIOCTL cmd : preserves has_sent (ServeIOCTL cmd).
Proof.
  unfold ServeIOCTL. apply preserves_bind; [auto with preserves|]. intros n. generalize (S n). clear n.
  induction n as [|n IH]; cbn [ioctl_loop]; [auto with preserves|].
  apply preserves_bind; [auto with preserves|]. intros []; [auto with preserves|].
  apply preserves_bind; [auto with preserves|]. intros [b|e]; [auto with preserves|].
  apply preserves_bind; [auto with preserves|]. intros []; auto with preserves.
Qed.

Lemma grows_contr {A} (f : PauseController -> attempt (A * PauseController)) : preserves has_sent (on_contr f).
Proof. intros c H. unfold on_contr. by destruct (f (MonitorPauseContr c)) as [[]| |]. Qed.
Lemma grows_SetState st : preserves has_sent (SetState st).
Proof. by apply preserves_modify. Qed.
Lemma grows_under {A} (m : M Dev A) : preserves has_sent (zoom UnderDevFile set_under m).
Proof. intros c H. unfold zoom. by destruct (m (UnderDevFile c)). Qed.
Hint Resolve grows_ServeIOCTL grows_contr grows_SetState grows_under : preserves.

Lemma grows_start st t : preserves has_sent (start st t).
Proof. unfold start, ResetBufferIOCTL. auto 8 with preserves. Qed.

Lemma grows_read_block n off : preserves has_sent (read_block n off).
Proof. unfold read_block. apply preserves_bind; [auto with preserves|]. intros []. auto with preserves. Qed.
Hint Resolve grows_start grows_read_block : preserves.

Lemma grows_replicate_block n b o : preserves has_sent (replicate_block n b o).
Proof.
  unfold replicate_block, SendReplicationBlock.
  repeat (apply preserves_bind; [auto with preserves|]; intros []; [auto with preserves|]).
  apply preserves_bind; [auto with preserves|]. intros [buf err]. destruct (not_EOF err); [auto with preserves|].
  apply preserves_bind; [auto with preserves|]. intros []; auto with preserves.
Qed.

Lemma grows_process_entry b i : preserves has_sent (process_entry b i).
Proof.
  unfold process_entry. repeat (apply preserves_bind; [auto with preserves|intros ?]).
  destruct (read_entry _ _).
  - apply preserves_bind; [auto with preserves|]. intros n. generalize (S n). clear n.
    induction n as [|n IH]; cbn [send_write]; [auto with preserves|].
    apply preserves_bind; [auto with preserves|]. intros [[]|e]; [auto with preserves|].
    apply preserves_bind; [unfold GetState; auto with preserves|]. intros st. destruct (bool_decide _);
      [auto with preserves|].
    apply preserves_bind; [auto with preserves|]. intros []; auto with preserves.
  - apply preserves_bind; [auto with preserves|]. intros []; [|auto with preserves].
    apply preserves_bind; [|auto with preserves]. by apply preserves_modify.
Qed.
Hint Resolve grows_replicate_block grows_process_entry : preserves.

(** A call, and what follows it. *)
Lemma on_cl_grows {A} (m : M Client A) s k s' :
  preserves has_sent m -> on_cl m s k = Done s' -> has_sent (cl s) ->
  (forall a s1, has_sent (cl s1) -> k a s1 = Done s' -> has_sent (cl s')) -> has_sent (cl s').
Proof.
  intros Hm [(a & _ & E)| ->]%on_cl_Done Hs Hk; [|by apply Hm].
  exact (Hk a (set_cl _ s) (Hm _ Hs) E).
Qed.

Ltac call :=
  match goal with
  | E : on_cl _ _ _ = Done _ |- _ =>
      eapply on_cl_grows; [|exact E|done|]; [auto with preserves|]; clear; intros ? ? ? E; cbn beta in *
  end.

Lemma listen_grows s s' : listen_step s = Done s' -> has_sent (cl s) -> has_sent (cl s').
Proof.
  unfold listen_step. intros E H. destruct (listenPc s) as [|st|p| | | | |b k| | | | | |r0]; try done.
  - unfold receive, listen_dispatch, close_hashQueue in E. destruct (terminated s).
    + by apply abind_Done in E as (q & _ & [= <-]).
    + destruct (incoming s) as [|[p| |[]] rest]; repeat case_match; simplify_eq; try done;
        by apply abind_Done in E as (q & _ & [= <-]).
  - unfold reconnect_turn in E. destruct (terminated s); [by injection E as <-|].
    destruct (dials s) as [|[e|conn] ds]; [done|by injection E as <-|]. call.
    destruct a as [n|e]; [|by injection E as <-].
    assert (K : forall t (m : M Client unit), preserves has_sent m -> has_sent (cl t) ->
      on_cl m t (fun _ s => Done (set_listen LReceive s)) = Done s' -> has_sent (cl s')).
    { intros t m Hm Ht Em. eapply on_cl_grows; [done|exact Em|done|]. by intros [] s2 H2 [= <-]. }
    destruct (conn_enc conn) as [|[e|] fs]; [|by injection E as <-|];
      (eapply K; [| |exact E]; [|by apply prefix_app_r]); apply preserves_if; unfold StartHashing;
      auto with preserves.
  - by apply abind_Done in E as (q & _ & [= <-]).
  - destruct (hash_idle s); [by injection E as <-|done].
  - destruct (hash_idle s); [by injection E as <-|done].
  - destruct (hash_idle s); [by injection E as <-|done].
  - call. destruct (negb _); [by injection E as <-|]. destruct (CheckOverflow _); [|by injection E as <-].
    unfold StartHashing in E. call. by injection E as <-.
  - destruct (_ <? _); [|by injection E as <-]. call. by injection E as <-.
  - call. by injection E as <-.
  - call. by injection E as <-.
  - destruct (hash_idle s); [by injection E as <-|done].
  - by injection E as <-.
  - unfold close_TermChan in E. destruct (terminated s); [done|]. by injection E as <-.
Qed.

Lemma other_grows xxhash e s s' : e <> CListen -> cstep xxhash e s = Done s' -> has_sent (cl s) -> has_sent (cl s').
Proof.
  destruct e as [| |i|pick|i| |bio]; intros He E H; cbn [cstep] in E; try done; try by injection E as <-.
  - unfold hash_read_step in E. destruct (hashers s) as [items|]; [|done].
    apply abind_Done in E as ([[p|] q] & _ & E); [|destruct (_ =? _)%nat; [by injection E as <-|done]].
    unfold StartHashing in E. destruct (Payload p); try (call; by injection E as <-).
    call. destruct (not_EOF _); [|by injection E as <-]. call. by injection E as <-.
  - unfold hash_send_step, SendCorrectBlock in E. destruct (hashers s) as [items|]; [|done].
    destruct (items !! i) as [[h b]|]; [|done]. destruct (_ =? _); [by injection E as <-|]. call. by injection E as <-.
  - unfold monitor_step, StartHashing in E. destruct (monitorPc s) as [| | |b k|]; try done.
    + by destruct (WaitIfPaused _ _ _); injection E as <-.
    + apply abind_Done in E as ([r p] & _ & E). by injection E as <-.
    + call. destruct (negb _); [by injection E as <-|]. destruct (CheckOverflow _); [|by injection E as <-].
      call. by injection E as <-.
    + destruct (_ <? _); [|by injection E as <-]. call. destruct a; [by injection E as <-|]. call. by injection E as <-.
  - unfold replicate_step in E. destruct (replicator s) as [[n [|o os]]|]; [| |done].
    + call. by injection E as <-.
    + destruct (_ !! i) as [o'|]; [|done]. call. by injection E as <-.
Qed.

Lemma cstep_grows xxhash e s s' : cstep xxhash e s = Done s' -> has_sent (cl s) -> has_sent (cl s').
Proof.
  intros E. destruct (listen_or_not e) as [->|He]; [by apply listen_grows|by apply (other_grows xxhash e)].
Qed.
End Grows.

(** Every step of the client only adds to what was sent. *)
Lemma cstep_sends xxhash e s s' : cstep xxhash e s = Done s' -> csent (cl s) `prefix_of` csent (cl s').
Proof. intros E. apply (cstep_grows (csent (cl s)) xxhash e s s' E). unfold has_sent. reflexivity. Qed.

(** ** Packets that arrive later *)

(** The packets [x] arrive after the others. *)
Definition arrive (x : list received) (s : CSession) : CSession := set_incoming (incoming s ++ x) s.

(** The connection is up and gives packets only. *)
Definition linked (s : CSession) : Prop :=
  Forall (fun r => exists p, r = RPacket p) (incoming s) /\
  match listenPc s with LReconnect _ => False | _ => True end.

Lemma arrive_nil s : arrive [] s = s.
Proof. unfold arrive. rewrite app_nil_r. by destruct s. Qed.

Lemma arrive_arrive x y s : arrive y (arrive x s) = arrive (x ++ y) s.
Proof. unfold arrive. cbn. by rewrite <- app_assoc. Qed.

Section Arrive.
Context (x : list received).

Lemma on_cl_arrive {A} (m : M Client A) s k s' :
  on_cl m s k = Done s' -> (forall a s1, k a s1 = Done s' -> k a (arrive x s1) = Done (arrive x s')) ->
  on_cl m (arrive x s) k = Done (arrive x s').
Proof.
  unfold on_cl. cbn [cl arrive set_incoming]. destruct (m (cl s)) as [[a|e|] c]; [|by intros [= <-]|done].
  intros E H. apply (H a (set_cl c s) E).
Qed.

Ltac later := let E := fresh "E" in intros ? ? E; first [by injection E as <-|revert E].

Lemma other_arrive xxhash e s s' :
  e <> CListen -> cstep xxhash e s = Done s' -> cstep xxhash e (arrive x s) = Done (arrive x s').
Proof.
  destruct e as [| |i|pick|i| |bio]; intros He E; cbn [cstep] in *; try done; try by injection E as <-.
  - revert E. unfold hash_read_step. cbn [hashers arrive set_incoming hashQueue].
    destruct (hashers s) as [items|]; [|done].
    destruct (chan_recv (hashQueue s)) as [[[p|] q]| |]; cbn [abind]; [| |done..].
    + destruct (Payload p) as [| |h| | |]; intros E; apply (on_cl_arrive _ (set_hashQueue q s) _ _ E); try (by later).
      intros a s1. destruct (not_EOF _); [|by intros [= <-]]. intros E1. apply (on_cl_arrive _ _ _ _ E1). by later.
    + destruct (_ =? _)%nat; [by intros [= <-]|done].
  - revert E. unfold hash_send_step. cbn [hashers arrive set_incoming].
    destruct (hashers s) as [items|]; [|done]. destruct (items !! i) as [[h b]|]; [|done].
    destruct (_ =? _); [by intros [= <-]|]. intros E.
    apply (on_cl_arrive _ (set_hashers (Some (delete i items)) s) _ _ E). by later.
  - revert E. unfold monitor_step. cbn [monitorPc arrive set_incoming cl].
    change (TermChan (set_incoming _ s)) with (TermChan s). destruct (monitorPc s) as [| | |b k|]; [..|done].
    + destruct (WaitIfPaused _ _ _). by intros [= <-].
    + destruct (waitUntilResumed _ _ _) as [[r p]| |]; cbn [abind]; [by intros [= <-]|done..].
    + intros E. apply (on_cl_arrive _ _ _ _ E). intros b s1. destruct (negb _); [by intros [= <-]|].
      destruct (CheckOverflow _); [|by intros [= <-]]. intros E1. apply (on_cl_arrive _ _ _ _ E1). by later.
    + destruct (_ <? _); [|by intros [= <-]]. intros E. apply (on_cl_arrive _ _ _ _ E). intros [] s1; [by intros [= <-]|].
      intros E1. apply (on_cl_arrive _ _ _ _ E1). by later.
  - revert E. unfold replicate_step. cbn [replicator arrive set_incoming].
    destruct (replicator s) as [[n [|o os]]|]; [| |done].
    + intros E. apply (on_cl_arrive _ _ _ _ E). by later.
    + destruct (_ !! i) as [o'|]; [|done]. intros E. apply (on_cl_arrive _ _ _ _ E). by later.
Qed.

Lemma dispatch_arrive p s s' :
  listen_dispatch p s = Done s' -> listen_dispatch p (arrive x s) = Done (arrive x s').
Proof.
  unfold listen_dispatch, close_hashQueue. cbn [hashQueue arrive set_incoming].
  destruct (chan_close (hashQueue s)) as [q| |]; cbn [abind]; repeat case_match; intros; by simplify_eq.
Qed.

Lemma listen_arrive s s' :
  linked s -> listen_step s = Done s' -> listen_step (arrive x s) = Done (arrive x s').
Proof.
  intros [Hi Hl]. unfold listen_step. change (listenPc (arrive x s)) with (listenPc s).
  destruct (listenPc s) as [|st|p| | | | |b k| | | | | |r0]; try done.
  - unfold receive. change (terminated (arrive x s)) with (terminated s).
    change (incoming (arrive x s)) with (incoming s ++ x). destruct (terminated s).
    + unfold close_hashQueue. change (hashQueue (arrive x s)) with (hashQueue s).
      destruct (chan_close (hashQueue s)) as [q| |]; cbn [abind]; [by intros [= <-]|done..].
    + destruct (incoming s) as [|r l]; [done|].
      apply Forall_cons in Hi as [[p ->] _]. cbn [app]. apply dispatch_arrive.
  - change (hashQueue (arrive x s)) with (hashQueue s). destruct (chan_send p (hashQueue s)) as [q| |]; cbn [abind]; [by intros [= <-]|done..].
  - change (hash_idle (arrive x s)) with (hash_idle s). destruct (hash_idle s); [by intros [= <-]|done].
  - change (hash_idle (arrive x s)) with (hash_idle s). destruct (hash_idle s); [by intros [= <-]|done].
  - change (hash_idle (arrive x s)) with (hash_idle s). destruct (hash_idle s); [by intros [= <-]|done].
  - intros E. apply (on_cl_arrive _ _ _ _ E). intros b s1. destruct (negb _); [by intros [= <-]|].
    destruct (CheckOverflow _); [|by intros [= <-]]. intros E1. apply (on_cl_arrive _ _ _ _ E1). by later.
  - destruct (_ <? _); [|by intros [= <-]]. intros E. apply (on_cl_arrive _ _ _ _ E). by later.
  - intros E. apply (on_cl_arrive _ _ _ _ E). by later.
  - intros E. apply (on_cl_arrive _ _ _ _ E). by later.
  - change (hash_idle (arrive x s)) with (hash_idle s). destruct (hash_idle s); [by intros [= <-]|done].
  - by intros [= <-].
  - unfold close_TermChan. change (terminated (arrive x s)) with (terminated s). destruct (terminated s); [done|].
    by intros [= <-].
Qed.

Lemma cstep_arrive xxhash e s s' :
  linked s -> cstep xxhash e s = Done s' -> cstep xxhash e (arrive x s) = Done (arrive x s').
Proof.
  intros L E. destruct (listen_or_not e) as [->|He]; [by apply listen_arrive|by apply other_arrive].
Qed.
End Arrive.

(** ** The connection stays up *)

Lemma on_cl_linked {A} (m : M Client A) s k s' :
  linked s -> on_cl m s k = Done s' ->
  (forall a s1, linked s1 -> k a s1 = Done s' -> linked s') -> linked s'.
Proof.
  intros L [(a & _ & E)| ->]%on_cl_Done Hk; [|done]. by apply (Hk a (set_cl (m (cl s)).2 s)).
Qed.

Lemma move_linked l s : linked s -> (forall st, l <> LReconnect st) -> linked (set_listen l s).
Proof. intros [H _] Hl. split; [done|]. cbn. destruct l; try done. by destruct (Hl pastState). Qed.

Lemma dispatch_linked p s s' : linked s -> listen_dispatch p s = Done s' -> linked s'.
Proof.
  intros L. unfold listen_dispatch, close_hashQueue.
  destruct (chan_close (hashQueue s)) as [q| |]; cbn [abind]; repeat case_match; intros; simplify_eq;
    try done; by apply move_linked.
Qed.

Lemma listen_linked s s' : linked s -> listen_step s = Done s' -> linked s'.
Proof.
  intros L. pose proof L as [Hi Hl]. unfold listen_step.
  destruct (listenPc s) as [|st|p| | | | |b k| | | | | |r0]; try done.
  - unfold receive, close_hashQueue. destruct (terminated s).
    + destruct (chan_close (hashQueue s)); cbn [abind]; [intros [= <-]; by apply move_linked|done..].
    + destruct (incoming s) as [|r l] eqn:E; [done|]. apply Forall_cons in Hi as [[p ->] Hi].
      apply dispatch_linked. split; [done|]. by destruct L.
  - intros (q & _ & [= <-])%abind_Done. by apply (move_linked LReceive (set_hashQueue q s)).
  - destruct (hash_idle s); [intros [= <-]; by split|done].
  - destruct (hash_idle s); [intros [= <-]; by split|done].
  - destruct (hash_idle s); [intros [= <-]; apply move_linked; [done|by destruct (terminated s)]|done].
  - intros E. apply (on_cl_linked _ _ _ _ L E). intros b s1 L1.
    destruct (negb _); [intros [= <-]; by apply move_linked|].
    destruct (CheckOverflow _); [|intros [= <-]; by apply move_linked].
    intros E1. apply (on_cl_linked _ _ _ _ L1 E1). intros a s2 [L2 _] [= <-]. by split.
  - destruct (_ <? _); [|intros [= <-]; by apply move_linked]. intros E. apply (on_cl_linked _ _ _ _ L E).
    intros r s1 L1 [= <-]. apply move_linked; [done|]. by destruct r.
  - intros E. apply (on_cl_linked _ _ _ _ L E). intros r s1 L1 [= <-]. by apply move_linked.
  - intros E. apply (on_cl_linked _ _ _ _ L E). intros r s1 [L1 _] [= <-]. by split.
  - destruct (hash_idle s); [intros [= <-]; by split|done].
  - intros [= <-]. apply move_linked; [done|]. by destruct (terminated s).
  - unfold close_TermChan. destruct (terminated s); [done|]. intros [= <-].
    apply (move_linked _ (InitiateShutdown s)); [done|]. by destruct r0.
Qed.

Lemma cstep_linked xxhash e s s' : linked s -> cstep xxhash e s = Done s' -> linked s'.
Proof.
  intros L E. destruct (listen_or_not e) as [->|He]; [by eapply listen_linked|].
  destruct (other_step xxhash e s s' He E) as [H1 H2 _ _ _ _ _]. unfold linked. by rewrite H1, H2.
Qed.

Lemma crun_arrive x xxhash es s s' :
  linked s -> crun xxhash es s = Done s' -> crun xxhash es (arrive x s) = Done (arrive x s') /\ linked s'.
Proof.
  revert s. induction es as [|e es IH]; intros s L; cbn [crun]; [by intros [= <-]|].
  intros (s1 & E & E')%abind_Done. rewrite (cstep_arrive x xxhash e s s1 L E). cbn [abind].
  apply IH; [|done]. by eapply cstep_linked.
Qed.
