(* ===== verification/ClientScan.v ===== *)
(** * A scan on the client under every schedule

    From the announcement of the scan to the moment when its workers are done,
    the listener, the workers of [InitHashing], the paused monitor, and the
    writes that reach the source meanwhile can interleave in any way: every hash
    packet is compared exactly once, with the block as the source has it at
    some moment of the scan, and exactly the blocks whose hashes differ are
    sent. *)
From S2P Require Import Prelude GoInt GoMonad GoChan Utils BlockDev Blocks Image Networking Journal Pause.
From S2P Require Import RingBuffer Client ClientFacts ClientProps ClientSession ClientSafety.
Open Scope Z_scope.

(** The length of the block at [o] of a disk of [n] bytes. *)
Definition block_len (n : Z) (o : Z) : Z := Z.min HashedSpaceBase (n - o).

Lemma sub_clip (l : list byte) o n m : (length l <= o + n)%nat -> (length l <= o + m)%nat -> sub o n l = sub o m l.
Proof. intros. unfold sub. rewrite !take_ge; [done|rewrite length_drop; lia..]. Qed.

Lemma read_block_ok n o c :
  healthy (UnderDevFile c) -> 0 <= n -> 0 <= o -> o + n <= dev_size (UnderDevFile c) < 2 ^ 63 ->
  read_block n o c = (Ret (sub (Z.to_nat o) (Z.to_nat n) (content (UnderDevFile c)), None), c).
Proof.
  intros Hh Hn Ho Hs. unfold read_block, zoom, bind. rewrite i64_small by lia.
  rewrite ReadAt_healthy by (done || lia). unfold ret.
  rewrite length_sub by (unfold dev_size in Hs; lia).
  rewrite Nat.sub_diag. cbn [replicate]. rewrite app_nil_r. f_equal. by destruct c.
Qed.

(** ** Hashes and corrections *)

Definition hash_info (xxhash : list byte -> Z) (R : list byte) (o : Z) : HashInfo :=
  let n := block_len (Z.of_nat (length R)) o in
  {| hOffset := o; hSize := n; hHash := xxhash (sub (Z.to_nat o) (Z.to_nat n) R) |}.

(** The hash packet of the server for the block [o] of the replica [R]. *)
Definition hash_packet (xxhash : list byte -> Z) (R : list byte) (o : Z) : Packet :=
  {| PacketType := PacketTypePayloadHash; Payload := PHashInfo (hash_info xxhash R o) |}.

(** The client looks at a block when the source is [s]. *)
Definition correct_packet (s : list byte) (o n : Z) : Packet :=
  {| PacketType := PacketTypePayloadCorrectBlock;
     Payload := PCorrectBlockInfo {| Offset := o; Size := n; Data := sub (Z.to_nat o) (Z.to_nat n) s |} |}.

(** The writes that reach the source during a schedule. *)
Definition sources (es : list cevent) : list write :=
  es ≫= (fun e => match e with CSource bio => seg_write <$> bio | _ => [] end).

(** The monitor has seen, or is about to see, that it is paused. *)
Definition monitor_held (s : CSession) : Prop :=
  match monitorPc s, cbuf (MonitorPauseContr (cl s)) with
  | MWait, [Paused] | MWaiting, [Paused] | MWaiting, [] => True
  | _, _ => False
  end.

(** Then all it can do is wait. *)
Lemma held_monitor pick s s' :
  connected (cl s) -> cinv (cl s) -> monitor_held s -> monitor_step pick s = Done s' ->
  exists p, s' = set_monitor MWaiting (set_cl (set_contr p (cl s)) s) /\ contr_ok p /\ monitor_held s'.
Proof.
  intros (_ & _ & Ht) (C1 & C2 & C3) Hm. unfold monitor_step.
  assert (T : ChanHasTerminated (TermChan s) = false) by (unfold TermChan, terminated; by rewrite Ht).
  assert (K : forall p, cclosed p = false -> ccap p = 1%nat -> cbuf p = [] ->
    exists p', monitor_waited WLoop p s = set_monitor MWaiting (set_cl (set_contr p' (cl s)) s) /\ contr_ok p' /\
      monitor_held (monitor_waited WLoop p s)).
  { intros p H1 H2 H3. exists p. split; [done|]. unfold contr_ok, monitor_held. cbn. rewrite H3. cbn. split_and!; [done|done|lia|done]. }
  unfold monitor_held in Hm. destruct (monitorPc s) as [| | |b k|]; try done.
  - unfold WaitIfPaused, chan_recv. destruct (cbuf _) as [|[] [|]]; try done. rewrite T. cbn [negb andb]. intros [= <-]. by apply K.
  - unfold waitUntilResumed, chan_recv. destruct (cbuf _) as [|[] [|]]; try done.
    + rewrite C1, T. done.
    + rewrite T. cbn. intros [= <-]. by apply K.
Qed.

(** ** The ring during a scan *)

(** An entry of the kernel. *)
Definition wf_entry (t : TargetInfo) (e : entry) : Prop :=
  is_u32 e.1 /\ 0 < Z.of_nat (length e.2) <= PageSize t.

(** The ring of [n] entries holds the writes [W] as its pending entries, unless it
    has overflown. *)
Definition ring_has (t : TargetInfo) (n : nat) (W : list write) (k : bdr_ring_buffer) : Prop :=
  exists a, ring_rel (Z.to_nat (PageSize t)) n k a /\ Forall (wf_entry t) (a_pending a) /\
    (a_lost a = false -> entry_write <$> a_pending a = W).


Lemma puts_wf t n (es : list entry) a :
  Forall (wf_entry t) (a_pending a) -> Forall (wf_entry t) es ->
  Forall (wf_entry t) (a_pending (foldl (fun a e => a_put n e a) a es)).
Proof.
  intros Ha He. revert a Ha. induction He as [|e es He Hes IH]; intros a Ha; [done|]. cbn. apply IH.
  unfold a_put. destruct (a_lost a); [done|]. destruct (_ =? _)%nat; [done|]. cbn.
  apply Forall_app. split; [done|by apply Forall_singleton].
Qed.

Lemma segments_wf t bio :
  0 <= PageSize t -> Forall (wf_segment (Z.to_nat (PageSize t))) bio -> Forall (wf_entry t) (seg_entry <$> bio).
Proof.
  intros Ht H. apply Forall_fmap. eapply Forall_impl; [exact H|]. intros seg [W1 W2 W3 W4 W5]. split; [done|].
  cbn. rewrite length_sub; lia.
Qed.

Lemma ring_has_put t n W k bio :
  0 <= PageSize t -> ring_has t n W k -> Forall (wf_segment (Z.to_nat (PageSize t))) bio ->
  ring_has t n (W ++ (seg_write <$> bio)) (bdr_target_map (Z.to_nat (PageSize t)) bio k).
Proof.
  intros Ht (a & Ra & Wa & Ha) Hb. exists (foldl (fun a e => a_put n e a) a (seg_entry <$> bio)).
  split; [by apply target_map_refines|]. split; [by apply puts_wf, segments_wf|].
  intros [Hl ->]%puts_pending. rewrite fmap_app, Ha by done. f_equal. by rewrite <- list_fmap_compose.
Qed.

Section ClientScan.
Context (xxhash : list byte -> Z) (S0 R : list byte) (offs : list Z) (base : list Packet).
Context (ti : TargetInfo) (rn : nat).

Abbreviation len o := (block_len (Z.of_nat (length R)) o).

(** The block and the moment of an item: the offset of a block, and how many
    writes had reached the source when it was read. *)
Definition look_of (ot : Z * nat) : look := mkLook (Z.to_nat ot.1) (Z.to_nat (len ot.1)) ot.2.

Definition differs (W : list write) (ot : Z * nat) : bool :=
  negb (xxhash (seen S0 W (look_of ot)) =? xxhash (sub (l_off (look_of ot)) (l_len (look_of ot)) R)).

Definition corrections (W : list write) (items : list (Z * nat)) : list Packet :=
  (fun ot => correct_packet (src S0 W ot.2) ot.1 (len ot.1)) <$> filter (fun ot => differs W ot = true) items.

(** A block read and not yet compared. *)
Definition held (W : list write) (ot : Z * nat) : HashInfo * list byte :=
  (hash_info xxhash R ot.1, seen S0 W (look_of ot)).

Definition stream (todo : list Z) : list received :=
  (RPacket ∘ hash_packet xxhash R <$> todo) ++ [RPacket (CreateInfoPacket PacketTypeInfoHashingCompleted)].

(** Where the scan is while the workers run, and before and after: [todo] are the
    hashes not yet received. *)
Definition working_at (todo : list Z) (s : CSession) : Prop :=
  match listenPc s with
  | LReceive => incoming s = stream todo
  | LSendHash p =>
      exists o todo', todo = o :: todo' /\ p = hash_packet xxhash R o /\ incoming s = stream todo'
  | LHashingCompleted => todo = [] /\ incoming s = []
  | _ => False
  end.
Definition idle_at (todo : list Z) (s : CSession) : Prop :=
  match listenPc s with
  | LReceive => incoming s = RPacket (CreateInfoPacket PacketTypeInfoStartHashing) :: stream todo
  | LStartHashing => incoming s = stream todo
  | LHashingCompleted | LSendBuffer => todo = [] /\ incoming s = []
  | _ => False
  end.

(** [queued] are the hashes in the queue, [fl] the blocks the workers hold. *)
Definition phase (W : list write) (todo queued : list Z) (fl : list (Z * nat)) (s : CSession) : Prop :=
  cclosed (hashQueue s) = queue_closed_at (listenPc s) /\
  ((hashers s = Some (held W <$> fl) /\ working_at todo s) \/
   (hashers s = None /\ queued = [] /\ fl = [] /\ idle_at todo s)).

Record scanning (W : list write) (todo queued : list Z) (fl done : list (Z * nat)) (s : CSession) : Prop := {
  sc_conn : connected (cl s);
  sc_dev : UnderDevFile (cl s) = {| content := apply_writes W S0; faults := [] |};
  sc_fits : Forall (fits (length S0)) W;
  sc_contr : cinv (cl s);
  sc_monitor : monitor_held s;
  sc_repl : replicator s = None;
  sc_sent : csent (cl s) = base ++ corrections W done;
  sc_times : Forall (fun ot => (ot.2 <= length W)%nat) (fl ++ done);
  sc_offs : (fst <$> done) ++ (fst <$> fl) ++ queued ++ todo ≡ₚ offs;
  sc_queue : cbuf (hashQueue s) = hash_packet xxhash R <$> queued;
  sc_cap : ccap (hashQueue s) = HashPacketQueueSize;
  sc_phase : phase W todo queued fl s;
  sc_target : cTarget (cl s) = ti;
  sc_ring : ring_has ti rn W (kernel (cl s));
}.

(** ** A write reaches the source *)

Lemma src_app W W2 t : (t <= length W)%nat -> src S0 (W ++ W2) t = src S0 W t.
Proof. intros Ht. unfold src. by rewrite take_app_le. Qed.

Lemma held_app W W2 fl :
  Forall (fun ot => (ot.2 <= length W)%nat) fl -> held (W ++ W2) <$> fl = held W <$> fl.
Proof.
  intros H. apply list_fmap_ext. intros i ot Hi. rewrite Forall_lookup in H. specialize (H i ot Hi).
  unfold held, seen. cbn [l_time look_of]. by rewrite src_app.
Qed.

Lemma corrections_app W W2 items :
  Forall (fun ot => (ot.2 <= length W)%nat) items -> corrections (W ++ W2) items = corrections W items.
Proof.
  intros H. unfold corrections. induction H as [|ot items Ht H IH]; [done|].
  assert (Hd : differs (W ++ W2) ot = differs W ot) by (unfold differs, seen; cbn [l_time look_of]; by rewrite src_app).
  rewrite !filter_cons, Hd. case_decide; [|exact IH]. cbn [fmap list_fmap]. by rewrite IH, src_app.
Qed.

Lemma phase_app W W2 todo queued fl s c :
  Forall (fun ot => (ot.2 <= length W)%nat) fl ->
  phase W todo queued fl s -> phase (W ++ W2) todo queued fl (set_cl c s).
Proof. intros H. unfold phase. cbn. by rewrite held_app. Qed.

Lemma source_scanning W todo queued fl done s bio :
  0 <= PageSize ti -> scanning W todo queued fl done s -> Forall (fits (length S0)) (seg_write <$> bio) ->
  Forall (wf_segment (Z.to_nat (PageSize ti))) bio ->
  scanning (W ++ (seg_write <$> bio)) todo queued fl done (set_cl (write_source bio (cl s)) s).
Proof.
  intros Ht [I1 I2 I3 I4 I5 I6 I7 I8 I9 I10 I11 I12 I13 I14] Hw Hb.
  pose proof I8 as [Hfl Hdone]%Forall_app. split; try done.
  - cbn. rewrite I2. cbn. by rewrite apply_writes_app.
  - by apply Forall_app.
  - cbn. by rewrite I7, corrections_app.
  - eapply Forall_impl; [exact I8|]. intros ot H. cbn in H |- *. rewrite length_app. lia.
  - by apply phase_app.
  - cbn [cl set_cl]. rewrite kernel_write_source, I13. by apply ring_has_put.
Qed.

(** ** The monitor, the listener *)

Lemma monitor_scanning W todo queued fl done pick s s' :
  scanning W todo queued fl done s -> monitor_step pick s = Done s' -> scanning W todo queued fl done s'.
Proof.
  intros [I1 I2 I3 I4 I5 I6 I7 I8 I9 I10 I11 I12 I13 I14] E.
  destruct (held_monitor pick s s' I1 I4 I5 E) as (p & -> & Hp & Hm). by split.
Qed.

(** Moving the listener, and what it has received or queued. *)
Lemma listener_scanning W todo queued fl done s s' todo' queued' :
  scanning W todo queued fl done s ->
  cl s' = cl s -> monitorPc s' = monitorPc s -> replicator s' = replicator s ->
  queued' ++ todo' ≡ₚ queued ++ todo ->
  cbuf (hashQueue s') = hash_packet xxhash R <$> queued' -> ccap (hashQueue s') = HashPacketQueueSize ->
  phase W todo' queued' fl s' -> scanning W todo' queued' fl done s'.
Proof.
  intros [I1 I2 I3 I4 I5 I6 I7 I8 I9 I10 I11 I12 I13 I14] E1 E2 E3 Hp Hq Hc Hph.
  split; rewrite ?E1, ?E3; try done.
  - unfold monitor_held in *. by rewrite E1, E2.
  - by rewrite Hp.
Qed.

Lemma receive_scanning W todo queued fl done s s' :
  scanning W todo queued fl done s -> listenPc s = LReceive -> receive s = Done s' ->
  scanning W todo queued fl done s'.
Proof.
  intros I Hl. pose proof I as [I1 I2 I3 I4 I5 I6 I7 I8 I9 I10 I11 [Hq Hp] I13 I14].
  destruct I1 as (_ & _ & Ht). unfold receive, terminated. rewrite Ht. rewrite Hl in Hq.
  unfold working_at, idle_at in Hp. rewrite Hl in Hp.
  destruct Hp as [[Hh Hp]|(Hh & -> & -> & Hp)]; rewrite Hp.
  - destruct todo as [|o todo]; cbn [stream fmap list_fmap app].
    + unfold listen_dispatch, close_hashQueue, chan_close; cbn. rewrite Hq. intros [= <-].
      apply (listener_scanning W [] queued fl done s); try done. split; [done|]. left. by split.
    + unfold listen_dispatch; cbn. intros [= <-].
      apply (listener_scanning W (o :: todo) queued fl done s); try done.
      split; [done|]. left. split; [done|]. by exists o, todo.
  - unfold listen_dispatch, close_hashQueue, chan_close; cbn. rewrite Hq. intros [= <-].
    apply (listener_scanning W todo [] [] done s); try done. split; [done|]. right. done.
Qed.

Lemma listen_scanning W todo queued fl done s s' :
  scanning W todo queued fl done s -> listenPc s <> LSendBuffer -> listen_step s = Done s' ->
  exists todo' queued', scanning W todo' queued' fl done s'.
Proof.
  intros I Hns E. pose proof I as [I1 I2 I3 I4 I5 I6 I7 I8 I9 I10 I11 [Hq Hp] I13 I14].
  unfold listen_step in E. destruct (listenPc s) as [|st|p| | | | |b k| | | | | |r0] eqn:Hl;
    try (unfold working_at, idle_at in Hp; rewrite Hl in Hp; by destruct Hp as [[_ []]|(_ & _ & _ & [])]).
  - exists todo, queued. by apply (receive_scanning W todo queued fl done s).
  - apply abind_Done in E as (q & E & [= <-]).
    unfold working_at, idle_at in Hp. rewrite Hl in Hp.
    destruct Hp as [[Hh (o & todo' & -> & -> & Hi)]|(_ & _ & _ & [])].
    revert E. unfold chan_send. destruct (cclosed _); [done|]. destruct (_ <? _)%nat; [|done]. intros [= <-].
    exists todo', (queued ++ [o]). apply (listener_scanning W (o :: todo') queued fl done s); try done.
    + by rewrite <- app_assoc.
    + cbn. by rewrite fmap_app, I10.
    + split; [done|]. left. by split.
  - destruct (hash_idle s) eqn:Ei; [|done]. injection E as <-. exists todo, queued.
    unfold working_at, idle_at in Hp. rewrite Hl in Hp.
    destruct Hp as [[_ []]|(Hh & -> & -> & Hi)].
    apply (listener_scanning W todo [] [] done s); try done. split; [done|]. left. by split.
  - destruct (hash_idle s) eqn:Ei; [|done]. injection E as <-. exists todo, queued.
    unfold working_at, idle_at in Hp. rewrite Hl in Hp. unfold hash_idle in Ei.
    destruct Hp as [[Hh _]|(Hh & -> & -> & Hi)]; rewrite Hh in Ei; [done|].
    apply (listener_scanning W todo [] [] done s); try done. split; [done|]. right. done.
Qed.

Lemma block_len_bounds o : 0 <= o < Z.of_nat (length R) -> 0 <= len o /\ o + len o <= Z.of_nat (length R).
Proof. intros. unfold block_len, HashedSpaceBase, HashedBlockSize. lia. Qed.

(** ** The workers *)

Context (Hlen : length R = length S0) (Hsize : Z.of_nat (length S0) < 2 ^ 63).
Context (Hoffs : Forall (fun o => 0 <= o < Z.of_nat (length R)) offs).

Lemma read_at W s o :
  Forall (fits (length S0)) W -> UnderDevFile (cl s) = {| content := apply_writes W S0; faults := [] |} ->
  0 <= o < Z.of_nat (length R) ->
  read_block (len o) o (cl s) = (Ret (seen S0 W (look_of (o, length W)), None), cl s).
Proof using Hlen Hsize.
  intros HW Hd Ho. pose proof (block_len_bounds o Ho).
  rewrite read_block_ok; rewrite ?Hd; [|done|lia|lia|].
  - unfold seen, src; cbn [l_off l_len l_time look_of fst snd content]. by rewrite firstn_all.
  - unfold dev_size; cbn. rewrite length_apply_writes by done. lia.
Qed.

Lemma hash_read_scanning W todo queued fl done s s' :
  scanning W todo queued fl done s -> hash_read_step s = Done s' ->
  exists queued' fl', scanning W todo queued' fl' done s'.
Proof using Hlen Hsize Hoffs.
  intros [I1 I2 I3 I4 I5 I6 I7 I8 I9 I10 I11 [Hq Hp] I13 I14]. unfold hash_read_step.
  destruct Hp as [[-> Hp]|[-> _]]; [|done].
  intros ([o q] & (Hk & Hc & Ho)%recv_Done & E)%abind_Done.
  destruct o as [p|]; [|destruct Ho as (Hn & Hcc & ->)].
  - rewrite I10 in Ho. destruct queued as [|o queued]; [done|]. injection Ho as <- Hbuf.
    assert (Ho : 0 <= o < Z.of_nat (length R)).
    { rewrite Forall_forall in Hoffs. apply Hoffs. rewrite <- I9, !elem_of_app, elem_of_cons. auto. }
    cbn [Payload hash_packet] in E. unfold on_cl in E. cbn [cl set_hashQueue hSize hOffset hash_info] in E.
    rewrite (read_at W s o) in E by done. cbn in E. injection E as <-.
    exists queued, (fl ++ [(o, length W)]). split; try done.
    + rewrite <- app_assoc. apply Forall_app in I8 as [? ?]. apply Forall_app. split; [done|].
      by apply Forall_cons.
    + rewrite <- I9, fmap_app. cbn. by rewrite <- (app_assoc (fst <$> fl)).
    + cbn. by rewrite Hk.
    + split; cbn; [by rewrite Hc|]. left. split; [|exact Hp]. by rewrite fmap_app.
  - destruct (_ =? _)%nat eqn:El; [|done]. injection E as <-. apply Nat.eqb_eq in El.
    rewrite length_fmap in El. apply nil_length_inv in El as ->.
    rewrite I10 in Hn. destruct queued; [|done]. exists [], []. split; try done.
    split; [done|]. right. split_and!; try done. unfold working_at in Hp. unfold idle_at; cbn.
    rewrite Hq in Hcc. by destruct (listenPc s).
Qed.

Lemma corrections_snoc W items ot :
  corrections W (items ++ [ot]) =
  corrections W items ++ if differs W ot then [correct_packet (src S0 W ot.2) ot.1 (len ot.1)] else [].
Proof.
  unfold corrections. rewrite filter_app, fmap_app, filter_cons, filter_nil. f_equal.
  by destruct (differs W ot).
Qed.

Lemma hash_send_scanning W todo queued fl done i s s' :
  scanning W todo queued fl done s -> hash_send_step xxhash i s = Done s' ->
  exists ot, scanning W todo queued (delete i fl) (done ++ [ot]) s'.
Proof.
  intros [I1 I2 I3 I4 I5 I6 I7 I8 I9 I10 I11 [Hq Hp] I13 I14]. unfold hash_send_step.
  destruct Hp as [[-> Hp]|[-> _]]; [|done]. rewrite list_lookup_fmap.
  destruct (fl !! i) as [ot|] eqn:Ei; [|done]. cbn [fmap option_fmap option_map held].
  pose proof (delete_Permutation fl i ot Ei) as Hperm.
  intros E. exists ot.
  assert (K : exists c, s' = set_cl c (set_hashers (Some (delete i (held W <$> fl))) s) /\
    UnderDevFile c = UnderDevFile (cl s) /\ connected c /\ MonitorPauseContr c = MonitorPauseContr (cl s) /\
    cTarget c = cTarget (cl s) /\ kernel c = kernel (cl s) /\ csent c = base ++ corrections W (done ++ [ot])).
  { rewrite corrections_snoc, app_assoc, <- I7. unfold differs. unfold hash_info in E. cbn [hHash hOffset hSize] in E.
    unfold seen, look_of in *. cbn [l_off l_len l_time] in *.
    destruct I1 as (He & Hi & Ht). destruct (_ =? _); cbn [negb].
    - injection E as <-. exists (cl s). rewrite app_nil_r. done.
    - unfold on_cl, SendCorrectBlock in E. rewrite SendPacket_ok in E by done. injection E as <-.
      eexists. split; [reflexivity|]. done. }
  destruct K as (c & -> & K1 & K2 & K3 & K5 & K6 & K4). split; cbn; rewrite ?K5, ?K6; try done.
  - by rewrite K1.
  - unfold cinv in *. by rewrite K3.
  - unfold monitor_held in *. cbn. by rewrite K3.
  - rewrite (Permutation_app_comm done [ot]), app_assoc, (Permutation_app_comm _ [ot]). cbn.
    rewrite app_comm_cons, <- Hperm. exact I8.
  - rewrite <- I9, fmap_app. rewrite <- app_assoc. f_equiv. rewrite Hperm at 2. done.
  - split; [done|]. left. split; [|done]. cbn. f_equal. symmetry. apply list_fmap_delete.
Qed.

End ClientScan.
