(* ===== verification/ClientFlush.v ===== *)
(** * The end of a scan on the client: sending the kernel's buffer

    When the workers of [InitHashing] are done, the listener takes the pending
    entries out of the ring and sends them one by one, while further writes
    reach the source and the ring.  Followed from the announcement of the scan
    on, in every schedule: the packets sent carry exactly the writes put into the
    ring since it was reset, in order, unless the ring has overflown, and then
    nothing is sent and a new scan starts. *)
From S2P Require Import Prelude GoInt GoMonad GoChan Utils BlockDev Blocks Image Networking Journal Pause.
From S2P Require Import RingBuffer Client ClientFacts ClientProps ClientSession ClientSafety ClientScan.
Open Scope Z_scope.

(** The kernel's constants, as the client learns them. *)
Record wf_target (t : TargetInfo) (n : nat) : Prop := {
  wt_page : 0 <= PageSize t < 2 ^ 30;
  wt_entry : tiWriteInfoSize t = 8 + PageSize t;
}.

(** A packet that carries an entry: its first [Size] bytes are the entry's. *)
Definition carries (t : TargetInfo) (p : Packet) (e : entry) : Prop :=
  exists w, p = buffer_packet w /\ Offset w = KernelLogicalSectorSize * e.1 /\
    Size w = Z.of_nat (length e.2) /\ take (length e.2) (Data w) = e.2 /\
    Z.of_nat (length (Data w)) = PageSize t.

Section Entries.
Context (t : TargetInfo) (n : nat) (Ht : wf_target t n).
Abbreviation page := (Z.to_nat (PageSize t)).

Lemma slot_same k buf : slot_at t k buf = slot page k buf.
Proof using Ht.
  unfold slot_at, slot. rewrite (wt_entry _ _ Ht). pose proof (wt_page _ _ Ht).
  by replace (Z.to_nat (8 + PageSize t)) with (BDR_WRITE_INFO_SIZE page)
    by (unfold BDR_WRITE_INFO_SIZE; lia).
Qed.

Lemma ring_wf_buffer rb a : ring_rel page n rb a -> wf_buffer t n (buffer rb).
Proof using Ht.
  intros R. destruct R. destruct Ht as [Hp He].
  assert (Hs : Z.to_nat (tiWriteInfoSize t) = BDR_WRITE_INFO_SIZE page)
    by (rewrite He; unfold BDR_WRITE_INFO_SIZE; lia).
  split; [lia|done|by rewrite Hs|]. rewrite He. nia.
Qed.

Lemma handed_info b es buf rb a :
  ring_rel page n rb a -> (length es < n)%nat -> handed page n b es buf -> wf_info n b.
Proof using.
  intros R Hl [H1 H2 H3 _]. destruct R. split; try done. lia.
Qed.

(** The packet the client makes of a handed entry carries it. *)
Lemma entry_carries b es buf i e :
  handed page n b es buf -> wf_buffer t n buf -> wf_info n b -> es !! i = Some e -> wf_entry t e ->
  carries t (buffer_packet (entry_at t (ring n b (Z.of_nat i)) buf)) e.
Proof using Ht.
  intros [H1 H2 H3 H4] B W Hi [We Wl]. pose proof (wt_page _ _ Ht) as Hp.
  destruct (H4 i e Hi) as (E1 & E2 & E3).
  pose proof (ring_lt n b W (Z.of_nat i)) as Hr.
  change (Z.to_nat ((biOffset b + Z.of_nat i) mod Z.of_nat n)) with (ring n b (Z.of_nat i)) in E1, E2, E3.
  eexists. split; [reflexivity|]. unfold entry_at. cbn [Offset Size Data]. rewrite slot_same, E1, E2.
  pose proof (length_slot_at t n buf B (ring n b (Z.of_nat i)) Hr) as Hsl.
  rewrite slot_same, (wt_entry _ _ Ht) in Hsl.
  split; [by rewrite le_get_put by (change (256 ^ Z.of_nat 4) with (2 ^ 32); width_tac)|].
  split; [apply le_get_put; change (256 ^ Z.of_nat 4) with (2 ^ 32); lia|].
  split; [|rewrite length_sub by lia; lia].
  rewrite <- E3 at 2. unfold sub. rewrite take_take. f_equal. lia.
Qed.

(** Sending one entry. *)
Lemma send_entry c b i :
  connected c -> cTarget c = t -> wf_buffer t n (Buf c) -> wf_info n b -> 0 <= i < biLength b ->
  process_entry b i c =
  (Ret Next, set_net (csent c ++ [buffer_packet (entry_at t (ring n b i) (Buf c))]) [] c).
Proof using.
  intros (He & _) Et B W Hi. rewrite <- Et in B.
  assert (Ec : set_net (csent c) [] c = c) by (destruct c; cbn in *; by subst).
  pose proof (process_entry_ok n b c B W i (csent c) Hi) as E. by rewrite Ec, Et in E.
Qed.

(** [b] describes the batch [es] that the last read has handed out. *)
Definition batch (b : BufferInfo) (es : list entry) (k : bdr_ring_buffer) : Prop :=
  biMaxWrites b = Z.of_nat n /\ biOffset b = biLast (buffer_info k) /\ biLength b = Z.of_nat (length es).

Lemma read_batch k a :
  ring_rel page n k a -> a_lost a = false -> batch (bdr_buffer_read_routine k).1 (a_pending a) (bdr_buffer_read_routine k).2.
Proof using.
  intros Ra Hl. pose proof (read_refines page n k a Ra) as H.
  destruct (bdr_buffer_read_routine k) as [b k']. destruct H as (_ & _ & _ & Hd). destruct (Hd Hl) as [Hlast [D1 D2 D3 _]].
  split_and!; [done|by symmetry|done].
Qed.

Lemma send_held c b i a e :
  connected c -> cTarget c = t -> ring_rel page n (kernel c) a -> batch b (a_held a) (kernel c) ->
  a_held a !! i = Some e -> wf_entry t e ->
  exists p, process_entry b (Z.of_nat i) c = (Ret Next, set_net (csent c ++ [p]) [] c) /\ carries t p e.
Proof using Ht.
  intros Hc Et Ra (Hm & Hoff & Hlen) He We.
  pose proof (held_handed page n _ a b Ra Hm Hoff Hlen) as Hd.
  pose proof (ring_wf_buffer _ a Ra) as B.
  assert (Hroom : (length (a_held a) < n)%nat) by (pose proof (rr_room _ _ _ _ Ra); unfold a_size in *; lia).
  pose proof (handed_info b _ _ _ a Ra Hroom Hd) as Wi. apply lookup_lt_Some in He as Hi.
  eexists. split; [by apply send_entry; [..|lia]|]. by apply (entry_carries b (a_held a)).
Qed.

(** Writes leave the batch as it is. *)
Lemma batch_source b es k bio :
  Forall (wf_segment page) bio -> batch b es k -> batch b es (bdr_target_map page bio k).
Proof using. intros Hb (H1 & H2 & H3). split_and!; [done| |done]. by rewrite target_map_last. Qed.
End Entries.

Definition new_scan : Packet := CreateInfoPacket PacketTypeCmdStartHashing.

Section Flush.
Context (xxhash : list byte -> Z) (S0 R : list byte) (offs : list Z) (base : list Packet).
Context (ti : TargetInfo) (rn : nat) (Ht : wf_target ti rn).
Abbreviation page := (Z.to_nat (PageSize ti)).
Abbreviation scanning := (scanning xxhash S0 R offs base ti rn).

(** Where the listener is in the batch [es]: [i] entries have been sent. *)
Definition flush_at (es : list entry) (i : nat) (s : CSession) : Prop :=
  match listenPc s with
  | LEntries b k => k = Z.of_nat i /\ (i <= length es)%nat /\ batch rn b es (kernel (cl s))
  | LResume => i = length es
  | _ => False
  end.

(** The ring: [es] were handed out, [W2] have been put since. *)
Definition ring_holds (es : list entry) (W2 : list write) (k : bdr_ring_buffer) : Prop :=
  exists a, ring_rel page rn k a /\ a_held a = es /\ Forall (wf_entry ti) (a_pending a) /\
    (a_lost a = false -> entry_write <$> a_pending a = W2).

Lemma ring_holds_put es W2 k bio :
  ring_holds es W2 k -> Forall (wf_segment page) bio ->
  ring_holds es (W2 ++ (seg_write <$> bio)) (bdr_target_map page bio k).
Proof using Ht.
  intros (a & Ra & Ha & Wa & Hw) Hb. destruct (wt_page _ _ Ht) as [Hp _].
  exists (foldl (fun a e => a_put rn e a) a (seg_entry <$> bio)).
  split; [by apply target_map_refines|]. split; [by rewrite puts_held|].
  split; [by apply puts_wf, segments_wf|].
  intros [Hl ->]%puts_pending. rewrite fmap_app, Hw by done. f_equal. by rewrite <- list_fmap_compose.
Qed.

(** The batch [es] of the writes [W] is being sent, the writes [W2] have come
    since; [ps] are the packets sent for it. *)
Record flushing (W W2 : list write) (items : list (Z * nat)) (es : list entry) (i : nat)
  (ps : list Packet) (s : CSession) : Prop := {
  fl_conn : connected (cl s);
  fl_dev : UnderDevFile (cl s) = {| content := apply_writes (W ++ W2) S0; faults := [] |};
  fl_fits : Forall (fits (length S0)) (W ++ W2);
  fl_contr : cinv (cl s);
  fl_monitor : monitor_held s;
  fl_repl : replicator s = None;
  fl_hashers : hashers s = None;
  fl_incoming : incoming s = [];
  fl_items : (fst <$> items) ≡ₚ offs;
  fl_times : Forall (fun ot => (ot.2 <= length W)%nat) items;
  fl_sent : csent (cl s) = base ++ corrections xxhash S0 R W items ++ ps;
  fl_packets : Forall2 (carries ti) ps (take i es);
  fl_batch : entry_write <$> es = W;
  fl_entries : Forall (wf_entry ti) es;
  fl_target : cTarget (cl s) = ti;
  fl_ring : ring_holds es W2 (kernel (cl s));
  fl_at : flush_at es i s;
}.

(** The ring has overflown: the client has asked for a new scan. *)
Definition given_up (s : CSession) : Prop :=
  incoming s = [] /\
  match listenPc s with LReceive | LAnnounce | LReturn | LReturned => True | _ => False end /\
  new_scan ∈ drop (length base) (csent (cl s)).

Lemma given_up_sent l s :
  incoming s = [] -> match listenPc s with LReceive | LAnnounce | LReturn | LReturned => True | _ => False end ->
  csent (cl s) = base ++ l ++ [new_scan] -> given_up s.
Proof using.
  intros H1 H2 H. split_and!; [done|done|]. rewrite H, drop_app_length. apply elem_of_app. right.
  by apply list_elem_of_singleton.
Qed.

(** *** The start of the batch *)

Lemma buffer_read W todo queued fl done s s' :
  scanning W todo queued fl done s -> listenPc s = LSendBuffer -> listen_step s = Done s' ->
  given_up s' \/ exists es, flushing W [] done es 0 [] s'.
Proof using Ht.
  intros [I1 I2 I3 I4 I5 I6 I7 I8 I9 I10 I11 [Hq Hp] I13 I14] Hl E.
  unfold working_at, idle_at in Hp. rewrite Hl in Hp.
  destruct Hp as [[_ []]|(Hh & -> & -> & -> & Hi)].
  destruct I14 as (a & Ra & Wa & Ha). destruct I1 as (He & Hio & Htm).
  pose proof (read_refines page rn _ a Ra) as Hrd. pose proof (read_batch ti rn _ a Ra) as Hb.
  unfold listen_step in E. rewrite Hl in E. unfold on_cl in E at 1.
  rewrite ServeIOCTL_ok, executeIOCTL_ok in E by done.
  destruct (bdr_buffer_read_routine (kernel (cl s))) as [b k'] eqn:Er. cbn [fst snd] in *.
  assert (Eb : b = buffer_info (kernel (cl s))) by (by injection Er as <- _). rewrite <- Eb in E.
  destruct Hrd as (R1 & _ & Ho & _).
  assert (K : forall pc, a_lost a = false ->
      flush_at (a_pending a) 0 (set_listen pc (set_cl (set_kernel [] k' (cl s)) s)) ->
    flushing W [] done (a_pending a) 0 [] (set_listen pc (set_cl (set_kernel [] k' (cl s)) s))).
  { intros pc Hlost Hat. unfold a_read in R1. rewrite Hlost in R1.
    split; try done; cbn; rewrite ?app_nil_r in *; try done.
    - by apply Ha.
    - eexists. split; [exact R1|]. done. }
  destruct (HasNewWrites b) eqn:En; cbn [negb] in E.
  - destruct (CheckOverflow b) eqn:Eo; change (CheckOverflow b) with (is_overflown b) in Eo.
    + left. unfold on_cl, StartHashing in E. cbn [cl set_cl] in E. rewrite start_ok in E by done.
      injection E as <-. apply (given_up_sent (corrections xxhash S0 R W done)); [done|done|]. cbn. by rewrite I7, <- app_assoc.
    + right. exists (a_pending a). injection E as <-. assert (Hlost : a_lost a = false) by congruence.
      apply K; [done|]. unfold flush_at. cbn. split_and!; [done|lia|by apply Hb].
  - right. exists (a_pending a). injection E as <-.
    unfold HasNewWrites in En. apply negb_false_iff, Z.eqb_eq in En.
    pose proof (rr_length _ _ _ _ Ra) as HL. rewrite <- Eb, En in HL.
    assert (a_lost a = false) by (destruct (a_lost a); [lia|done]).
    apply K; [done|]. unfold flush_at. cbn. lia.
Qed.

(** *** Steps within the batch *)

Definition undisturbed (e : cevent) : Prop :=
  match e with
  | CShutdown => False
  | CSource bio => Forall (fits (length S0)) (seg_write <$> bio) /\ Forall (wf_segment page) bio
  | _ => True
  end.

Lemma flush_source W W2 items es i ps s bio :
  flushing W W2 items es i ps s -> undisturbed (CSource bio) ->
  flushing W (W2 ++ (seg_write <$> bio)) items es i ps (set_cl (write_source bio (cl s)) s).
Proof using Ht.
  intros [F1 F2 F3 F4 F5 F6 F7 F8 F9 F10 F11 F12 F13 F14 F15 F16 F17] [Hf Hs].
  split; try done.
  - cbn. rewrite F2. cbn. by rewrite <- apply_writes_app, <- app_assoc.
  - rewrite app_assoc. by apply Forall_app.
  - cbn [cl set_cl]. rewrite kernel_write_source, F15. by apply ring_holds_put.
  - unfold flush_at in *. cbn [listenPc set_cl cl]. rewrite kernel_write_source, F15.
    destruct (listenPc s); try done. destruct F17 as (? & ? & ?). split_and!; [done|done|]. by apply batch_source.
Qed.

Lemma flush_monitor W W2 items es i ps pick s s' :
  flushing W W2 items es i ps s -> monitor_step pick s = Done s' -> flushing W W2 items es i ps s'.
Proof using.
  intros [F1 F2 F3 F4 F5 F6 F7 F8 F9 F10 F11 F12 F13 F14 F15 F16 F17] E.
  destruct (held_monitor pick s s' F1 F4 F5 E) as (p & -> & Hp & Hm). by split.
Qed.

Lemma flush_listen W W2 items es i ps s s' :
  flushing W W2 items es i ps s -> listenPc s <> LResume -> listen_step s = Done s' ->
  exists i' ps', flushing W W2 items es i' ps' s'.
Proof using Ht.
  intros F. pose proof F as [F1 F2 F3 F4 F5 F6 F7 F8 F9 F10 F11 F12 F13 F14 F15 F16 F17].
  unfold flush_at in F17. unfold listen_step.
  destruct (listenPc s) as [| | | | | | |b k| | | | | |r0] eqn:Hl; try done; intros _ H.
  destruct F17 as (-> & Hi & Hb). pose proof Hb as (_ & _ & Hlen).
  destruct (Z.ltb_spec (Z.of_nat i) (biLength b)) as [Hlt|Hge].
  2:{ injection H as <-. exists i, ps. split; try done. unfold flush_at. cbn. lia. }
  destruct F16 as (a & Ra & Ha & Wa & Hw). destruct (lookup_lt_is_Some_2 es i) as [e He]; [lia|].
  rewrite Forall_lookup in F14. pose proof (F14 i e He) as We. rewrite <- Forall_lookup in F14.
  rewrite <- Ha in He, Hb. destruct (send_held ti rn Ht (cl s) b i a e F1 F15 Ra Hb He We) as (p & Ep & Hp).
  unfold on_cl in H. rewrite (bind_Ret _ _ _ _ _ (IsPaused_same _ F4)), Ep in H. injection H as <-.
  rewrite Ha in He. exists (S i), (ps ++ [p]). split; try done.
  - by destruct F1 as (? & ? & ?).
  - cbn. by rewrite F11, <- !app_assoc.
  - rewrite (take_S_r _ _ e) by done. apply Forall2_app; [done|]. by apply Forall2_cons.
  - by exists a.
  - unfold flush_at. cbn. rewrite Ha in Hb. split_and!; [lia|lia|done].
Qed.
End Flush.
