(* ===== verification/ClientSteady.v ===== *)
(** * After a scan: the monitor sends the writes as they come

    The listener has sent the batch, resumed the monitor and announces the end
    of the scan; the monitor reads the ring and sends its entries.  Whatever the
    schedule, what has been sent since the scan began is a prefix of the writes
    to the source, in their order, and the rest is in the batch of the monitor
    and in the ring, unless the ring has overflown; then a new scan starts. *)
From S2P Require Import Prelude GoInt GoMonad GoChan Utils BlockDev Blocks Image Networking Journal Pause.
From S2P Require Import RingBuffer Client ClientFacts ClientProps ClientSession ClientSafety ClientScan ClientFlush.
Open Scope Z_scope.

Definition end_of_scan : Packet := CreateInfoPacket PacketTypeInfoHashingCompleted.

Section Steady.
Context (xxhash : list byte -> Z) (S0 R : list byte) (offs : list Z) (base : list Packet).
Context (fin : Packet) (ti : TargetInfo) (rn : nat) (Ht : wf_target ti rn).
Abbreviation page := (Z.to_nat (PageSize ti)).
Abbreviation flushing := (flushing xxhash S0 R offs base ti rn).
Abbreviation holds_ring := (ring_holds ti rn).

(** The monitor is not paused, nor will it be. *)
Definition monitor_free (s : CSession) : Prop :=
  match monitorPc s, cbuf (MonitorPauseContr (cl s)) with
  | MReturned, _ | _, Paused :: _ | MWaiting, [] => False
  | _, _ => True
  end.

(** Where the monitor is in its batch [es]. *)
Definition monitor_at (es : list entry) (i : nat) (s : CSession) : Prop :=
  match monitorPc s with
  | MEntries b k => k = Z.of_nat i /\ (i <= length es)%nat /\ batch rn b es (kernel (cl s))
  | _ => i = length es
  end.

(** [fin] announces the end: of a scan, by the listener ([LAnnounce]), or of a
    replication; [out2] are the packets sent after it. [out2] are the packets sent after it. *)
Definition announcement (out2 : list Packet) (s : CSession) : list Packet :=
  match listenPc s with LAnnounce => [] | _ => fin :: out2 end.

(** [T] are all writes since the scan began, [W] those of its batch; [log1] and
    [log2] have been sent before and after the announcement, as [out1] and
    [out2]; [es] is the monitor's batch, of which [i] entries are sent.  Only a scan
    has writes to send before the announcement. *)
Record steady (W T : list write) (items : list (Z * nat)) (out1 out2 : list Packet) (log1 log2 : list entry)
  (es : list entry) (i : nat) (W2 : list write) (s : CSession) : Prop := {
  st_conn : connected (cl s);
  st_dev : UnderDevFile (cl s) = {| content := apply_writes T S0; faults := [] |};
  st_fits : Forall (fits (length S0)) T;
  st_contr : cinv (cl s);
  st_monitor : monitor_free s;
  st_repl : replicator s = None;
  st_hashers : hashers s = None;
  st_incoming : incoming s = [];
  st_target : cTarget (cl s) = ti;
  st_items : (fst <$> items) ≡ₚ offs;
  st_times : Forall (fun ot => (ot.2 <= length W)%nat) items;
  st_listen : match listenPc s with LAnnounce => fin = end_of_scan /\ out2 = [] /\ log2 = [] | LReceive => True | _ => False end;
  st_sent : csent (cl s) = base ++ corrections xxhash S0 R W items ++ out1 ++ announcement out2 s;
  st_out1 : Forall2 (carries ti) out1 log1;
  st_out2 : Forall2 (carries ti) out2 log2;
  st_prefix : W `prefix_of` (entry_write <$> log1);
  st_wf1 : Forall (wf_entry ti) log1;
  st_wf2 : Forall (wf_entry ti) log2;
  st_wf : Forall (wf_entry ti) (drop i es);
  st_all : T = (entry_write <$> log1 ++ log2 ++ drop i es) ++ W2;
  st_ring : holds_ring es W2 (kernel (cl s));
  st_at : monitor_at es i s;
  st_first : out1 = [] \/ fin = end_of_scan;
}.

Definition in_steady (T : list write) (s : CSession) : Prop :=
  exists W items out1 out2 log1 log2 es i W2, steady W T items out1 out2 log1 log2 es i W2 s.

Lemma flush_resumes W W2 items es i ps s s' :
  fin = end_of_scan -> flushing W W2 items es i ps s -> listenPc s = LResume -> listen_step s = Done s' ->
  in_steady (W ++ W2) s'.
Proof using.
  intros Hfin [F1 F2 F3 F4 F5 F6 F7 F8 F9 F10 F11 F12 F13 F14 F15 F16 F17] Hl E.
  unfold flush_at in F17. rewrite Hl in F17. subst i. rewrite firstn_all in F12.
  unfold listen_step, on_cl in E. rewrite Hl in E.
  rewrite (bind_Ret _ _ _ tt (set_cstate StateWriting (cl s))), resume_ok in E by done. injection E as <-.
  exists W, items, ps, [], es, [], es, (length es), W2. split; try done.
  - unfold monitor_held in F5. unfold monitor_free; cbn. destruct (monitorPc s); try done;
      destruct (cbuf _) as [|[] [|]]; done.
  - cbn. by rewrite F11, app_nil_r.
  - by rewrite F13.
  - by rewrite drop_all.
  - by rewrite drop_all, !app_nil_r, F13.
  - unfold monitor_held in F5. unfold monitor_at; cbn. by destruct (monitorPc s).
  - by right.
Qed.

Lemma steady_source T s bio :
  in_steady T s -> undisturbed S0 ti (CSource bio) ->
  in_steady (T ++ (seg_write <$> bio)) (set_cl (write_source bio (cl s)) s).
Proof using Ht.
  intros (W & items & out1 & out2 & log1 & log2 & es & i & W2 & [P1 P2 P3 P4 P5 P6 P7 P8 P9 P10 P11 P12 P13 P14 P15 P16 P17 P18 P19 P20 P21 P22]) [Hf Hs].
  exists W, items, out1, out2, log1, log2, es, i, (W2 ++ (seg_write <$> bio)). split; try done.
  - cbn. rewrite P2. cbn. by rewrite <- apply_writes_app.
  - by apply Forall_app.
  - by rewrite P20, <- app_assoc.
  - cbn [cl set_cl]. rewrite kernel_write_source, P9. by apply ring_holds_put.
  - unfold monitor_at in *. cbn [monitorPc set_cl cl]. rewrite kernel_write_source, P9.
    destruct (monitorPc s); try done. destruct P22 as (? & ? & ?). split_and!; [done|done|]. by apply batch_source.
Qed.

Lemma steady_listen T s s' : in_steady T s -> listen_step s = Done s' -> in_steady T s'.
Proof using.
  intros (W & items & out1 & out2 & log1 & log2 & es & i & W2 & [P1 P2 P3 P4 P5 P6 P7 P8 P9 P10 P11 P12 P13 P14 P15 P16 P17 P18 P19 P20 P21 P22]) E.
  unfold listen_step in E. destruct (listenPc s) eqn:Hl; try done.
  - unfold receive in E. rewrite P8 in E. destruct P1 as (_ & _ & Htm). unfold terminated in E. by rewrite Htm in E.
  - destruct P12 as (Hfin & -> & ->). destruct P1 as (He & Hio & Htm). unfold on_cl in E. rewrite SendPacket_ok in E by done.
    injection E as <-. exists W, items, out1, [], log1, [], es, i, W2. split; try done.
    cbn. rewrite P13, Hfin. unfold announcement. rewrite Hl. by rewrite app_nil_r, <- !app_assoc.
Qed.

(** The monitor and the controller. *)
Lemma steady_set_monitor T s m p W items out1 out2 log1 log2 es i W2 :
  steady W T items out1 out2 log1 log2 es i W2 s ->
  cclosed p = false -> ccap p = 1%nat -> (length (cbuf p) <= 1)%nat ->
  monitor_free (set_monitor m (set_cl (set_contr p (cl s)) s)) -> monitor_at es i (set_monitor m s) ->
  steady W T items out1 out2 log1 log2 es i W2 (set_monitor m (set_cl (set_contr p (cl s)) s)).
Proof using.
  intros [P1 P2 P3 P4 P5 P6 P7 P8 P9 P10 P11 P12 P13 P14 P15 P16 P17 P18 P19 P20 P21 P22] H1 H2 H3 H4 H5.
  by split.
Qed.

(** The monitor reads the ring. *)
Lemma steady_read T s s' :
  in_steady T s -> monitorPc s = MRead -> monitor_step false s = Done s' -> given_up base s' \/ in_steady T s'.
Proof using.
  intros (W & items & out1 & out2 & log1 & log2 & es & i & W2 & [P1 P2 P3 P4 P5 P6 P7 P8 P9 P10 P11 P12 P13 P14 P15 P16 P17 P18 P19 P20 P21 P22]) Hm E.
  destruct P1 as (He & Hio & Htm). destruct P21 as (a & Ra & Ha & Wa & Hw).
  unfold monitor_at in P22. rewrite Hm in P22. subst i. rewrite drop_all, app_nil_r in P20.
  unfold monitor_free in P5. rewrite Hm in P5.
  pose proof (read_refines page rn _ a Ra) as Hrd. pose proof (read_batch ti rn _ a Ra) as Hb.
  unfold monitor_step in E. rewrite Hm in E. unfold on_cl in E at 1.
  rewrite ServeIOCTL_ok, executeIOCTL_ok in E by done.
  destruct (bdr_buffer_read_routine (kernel (cl s))) as [b k'] eqn:Er. cbn [fst snd] in *.
  assert (Eb : b = buffer_info (kernel (cl s))) by (by injection Er as <- _). rewrite <- Eb in E.
  destruct Hrd as (R1 & _ & Ho & _).
  assert (K : forall m, a_lost a = false -> m <> MReturned -> m <> MWaiting ->
      monitor_at (a_pending a) 0 (set_monitor m (set_cl (set_kernel [] k' (cl s)) s)) ->
    in_steady T (set_monitor m (set_cl (set_kernel [] k' (cl s)) s))).
  { intros m Hlost H1 H2 Hat. unfold a_read in R1. rewrite Hlost in R1.
    exists W, items, out1, out2, log1, log2, (a_pending a), 0%nat, []. split; try done.
    - unfold monitor_free; cbn. destruct m; try done; by destruct (cbuf _) as [|[] ?].
    - rewrite app_nil_r, P20, <- Hw by done. by rewrite drop_0, <- fmap_app, <- app_assoc.
    - eexists. split; [exact R1|]. done. }
  destruct (HasNewWrites b) eqn:En; cbn [negb] in E.
  - destruct (CheckOverflow b) eqn:Eo; change (CheckOverflow b) with (is_overflown b) in Eo.
    + left. unfold on_cl, StartHashing in E. cbn [cl set_cl] in E. rewrite start_ok in E by done.
      injection E as <-. apply (given_up_sent base (corrections xxhash S0 R W items ++ out1 ++ announcement out2 s)); [done|cbn; by destruct (listenPc s)|].
      cbn. by rewrite P13, <- !app_assoc.
    + right. injection E as <-. assert (Hlost : a_lost a = false) by congruence.
      apply K; [done..|]. unfold monitor_at. cbn. split_and!; [done|lia|by apply Hb].
  - right. injection E as <-. unfold HasNewWrites in En. apply negb_false_iff, Z.eqb_eq in En.
    pose proof (rr_length _ _ _ _ Ra) as HL. rewrite <- Eb, En in HL.
    assert (Hlost : a_lost a = false) by (destruct (a_lost a); [lia|done]). apply K; [done..|].
    unfold monitor_at. cbn. destruct (a_lost a); lia.
Qed.

(** The monitor sends an entry. *)
Lemma steady_entry T s s' b k pick :
  in_steady T s -> monitorPc s = MEntries b k -> monitor_step pick s = Done s' -> in_steady T s'.
Proof using Ht.
  intros (W & items & out1 & out2 & log1 & log2 & es & i & W2 & P) Hm E.
  pose proof P as [P1 P2 P3 P4 P5 P6 P7 P8 P9 P10 P11 P12 P13 P14 P15 P16 P17 P18 P19 P20 P21 P22].
  unfold monitor_at in P22. rewrite Hm in P22. destruct P22 as (-> & Hi & Hb). pose proof Hb as (_ & _ & Hlen).
  assert (Hfree : forall m, m <> MReturned -> m <> MWaiting -> forall c, MonitorPauseContr c = MonitorPauseContr (cl s) ->
    monitor_free (set_monitor m (set_cl c s))).
  { intros m H1 H2 c Hc. unfold monitor_free in *. cbn. rewrite Hc. rewrite Hm in P5.
    destruct m; try done; by destruct (cbuf _) as [|[] ?]. }
  unfold monitor_step in E. rewrite Hm in E. destruct (Z.ltb_spec (Z.of_nat i) (biLength b)) as [Hlt|Hge].
  2:{ injection E as <-. exists W, items, out1, out2, log1, log2, es, i, W2. split; try done.
      - by apply (Hfree MWait ltac:(done) ltac:(done) (cl s)).
      - unfold monitor_at. cbn. lia. }
  unfold on_cl in E at 1. rewrite (IsPaused_same _ P4) in E.
  assert (Hp : match cbuf (MonitorPauseContr (cl s)) with Paused :: _ => true | _ => false end = false).
  { unfold monitor_free in P5. rewrite Hm in P5. by destruct (cbuf _) as [|[] ?]. }
  rewrite Hp in E. destruct P21 as (a & Ra & Ha & Wa & Hw). destruct (lookup_lt_is_Some_2 es i) as [e He]; [lia|].
  rewrite (drop_S _ _ _ He) in P19, P20. apply Forall_cons in P19 as [We P19]. rewrite <- Ha in He, Hb.
  destruct (send_held ti rn Ht (cl s) b i a e P1 P9 Ra Hb He We) as (p & Ep & Hc).
  unfold on_cl in E. cbn [cl set_cl] in E. rewrite Ep in E. injection E as <-. rewrite Ha in He, Hb.
  destruct P1 as (? & ? & ?). destruct (listenPc s) eqn:Hl; try done; [|destruct P12 as (Hfin & -> & ->)].
  - exists W, items, out1, (out2 ++ [p]), log1, (log2 ++ [e]), es, (S i), W2. split; try done.
    + by apply Hfree.
    + cbn. by rewrite Hl.
    + cbn. rewrite P13. unfold announcement; cbn. rewrite Hl. by rewrite <- !app_assoc.
    + apply Forall2_app; [done|]. by apply Forall2_cons.
    + apply Forall_app. split; [done|]. by apply Forall_singleton.
    + by rewrite P20, <- (app_assoc log2).
    + by exists a.
    + unfold monitor_at. cbn. split_and!; [lia|lia|done].
  - exists W, items, (out1 ++ [p]), [], (log1 ++ [e]), [], es, (S i), W2. split; try done.
    + by apply Hfree.
    + cbn. by rewrite Hl.
    + cbn. rewrite P13. unfold announcement; cbn. rewrite Hl. by rewrite !app_nil_r, <- !app_assoc.
    + apply Forall2_app; [done|]. by apply Forall2_cons.
    + rewrite fmap_app. by apply prefix_app_r.
    + apply Forall_app. split; [done|]. by apply Forall_singleton.
    + by rewrite P20, <- (app_assoc log1).
    + by exists a.
    + unfold monitor_at. cbn. split_and!; [lia|lia|done].
    + by right.
Qed.

Lemma steady_monitor T s s' pick :
  in_steady T s -> monitor_step pick s = Done s' -> given_up base s' \/ in_steady T s'.
Proof using Ht.
  intros I E. destruct (monitorPc s) as [| | |b k|] eqn:Hm.
  4:{ right. by apply (steady_entry T s s' b k pick). }
  3:{ apply (steady_read T s s' I Hm). unfold monitor_step in *. by rewrite Hm in *. }
  all: destruct I as (W & items & out1 & out2 & log1 & log2 & es & i & W2 & P); right.
  all: pose proof (st_contr _ _ _ _ _ _ _ _ _ _ _ P) as (C1 & C2 & C3); pose proof (st_monitor _ _ _ _ _ _ _ _ _ _ _ P) as Hf;
    pose proof (st_at _ _ _ _ _ _ _ _ _ _ _ P) as Hat; pose proof (st_conn _ _ _ _ _ _ _ _ _ _ _ P) as (_ & _ & Htm).
  all: unfold monitor_free in Hf; unfold monitor_at in Hat; unfold monitor_step in E; rewrite Hm in *; try done.
  all: assert (T' : ChanHasTerminated (TermChan s) = false) by (unfold TermChan, terminated; by rewrite Htm).
  all: exists W, items, out1, out2, log1, log2, es, i, W2.
  - unfold WaitIfPaused, chan_recv in E. destruct (cbuf (MonitorPauseContr (cl s))) as [|[] l] eqn:Eb; [| |done].
    + rewrite C1, T' in E. injection E as <-. apply steady_set_monitor; try done; [by rewrite Eb; cbn; lia|].
      unfold monitor_free; cbn. by rewrite Eb.
    + rewrite T' in E. cbn in E. injection E as <-. destruct l; [|cbn in C3; lia].
      apply steady_set_monitor; try done. cbn; lia.
  - unfold waitUntilResumed, chan_recv in E. destruct (cbuf (MonitorPauseContr (cl s))) as [|[] l] eqn:Eb; [done| |done].
    rewrite T' in E. cbn in E. injection E as <-. destruct l; [|cbn in C3; lia].
    apply steady_set_monitor; try done. cbn; lia.
Qed.
Lemma steady_stage T s e s' :
  in_steady T s -> undisturbed S0 ti e -> cstep xxhash e s = Done s' ->
  given_up base s' \/ in_steady (T ++ sources [e]) s'.
Proof using Ht.
  intros I He E. destruct e as [| |j|pick|j| |bio]; cbn [sources mbind list_bind]; rewrite ?app_nil_r; cbn [cstep] in E.
  - right. by eapply steady_listen.
  - destruct I as (W & items & o1 & o2 & l1 & l2 & es & i & W2 & P).
    unfold hash_read_step in E. by rewrite (st_hashers _ _ _ _ _ _ _ _ _ _ _ P) in E.
  - destruct I as (W & items & o1 & o2 & l1 & l2 & es & i & W2 & P).
    unfold hash_send_step in E. by rewrite (st_hashers _ _ _ _ _ _ _ _ _ _ _ P) in E.
  - by eapply steady_monitor.
  - destruct I as (W & items & o1 & o2 & l1 & l2 & es & i & W2 & P).
    unfold replicate_step in E. by rewrite (st_repl _ _ _ _ _ _ _ _ _ _ _ P) in E.
  - done.
  - right. injection E as <-. by apply steady_source.
Qed.

End Steady.
