(* ===== verification/ClientRun.v ===== *)
(** * A scan on the client in every schedule

    The phases of the scan put together: comparing, sending the batch, and what
    follows.  Every step of every schedule leads from a phase to itself or to
    the next one, and from every point some schedule leads to the end. *)
From S2P Require Import Prelude GoInt GoMonad GoChan Utils BlockDev Blocks Image Networking Journal Pause.
From S2P Require Import RingBuffer Client ClientFacts ClientProps ClientSession ClientSafety ClientSends.
From S2P Require Import ClientScan ClientFlush ClientSteady.
Open Scope Z_scope.

Section Run.
Context (xxhash : list byte -> Z) (S0 R : list byte) (offs : list Z) (base : list Packet).
Context (ti : TargetInfo) (rn : nat) (Ht : wf_target ti rn).
Context (Hlen : length R = length S0) (Hsize : Z.of_nat (length S0) < 2 ^ 63).
Context (Hoffs : Forall (fun o => 0 <= o < Z.of_nat (length R)) offs).
Abbreviation flushing := (flushing xxhash S0 R offs base ti rn).
Abbreviation given_up := (given_up base).
Abbreviation in_steady := (in_steady xxhash S0 R offs base end_of_scan ti rn).
Abbreviation len o := (block_len (Z.of_nat (length R)) o).

Lemma undisturbed_sources es : Forall (undisturbed S0 ti) es -> Forall (fits (length S0)) (sources es).
Proof using.
  induction 1 as [|e es He Hes IH]; [done|]. destruct e; cbn; try exact IH. apply Forall_app.
  by destruct He.
Qed.

Definition in_scan (T : list write) (s : CSession) : Prop :=
  exists todo queued fl done, scanning xxhash S0 R offs base ti rn T todo queued fl done s.
(** [W] were in the ring when it was read. *)
Definition in_flush (W T : list write) (s : CSession) : Prop :=
  exists W2 items es i ps, T = W ++ W2 /\ flushing W W2 items es i ps s.

(** [T] are the writes since the ring was reset. *)
Definition stage (T : list write) (s : CSession) : Prop :=
  given_up s \/ (exists W, in_flush W T s) \/ in_scan T s \/ in_steady T s.

Lemma scan_stage T s e s' :
  in_scan T s -> undisturbed S0 ti e -> cstep xxhash e s = Done s' -> stage (T ++ sources [e]) s'.
Proof using Ht Hlen Hsize Hoffs.
  intros (todo & queued & fl & done & I) He E. unfold stage.
  destruct e as [| |i|pick|i| |bio]; cbn [sources mbind list_bind]; rewrite ?app_nil_r; cbn [cstep] in E.
  - assert (D : listenPc s = LSendBuffer \/ listenPc s <> LSendBuffer) by (destruct (listenPc s); auto).
    destruct D as [D|D].
    + destruct (buffer_read xxhash S0 R offs base ti rn Ht T todo queued fl done s s' I D E) as [H|[es H]];
        [by left|]. right; left. exists T, [], done, es, 0%nat, []. by rewrite app_nil_r.
    + destruct (listen_scanning xxhash S0 R offs base ti rn T todo queued fl done s s' I D E) as (t' & q' & H).
      right; right; left. by exists t', q', fl, done.
  - destruct (hash_read_scanning xxhash S0 R offs base ti rn Hlen Hsize Hoffs T todo queued fl done s s' I E)
      as (q' & f' & H). right; right; left. by exists todo, q', f', done.
  - destruct (hash_send_scanning xxhash S0 R offs base ti rn T todo queued fl done i s s' I E) as (ot & H).
    right; right; left. by exists todo, queued, (delete i fl), (done ++ [ot]).
  - right; right; left. exists todo, queued, fl, done. by eapply monitor_scanning.
  - unfold replicate_step in E. by rewrite (sc_repl _ _ _ _ _ _ _ _ _ _ _ _ _ I) in E.
  - done.
  - right; right; left. exists todo, queued, fl, done. injection E as <-. destruct He as [Hf Hs].
    apply source_scanning; [|done..]. by destruct (wt_page _ _ Ht).
Qed.

Lemma flush_stage W T s e s' :
  in_flush W T s -> undisturbed S0 ti e -> cstep xxhash e s = Done s' ->
  in_flush W (T ++ sources [e]) s' \/ in_steady (T ++ sources [e]) s'.
Proof using Ht.
  intros (W2 & items & es & i & ps & -> & F) He E.
  destruct e as [| |j|pick|j| |bio]; cbn [sources mbind list_bind]; rewrite ?app_nil_r; cbn [cstep] in E.
  - assert (D : listenPc s = LResume \/ listenPc s <> LResume) by (destruct (listenPc s); auto).
    destruct D as [D|D]; [right; by eapply flush_resumes|].
    destruct (flush_listen xxhash S0 R offs base ti rn Ht W W2 items es i ps s s' F D E) as (i' & ps' & H).
    left. by exists W2, items, es, i', ps'.
  - unfold hash_read_step in E. by rewrite (fl_hashers _ _ _ _ _ _ _ _ _ _ _ _ _ _ F) in E.
  - unfold hash_send_step in E. by rewrite (fl_hashers _ _ _ _ _ _ _ _ _ _ _ _ _ _ F) in E.
  - left. exists W2, items, es, i, ps. split; [done|]. by eapply flush_monitor.
  - unfold replicate_step in E. by rewrite (fl_repl _ _ _ _ _ _ _ _ _ _ _ _ _ _ F) in E.
  - done.
  - left. injection E as <-. exists (W2 ++ (seg_write <$> bio)), items, es, i, ps.
    split; [by rewrite <- app_assoc|]. by apply flush_source.
Qed.

Lemma given_up_call {A} (m : M Client A) s k s' :
  on_cl m s k = Done s' -> incoming s = [] ->
  match listenPc s with LReceive | LAnnounce | LReturn | LReturned => True | _ => False end ->
  (forall a c, k a (set_cl c s) = Done s' -> incoming s' = [] /\
    match listenPc s' with LReceive | LAnnounce | LReturn | LReturned => True | _ => False end) ->
  incoming s' = [] /\ match listenPc s' with LReceive | LAnnounce | LReturn | LReturned => True | _ => False end.
Proof using. intros [(a & _ & E)| ->]%on_cl_Done Hi Hp Hk; [by eapply Hk|done]. Qed.

Lemma given_up_step e s s' : given_up s -> cstep xxhash e s = Done s' -> given_up s'.
Proof using.
  clear Hlen Hsize. intros (Hi & Hp & Hn) E.
  assert (Hn' : new_scan ∈ drop (length base) (csent (cl s'))).
  { destruct (cstep_sends xxhash e s s' E) as [l ->]. destruct (decide (length base <= length (csent (cl s)))%nat).
    - rewrite drop_app_le by done. apply elem_of_app. by left.
    - rewrite drop_ge in Hn by lia. by apply not_elem_of_nil in Hn. }
  unfold given_up. apply and_assoc. split; [|done]. clear Hn Hn'.
  destruct (listen_or_not e) as [->|He].
  2:{ destruct (other_step xxhash e s s' He E) as [H1 H2 _ _ _ _ _]. by rewrite H1, H2. }
  cbn in E. unfold listen_step in E. destruct (listenPc s) as [|st|p| | | | |b k| | | | | |r0] eqn:Hl; try done.
  - unfold receive in E. rewrite Hi in E. destruct (terminated s); [|done].
    unfold close_hashQueue, chan_close in E. destruct (cclosed _); [done|]. by injection E as <-.
  - apply (given_up_call _ _ _ _ E); [done|by rewrite Hl|]. by intros r c [= <-].
  - destruct (hash_idle s); [|done]. by injection E as <-.
Qed.

Lemma sources_cons e es : sources (e :: es) = sources [e] ++ sources es.
Proof using. unfold sources. cbn. by rewrite app_nil_r. Qed.

(** What every step keeps, every run keeps. *)
Lemma run_keeps (P : list write -> CSession -> Prop) :
  (forall T s e s', P T s -> undisturbed S0 ti e -> cstep xxhash e s = Done s' -> P (T ++ sources [e]) s') ->
  forall es T s s', P T s -> Forall (undisturbed S0 ti) es -> crun xxhash es s = Done s' ->
    P (T ++ sources es) s'.
Proof using.
  intros K es. induction es as [|e es IH]; intros T s s' Hs Hq; cbn [crun].
  { intros [= <-]. cbn. by rewrite app_nil_r. }
  apply Forall_cons in Hq as [He Hq]. intros (s1 & E & E')%abind_Done.
  rewrite sources_cons, app_assoc. apply (IH _ s1); [|done|done]. by apply (K T s e).
Qed.

Lemma stage_step T s e s' :
  stage T s -> undisturbed S0 ti e -> cstep xxhash e s = Done s' -> stage (T ++ sources [e]) s'.
Proof using Ht Hlen Hsize Hoffs.
  unfold stage. intros [Hs|[[W Hs]|[Hs|Hs]]] He E.
  - left. by eapply given_up_step.
  - destruct (flush_stage W T s e s' Hs He E) as [H|H]; [right; left; by exists W|by right; right; right].
  - by eapply scan_stage.
  - destruct (steady_stage xxhash S0 R offs base end_of_scan ti rn Ht T s e s' Hs He E) as [H|H]; [by left|by right; right; right].
Qed.

Lemma stage_run es T s s' :
  stage T s -> Forall (undisturbed S0 ti) es -> crun xxhash es s = Done s' -> stage (T ++ sources es) s'.
Proof using Ht Hlen Hsize Hoffs. apply (run_keeps stage), stage_step. Qed.

Lemma flush_run W es T s s' :
  given_up s \/ in_flush W T s -> Forall (undisturbed S0 ti) es -> crun xxhash es s = Done s' ->
  given_up s' \/ in_flush W (T ++ sources es) s' \/ in_steady (T ++ sources es) s'.
Proof using Ht.
  intros Hs. assert (Hs' : given_up s \/ in_flush W T s \/ in_steady T s) by (destruct Hs; auto). clear Hs. revert es T s s' Hs'.
  apply (run_keeps (fun T s => given_up s \/ in_flush W T s \/ in_steady T s)). intros T s e s' [Hs|[Hs|Hs]] He E.
  - left. by eapply given_up_step.
  - right. by eapply flush_stage.
  - destruct (steady_stage xxhash S0 R offs base end_of_scan ti rn Ht T s e s' Hs He E); auto.
Qed.

(** ** The scan can be finished *)

Definition left_over (s : CSession) : nat :=
  4 * length (incoming s) + 2 * length (cbuf (hashQueue s)) +
  match hashers s with Some l => S (length l) | None => 0 end +
  match listenPc s with LSendHash _ => 3 | LStartHashing => 2 | LHashingCompleted => 1 | _ => 0 end.

Lemma read_reduces W s :
  in_scan W s -> hashers s <> None -> cbuf (hashQueue s) <> [] ->
  exists s', hash_read_step s = Done s' /\ (left_over s' < left_over s)%nat.
Proof using Hlen Hsize Hoffs.
  intros (todo & queued & fl & done & [I1 I2 I3 I4 I5 I6 I7 I8 I9 I10 I11 I12 I13 I14]) Hh Hb.
  unfold hash_read_step. destruct (hashers s) as [items|] eqn:Eh; [|done].
  rewrite I10 in Hb. destruct queued as [|o queued]; [done|]. cbn in I10.
  unfold chan_recv. rewrite I10. cbn [abind Payload hash_packet]. unfold on_cl.
  cbn [cl set_hashQueue hSize hOffset hash_info].
  rewrite (read_at S0 R Hlen Hsize W s o); [|done|done|].
  2:{ rewrite Forall_forall in Hoffs. apply Hoffs. rewrite <- I9, !elem_of_app, elem_of_cons. auto. }
  cbn. eexists. split; [reflexivity|]. unfold left_over. rewrite Eh, I10. cbn.
  rewrite length_app. cbn. destruct (listenPc s); lia.
Qed.

(** The measure before and after a step, with what is known of the state. *)
Ltac measure :=
  unfold left_over; cbn;
  repeat match goal with
         | H : listenPc _ = _ |- _ => rewrite H in *; clear H
         | H : hashers _ = _ |- _ => rewrite H in *; clear H
         | H : incoming _ = _ |- _ => rewrite H in *; clear H
         | H : cbuf (hashQueue _) = _ |- _ => rewrite H in *; clear H
         end; cbn; rewrite ?length_app, ?length_fmap; cbn; lia.

Lemma compare_progress W s :
  in_scan W s -> listenPc s <> LSendBuffer ->
  exists e s', undisturbed S0 ti e /\ sources [e] = [] /\ cstep xxhash e s = Done s' /\ (left_over s' < left_over s)%nat.
Proof using Hlen Hsize Hoffs.
  intros I Hl. pose proof I as (todo & queued & fl & done & [I1 I2 I3 I4 I5 I6 I7 I8 I9 I10 I11 [Hq Hp] I13 I14]).
  destruct I1 as (He & Hi & Htm).
  destruct (listenPc s) as [|st|p| | | | |b k| | | | | |r0] eqn:El;
    unfold working_at, idle_at in Hp; rewrite El in Hp; try (by destruct Hp as [[_ []]|(_ & _ & _ & [])]).
  - exists CListen. cbn. unfold listen_step, receive, terminated. rewrite El, Htm.
    destruct Hp as [[Hh Hp]|(Hh & -> & -> & Hp)]; rewrite Hp; [destruct todo as [|o todo]|]; cbn;
      unfold close_hashQueue, chan_close, listen_dispatch; cbn; unfold close_hashQueue, chan_close; cbn;
      rewrite ?Hq; cbn; (eexists; split_and!; [done|done|reflexivity|]);
      measure.
  - destruct Hp as [[Hh (o & todo' & -> & -> & Hp)]|(_ & _ & _ & [])].
    destruct (send_cases (hash_packet xxhash R o) (hashQueue s) Hq) as [[E Hf]|[E Hf]].
    + destruct (read_reduces W s I) as (s' & E' & Hlt); [by rewrite Hh| |].
      { intros Hn. rewrite Hn, I11 in Hf. cbn in Hf. unfold HashPacketQueueSize in Hf. lia. }
      by exists CHashRead, s'.
    + exists CListen. cbn. unfold listen_step. rewrite El, E. cbn.
      eexists. split_and!; [done|done|reflexivity|]. measure.
  - destruct Hp as [[_ []]|(Hh & -> & -> & Hp)].
    exists CListen. cbn. unfold listen_step, hash_idle. rewrite El, Hh. eexists.
    split_and!; [done|done|reflexivity|]. measure.
  - destruct Hp as [(Hh & -> & Hp)|(Hh & -> & -> & Hp)].
    + destruct queued as [|o queued].
      * destruct fl as [|ot fl].
        -- exists CHashRead. cbn. unfold hash_read_step, chan_recv. rewrite Hh, I10. cbn. rewrite Hq. cbn.
           eexists. split_and!; [done|done|reflexivity|]. measure.
        -- exists (CHashSend 0). cbn. unfold hash_send_step. rewrite Hh. cbn.
           change (delete 0%nat (?x :: ?l)) with l.
           destruct (_ =? _); [|unfold on_cl, SendCorrectBlock; rewrite SendPacket_ok by done];
             (eexists; split_and!; [done|done|reflexivity|]); measure.
      * destruct (read_reduces W s I) as (s' & E' & Hlt); [by rewrite Hh|by rewrite I10|].
        by exists CHashRead, s'.
    + exists CListen. cbn. unfold listen_step, hash_idle. rewrite El, Hh. eexists.
      split_and!; [done|done|reflexivity|]. measure.
Qed.

Lemma buffer_steps W s :
  in_scan W s -> listenPc s = LSendBuffer -> exists s', listen_step s = Done s'.
Proof using.
  intros (todo & queued & fl & done & [(He & Hio & Htm) I2 I3 I4]) Hl.
  unfold listen_step. rewrite Hl. unfold on_cl at 1.
  rewrite ServeIOCTL_ok, executeIOCTL_ok by done.
  destruct (negb _); [by eexists|]. destruct (CheckOverflow _); [|by eexists].
  unfold on_cl, StartHashing. cbn [cl set_cl]. rewrite start_ok by done. by eexists.
Qed.

(** Steps of the listener that are left. *)
Definition entries_left (s : CSession) : nat :=
  match listenPc s with LEntries b k => 3 + Z.to_nat (biLength b - k) | LResume => 2 | LAnnounce => 1 | _ => 0 end.

Lemma flush_steps W W2 items es i ps s :
  flushing W W2 items es i ps s -> exists s', listen_step s = Done s' /\ (entries_left s' < entries_left s)%nat.
Proof using Ht.
  clear Hlen Hsize.
  intros [F1 F2 F3 F4 F5 F6 F7 F8 F9 F10 F11 F12 F13 F14 F15 (a & Ra & Ha & Wa & Hw) F16].
  unfold flush_at in F16. unfold listen_step, entries_left at 2.
  destruct (listenPc s) as [| | | | | | |b k| | | | | |r0]; try done.
  - destruct F16 as (-> & Hi & Hb). pose proof Hb as (_ & _ & Hn).
    destruct (Z.ltb_spec (Z.of_nat i) (biLength b)) as [Hlt|Hge].
    2:{ eexists. split; [reflexivity|]. cbn. lia. }
    destruct (lookup_lt_is_Some_2 es i) as [e He]; [lia|].
    rewrite Forall_lookup in F14. pose proof (F14 i e He) as We. rewrite <- Ha in He, Hb.
    destruct (send_held ti rn Ht (cl s) b i a e F1 F15 Ra Hb He We) as (p & Ep & _).
    unfold on_cl. rewrite (bind_Ret _ _ _ _ _ (IsPaused_same _ F4)), Ep.
    eexists. split; [reflexivity|]. unfold entries_left. cbn. lia.
  - unfold on_cl. rewrite (bind_Ret _ _ _ tt (set_cstate StateWriting (cl s))), resume_ok by done.
    eexists. split; [reflexivity|]. cbn. lia.
Qed.

(** *** To the end *)

Definition quiet (es : list cevent) : Prop := Forall (undisturbed S0 ti) es /\ sources es = [].

Lemma quiet_cons e es : undisturbed S0 ti e -> sources [e] = [] -> quiet es -> quiet (e :: es).
Proof using.
  intros He Hs [H1 H2]. split; [by apply Forall_cons|]. by rewrite sources_cons, Hs, H2.
Qed.

(** The end of the scan has been announced to the server. *)
Definition scan_ended (s : CSession) : Prop := end_of_scan ∈ drop (length base) (csent (cl s)).

Lemma steady_ended T s : in_steady T s -> listenPc s = LReceive -> scan_ended s.
Proof using.
  intros (W & items & o1 & o2 & l1 & l2 & es & i & W2 & P) Hl. unfold scan_ended.
  rewrite (st_sent _ _ _ _ _ _ _ _ _ _ _ _ _ _ _ _ _ _ _ P), drop_app_length. unfold announcement. rewrite Hl.
  rewrite !elem_of_app, elem_of_cons. auto.
Qed.

(** [s] can reach a state with [P] without another write to the source. *)
Definition reaches (P : CSession -> Prop) (s : CSession) : Prop :=
  exists es s', quiet es /\ crun xxhash es s = Done s' /\ P s'.

Lemma reaches_step P e s s' :
  undisturbed S0 ti e -> sources [e] = [] -> cstep xxhash e s = Done s' -> reaches P s' -> reaches P s.
Proof using.
  intros He Hs E (es & s2 & Hq & E2 & H). exists (e :: es), s2.
  split; [by apply quiet_cons|]. cbn. by rewrite E.
Qed.

Lemma reaches_here (P : CSession -> Prop) s : P s -> reaches P s.
Proof using. intros H. exists [], s. by split_and!. Qed.

Lemma crun_app es1 es2 s : crun xxhash (es1 ++ es2) s = abind (crun xxhash es1 s) (crun xxhash es2).
Proof using. revert s. induction es1 as [|e es1 IH]; intros s; [done|]. cbn. destruct (cstep _ _ _); cbn; auto. Qed.

Lemma reaches_bind (P Q : CSession -> Prop) s :
  reaches P s -> (forall s', P s' -> reaches Q s') -> reaches Q s.
Proof using.
  intros (es & s1 & [Q1 Q2] & E & H) K. destruct (K s1 H) as (es2 & s2 & [Q3 Q4] & E2 & H2).
  exists (es ++ es2), s2. split_and!; [|by rewrite crun_app, E|done]. split; [by apply Forall_app|].
  unfold sources in *. by rewrite bind_app, Q2, Q4.
Qed.

(** The scan is over, or given up for another one. *)
Definition scan_over (T : list write) (s : CSession) : Prop :=
  given_up s \/ (in_steady T s /\ listenPc s = LReceive).
Abbreviation finishes T := (reaches (scan_over T)).

Lemma steady_finishes T s : in_steady T s -> finishes T s.
Proof using.
  intros I. pose proof I as (W & items & o1 & o2 & l1 & l2 & es & i & W2 & P).
  destruct (listenPc s) eqn:Hl; pose proof (st_listen _ _ _ _ _ _ _ _ _ _ _ _ _ _ _ _ _ _ _ P) as Hs; rewrite Hl in Hs; try done.
  - apply reaches_here. by right.
  - destruct (st_conn _ _ _ _ _ _ _ _ _ _ _ _ _ _ _ _ _ _ _ P) as (He & _).
    assert (E : exists s1, listen_step s = Done s1 /\ listenPc s1 = LReceive).
    { unfold listen_step, on_cl. rewrite Hl, SendPacket_ok by done. by eexists. }
    destruct E as (s1 & E & Hl1). apply (reaches_step _ CListen s s1); [done..|]. apply reaches_here. right.
    split; [by eapply steady_listen|done].
Qed.

Lemma flush_finishes W T s : in_flush W T s -> finishes T s.
Proof using Ht.
  remember (entries_left s) as n eqn:En. revert s En.
  induction n as [n IH] using lt_wf_ind. intros s -> I.
  pose proof I as (W2 & items & es & i & ps & _ & F).
  destruct (flush_steps W W2 items es i ps s F) as (s1 & E & Hlt).
  apply (reaches_step _ CListen s s1); [done..|].
  destruct (flush_stage W T s CListen s1 I) as [H|H]; [done|done| |]; cbn in H; rewrite app_nil_r in H.
  - by apply (IH _ Hlt s1 eq_refl).
  - by apply steady_finishes.
Qed.

Lemma scan_finishes W s : in_scan W s -> finishes W s.
Proof using Ht Hlen Hsize Hoffs.
  remember (left_over s) as n eqn:En. revert s En. induction n as [n IH] using lt_wf_ind. intros s -> I.
  assert (K : forall e s1, undisturbed S0 ti e -> sources [e] = [] -> cstep xxhash e s = Done s1 ->
    (in_scan W s1 -> finishes W s1) -> finishes W s).
  { intros e s1 He Hs E Hk. apply (reaches_step _ e s s1 He Hs E).
    pose proof (scan_stage W s e s1 I He E) as St. rewrite Hs, app_nil_r in St.
    destruct St as [H|[[W2 H]|[H|H]]]; [apply reaches_here; by left|by eapply flush_finishes|by apply Hk|
      by apply steady_finishes]. }
  assert (D : listenPc s = LSendBuffer \/ listenPc s <> LSendBuffer) by (destruct (listenPc s); auto).
  destruct D as [D|D].
  - destruct (buffer_steps W s I D) as (s1 & E). apply (reaches_step _ CListen s s1); [done..|].
    destruct I as (todo & queued & fl & done & I).
    destruct (buffer_read xxhash S0 R offs base ti rn Ht W todo queued fl done s s1 I D E) as [H|[es H]];
      [apply reaches_here; by left|]. apply (flush_finishes W W). exists [], done, es, 0%nat, [].
    by rewrite app_nil_r.
  - destruct (compare_progress W s I D) as (e & s1 & He & Hs & E & Hlt).
    apply (K e s1); [done..|]. by apply (IH _ Hlt s1 eq_refl).
Qed.

(** From every point the scan goes on to its end. *)
Lemma stage_finishes T s : stage T s -> finishes T s.
Proof using Ht Hlen Hsize Hoffs.
  intros [H|[[W H]|[H|H]]]; [apply reaches_here; by left|by eapply flush_finishes|by apply scan_finishes|
    by apply steady_finishes].
Qed.
End Run.

(** ** The scan as a whole *)

(** The server has announced a scan and will send the hashes of the blocks
    [offs] of [R]; the source was [S0] when the ring was reset and [W0] has been
    written to it and to the ring since; the workers are idle, the monitor is
    paused, nothing fails. *)
Record announced (xxhash : list byte -> Z) (S0 R : list byte) (offs : list Z) (t : TargetInfo) (n : nat)
  (W0 : list write) (s : CSession) : Prop := {
  an_conn : connected (cl s);
  an_dev : UnderDevFile (cl s) = {| content := apply_writes W0 S0; faults := [] |};
  an_fits : Forall (fits (length S0)) W0;
  an_contr : contr_ok (MonitorPauseContr (cl s));
  an_monitor : monitor_held s;
  an_repl : replicator s = None;
  an_hashers : hashers s = None;
  an_listen : listenPc s = LReceive;
  an_incoming : incoming s = RPacket (CreateInfoPacket PacketTypeInfoStartHashing) :: stream xxhash R offs;
  an_queue : hashQueue s = make_chan HashPacketQueueSize;
  an_target : cTarget (cl s) = t;
  an_wf : wf_target t n;
  an_ring : ring_has t n W0 (kernel (cl s));
  an_len : length R = length S0;
  an_size : Z.of_nat (length S0) < 2 ^ 63;
  an_offs : Forall (fun o => 0 <= o < Z.of_nat (length R)) offs;
}.

Section Scan.
Context (xxhash : list byte -> Z) (S0 R : list byte) (offs : list Z) (t : TargetInfo) (n : nat).
Context (W0 : list write) (s0 s : CSession) (es : list cevent).
Context (A : announced xxhash S0 R offs t n W0 s0) (Hq : Forall (undisturbed S0 t) es).
Context (E : crun xxhash es s0 = Done s).

Lemma announced_scan : in_scan xxhash S0 R offs (csent (cl s0)) t n W0 s0.
Proof using A.
  destruct A as [A1 A2 A3 A4 A5 A6 A7 A8 A9 A10 A11 A12 A13 A14 A15 A16]. exists offs, [], [], []. split; try done.
  - by rewrite app_nil_r.
  - by rewrite A10.
  - by rewrite A10.
  - split; [by rewrite A10, A8|]. right. unfold idle_at. by rewrite A8.
Qed.

Lemma client_scan_run : stage xxhash S0 R offs (csent (cl s0)) t n (W0 ++ sources es) s.
Proof using A Hq E.
  destruct (A). eapply (stage_run xxhash S0 R offs (csent (cl s0)) t n); try done.
  right; right; left. apply announced_scan.
Qed.

Lemma scan_reads :
  listenPc s = LSendBuffer ->
  in_scan xxhash S0 R offs (csent (cl s0)) t n (W0 ++ sources es) s.
Proof using A Hq E.
  intros Hl. destruct client_scan_run as [(_ & Hp & _)|[[W H]|[H|H]]]; [by rewrite Hl in Hp| |done|].
  - destruct H as (W2 & items & es' & i & ps & _ & F). pose proof (fl_at _ _ _ _ _ _ _ _ _ _ _ _ _ _ F) as Hf.
    unfold flush_at in Hf. by rewrite Hl in Hf.
  - destruct H as (W & items & o1 & o2 & l1 & l2 & es' & i & W2 & P).
    pose proof (st_listen _ _ _ _ _ _ _ _ _ _ _ _ _ _ _ _ _ _ _ P) as Hs. by rewrite Hl in Hs.
Qed.

Lemma scan_compared :
  listenPc s = LSendBuffer ->
  exists items, (fst <$> items) ≡ₚ offs /\
    Forall (fun ot => (ot.2 <= length (W0 ++ sources es))%nat) items /\
    csent (cl s) = csent (cl s0) ++ corrections xxhash S0 R (W0 ++ sources es) items.
Proof using A Hq E.
  intros Hl. destruct (scan_reads Hl) as (todo & queued & fl & done & I).
  destruct I as [I1 I2 I3 I4 I5 I6 I7 I8 I9 I10 I11 [_ Hp]].
  unfold working_at, idle_at in Hp. rewrite Hl in Hp.
  destruct Hp as [[_ []]|(_ & -> & -> & -> & _)].
  exists done. rewrite !app_nil_r in I9. by split_and!.
Qed.

(** The ring is read in [s]; from there on, [es'] until the batch is sent. *)
Lemma scan_flushed es' s' :
  let W := W0 ++ sources es in
  listenPc s = LSendBuffer -> Forall (undisturbed S0 t) es' -> crun xxhash (CListen :: es') s = Done s' ->
  listenPc s' = LResume ->
  exists items batch ps, Forall (fits (length S0)) W /\
    (fst <$> items) ≡ₚ offs /\ Forall (fun ot => (ot.2 <= length W)%nat) items /\
    csent (cl s') = csent (cl s0) ++ corrections xxhash S0 R W items ++ ps /\
    Forall2 (carries t) ps batch /\ Forall (wf_entry t) batch /\ entry_write <$> batch = W.
Proof using A Hq E.
  intros W Hl Hq' E' Hl'. apply scan_reads in Hl as Hs. destruct Hs as (todo & queued & fl & done & I).
  cbn [crun cstep] in E'. apply abind_Done in E' as (s1 & E1 & E').
  pose proof (an_wf _ _ _ _ _ _ _ _ A) as Ht. fold W in I.
  destruct (flush_run xxhash S0 R offs (csent (cl s0)) t n Ht W es' W s1 s') as [(_ & Hp & _)|[H|H]]; try done.
  - destruct (buffer_read _ _ _ _ _ _ _ Ht _ _ _ _ _ _ _ I Hl E1) as [H|[batch H]]; [by left|].
    right. exists [], done, batch, 0%nat, []. by rewrite app_nil_r.
  - by rewrite Hl' in Hp.
  - destruct H as (W2 & items & batch & i & ps & HW & F). exists items, batch, ps.
    destruct F as [F1 F2 F3 F4 F5 F6 F7 F8 F9 F10 F11 F12 F13 F14 F15 F16 F17].
    unfold flush_at in F17. rewrite Hl' in F17. subst i. rewrite firstn_all in F12.
    apply Forall_app in F3 as [F3 _]. by split_and!.
  - destruct H as (W1 & items & o1 & o2 & l1 & l2 & es1 & i & W2 & P).
    pose proof (st_listen _ _ _ _ _ _ _ _ _ _ _ _ _ _ _ _ _ _ _ P) as Hs. by rewrite Hl' in Hs.
Qed.

Lemma scan_ends :
  exists es' s', Forall (undisturbed S0 t) es' /\ sources es' = [] /\ crun xxhash es' s = Done s' /\
    (given_up (csent (cl s0)) s' \/ scan_ended (csent (cl s0)) s').
Proof using A Hq E.
  destruct (A). destruct (stage_finishes xxhash S0 R offs (csent (cl s0)) t n) with (T := W0 ++ sources es) (s := s)
    as (es' & s' & [Hu Hs] & E' & H); try done; [by apply client_scan_run|]. exists es', s'. split_and!; [done..|].
  destruct H as [H|[H Hl]]; [by left|right; by eapply steady_ended].
Qed.
End Scan.
