(* ===== verification/SessionStream.v ===== *)
(** * The server's side of a scan, packet by packet

    From the client's request on: the server prepares the scan, resets the
    journal, hashes the replica and announces the end; meanwhile the client's
    packets arrive one after the other, are journalled, replayed, and, after the
    end of the scan, written directly.  [stream cps s] says where a session is
    when the packets [cps] have arrived so far. *)
From S2P Require Import Prelude GoInt GoMonad GoChan Utils BlockDev Blocks Image Networking.
From S2P Require Import Client ClientScan.
From S2P Require Import Journal JournalCodec JournalSlots JournalSpec JournalOps.
From S2P Require Import Server ServerReplay ServerJournal ServerProps ServerPaths Session SessionSafety SessionScan.
Open Scope Z_scope.

(** ** What the hashing goroutines send *)

(** The result of the block at [o] of the replica [R]. *)
Definition hashed (xxhash : list byte -> Z) (R : list byte) (o : Z) : resultItem :=
  let n := block_len (Z.of_nat (length R)) o in
  {| r_offset := o; r_size := n; r_hash := xxhash (sub (Z.to_nat o) (Z.to_nat n) R); r_err := None |}.

(** The block itself. *)
Definition block_at (R : list byte) (o : Z) : workItem :=
  {| w_offset := o; w_buffer := sub (Z.to_nat o) (Z.to_nat (block_len (Z.of_nat (length R)) o)) R |}.

(** [HashDisk] reads a block of the replica. *)
Lemma hash_read_block v o :
  target_ok v -> 0 <= o < dev_size (TargetDevFd v) ->
  hash_read HashedSpaceBase o v = (Ret (ReadBlock (block_at (content (TargetDevFd v)) o)), v).
Proof.
  intros [Hh Hs] Ho. unfold block_at. set (R := content (TargetDevFd v)).
  assert (HR : dev_size (TargetDevFd v) = Z.of_nat (length R)) by done.
  set (len := block_len (Z.of_nat (length R)) o).
  assert (Hlen : 0 < len <= 262144 /\ o + len <= Z.of_nat (length R))
    by (unfold len, block_len, HashedSpaceBase, HashedBlockSize; lia).
  assert (Hb : sub (Z.to_nat o) (Z.to_nat HashedSpaceBase) R = sub (Z.to_nat o) (Z.to_nat len) R).
  { destruct (decide (o + HashedSpaceBase <= Z.of_nat (length R))) as [Hd|Hd].
    - f_equal. unfold len, block_len. unfold HashedSpaceBase, HashedBlockSize in *. lia.
    - apply sub_clip; unfold len, block_len; unfold HashedSpaceBase, HashedBlockSize in *; lia. }
  assert (Hl : length (sub (Z.to_nat o) (Z.to_nat len) R) = Z.to_nat len) by (apply length_sub; lia).
  unfold hash_read, on_target, zoom, bind. rewrite i64_small by lia.
  assert (E : exists e, (e = None \/ e = Some IoEOF) /\
    ReadAt (Z.to_nat HashedSpaceBase) o (TargetDevFd v) =
    (Ret (sub (Z.to_nat o) (Z.to_nat HashedSpaceBase) R, e), TargetDevFd v)).
  { unfold ReadAt. destruct (o <? 0) eqn:E; [lia|].
    assert (Hk : 0 < Z.of_nat (Z.to_nat HashedSpaceBase)) by (unfold HashedSpaceBase, HashedBlockSize; lia).
    generalize dependent (Z.to_nat HashedSpaceBase). intros [|k] _ Hk; [lia|].
    rewrite syscall_healthy by done. eexists. split; [|reflexivity]. destruct (_ <? _)%nat; auto. }
  destruct E as (e & He & ->). rewrite Hb.
  replace (set_target (TargetDevFd v) v) with v by (by destruct v).
  rewrite Hl. destruct (Z.to_nat len =? 0)%nat eqn:E0; [apply Nat.eqb_eq in E0; lia|].
  by destruct He as [->| ->].
Qed.

(** A hashing worker hashes it. *)
Lemma hash_block_at xxhash R o :
  0 <= o < Z.of_nat (length R) -> hash_block xxhash (block_at R o) = hashed xxhash R o.
Proof.
  intros Ho. unfold hash_block, block_at, hashed. cbn [w_offset w_buffer].
  assert (Hlen : 0 < block_len (Z.of_nat (length R)) o <= 262144 /\ o + block_len (Z.of_nat (length R)) o <= Z.of_nat (length R))
    by (unfold block_len, HashedSpaceBase, HashedBlockSize; lia).
  rewrite length_sub by lia. rewrite Z2Nat.id by lia. by rewrite u32_small by width_tac.
Qed.

(** And sends its hash packet. *)
Lemma hash_send_block xxhash R o v :
  sendFaults v = [] ->
  hash_send (hashed xxhash R o) v = (Ret true, set_sent (sent v ++ [hash_packet xxhash R o]) [] v).
Proof.
  intros Hf. unfold hash_send. cbn [r_err hashed]. erewrite bind_Ret by done.
  by erewrite bind_Ret by (by apply catch_Ret, Encode_quiet).
Qed.

Lemma HashDisk_end_sends v : sendFaults v = [] -> HashDisk_end v = (Ret tt, set_sent (sent v ++ [completed]) [] v).
Proof. intros H. eapply ignore_Ret, map_err_Ret. by apply Encode_quiet. Qed.

Definition start_of_scan : Packet := CreateInfoPacket PacketTypeInfoStartHashing.

(** [HashDisk] resets the journal and announces the scan. *)
Lemma HashDisk_start_ok v j :
  SJournal v = Some j -> journal_inv (jstate v j) -> state v = StateHashing -> sendFaults v = [] ->
  exists v', HashDisk_start v = (Ret true, v') /\ scan_rel v j a_empty [] v' /\
    sent v' = sent v ++ [start_of_scan] /\ ClientInfo v' = ClientInfo v.
Proof.
  intros Hj I Hs Hf.
  destruct (ResetTo_jrel _ I) as (t & Et & Jt & Ht). cbn [jrn jstate] in Et, Ht.
  exists (set_sent (sent v ++ [start_of_scan]) [] (with_jstate t v)).
  assert (Eg : forall (f : JState -> Z), on_journal (gets f) v = (Ret (f (jstate v j)), v)).
  { intros f. erewrite (on_journal_Ret (gets f) v j) by done. f_equal.
    unfold with_jstate, set_journal, jstate; simpl. rewrite <- Hj. by destruct v. }
  split_and!; try done.
  - unfold HashDisk_start, GetState. erewrite bind_Ret by done.
    rewrite bool_decide_eq_false_2 by (by rewrite Hs). cbn [negb].
    rewrite (bind_Ret _ _ _ tt (with_jstate t v)).
    2:{ rewrite (bind_Ret _ _ _ _ _ (Eg (fun t => WriteOffset (jrn t)))),
          (bind_Ret _ _ _ _ _ (Eg (fun t => CorrectOffset (jrn t)))). eapply ignore_Ret.
        by apply (on_journal_Ret _ v j). }
    unfold catch, SendPacket, map_err, Encode, bind.
    change (sendFaults (with_jstate t v)) with (sendFaults v). by rewrite Hf.
  - exists (jrn t). rewrite a_append_all_nil. destruct (with_jstate_rel t v _ Jt) as [H1 H2].
    split_and!; try done. rewrite Ht. by intros [].
Qed.

(** ** The session while the packets arrive *)

Section Stream.
Context (xxhash : list byte -> Z) (nw : nat).
Context (v0 : Server) (j0 : Journal) (nfo : InitInfo).
Context (Hj0 : SJournal v0 = Some j0) (J0 : journal_inv (jstate v0 j0)) (T0 : target_ok v0) (F0 : sendFaults v0 = []).
#[local] Abbreviation R := (content (TargetDevFd v0)).
#[local] Abbreviation offs := (block_offsets (dev_size (TargetDevFd v0)) HashedSpaceBase).
#[local] Abbreviation srel_of := (scan_rel v0 j0 a_empty).

(** Packets that the journal takes and the replay can write. *)
Record good (ps : list Packet) : Prop := {
  gd_ok : Forall (pkt_ok (header j0)) ps;
  gd_typed : Forall journal_packet ps;
  gd_cap : forall x, Z.of_nat (length (blocks_of x ps)) <= slotCount (header j0) x;
  gd_fits : replayable (length R) (a_append_all ps a_empty);
}.

(** A write that comes after the end of the scan. *)
Definition direct (w : WriteInfo) : Prop := sendable w /\ fits (length R) (to_write (trim w)).

(** What the client sends in a scan. *)
Definition valid (cps : list Packet) : Prop :=
  exists ps, good ps /\
    (cps = ps \/ exists ws, cps = ps ++ completed :: (write_packet <$> ws) /\ Forall direct ws).

(** *** Where the session is *)

(** What no step of a scan changes. *)
Record still (s : Session) : Prop := {
  sl_term : TermChan s = make_chan 0;
  sl_correct : correctPc s = None /\ correctQueue s = make_chan CorrectPacketQueueSize;
  sl_repl : replicationWorkers s = 0%nat /\ replicating s = [];
  sl_strays : strays s = [];
  sl_cap : ccap (journalQueue s) = JournalPacketQueueSize;
}.

Definition no_writes (s : Session) : Prop := writePc s = WIdle /\ writeQueue s = make_chan WritePacketQueueSize.

(** The journal queue is open and holds [q]; its worker runs. *)
Definition journal_open (q : list Packet) (s : Session) : Prop :=
  journalWorker s = true /\ cclosed (journalQueue s) = false /\ cbuf (journalQueue s) = q.

(** The hashes sent so far. *)
Definition hashing (s : Session) : Prop :=
  match hashPc s with
  | HStarted => False
  | HRunning j =>
      (0 < j_readers j + length (j_reading j))%nat /\ (0 < j_hashers j)%nat /\ (0 < j_senders j)%nat /\
      exists dn rs wk, j_results j = (hashed xxhash R <$> rs) /\ j_work j = (block_at R <$> wk) /\
        dn ++ rs ++ wk ++ j_reading j ++ j_tasks j ≡ₚ offs /\
        sent (srv s) = sent v0 ++ start_of_scan :: (hash_packet xxhash R <$> dn)
  | HNone =>
      exists dn, dn ≡ₚ offs /\
        sent (srv s) = sent v0 ++ start_of_scan :: (hash_packet xxhash R <$> dn) ++ [completed]
  end.

(** The replica when the packets [ps] have been replayed and then [ws] written. *)
Definition replica_after (ps : list Packet) (ws : list WriteInfo) : list byte :=
  apply_writes (to_write ∘ trim <$> ws) (apply_writes (a_replay (a_append_all ps a_empty)) R).

(** The write worker has taken [fl]. *)
Definition in_worker (fl : list WriteInfo) (s : Session) : Prop :=
  match writePc s with
  | WIdle => fl = []
  | WRetry data off => exists w, fl = [w] /\ data = Data (trim w) /\ off = i64 (Offset w)
  end.
Definition in_main (mp : list WriteInfo) (s : Session) : Prop :=
  match mainPc s with
  | MLoop => mp = []
  | MSend QWrite p => exists w, mp = [w] /\ p = write_packet w
  | _ => False
  end.

(** *** Before the scan *)

Inductive preparing (s : Session) : Prop :=
| prep_request :
    mainPc s = MLoop -> decoder s = [inl (CreateInfoPacket PacketTypeCmdStartHashing)] -> srv s = v0 ->
    cclosed (journalQueue s) = false -> cbuf (journalQueue s) = [] -> hashTermChan s = make_chan 0 ->
    hashPc s = HNone -> preparing s
| prep_wait1 :
    mainPc s = MStartHashing1 -> decoder s = [] -> srv s = set_state StateHashing v0 ->
    cclosed (journalQueue s) = true -> cbuf (journalQueue s) = [] -> hashTermChan s = make_chan 0 ->
    hashPc s = HNone -> preparing s
| prep_wait2 :
    mainPc s = MStartHashing2 -> decoder s = [] -> srv s = set_state StateHashing v0 ->
    journal_open [] s -> ccap (journalQueue s) = JournalPacketQueueSize -> hashPc s = HNone -> preparing s
| prep_ready :
    mainPc s = MLoop -> decoder s = [] -> srv s = set_state StateHashing v0 ->
    journal_open [] s -> ccap (journalQueue s) = JournalPacketQueueSize -> hashTermChan s = make_chan 0 ->
    hashPc s = HStarted -> preparing s.

(** *** During the scan, and after it *)

Inductive stream (cps : list Packet) (s : Session) : Prop :=
| stream_loop done q todo :
    mainPc s = MLoop -> srel_of done (srv s) -> journal_open q s -> hashTermChan s = make_chan 0 ->
    decoder s = (inl <$> todo) -> cps = (done ++ q) ++ todo -> good (done ++ q) ->
    no_writes s -> stream cps s
| stream_send done q p todo :
    mainPc s = MSend QJournal p -> srel_of done (srv s) -> journal_open q s -> hashTermChan s = make_chan 0 ->
    decoder s = (inl <$> todo) -> cps = (done ++ q ++ [p]) ++ todo -> good (done ++ q ++ [p]) ->
    no_writes s -> stream cps s
| stream_wait done q rest :
    mainPc s = MHashingCompleted -> srel_of done (srv s) ->
    cclosed (journalQueue s) = true -> cbuf (journalQueue s) = q -> (journalWorker s = false -> q = []) ->
    hashPc s = HNone -> decoder s = (inl <$> rest) -> cps = (done ++ q) ++ completed :: rest ->
    good (done ++ q) -> no_writes s -> stream cps s
| stream_post ps wd fl q mp todo :
    good ps -> in_main mp s -> in_worker fl s -> journalWorker s = false -> hashPc s = HNone ->
    writeQueue s = mkChan (write_packet <$> q) WritePacketQueueSize false ->
    decoder s = (inl <$> todo) -> cps = ps ++ completed :: (write_packet <$> wd ++ fl ++ q ++ mp) ++ todo ->
    Forall direct (wd ++ fl ++ q ++ mp) -> state (srv s) = StateWriting -> target_ok (srv s) ->
    content (TargetDevFd (srv s)) = replica_after ps wd -> stream cps s.

(** ** Packets that arrive *)

Definition arrived (x : list Packet) (s : Session) : Session := Session.set_decoder (decoder s ++ (inl <$> x)) s.

Lemma stream_arrived x cps s : stream cps s -> stream (cps ++ x) (arrived x s).
Proof using.
  intros [done q todo ? ? ? ? Hd -> ? ?|done q p todo ? ? ? ? Hd -> ? ?|done q rest ? ? ? ? ? ? Hd -> ? ?|
    ps wd fl q mp todo ? ? ? ? ? ? Hd -> ? ? ? ?].
  - apply (stream_loop _ _ done q (todo ++ x)); try done; cbn; [by rewrite Hd, fmap_app|by rewrite <- app_assoc].
  - apply (stream_send _ _ done q p (todo ++ x)); try done; cbn; [by rewrite Hd, fmap_app|by rewrite <- app_assoc].
  - apply (stream_wait _ _ done q (rest ++ x)); try done; cbn; [by rewrite Hd, fmap_app|by rewrite <- app_assoc].
  - apply (stream_post _ _ ps wd fl q mp (todo ++ x)); try done; cbn; [by rewrite Hd, fmap_app|].
    by rewrite <- app_assoc, <- app_comm_cons, <- app_assoc.
Qed.

(** ** The packets *)

Lemma blocks_of_app x ps qs : blocks_of x (ps ++ qs) = blocks_of x ps ++ blocks_of x qs.
Proof using. apply omap_app. Qed.

Lemma good_prefix ps qs : good (ps ++ qs) -> good ps.
Proof using.
  intros [H1 H2 H3 H4]. split.
  - by apply Forall_app in H1 as [? _].
  - by apply Forall_app in H2 as [? _].
  - intros x. specialize (H3 x). rewrite blocks_of_app, length_app in H3. lia.
  - intros x. specialize (H4 x). rewrite a_sec_append_all, blocks_of_app in *. rewrite app_assoc in H4.
    by apply Forall_app in H4 as [? _].
Qed.

Lemma good_nil : good [].
Proof using J0.
  split; [constructor..| |].
  - intros x. pose proof (ji_used _ J0 x) as H. cbn. cbn in H. lia.
  - intros []; constructor.
Qed.

Lemma completed_not_journal : ~ journal_packet completed.
Proof using. intros [[H|H] _]; discriminate. Qed.

Lemma valid_next d p todo :
  valid (d ++ p :: todo) -> good d ->
  good (d ++ [p]) \/
  (p = completed /\ exists ws, todo = (write_packet <$> ws) /\ Forall direct ws).
Proof using.
  intros (ps & Hps & [<-|(ws & E & Hws)]) Hd.
  { left. apply (good_prefix _ todo). by rewrite <- app_assoc. }
  apply app_eq_app in E as (l & [[-> E]|[-> E]]).
  - destruct l as [|x l]; injection E as <- E.
    + right. split; [done|]. by exists ws.
    + exfalso. apply completed_not_journal. pose proof (gd_typed _ Hd) as H. apply Forall_app in H as [_ H].
      by apply Forall_cons in H as [? _].
  - destruct l as [|x l]; injection E as <- E.
    + right. split; [done|]. by exists ws.
    + left. apply (good_prefix _ l). by rewrite <- app_assoc.
Qed.

(** After the end of the scan only writes come. *)
Lemma valid_post ps rest :
  valid (ps ++ completed :: rest) -> good ps -> exists ws, rest = (write_packet <$> ws) /\ Forall direct ws.
Proof using.
  intros Hv Hps. destruct (valid_next _ _ _ Hv Hps) as [Hg|(_ & H)]; [|done].
  exfalso. apply completed_not_journal. pose proof (gd_typed _ Hg) as H. apply Forall_app in H as [_ H].
  by apply Forall_cons in H as [? _].
Qed.

Lemma replay_fits_good ps : good ps -> Forall (fits (length R)) (a_replay (a_append_all ps a_empty)).
Proof using.
  intros H. apply replay_fits.
  - apply (replayable_writable _ (a_append_all ps a_empty) CorrBlocks), H.
  - apply (replayable_writable _ (a_append_all ps a_empty) BufWrites), H.
Qed.

Lemma length_replica_after ps wd : good ps -> Forall direct wd -> length (replica_after ps wd) = length R.
Proof using.
  intros Hg Hw. pose proof (replay_fits_good ps Hg) as Hf. unfold replica_after.
  rewrite length_apply_writes; rewrite (length_apply_writes _ _ Hf); [done|].
  apply Forall_fmap. eapply Forall_impl; [exact Hw|]. by intros w [_ ?].
Qed.

(** ** Steps of the hashing goroutines *)

Lemma offs_inside o : o ∈ offs -> 0 <= o < dev_size (TargetDevFd v0).
Proof using T0.
  destruct T0 as [_ Hs]. intros Hin. unfold HashedSpaceBase, HashedBlockSize in Hin.
  assert (0 <= dev_size (TargetDevFd v0)) by (unfold dev_size; lia).
  apply block_offsets_elem in Hin as (i & Hi & -> & Hlt); lia.
Qed.

(** A job that is over has nothing in its channels, and leaves nothing behind. *)
Lemma job_ended j :
  (0 < j_readers j + length (j_reading j))%nat -> (0 < j_hashers j)%nat -> (0 < j_senders j)%nat ->
  (j_senders j =? 0)%nat || (hashes_done j && (length (j_results j) =? 0)%nat) = true ->
  j_tasks j = [] /\ j_reading j = [] /\ j_work j = [] /\ j_results j = [] /\ leftover j = [].
Proof using.
  intros Hr Hh Hs [Eb%Nat.eqb_eq|[Eb El%Nat.eqb_eq]%andb_true_iff]%orb_true_iff; [lia|].
  apply orb_true_iff in Eb as [Eb%Nat.eqb_eq|[Eb Ew%Nat.eqb_eq]%andb_true_iff]; [lia|].
  unfold leftover. rewrite Eb. unfold reads_done in Eb. apply bool_decide_eq_true_1 in Eb as [Et Er].
  rewrite Er in Hr. cbn in Hr. destruct Et as [Et|Et]; [|lia].
  split_and!; try done; by apply nil_length_inv.
Qed.

Lemma hash_job_step e j s s' :
  hashPc s = HRunning j -> hashing s -> TargetDevFd (srv s) = TargetDevFd v0 -> sendFaults (srv s) = [] ->
  job_step xxhash false e j s (fun j => set_hashPc (HRunning j)) = Done s' ->
  hashing s' /\ exists l h, s' = set_hashPc h (upd_srv (fun _ => set_sent l [] (srv s)) s).
Proof using T0.
  unfold hashing. intros Hh H Ht Hf E. rewrite Hh in H. destruct j as [tasks readers reading work hashers results senders].
  cbn [j_readers j_reading j_hashers j_senders j_results j_work j_tasks] in H.
  destruct H as (Hr & Hha & Hse & dn & rs & wk & -> & -> & Hp & Hs).
  assert (Same : forall h, set_hashPc h s = set_hashPc h (upd_srv (fun _ => set_sent (sent (srv s)) [] (srv s)) s))
    by (intros h; unfold set_sent; rewrite <- Hf; by destruct s as [[] ]).
  unfold job_step in E. destruct e as [| | |i|i|i|]; try done.
  - destruct readers as [|readers]; [done|]. destruct tasks as [|o tasks]; [done|]. injection E as <-.
    split; [|by eexists _, _; apply Same]. cbn. rewrite length_app. cbn [length]. split_and!; [lia|done|done|].
    exists dn, rs, wk. split_and!; [done..| |done]. rewrite <- Hp, <- !app_assoc. done.
  - destruct (reading !! i) as [o|] eqn:Hi; [|done].
    assert (Ho : 0 <= o < dev_size (TargetDevFd (srv s))).
    { rewrite Ht. apply offs_inside. rewrite <- Hp, !elem_of_app. do 3 right. left. by eapply list_elem_of_lookup_2. }
    assert (Tv : target_ok (srv s)) by (unfold target_ok in *; by rewrite Ht).
    unfold on_srv in E. rewrite (hash_read_block (srv s) o Tv Ho), upd_srv_same in E. injection E as <-.
    split; [|by eexists _, _; apply Same]. cbn. split_and!; [lia|done|done|]. exists dn, rs, (wk ++ [o]).
    rewrite fmap_app, Ht. split_and!; [done..| |done].
    rewrite <- Hp. rewrite (delete_Permutation reading i o Hi) at 2. by rewrite <- !app_assoc.
  - destruct hashers as [|hashers]; [done|]. rewrite list_lookup_fmap in E.
    destruct (wk !! i) as [o|] eqn:Hi; [|done]. cbn [fmap option_fmap option_map] in E. injection E as <-.
    split; [|by eexists _, _; apply Same]. cbn. split_and!; [done|lia|done|]. exists dn, (rs ++ [o]), (delete i wk).
    rewrite list_fmap_delete, fmap_app. rewrite hash_block_at.
    2:{ change (Z.of_nat (length R)) with (dev_size (TargetDevFd v0)). apply offs_inside.
        rewrite <- Hp, !elem_of_app. do 2 right. left. by eapply list_elem_of_lookup_2. }
    split_and!; [done..| |done]. rewrite <- Hp. rewrite (delete_Permutation wk i o Hi) at 2. by rewrite <- !app_assoc.
  - destruct senders as [|senders]; [done|]. rewrite list_lookup_fmap in E.
    destruct (rs !! i) as [o|] eqn:Hi; [|done]. cbn [fmap option_fmap option_map] in E.
    unfold on_srv in E. rewrite hash_send_block in E by done. injection E as <-.
    split; [|by eexists _, _]. cbn. split_and!; [done..|]. exists (dn ++ [o]), (delete i rs), wk.
    rewrite list_fmap_delete. split_and!; [done..| |by rewrite Hs, fmap_app, <- app_assoc].
    rewrite <- Hp. rewrite (delete_Permutation rs i o Hi) at 2. by rewrite <- !app_assoc.
Qed.

Lemma hash_step_hashing e s s' :
  hashing s -> TargetDevFd (srv s) = TargetDevFd v0 -> sendFaults (srv s) = [] -> hashTermChan s = make_chan 0 ->
  hash_step xxhash nw e s = Done s' ->
  hashing s' /\ exists l h, s' = set_hashPc h (upd_srv (fun _ => set_sent l [] (srv s)) s).
Proof using T0.
  intros H Ht Hf Hc E. unfold hash_step in E. destruct (hashPc s) as [| |j] eqn:Hh; [done| |].
  { unfold hashing in H. by rewrite Hh in H. }
  rewrite Hc in E. cbn [ChanHasTerminated] in E.
  pose proof (hash_job_step e j s s' Hh H Ht Hf) as J. destruct e; try exact (J E). clear J.
  unfold hashing in H. rewrite Hh in H. destruct H as (Hr & Hha & Hse & dn & rs & wk & Ers & Ewk & Hp & Hs).
  destruct (_ || _) eqn:Eb; [|done]. destruct (job_ended j Hr Hha Hse Eb) as (E1 & E2 & E3 & E4 & E5).
  rewrite E5 in E. rewrite E4 in Ers. rewrite E3 in Ewk. symmetry in Ers, Ewk.
  apply fmap_nil_inv in Ers as ->. apply fmap_nil_inv in Ewk as ->. rewrite E1, E2, !app_nil_r in Hp.
  unfold on_srv in E. rewrite HashDisk_end_sends in E by done. rewrite app_nil_r in E.
  injection E as <-. split.
  - unfold hashing. cbn. exists dn. split; [done|]. by rewrite Hs, <- app_assoc.
  - eexists _, _. by destruct s.
Qed.

Lemma srel_target done v : srel_of done v -> TargetDevFd v = TargetDevFd v0 /\ sendFaults v = [].
Proof using. by intros (j & _ & _ & _ & ? & _ & ?). Qed.

Lemma hashing_same s s' : hashPc s' = hashPc s -> sent (srv s') = sent (srv s) -> hashing s -> hashing s'.
Proof using. unfold hashing. by intros -> ->. Qed.

Lemma stream_hash_step cps e s s' :
  still s -> stream cps s -> hashing s -> hash_step xxhash nw e s = Done s' -> stream cps s' /\ hashing s' /\ still s'.
Proof using T0.
  intros St I H E.
  assert (Hno : hashPc s = HNone -> False) by (intros Hh; unfold hash_step in E; by rewrite Hh in E).
  destruct I as [jd q todo Hm Hr Hj Ht Hd Hc Hg Hw|jd q p todo Hm Hr Hj Ht Hd Hc Hg Hw|
    jd q rest Hm Hr Hcl Hb Hjw Hh|ps wd fl q mp todo Hg Hm Hw Hjw Hh]; [| |by destruct Hno..];
    destruct (srel_target jd (srv s) Hr) as [Htd Hf];
    destruct (hash_step_hashing e s s' H Htd Hf Ht E) as (H' & l & h & ->); (split; [|split; [done|by destruct St]]).
  - apply (stream_loop _ _ jd q todo); try done. by apply scan_rel_sent.
  - apply (stream_send _ _ jd q p todo); try done. by apply scan_rel_sent.
Qed.

(** ** Steps of the journal worker *)

(** The worker takes the first packet of its queue. *)
Lemma journal_takes jd q s s' :
  srel_of jd (srv s) -> good (jd ++ q) -> cbuf (journalQueue s) = q -> journalWorker s = true ->
  hashing s -> journal_step s = Done s' ->
  (exists p q' v, q = p :: q' /\ srel_of (jd ++ [p]) v /\ hashing s' /\
     s' = upd_srv (fun _ => v) (set_queue QJournal (mkChan q' (ccap (journalQueue s)) (cclosed (journalQueue s))) s)) \/
  (q = [] /\ cclosed (journalQueue s) = true /\ s' = set_workers false (replicationWorkers s) s).
Proof using.
  intros Hr [G1 G2 G3 G4] Hb Hw H. unfold journal_step, chan_recv. rewrite Hw, Hb. destruct q as [|p q]; cbn [abind].
  - destruct (cclosed (journalQueue s)); [|done]. intros [= <-]. by right.
  - assert (Hcap : forall x, Z.of_nat (length (a_sec a_empty x) + length (blocks_of x (jd ++ p :: q))) <=
      slotCount (header j0) x) by (intros x; specialize (G3 x); by destruct x).
    destruct (scan_rel_packet v0 j0 a_empty (jd ++ p :: q) G1 G2 Hcap jd p q (srv s) eq_refl Hr) as (v & Ev & Rv & Hs).
    unfold on_srv. cbn [srv set_queue]. rewrite Ev. intros [= <-]. left. exists p, q, v.
    split_and!; [done|done|by apply (hashing_same s)|done].
Qed.

Lemma stream_journal_step cps s s' :
  stream cps s -> hashing s -> journal_step s = Done s' -> stream cps s' /\ hashing s'.
Proof using.
  intros I H E.
  destruct I as [jd q todo Hm Hr (Hjw & Hcl & Hb) Ht Hd Hc Hg Hw|jd q p todo Hm Hr (Hjw & Hcl & Hb) Ht Hd Hc Hg Hw|
    jd q rest Hm Hr Hcl Hb Hjw Hh Hd Hc Hg Hw|ps wd fl q mp todo Hg Hm Hw Hjw Hh].
  - destruct (journal_takes jd q s s' Hr Hg Hb Hjw H E) as [(p & q' & v & -> & R' & H' & ->)|(_ & ? & _)]; [|congruence].
    split; [|done]. apply (stream_loop _ _ (jd ++ [p]) q' todo); try done; by rewrite <- (app_assoc jd).
  - assert (Hg' : good (jd ++ q)) by (apply (good_prefix _ [p]); by rewrite <- app_assoc).
    destruct (journal_takes jd q s s' Hr Hg' Hb Hjw H E) as [(x & q' & v & -> & R' & H' & ->)|(_ & ? & _)]; [|congruence].
    split; [|done]. apply (stream_send _ _ (jd ++ [x]) q' p todo); try done; by rewrite <- (app_assoc jd).
  - destruct (journalWorker s) eqn:Ew; [|unfold journal_step in E; by rewrite Ew in E].
    destruct (journal_takes jd q s s' Hr Hg Hb Ew H E) as [(x & q' & v & -> & R' & H' & ->)|(-> & _ & ->)].
    + split; [|done]. apply (stream_wait _ _ (jd ++ [x]) q' rest); try done; try by rewrite <- (app_assoc jd).
      cbn. by rewrite Ew.
    + split; [|done]. by apply (stream_wait _ _ jd [] rest).
  - unfold journal_step in E. by rewrite Hjw in E.
Qed.

(** ** Steps of the write worker *)

(** An attempt of the write worker, on a device that works. *)
Lemma write_lands w s :
  target_ok (srv s) -> direct w -> length (content (TargetDevFd (srv s))) = length R ->
  writePc s = WRetry (Data (trim w)) (i64 (Offset w)) ->
  let c := apply_write (content (TargetDevFd (srv s))) (to_write (trim w)) in
  length c = length R /\ write_step s = Done (set_writePc WIdle (upd_srv (fun _ => replica c (srv s)) s)).
Proof using.
  intros T [Hs Hf] Hl Hw c. rewrite <- Hl in Hf.
  assert (Hlc : length c = length (content (TargetDevFd (srv s)))) by (by apply length_apply_write).
  split; [by rewrite Hlc|]. unfold write_step. rewrite Hw.
  pose proof (target_WriteAt (srv s) T (content (TargetDevFd (srv s))) eq_refl (trim w)) as Ewr.
  rewrite replica_id in Ewr. cbn [Offset trim] in Ewr.
  assert (Hwb : writable (length (content (TargetDevFd (srv s)))) (trim w)).
  { destruct (trim_wf w Hs) as (Ho & _ & Hn). unfold is_u64 in Ho. split_and!; [cbn in *; lia|done|done]. }
  specialize (Ewr Hwb). fold c in Ewr. unfold on_srv. rewrite (catch_Ret _ _ _ _ Ewr).
  change (srv (upd_srv (fun _ => replica c (srv s)) s)) with (replica c (srv s)).
  by rewrite (target_Sync (srv s) T).
Qed.

Lemma stream_write_step cps s s' :
  stream cps s -> hashing s -> write_step s = Done s' -> stream cps s' /\ hashing s'.
Proof using T0.
  intros I H E. assert (Hno : no_writes s -> False) by (intros [Hw Hq]; unfold write_step in E; by rewrite Hw, Hq in E).
  destruct I as [| | |ps wd fl q mp todo Hg Hm Hw Hjw Hh Hq Hd Hc Hdir Hst T Hcont]; [by destruct Hno..|].
  unfold write_step in E. unfold in_worker in Hw. destruct (writePc s) as [|data off] eqn:Ew.
  - subst fl. rewrite Hq in E. unfold chan_recv in E. cbn [cbuf] in E. destruct q as [|w q]; [done|]. cbn in E.
    rewrite Hst in E. cbn in E.
    assert (Hw : direct w) by (rewrite !Forall_app, Forall_cons in Hdir; tauto).
    rewrite slice_trim in E by apply Hw. injection E as <-. split; [|by apply (hashing_same s)].
    apply (stream_post _ _ ps wd [w] q mp todo); try done. by exists w.
  - destruct Hw as (w & -> & -> & ->).
    assert (Hw : direct w) by (rewrite !Forall_app, Forall_cons in Hdir; tauto).
    assert (Hwd : Forall direct wd) by (by apply Forall_app in Hdir as [? _]).
    pose proof (length_replica_after ps wd Hg Hwd) as Hl. rewrite <- Hcont in Hl.
    destruct (write_lands w s T Hw Hl Ew) as [Hlc Ews]. unfold write_step in Ews. rewrite Ew in Ews.
    rewrite Ews in E. injection E as <-. split; [|by apply (hashing_same s)].
    apply (stream_post _ _ ps (wd ++ [w]) [] q mp todo); try done.
    + by rewrite <- (app_assoc wd).
    + by rewrite <- (app_assoc wd).
    + split; [by apply T|]. unfold dev_size. cbn [TargetDevFd srv set_writePc upd_srv replica set_target set_content content].
      rewrite Hlc, <- Hl. apply T.
    + cbn. unfold replica_after. rewrite Hcont, fmap_app, apply_writes_app. done.
Qed.

(** ** Steps of the main goroutine *)

Lemma main_loop_step cps s s' jd q todo :
  still s -> mainPc s = MLoop -> srel_of jd (srv s) -> journal_open q s -> hashTermChan s = make_chan 0 ->
  decoder s = (inl <$> todo) -> cps = (jd ++ q) ++ todo -> good (jd ++ q) -> no_writes s ->
  valid cps -> (completed ∈ cps -> hashPc s = HNone) -> hashing s -> main_step nw s = Done s' ->
  stream cps s' /\ hashing s'.
Proof using.
  intros [St _ _ _] Hm Hr Hj Ht Hd Hc Hg Hw Hv Hn H E. unfold main_step in E. rewrite Hm, St, Hd in E.
  cbn [ChanHasTerminated] in E. destruct todo as [|p todo]; [done|]. cbn [fmap list_fmap] in E.
  rewrite Hc in Hv. destruct (valid_next _ _ _ Hv Hg) as [Hg'|(-> & ws & -> & Hws)].
  - assert (Hp : journal_packet p).
    { pose proof (gd_typed _ Hg') as Hty. apply Forall_app in Hty as [_ Hty]. by apply Forall_cons in Hty as [? _]. }
    rewrite dispatch_journal in E; [|done|by destruct Hr as (j & _ & _ & _ & _ & ? & _)]. injection E as <-.
    split; [|done]. apply (stream_send _ _ jd q p todo); try done; [|by rewrite <- app_assoc in Hg'].
    by rewrite Hc, (app_assoc jd), <- (app_assoc _ [p]).
  - destruct Hj as (Hjw & Hcl & Hb). unfold dispatch in E. cbn in E. unfold close_queue, chan_close in E. cbn in E.
    rewrite Hcl in E. injection E as <-. split; [|done].
    apply (stream_wait _ _ jd q (write_packet <$> ws)); try done; [cbn; by rewrite Hjw|].
    apply Hn. rewrite Hc, elem_of_app, elem_of_cons. auto.
Qed.

Lemma main_wait_step cps s s' jd q rest :
  mainPc s = MHashingCompleted -> srel_of jd (srv s) -> cbuf (journalQueue s) = q ->
  (journalWorker s = false -> q = []) -> hashPc s = HNone -> decoder s = (inl <$> rest) ->
  cps = (jd ++ q) ++ completed :: rest -> good (jd ++ q) -> no_writes s -> hashing s ->
  main_step nw s = Done s' -> stream cps s' /\ hashing s'.
Proof using T0.
  intros Hm Hr Hb Hjw Hh Hd Hc Hg [Hw Hwq] H E. unfold main_step in E. rewrite Hm in E.
  destruct (journalWorker s) eqn:Ew; [done|]. assert (Hnil : q = []) by auto. rewrite Hnil, app_nil_r in Hc, Hg.
  destruct (scan_rel_finish v0 j0 a_empty jd T0) with (v := srv s) as (v & Ev & (D1 & _ & D3 & _ & D5) & Hs);
    [apply Hg|done|].
  unfold on_srv in E. cbn [srv set_queue] in E. rewrite Ev in E. injection E as <-.
  split; [|by apply (hashing_same s)].
  apply (stream_post _ _ jd [] [] [] [] rest); try done; unfold in_worker; cbn; rewrite ?Hw; try done.
  - split; [done|]. unfold dev_size. cbn. rewrite D1.
    rewrite length_apply_writes by (by apply replay_fits_good). apply T0.
Qed.

Lemma main_post_step cps s s' ps wd fl q mp todo :
  still s -> good ps -> in_main mp s -> in_worker fl s -> journalWorker s = false -> hashPc s = HNone ->
  writeQueue s = mkChan (write_packet <$> q) WritePacketQueueSize false ->
  decoder s = (inl <$> todo) -> cps = ps ++ completed :: (write_packet <$> wd ++ fl ++ q ++ mp) ++ todo ->
  Forall direct (wd ++ fl ++ q ++ mp) -> state (srv s) = StateWriting -> target_ok (srv s) ->
  content (TargetDevFd (srv s)) = replica_after ps wd -> valid cps -> hashing s ->
  main_step nw s = Done s' -> stream cps s' /\ hashing s'.
Proof using.
  intros [St _ _ _] Hg Hm Hw Hjw Hh Hq Hd Hc Hdir Hst T Hcont Hv H E. unfold main_step in E. unfold in_main in Hm.
  destruct (mainPc s) as [|[] p| | | | | | | | | |]; try done.
  - subst mp. rewrite St, Hd in E. cbn [ChanHasTerminated] in E. destruct todo as [|p todo]; [done|].
    cbn [fmap list_fmap] in E. rewrite Hc in Hv. destruct (valid_post _ _ Hv Hg) as (ws & Ews & Hws).
    rewrite app_nil_r in *. symmetry in Ews. apply fmap_app_inv in Ews as (w1 & w2 & E1 & E2 & ->).
    destruct w2 as [|w w2]; [done|]. injection E2 as -> ->.
    apply Forall_app in Hws as [_ [Hdw _]%Forall_cons].
    unfold dispatch in E. cbn in E. rewrite Hst in E. injection E as <-. split; [|done].
    apply (stream_post _ _ ps wd fl q [w] (write_packet <$> w2)); try done.
    + by exists w.
    + rewrite Hc. do 2 f_equal. rewrite !fmap_app. cbn. by rewrite <- !app_assoc.
    + rewrite !app_assoc. apply Forall_app. rewrite <- app_assoc. split; [done|]. by apply Forall_singleton.
  - destruct Hm as (w & -> & ->). unfold send_queue, chan_send in E. cbn [get_queue] in E. rewrite Hq in E.
    cbn [cclosed cbuf ccap] in E. destruct (_ <? _)%nat; [|done]. cbn [abind] in E. injection E as <-. split; [|done].
    apply (stream_post _ _ ps wd fl (q ++ [w]) [] todo); try done; cbn.
    + by rewrite fmap_app.
    + by rewrite app_nil_r.
    + by rewrite app_nil_r.
Qed.

(** ** The preparation *)

Lemma prep_main_step s s' :
  still s -> preparing s -> no_writes s -> main_step nw s = Done s' -> preparing s' /\ no_writes s'.
Proof using.
  intros [St _ _ _] P [Hw Hwq] E. unfold main_step in E. rewrite St in E. cbn [ChanHasTerminated] in E.
  destruct P as [Hm Hd Hv Hcl Hb Ht Hh|Hm Hd Hv Hcl Hb Ht Hh|Hm Hd Hv Hj Hk Hh|Hm Hd Hv Hj Hk Ht Hh]; rewrite Hm in E.
  - rewrite Hd in E. unfold dispatch in E. cbn in E. unfold close_queue, chan_close in E. cbn in E. rewrite Hcl in E.
    injection E as <-. split; [|by split]. apply prep_wait1; try done. cbn. by rewrite Hv.
  - destruct (journalWorker s); [done|]. unfold close_hashTermChan, chan_close in E. cbn in E. rewrite Ht in E.
    injection E as <-. split; [|by split]. by apply prep_wait2.
  - unfold hash_idle in E. rewrite Hh in E. injection E as <-. split; [|by split]. by apply prep_ready.
  - by rewrite Hd in E.
Qed.

Lemma prep_journal_step s s' :
  preparing s -> no_writes s -> journal_step s = Done s' -> preparing s' /\ no_writes s'.
Proof using.
  intros P [Hw Hwq] E. unfold journal_step, chan_recv in E. destruct (journalWorker s) eqn:Ew; [|done].
  destruct P as [Hm Hd Hv Hcl Hb Ht Hh|Hm Hd Hv Hcl Hb Ht Hh|Hm Hd Hv (Hj & Hcl & Hb) Hk Hh|Hm Hd Hv (Hj & Hcl & Hb) Hk Ht Hh];
    rewrite Hb, Hcl in E; try done.
  cbn [abind] in E. injection E as <-. split; [|by split]. by apply prep_wait1.
Qed.

Context (Hnw : (0 < nw)%nat) (C0 : ClientInfo v0 = Some nfo) (D0 : DeviceSize nfo = dev_size (TargetDevFd v0)).

(** The start of the hashing job. *)
Lemma ready_starts s s' :
  mainPc s = MLoop -> decoder s = [] -> srv s = set_state StateHashing v0 -> journal_open [] s ->
  hashTermChan s = make_chan 0 -> hashPc s = HStarted -> no_writes s ->
  still s -> hash_step xxhash nw HStart s = Done s' -> stream [] s' /\ hashing s' /\ still s'.
Proof using J0 Hj0 F0 C0 D0 Hnw.
  intros Hm Hd Hv Hj Ht Hh Hw St E. unfold hash_step in E. rewrite Hh in E.
  destruct (HashDisk_start_ok (set_state StateHashing v0) j0 Hj0 J0 eq_refl F0) as (v & Es & Rv & Hse & Hci).
  unfold on_srv in E. rewrite Hv, Es in E. cbn [srv upd_srv] in E. rewrite Hci in E.
  cbn [ClientInfo set_state] in E. rewrite C0, D0 in E. injection E as <-. split_and!.
  - apply (stream_loop _ _ [] [] []); try done. apply good_nil.
  - cbn. split_and!; [lia|done|done|]. exists [], [], []. split_and!; [done..|]. by rewrite Hse.
  - by destruct St.
Qed.


(** ** All steps *)

(** Splits a step into its calls and branches. *)
Ltac split_step :=
  repeat match goal with
  | E : abind _ _ = Done _ |- _ => apply abind_Done in E as (? & ? & E)
  | E : on_srv _ _ _ = Done _ |- _ => apply on_srv_Done in E as [(? & ? & ? & E)|(? & ? & ? & ->)]
  | E : Done _ = Done _ |- _ => injection E as <-
  | E : Blocked = Done _ |- _ => discriminate E
  | E : Crash = Done _ |- _ => discriminate E
  | E : match ?x with _ => _ end = Done _ |- _ => destruct x
  | E : (let '(_, _) := ?x in _) = Done _ |- _ => destruct x
  end.

Ltac still_tac :=
  repeat match goal with
  | H : chan_recv _ = Done _ |- _ => apply recv_cap in H
  | H : chan_close _ = Done _ |- _ => apply close_cap in H
  | H : chan_send _ _ = Done _ |- _ => apply send_cap in H
  end; split; cbn in *;
  repeat match goal with H : strays _ = [] |- _ => rewrite H end; (done || congruence).

Lemma still_worker e s s' :
  still s -> match e with EJournal | EWrite => True | _ => False end ->
  step xxhash nw e s = Done s' -> still s'.
Proof using.
  intros [S1 S2 S3 S5 S4] He E. destruct e; try done; cbn [step] in E.
  - unfold journal_step in E. split_step; still_tac.
  - unfold write_step in E. split_step; still_tac.
Qed.

Lemma still_main s s' :
  still s -> match mainPc s with MStartReplication | MReturn1 | MSend QCorrect _ => False | _ => True end ->
  main_step nw s = Done s' -> still s'.
Proof using.
  intros [S1 S2 S3 S5 S4] Hm E. unfold main_step, main_return, dispatch, close_queue, close_hashTermChan, send_queue in E.
  destruct (mainPc s) as [|[]| | | | | | | | | |]; try done; split_step; still_tac.
Qed.

Lemma stream_main_step cps s s' :
  still s -> stream cps s -> hashing s -> valid cps -> (completed ∈ cps -> hashPc s = HNone) ->
  main_step nw s = Done s' -> stream cps s' /\ hashing s' /\ still s'.
Proof using T0.
  intros St I H Hv Hn E. apply and_assoc. split.
  2:{ apply (still_main s s' St); [|done]. destruct I as [? ? ? Hm|? ? ? ? Hm|? ? ? Hm|? ? ? ? ? ? ? Hm];
        rewrite ?Hm; try done. unfold in_main in Hm. by destruct (mainPc s) as [|[]| | | | | | | | | |]. }
  destruct I as [jd q todo Hm Hr Hj Ht Hd Hc Hg Hw|jd q p todo Hm Hr (Hjw & Hcl & Hb) Ht Hd Hc Hg Hw|
    jd q rest Hm Hr Hcl Hb Hjw Hh Hd Hc Hg Hw|ps wd fl q mp todo Hg Hm Hw Hjw Hh Hq Hd Hc Hdir Hst T Hcont].
  - by apply (main_loop_step cps s s' jd q todo).
  - unfold main_step, send_queue, chan_send in E. rewrite Hm in E. cbn [get_queue] in E. rewrite Hcl in E.
    destruct (_ <? _)%nat; [|done]. cbn [abind] in E. injection E as <-. split; [|done].
    apply (stream_loop _ _ jd (q ++ [p]) todo); try done. split_and!; [done|done|cbn; by rewrite Hb].
  - by apply (main_wait_step cps s s' jd q rest).
  - by apply (main_post_step cps s s' ps wd fl q mp todo).
Qed.

(** What has arrived, what has been sent: the server's side of the scan. *)
Definition served (cps : list Packet) (s : Session) : Prop :=
  still s /\ ((preparing s /\ no_writes s /\ cps = []) \/ (stream cps s /\ hashing s)).

Lemma served_step cps e s s' :
  served cps s -> valid cps -> (completed ∈ cps -> hashPc s = HNone) -> e <> EShutdown ->
  step xxhash nw e s = Done s' -> served cps s'.
Proof using Hj0 J0 T0 F0 C0 D0 Hnw.
  intros [St I] Hv Hn He E. pose proof St as [_ [Sc Sq] [Sr Sb] Ss _].
  destruct e as [| | | | |i|e|k e|]; cbn [step] in E; [| | | | | | | |done].
  - destruct I as [(P & Hw & ->)|[I H]].
    + split; [|left; by destruct (prep_main_step s s' St P Hw E)].
      apply (still_main s s' St); [|done]. destruct P as [Hm|Hm|Hm|Hm]; by rewrite Hm.
    + destruct (stream_main_step cps s s' St I H Hv Hn E) as (I' & H' & St'). split; [done|]. by right.
  - split; [by apply (still_worker EJournal s s')|]. destruct I as [(P & Hw & ->)|[I H]].
    + left. by destruct (prep_journal_step s s' P Hw E).
    + right. by apply (stream_journal_step cps s).
  - unfold correct_step in E. by rewrite Sc, Sq in E.
  - split; [by apply (still_worker EWrite s s')|]. destruct I as [(P & [Hw Hq] & ->)|[I H]].
    + unfold write_step in E. by rewrite Hw, Hq in E.
    + right. by apply (stream_write_step cps s).
  - unfold replication_step in E. by rewrite Sr in E.
  - unfold replication_write_step in E. by rewrite Sb in E.
  - assert (K : stream cps s' /\ hashing s' /\ still s' -> served cps s')
      by (intros (I' & H' & St'); split; [done|by right]). apply K. clear K. destruct I as [(P & Hw & ->)|[I H]].
    + destruct P as [? ? ? ? ? ? Hh|? ? ? ? ? ? Hh|? ? ? ? ? Hh|Hm Hd Hv' Hj Hk Ht Hh];
        [unfold hash_step in E; by rewrite Hh in E..|].
      destruct e; try (unfold hash_step in E; by rewrite Hh in E). by apply (ready_starts s).
    + by apply (stream_hash_step cps e s).
  - unfold stray_step in E. by rewrite Ss in E.
Qed.

Lemma served_arrived x cps s : served cps s -> ~ preparing s -> served (cps ++ x) (arrived x s).
Proof using.
  intros [[] [(P & _)|[I H]]] Hp; [done|]. split; [done|]. right. split; [by apply stream_arrived|done].
Qed.
End Stream.
