(* ===== verification/SessionDrain.v ===== *)
(** * The server catches up

    A session that nothing more arrives at: the hashing job runs to its end, the
    journal worker and the write worker empty their queues, and the main goroutine
    handles all that has arrived.  From every state of a scan some schedule leads
    there. *)
From S2P Require Import Prelude GoInt GoMonad GoChan Utils BlockDev Blocks Networking Journal JournalSpec.
From S2P Require Import Server ServerReplay ServerJournal ServerProps ServerPaths Session SessionSafety.
From S2P Require Import SessionScan ClientScan SessionStream.
Open Scope Z_scope.

(** The server has handled everything that has arrived. *)
Definition server_idle (s : Session) : Prop :=
  mainPc s = MLoop /\ decoder s = [] /\ state (srv s) = StateWriting /\ writePc s = WIdle /\
  cbuf (writeQueue s) = [].

Section Drain.
Context (xxhash : list byte -> Z) (nw : nat).
Context (v0 : Server) (j0 : Journal) (nfo : InitInfo).
Context (Hj0 : SJournal v0 = Some j0) (J0 : journal_inv (jstate v0 j0)) (T0 : target_ok v0) (F0 : sendFaults v0 = []).
#[local] Abbreviation step := (step xxhash nw).
#[local] Abbreviation served := (served xxhash v0 j0).
#[local] Abbreviation stream := (stream v0 j0).
#[local] Abbreviation hashing := (hashing xxhash v0).

(** ** Schedules of the session *)

(** [s] can reach a state with [P] on its own. *)
Definition leads (P : Session -> Prop) (s : Session) : Prop :=
  exists es s', (EShutdown ∉ es) /\ run xxhash nw es s = Done s' /\ P s'.

Lemma leads_here (P : Session -> Prop) s : P s -> leads P s.
Proof using. intros H. exists [], s. split_and!; [apply not_elem_of_nil|done..]. Qed.

Lemma leads_step P e s s' : e <> EShutdown -> step e s = Done s' -> leads P s' -> leads P s.
Proof using.
  intros He E (es & s2 & Hes & E2 & H). exists (e :: es), s2.
  split_and!; [by apply not_elem_of_cons| |done]. cbn. by rewrite E.
Qed.

(** A measure that goes down until [P]. *)
Lemma leads_measure (m : Session -> nat) (I P : Session -> Prop) :
  (forall s, I s -> P s \/ exists e s', e <> EShutdown /\ step e s = Done s' /\ I s' /\ (P s' \/ (m s' < m s)%nat)) ->
  forall s, I s -> leads P s.
Proof using.
  intros K s. remember (m s) as k eqn:Ek. revert s Ek. induction k as [k IH] using lt_wf_ind. intros s -> Hs.
  destruct (K s Hs) as [H|(e & s' & He & E & Hs' & H)]; [by apply leads_here|].
  apply (leads_step P e s s' He E). destruct H as [H|H]; [by apply leads_here|]. by apply (IH (m s')).
Qed.

(** ** The hashing job *)

(** The start of the scan is behind, all hashes are sent. *)
Definition scanned (cps : list Packet) (s : Session) : Prop :=
  still s /\ stream cps s /\ hashing s /\ hashPc s = HNone.

Definition hash_left (s : Session) : nat :=
  match hashPc s with
  | HRunning j => 4 * length (j_tasks j) + 3 * length (j_reading j) + 2 * length (j_work j) + length (j_results j) + 1
  | _ => 0
  end.

Lemma hash_progress s :
  hashing s -> hashPc s <> HNone -> TargetDevFd (srv s) = TargetDevFd v0 -> sendFaults (srv s) = [] ->
  hashTermChan s = make_chan 0 ->
  exists e s', hash_step xxhash nw e s = Done s' /\ (hashPc s' = HNone \/ (hash_left s' < hash_left s)%nat).
Proof using T0.
  intros H Hn Ht Hf Hc. unfold hash_left at 2. unfold SessionStream.hashing in H.
  destruct (hashPc s) as [| |[tasks readers reading work hashers results senders]] eqn:Hh; [done|done|].
  cbn [j_tasks j_readers j_reading j_work j_hashers j_results j_senders] in *. destruct H as (Hr & Hha & Hs & dn & rs & wk & -> & -> & Hp & Hse).
  destruct hashers as [|hashers]; [lia|]. destruct senders as [|senders]; [lia|].
  destruct rs as [|o rs].
  2:{ exists (HSend 0). unfold hash_step. rewrite Hh, Hc. cbn. unfold on_srv. rewrite hash_send_block by done.
      eexists. split; [reflexivity|]. right. unfold hash_left; cbn. change (delete 0%nat (?x :: ?l)) with l. lia. }
  destruct wk as [|o wk].
  2:{ exists (HHash 0). unfold hash_step. rewrite Hh, Hc. cbn. eexists. split; [reflexivity|]. right.
      unfold hash_left; cbn. change (delete 0%nat (?x :: ?l)) with l. lia. }
  destruct reading as [|o reading].
  2:{ exists (HRead 0). unfold hash_step. rewrite Hh, Hc. cbn.
      assert (Ho : 0 <= o < dev_size (TargetDevFd (srv s))).
      { rewrite Ht. apply (offs_inside v0 T0). rewrite <- Hp, !elem_of_app, elem_of_cons. auto 6. }
      assert (Tv : target_ok (srv s)) by (unfold target_ok in *; by rewrite Ht).
      unfold on_srv. rewrite (hash_read_block (srv s) o Tv Ho). eexists. split; [reflexivity|]. right.
      unfold hash_left; cbn. change (delete 0%nat (?x :: ?l)) with l. lia. }
  destruct readers as [|readers]; [cbn in Hr; lia|]. destruct tasks as [|o tasks].
  - exists HEnd. unfold hash_step. rewrite Hh. cbn. unfold on_srv. rewrite HashDisk_end_sends by done.
    eexists. split; [reflexivity|]. by left.
  - exists HTake. unfold hash_step. rewrite Hh, Hc. cbn. eexists. split; [reflexivity|]. right. unfold hash_left; cbn. lia.
Qed.

Lemma hashes_end cps s : still s -> stream cps s -> hashing s -> leads (scanned cps) s.
Proof using T0.
  intros St I H. apply (leads_measure hash_left (fun s => still s /\ stream cps s /\ hashing s)); [|done].
  clear s St I H. intros s (St & I & H).
  assert (D : hashPc s = HNone \/ hashPc s <> HNone) by (destruct (hashPc s); auto). destruct D as [D|D]; [by left|]. right.
  assert (Hv : TargetDevFd (srv s) = TargetDevFd v0 /\ sendFaults (srv s) = [] /\ hashTermChan s = make_chan 0).
  { destruct I as [? ? ? ? Hr|? ? ? ? ? Hr|? ? ? ? Hr|? ? ? ? ? ? ? ? ? ? Hh]; [apply srel_target in Hr as []; by split_and!..|congruence|congruence]. }
  destruct Hv as (Ht & Hf & Hc). destruct (hash_progress s H D Ht Hf Hc) as (e & s' & E & Hm).
  destruct (stream_hash_step xxhash nw v0 j0 T0 cps e s s' St I H E) as (I' & H' & St').
  exists (EHash e), s'. split_and!; [done|done|done..|]. destruct Hm as [Hm|Hm]; [by left|by right].
Qed.

(** ** The preparation *)

Section Preparation.
Context (Hnw : (0 < nw)%nat) (C0 : ClientInfo v0 = Some nfo) (D0 : DeviceSize nfo = dev_size (TargetDevFd v0)).

Definition prep_left (s : Session) : nat :=
  match hashPc s, mainPc s with
  | HStarted, _ => 0
  | _, MStartHashing2 => 1
  | _, MStartHashing1 => if journalWorker s then 3 else 2
  | _, _ => 4
  end.

Lemma prep_leads s : still s -> preparing v0 s -> no_writes s -> leads (scanned []) s.
Proof using Hj0 J0 T0 F0 C0 D0 Hnw.
  intros St P Hw. remember (prep_left s) as k eqn:Ek. revert s Ek St P Hw.
  induction k as [k IH] using lt_wf_ind. intros s -> St P Hw.
  assert (K : forall s', main_step nw s = Done s' -> (prep_left s' < prep_left s)%nat -> leads (scanned []) s).
  { intros s' E Hlt. destruct (prep_main_step nw v0 s s' St P Hw E) as [P' Hw'].
    apply (leads_step _ EMain s s'); [done|done|]. apply (IH _ Hlt s' eq_refl); [|done|done].
    apply (still_main nw s s' St); [|done]. by destruct P as [Hm|Hm|Hm|Hm]; rewrite Hm. }
  pose proof St as [Stt _ _ _ _]. destruct P as [Hm Hd Hv Hcl Hb Ht Hh|Hm Hd Hv Hcl Hb Ht Hh|Hm Hd Hv Hj Hk Hh|Hm Hd Hv Hj Hk Ht Hh] eqn:Ep;
    clear Ep.
  - assert (E : exists s', main_step nw s = Done s' /\ mainPc s' = MStartHashing1 /\ hashPc s' = HNone).
    { unfold main_step. rewrite Hm, Stt, Hd. cbn. unfold dispatch. cbn. unfold close_queue, chan_close. cbn. rewrite Hcl.
      by eexists. }
    destruct E as (s' & E & Hm' & Hh'). apply (K s' E). unfold prep_left. rewrite Hm, Hh, Hm', Hh'.
    destruct (journalWorker s'); lia.
  - destruct (journalWorker s) eqn:Ew.
    + assert (E : journal_step s = Done (set_workers false (replicationWorkers s) s))
        by (unfold journal_step, chan_recv; by rewrite Ew, Hb, Hcl).
      destruct (prep_journal_step v0 s _ P Hw E) as [P' Hw']. set (s1 := set_workers false _ s) in *. apply (leads_step _ EJournal s s1); [done|exact E|].
      refine (IH (prep_left s1) _ s1 eq_refl _ P' Hw'); [|by apply (still_worker xxhash nw EJournal s)].
      unfold prep_left; cbn. rewrite Hm, Hh, Ew. lia.
    + assert (E : exists s', main_step nw s = Done s' /\ mainPc s' = MStartHashing2 /\ hashPc s' = HNone).
      { unfold main_step. rewrite Hm, Ew. unfold close_hashTermChan, chan_close. cbn. rewrite Ht. by eexists. }
      destruct E as (s' & E & Hm' & Hh'). apply (K s' E). unfold prep_left. rewrite Hm, Hh, Hm', Hh', Ew. lia.
  - assert (E : exists s', main_step nw s = Done s' /\ hashPc s' = HStarted).
    { unfold main_step, hash_idle. rewrite Hm, Hh. by eexists. }
    destruct E as (s' & E & Hh'). apply (K s' E). unfold prep_left. rewrite Hm, Hh, Hh'. lia.
  - assert (E : exists s', hash_step xxhash nw HStart s = Done s').
    { unfold hash_step. rewrite Hh.
      destruct (HashDisk_start_ok (set_state StateHashing v0) j0 Hj0 J0 eq_refl F0) as (v & Es & _ & _ & Hci).
      unfold on_srv. rewrite Hv, Es. cbn [srv upd_srv]. rewrite Hci. cbn [ClientInfo set_state]. rewrite C0. by eexists. }
    destruct E as (s' & E).
    destruct (ready_starts xxhash nw v0 j0 nfo Hj0 J0 F0 Hnw C0 D0 s s') as (I' & H' & St'); try done.
    apply (leads_step _ (EHash HStart) s s'); [done|done|]. by apply hashes_end.
Qed.

Lemma served_scanned cps s : served cps s -> leads (scanned cps) s.
Proof using Hj0 J0 T0 F0 C0 D0 Hnw.
  intros [St [(P & Hw & ->)|[I H]]]; [by apply prep_leads|by apply hashes_end].
Qed.
End Preparation.

(** ** After the hashes *)

(** Steps that are left once no more packets come. *)
Definition settle_left (s : Session) : nat :=
  5 * length (decoder s) + length (cbuf (journalQueue s)) + (if journalWorker s then 1 else 0) +
  2 * length (cbuf (writeQueue s)) + match writePc s with WIdle => 0 | _ => 1 end +
  match mainPc s with MSend _ _ => 4 | MHashingCompleted => 3 | _ => 0 end.

(** A step that goes on. *)
Definition advances (s : Session) : Prop :=
  exists e s', match e with EMain | EJournal | EWrite => True | _ => False end /\ step e s = Done s' /\
    hashPc s' = hashPc s /\ (settle_left s' < settle_left s)%nat.

(** The step is taken; what is left is that less remains. *)
Ltac advance_by :=
  eexists; split; [done|]; split; [reflexivity|]; split; [done|]; unfold settle_left; cbn.

Lemma journal_advances jd q s :
  scan_rel v0 j0 a_empty jd (srv s) -> good v0 j0 (jd ++ q) -> cbuf (journalQueue s) = q -> journalWorker s = true ->
  q <> [] -> advances s.
Proof using.
  intros Hr [G1 G2 G3 G4] Hb Hw Hq. destruct q as [|p q]; [done|].
  assert (Hcap : forall x, Z.of_nat (length (a_sec a_empty x) + length (blocks_of x (jd ++ p :: q))) <=
    slotCount (header j0) x) by (intros x; specialize (G3 x); by destruct x).
  destruct (scan_rel_packet v0 j0 a_empty (jd ++ p :: q) G1 G2 Hcap jd p q (srv s) eq_refl Hr) as (v & Ev & _ & _).
  exists EJournal. cbn [Session.step]. unfold journal_step, chan_recv. rewrite Hw, Hb. cbn [abind]. unfold on_srv.
  cbn [srv set_queue]. rewrite Ev. advance_by. rewrite Hb. cbn. destruct (mainPc s); lia.
Qed.

Lemma write_advances wd fl q mp ps s :
  good v0 j0 ps -> Forall (direct v0) (wd ++ fl ++ q ++ mp) -> in_worker fl s ->
  writeQueue s = mkChan (write_packet <$> q) WritePacketQueueSize false -> state (srv s) = StateWriting ->
  target_ok (srv s) -> content (TargetDevFd (srv s)) = replica_after v0 ps wd -> fl ++ q <> [] -> advances s.
Proof using.
  intros Hg Hdir Hw Hq Hst T Hc Hne. exists EWrite. cbn [Session.step]. unfold in_worker in Hw.
  destruct (writePc s) as [|data off] eqn:Ew.
  - subst fl. destruct q as [|w q]; [done|]. unfold write_step. rewrite Ew, Hq. unfold chan_recv. cbn.
    rewrite Hst. cbn. assert (Hw : direct v0 w) by (rewrite !Forall_app, Forall_cons in Hdir; tauto).
    rewrite slice_trim by apply Hw. advance_by. rewrite Hq, Ew. cbn. rewrite length_fmap. destruct (mainPc s); lia.
  - destruct Hw as (w & -> & -> & ->).
    assert (Hw : direct v0 w) by (rewrite !Forall_app, Forall_cons in Hdir; tauto).
    assert (Hwd : Forall (direct v0) wd) by (by apply Forall_app in Hdir as [? _]).
    pose proof (length_replica_after v0 j0 ps wd Hg Hwd) as Hl. rewrite <- Hc in Hl.
    destruct (write_lands v0 w s T Hw Hl Ew) as [_ E]. rewrite E. advance_by. rewrite Ew. destruct (mainPc s); lia.
Qed.

(** The main goroutine takes a packet that has arrived. *)
Lemma loop_step s p l :
  mainPc s = MLoop -> TermChan s = make_chan 0 -> decoder s = inl p :: l ->
  main_step nw s = dispatch p (set_decoder l s).
Proof using. intros Hm Ht Hd. unfold main_step. by rewrite Hm, Ht, Hd. Qed.

Lemma settle_progress cps s :
  valid v0 j0 cps -> completed ∈ cps -> scanned cps s -> server_idle s \/ advances s.
Proof using T0.
  intros Hv Hin (St & I & H & Hh). pose proof St as [Stt _ _ _ Scap].
  destruct I as [jd q todo Hm Hr (Hjw & Hcl & Hb) Ht Hd Hc Hg Hw|jd q p todo Hm Hr (Hjw & Hcl & Hb) Ht Hd Hc Hg Hw|
    jd q rest Hm Hr Hcl Hb Hjw _ Hd Hc Hg Hw|ps wd fl q mp todo Hg Hm Hw Hjw _ Hq Hd Hc Hdir Hst T Hcont].
  - right. destruct todo as [|p todo].
    { rewrite Hc, app_nil_r in Hin. exfalso. apply completed_not_journal.
      pose proof (gd_typed _ _ _ Hg) as Hty. rewrite Forall_forall in Hty. by apply Hty. }
    exists EMain. cbn [Session.step]. rewrite fmap_cons in Hd. rewrite (loop_step s p _ Hm Stt Hd). rewrite Hc in Hv. destruct (valid_next _ _ _ _ _ Hv Hg) as [Hg'|(-> & ws & -> & Hws)].
    + assert (Hp : journal_packet p).
      { pose proof (gd_typed _ _ _ Hg') as Hty. apply Forall_app in Hty as [_ Hty]. by apply Forall_cons in Hty as [? _]. }
      rewrite dispatch_journal; [|done|by destruct Hr as (j & _ & _ & _ & _ & ? & _)].
      advance_by. rewrite Hm, Hd. cbn. lia.
    + unfold dispatch. cbn. unfold close_queue, chan_close. cbn.
      rewrite Hcl. advance_by. rewrite Hm, Hd. cbn. lia.
  - right. destruct (send_cases p (journalQueue s) Hcl) as [[_ Hfull]|[E Hlt]].
    + assert (Hg' : good v0 j0 (jd ++ q)) by (apply (good_prefix _ _ _ [p]); by rewrite <- app_assoc).
      apply (journal_advances jd q s); try done. rewrite Hb, Scap in Hfull. intros ->. cbn in Hfull.
      unfold JournalPacketQueueSize in Hfull. lia.
    + exists EMain. cbn [Session.step]. unfold main_step, send_queue. rewrite Hm. cbn [get_queue]. rewrite E. cbn.
      advance_by. rewrite Hm, length_app. cbn. lia.
  - right. destruct (journalWorker s) eqn:Ew.
    + destruct (decide (q = [])) as [Hn|Hn]; [|by apply (journal_advances jd q s)].
      exists EJournal. cbn [Session.step]. unfold journal_step, chan_recv. rewrite Ew, Hb, Hn, Hcl. cbn.
      advance_by. rewrite Ew, Hm. lia.
    + assert (Hnil : q = []) by auto. rewrite Hnil, app_nil_r in Hc, Hg.
      destruct (scan_rel_finish v0 j0 a_empty jd T0) with (v := srv s) as (v & Ev & _); [apply Hg|done|].
      exists EMain. cbn [Session.step]. unfold main_step. rewrite Hm, Ew. unfold on_srv. cbn [srv set_queue]. rewrite Ev.
      advance_by. rewrite Hm, Hb, Hnil, Ew. cbn. lia.
  - assert (W : fl ++ q <> [] -> advances s) by (by apply (write_advances wd fl q mp ps s)).
    unfold in_main in Hm. destruct (mainPc s) as [|[] p| | | | | | | | | |] eqn:Em; try done.
    + subst mp. destruct todo as [|p todo].
      * destruct (decide (fl ++ q = [])) as [Hn|Hn]; [|by right; apply W]. left.
        apply app_eq_nil in Hn as [-> ->]. unfold in_worker in Hw. split_and!; try done.
        -- destruct (writePc s); [done|by destruct Hw as (? & ? & _)].
        -- by rewrite Hq.
      * right. exists EMain. cbn [Session.step]. rewrite fmap_cons in Hd. rewrite (loop_step s p _ Em Stt Hd). rewrite Hc in Hv. destruct (valid_post _ _ _ _ Hv Hg) as (ws & Ews & Hws).
        rewrite app_nil_r in *. symmetry in Ews. apply fmap_app_inv in Ews as (w1 & w2 & E1 & E2 & ->).
        destruct w2 as [|w w2]; [done|]. injection E2 as -> ->. unfold dispatch. cbn. rewrite Hst.
        advance_by. rewrite Em, Hd. cbn. lia.
    + right. destruct Hm as (w & -> & ->). destruct (send_cases (write_packet w) (writeQueue s)) as [[_ Hfull]|[E Hlt]];
        [by rewrite Hq| |].
      * apply W. intros [_ ->]%app_eq_nil. rewrite Hq in Hfull. cbn in Hfull. unfold WritePacketQueueSize in Hfull. lia.
      * exists EMain. cbn [Session.step]. unfold main_step, send_queue. rewrite Em. cbn [get_queue]. rewrite E. cbn.
        advance_by. rewrite Em, length_app. cbn. lia.
Qed.

Lemma scanned_step cps e s s' :
  valid v0 j0 cps -> match e with EMain | EJournal | EWrite => True | _ => False end ->
  scanned cps s -> step e s = Done s' -> hashPc s' = hashPc s -> scanned cps s'.
Proof using T0.
  intros Hv He (St & I & H & Hh) E Eh. rewrite Hh in Eh. unfold scanned.
  destruct e; try done; cbn [Session.step] in E.
  - destruct (stream_main_step xxhash nw v0 j0 T0 cps s s' St I H Hv (fun _ => Hh) E) as (I' & H' & St'). by split_and!.
  - destruct (stream_journal_step xxhash v0 j0 cps s s' I H E). split_and!; try done.
    by apply (still_worker xxhash nw EJournal s s').
  - destruct (stream_write_step xxhash v0 j0 T0 cps s s' I H E). split_and!; try done.
    by apply (still_worker xxhash nw EWrite s s').
Qed.

(** The session handles all that has arrived. *)
Lemma settles cps s :
  valid v0 j0 cps -> completed ∈ cps -> scanned cps s -> leads (fun s' => scanned cps s' /\ server_idle s') s.
Proof using T0.
  intros Hv Hin. apply (leads_measure settle_left (scanned cps)). intros s1 S1.
  destruct (settle_progress cps s1 Hv Hin S1) as [Hi|(e & s2 & He & E & Eh & Hlt)]; [by left|]. right.
  exists e, s2. split_and!; [by destruct e|done|by apply (scanned_step cps e s1 s2)|by right].
Qed.
End Drain.
