(* ===== verification/SessionPaths.v ===== *)
(** * Packets the session drops

    What the dispatch of [HandleClient] does with a packet depends on the state
    alone; a buffer write is dropped while the replica is overwritten directly,
    a correct block can be written after a newer write, and an aborted hashing job
    still announces its completion. *)
From S2P Require Import Prelude GoInt GoMonad GoChan Utils BlockDev Blocks Networking.
From S2P Require Import Journal JournalCodec JournalSlots JournalSpec JournalOps JournalCheck.
From S2P Require Import Server ServerReplay ServerJournal ServerProps ServerPaths.
From S2P Require Import ClientScan Session SessionSafety SessionScan SessionScanProps SessionFullScan SessionStream.
Open Scope Z_scope.

(** ** The end of a full scan *)

Definition is_bufferWrite (p : Packet) : Prop := PacketType p = PacketTypePayloadBufferWrite.

(** The session in which a client has finished a full scan and sends the writes
    it has buffered meanwhile. *)
Definition fullscan_session (v : Server) (ws : list Packet) : Session :=
  HandleClient_start v ((inl <$> ws) ++ [inl completed]).

(** C36: after a full scan ([StateDestroyingReplica]) every buffer write the
    client sends before [HashingCompleted], that is, every write made while the
    scan ran, is dropped: the server ends in [StateWriting] with its replica,
    journal and queues as they were. *)
Theorem fullscan_drops_writes xxhash numWorkers v ws :
  state v = StateDestroyingReplica -> Forall is_bufferWrite ws ->
  run xxhash numWorkers (replicate (length ws) EMain ++ [EMain; EMain]) (fullscan_session v ws) =
  Done (HandleClient_start (set_state StateWriting v) []).
Proof.
  intros Hv Hws. unfold fullscan_session.
  induction Hws as [|p ws Hp Hws IH].
  - cbn [length replicate app run step]. cbn. unfold on_srv. cbn.
    assert (E : HandleJournalWriting v = (Ret tt, v)).
    { unfold HandleJournalWriting, GetState. erewrite bind_Ret by done. by rewrite Hv. }
    unfold bind at 1. rewrite E. done.
  - cbn [length replicate app fmap list_fmap run step].
    assert (E : main_step numWorkers (HandleClient_start v (inl p :: (inl <$> ws) ++ [inl completed])) =
      Done (HandleClient_start v ((inl <$> ws) ++ [inl completed]))).
    { unfold main_step, dispatch. cbn. rewrite Hp. cbn. by rewrite Hv. }
    by rewrite E.
Qed.

Lemma fullscan_drops_writes_witness :
  run (fun _ => 0) 2 (replicate 1 EMain ++ [EMain; EMain])
    (fullscan_session (set_state StateDestroyingReplica demo_server) [nth 1 demo_packets completed]) =
  Done (HandleClient_start (set_state StateWriting (set_state StateDestroyingReplica demo_server)) []).
Proof.
  apply (fullscan_drops_writes (fun _ => 0) 2 (set_state StateDestroyingReplica demo_server)
           [nth 1 demo_packets completed]); [reflexivity|repeat constructor].
Defined.

(** ** An aborted hashing job *)

(** What is left of a job that has been told to stop. *)
Definition abort_left (j : hash_job) : nat :=
  length (j_tasks j) + 3 * length (j_reading j) + 2 * length (j_work j) + length (j_results j).

Lemma hash_read_returns n o v : exists r v', hash_read n o v = (Ret r, v').
Proof.
  unfold hash_read, on_target, zoom, bind.
  assert (E : exists x d, ReadAt (Z.to_nat n) (i64 o) (TargetDevFd v) = (Ret x, d)).
  { unfold ReadAt. destruct (_ <? _); [eauto|]. destruct (Z.to_nat n); [eauto|].
    destruct (syscall _) as [[] ?]; eauto. }
  destruct E as ([b e] & d & ->). destruct e as [[]|]; unfold ret; try destruct (_ =? _)%nat; eauto.
Qed.

(** Unless all its senders can return, it can take a step that the closed channel
    or an empty queue bounds, and none of them is a send on the closed
    [resultChan]: the reads that are left are made while a hashing worker is there. *)
Lemma abort_progress xxhash j s k :
  (j_senders j =? 0)%nat || (hashes_done j && (length (j_results j) =? 0)%nat) = false ->
  exists e j' v, e <> HEnd /\ job_step xxhash true e j s k = Done (k j' (upd_srv (fun _ => v) s)) /\
    job_effect (srv s) v /\ sent v = sent (srv s) /\ sendFaults v = sendFaults (srv s) /\
    (abort_left j' < abort_left j)%nat.
Proof.
  destruct j as [ts r rd w h rs sd]. cbn [j_senders j_results]. intros [Hs Hd]%orb_false_iff.
  assert (K : forall e j', e <> HEnd ->
    job_step xxhash true e (mkJob ts r rd w h rs sd) s k = Done (k j' s) ->
    (abort_left j' < abort_left (mkJob ts r rd w h rs sd))%nat ->
    exists e j' v, e <> HEnd /\ job_step xxhash true e (mkJob ts r rd w h rs sd) s k = Done (k j' (upd_srv (fun _ => v) s)) /\
      job_effect (srv s) v /\ sent v = sent (srv s) /\ sendFaults v = sendFaults (srv s) /\
      (abort_left j' < abort_left (mkJob ts r rd w h rs sd))%nat).
  { intros e j' He E Hl. exists e, j', (srv s). rewrite upd_srv_same. split_and!; try done. by left. }
  destruct sd as [|sd]; [done|]. destruct rs as [|x rs].
  2:{ eapply (K (HSend 0)); [done|reflexivity|]. unfold abort_left; cbn. change (delete 0%nat (x :: rs)) with rs. lia. }
  destruct h as [|h]; [done|]. destruct w as [|x w].
  2:{ eapply (K (HHash 0)); [done|reflexivity|]. unfold abort_left; cbn. change (delete 0%nat (x :: w)) with w. lia. }
  destruct rd as [|o rd].
  - destruct ts as [|o ts]; [done|]. eapply (K HStop); [done|reflexivity|]. unfold abort_left; cbn. lia.
  - destruct (hash_read_returns HashedSpaceBase o (srv s)) as (y & v & E).
    assert (Hv : sent v = sent (srv s) /\ sendFaults v = sendFaults (srv s)).
    { revert E. unfold hash_read, on_target, zoom, bind. destruct (ReadAt _ _ _) as [[[b e]|e|] d]; [|done..].
      destruct e as [[]|]; unfold ret; try destruct (length b =? 0)%nat; intros E%(f_equal snd); cbn in E; by rewrite <- E. }
    exists (HRead 0). cbn. unfold on_srv. rewrite E. change (delete 0%nat (o :: rd)) with rd.
    assert (Ef : job_effect (srv s) v) by (right; left; exists o; by rewrite E).
    destruct y; eexists _, v; (split; [done|]; split; [reflexivity|]; split_and!; [done|apply Hv..|]);
      unfold abort_left; cbn; lia.
Qed.

(** A hashing job that is told to stop can end in every state of its goroutines, and
    it still announces the completion of the scan to the client, however many
    blocks it has not looked at. *)
Theorem aborted_hashing_completes xxhash numWorkers s j :
  hashPc s = HRunning j -> cclosed (hashTermChan s) = true -> sendFaults (srv s) = [] ->
  exists es s', run xxhash numWorkers (EHash <$> es) s = Done s' /\
    sent (srv s') = sent (srv s) ++ [completed] /\ hashPc s' = HNone.
Proof.
  remember (abort_left j) as n eqn:En. revert j s En. induction n as [n IH] using lt_wf_ind. intros j s -> Hh Hc Hf.
  destruct ((j_senders j =? 0)%nat || (hashes_done j && (length (j_results j) =? 0)%nat)) eqn:Eb.
  - exists [HEnd]. cbn [fmap list_fmap run step]. unfold hash_step. rewrite Hh, Eb.
    unfold on_srv. rewrite HashDisk_end_sends by done. cbn. by eexists.
  - destruct (abort_progress xxhash j s (fun j => set_hashPc (HRunning j)) Eb) as (e & j' & v & He & E & _ & Hs & Hf' & Hl).
    edestruct (IH (abort_left j') Hl j' (set_hashPc (HRunning j') (upd_srv (fun _ => v) s))) as (es & s' & Er & Hsent & Hn);
      [done|done|done|cbn; by rewrite Hf'|].
    exists (e :: es), s'. cbn [fmap list_fmap run step]. unfold hash_step at 1. rewrite Hh.
    assert (Ht : ChanHasTerminated (hashTermChan s) = true) by (apply terminated_iff; by left). rewrite Ht.
    split_and!; [|by rewrite Hsent; cbn; rewrite Hs|done]. destruct e; try done; rewrite E; exact Er.
Qed.

Definition demo_aborted : Session :=
  set_hashTermChan (mkChan [] 0 true) (scanning_session demo_server (HRunning (mkJob [8] 1 [0] [] 2 [] 2)) [] []).

Lemma aborted_hashing_completes_witness :
  exists es s', run (fun _ => 0) 2 (EHash <$> es) demo_aborted = Done s' /\
    sent (srv s') = sent (srv demo_aborted) ++ [completed] /\ hashPc s' = HNone.
Proof.
  apply (aborted_hashing_completes (fun _ => 0) 2 demo_aborted (mkJob [8] 1 [0] [] 2 [] 2)); reflexivity.
Defined.

(** ** Correct blocks and direct writes after a full scan *)

(** A full scan has found [b] wrong; the client then writes [w]. *)
Definition race_session (v : Server) (b : CorrectBlockInfo) (w : WriteInfo) : Session :=
  HandleClient_start v [inl (correct_block b); inl completed; inl (write_packet w)].

Definition race_first : list event :=
  [EMain; EMain; ECorrect; ECorrect; EMain; EMain; EMain; EMain; EWrite; EWrite].
Definition race_last : list event :=
  [EMain; EMain; EMain; EMain; EMain; EMain; EWrite; EWrite; ECorrect; ECorrect].

Lemma run_step xxhash nw e es s s' :
  step xxhash nw e s = Done s' -> run xxhash nw (e :: es) s = run xxhash nw es s'.
Proof. intros E. cbn [run]. by rewrite E. Qed.

(** What the two workers do to the replica. *)
Lemma block_lands b u :
  target_ok u -> writable (length (content (TargetDevFd u))) b ->
  handleCorrectPacket (correct_block b) u =
    (Ret tt, replica (apply_write (content (TargetDevFd u)) (to_write b)) u).
Proof.
  intros T Hb. eapply ignore_Ret, map_err_Ret.
  pose proof (target_WriteAt u T (content (TargetDevFd u)) eq_refl b Hb) as E. by rewrite replica_id in E.
Qed.

Section Race.
Context (xxhash : list byte -> Z) (nw : nat) (v : Server) (b : CorrectBlockInfo) (w : WriteInfo).
Context (T : target_ok v) (Hst : state v = StateDestroyingReplica).
Context (Hb : writable (length (content (TargetDevFd v))) b) (Hw : direct v w).

(** The server in state [st] after the writes [ws]. *)
Definition raced (ws : list write) (st : State) : Server :=
  set_state st (replica (apply_writes ws (content (TargetDevFd v))) v).

Lemma raced_ok ws st :
  Forall (fits (length (content (TargetDevFd v)))) ws ->
  target_ok (raced ws st) /\ length (content (TargetDevFd (raced ws st))) = length (content (TargetDevFd v)).
Proof using T.
  intros Hf. assert (Hl : length (content (TargetDevFd (raced ws st))) = length (content (TargetDevFd v)))
    by (by apply length_apply_writes).
  split; [|done]. split; [apply T|]. unfold dev_size. rewrite Hl. apply T.
Qed.

Lemma raced_write ws st x :
  replica (apply_write (content (TargetDevFd (raced ws st))) x) (raced ws st) = raced (ws ++ [x]) st.
Proof using. unfold raced. by rewrite apply_writes_app. Qed.

(** The correct-block worker writes the block it holds. *)
Lemma race_correct ws st s :
  Forall (fits (length (content (TargetDevFd v)))) ws -> srv s = raced ws st -> correctPc s = Some (correct_block b) ->
  correct_step s = Done (set_correctPc None (upd_srv (fun _ => raced (ws ++ [to_write b]) st) s)).
Proof using T Hb.
  intros Hf Hv Hp. destruct (raced_ok ws st Hf) as [T' Hl]. unfold correct_step. rewrite Hp. unfold on_srv. rewrite Hv.
  rewrite block_lands by (try done; by rewrite Hl). by rewrite raced_write.
Qed.

(** The write worker takes the write and carries it out. *)
Lemma race_write ws s :
  Forall (fits (length (content (TargetDevFd v)))) ws -> srv s = raced ws StateWriting -> writePc s = WIdle ->
  writeQueue s = mkChan [write_packet w] WritePacketQueueSize false ->
  run xxhash nw [EWrite; EWrite] s =
    Done (set_queue QWrite (make_chan WritePacketQueueSize) (upd_srv (fun _ => raced (ws ++ [to_write (trim w)]) StateWriting) s)).
Proof using T Hw.
  intros Hf Hv Hp Hq. destruct (raced_ok ws StateWriting Hf) as [T' Hl].
  assert (E : write_step s = Done (set_writePc (WRetry (Data (trim w)) (i64 (Offset w)))
    (set_queue QWrite (make_chan WritePacketQueueSize) s))).
  { unfold write_step. rewrite Hp, Hq. unfold chan_recv. cbn [cbuf abind ccap cclosed srv set_queue]. rewrite Hv.
    cbn [state raced set_state]. rewrite bool_decide_eq_true_2 by done. cbn [negb Payload write_packet].
    by rewrite slice_trim by apply Hw. }
  rewrite (run_step _ _ EWrite [EWrite] s _ E).
  destruct (write_lands v w (set_writePc (WRetry (Data (trim w)) (i64 (Offset w)))
    (set_queue QWrite (make_chan WritePacketQueueSize) s))) as [_ E2]; cbn [srv set_writePc set_queue]; rewrite ?Hv; try done.
  rewrite (run_step _ _ EWrite [] _ _ E2). cbn [run srv set_writePc set_queue]. rewrite Hv.
  rewrite raced_write. destruct s. cbn in Hp. by subst.
Qed.

Lemma race_fits : fits (length (content (TargetDevFd v))) (to_write b) /\
  fits (length (content (TargetDevFd v))) (to_write (trim w)).
Proof using Hb Hw. split; [by destruct Hb as (_ & _ & ?)|apply Hw]. Qed.

Lemma raced_nil st : set_state st v = raced [] st.
Proof using. unfold raced. cbn. by rewrite replica_id. Qed.
End Race.

Lemma run_app xxhash nw es1 es2 s : run xxhash nw (es1 ++ es2) s = abind (run xxhash nw es1 s) (run xxhash nw es2).
Proof.
  revert s. induction es1 as [|e es1 IH]; intros s; [done|]. cbn [app run].
  destruct (step xxhash nw e s) as [s1| |]; [|done..]. cbn [abind]. apply IH.
Qed.

(** C35: [HashingCompleted] does not wait for the correct-block worker, so after
    a full scan an old correct block can overwrite a newer buffer write: on every
    target, for every block [b] and every later write [w] inside it, the packets of
    the two have a schedule that ends with [w] over [b], and one that ends with [b]
    over [w]; in both the server has handled all packets and nothing is pending. *)
Theorem fullscan_block_overtakes xxhash nw v b w :
  target_ok v -> state v = StateDestroyingReplica ->
  writable (length (content (TargetDevFd v))) b -> direct v w ->
  run xxhash nw race_first (race_session v b w) =
    Done (HandleClient_start (raced v [to_write b; to_write (trim w)] StateWriting) []) /\
  run xxhash nw race_last (race_session v b w) =
    Done (HandleClient_start (raced v [to_write (trim w); to_write b] StateWriting) []).
Proof.
  intros T Hst Hb Hw. destruct (race_fits v b w Hb Hw) as [Fb Fw].
  assert (P : run xxhash nw [EMain; EMain] (race_session v b w) =
    Done (set_queue QCorrect (mkChan [correct_block b] CorrectPacketQueueSize false)
      (HandleClient_start v [inl completed; inl (write_packet w)]))).
  { cbn. unfold dispatch. cbn. rewrite Hst. done. }
  assert (J : forall u, state u = StateDestroyingReplica ->
    (HandleJournalWriting ;;; SetState StateWriting) u = (Ret tt, set_state StateWriting u)).
  { intros u Hu. unfold bind at 1. unfold HandleJournalWriting, GetState. erewrite bind_Ret by done.
    by rewrite bool_decide_eq_true_2. }
  assert (M : forall u q h, state u = StateDestroyingReplica ->
    run xxhash nw [EMain; EMain; EMain; EMain]
      (set_correctPc h (set_queue QCorrect q (HandleClient_start u [inl completed; inl (write_packet w)]))) =
    Done (set_correctPc h (set_queue QCorrect q
      (set_queue QWrite (mkChan [write_packet w] WritePacketQueueSize false) (HandleClient_start (set_state StateWriting u) []))))).
  { intros u q h Hu. cbn. unfold on_srv. cbn. by rewrite J. }
  split.
  - change race_first with ([EMain; EMain] ++ [ECorrect; ECorrect] ++ [EMain; EMain; EMain; EMain] ++ [EWrite; EWrite]).
    rewrite run_app, P. cbn [abind]. rewrite run_app.
    erewrite (run_step _ _ ECorrect [ECorrect]) by reflexivity.
    erewrite (run_step _ _ ECorrect [] _ _); [|apply (race_correct v b T Hb [] (state v)); [by constructor|cbn|done]].
    2:{ rewrite <- raced_nil. by destruct v. }
    cbn [run abind]. rewrite run_app.
    change (set_correctPc None _) with (set_correctPc None (set_queue QCorrect (make_chan CorrectPacketQueueSize)
      (HandleClient_start (raced v ([] ++ [to_write b]) (state v)) [inl completed; inl (write_packet w)]))).
    rewrite M by done. cbn [abind].
    rewrite (race_write xxhash nw v w T Hw [to_write b]); [done|by constructor|done|done|done].
  - change race_last with ([EMain; EMain] ++ [EMain; EMain; EMain; EMain] ++ [EWrite; EWrite] ++ [ECorrect; ECorrect]).
    rewrite run_app, P. cbn [abind]. rewrite run_app.
    change (set_queue QCorrect _ _) with (set_correctPc None (set_queue QCorrect (mkChan [correct_block b] CorrectPacketQueueSize false)
      (HandleClient_start v [inl completed; inl (write_packet w)]))).
    rewrite M by done. cbn [abind]. rewrite run_app.
    rewrite (race_write xxhash nw v w T Hw []); [|done|by rewrite <- raced_nil|done|done].
    cbn [abind]. erewrite (run_step _ _ ECorrect [ECorrect]) by reflexivity.
    erewrite (run_step _ _ ECorrect [] _ _); [|apply (race_correct v b T Hb [to_write (trim w)] StateWriting); [by constructor|done|done]].
    done.
Qed.

Definition demo_correct : CorrectBlockInfo := {| Offset := 4; Size := 1; Data := [Byte.x01] |}.
Definition demo_newer : WriteInfo := {| Offset := 4; Size := 1; Data := [Byte.x02] |}.
Definition demo_scanned : Server := set_state StateDestroyingReplica demo_server.

(** The two results differ: the older byte stays. *)
Lemma fullscan_block_overtakes_witness :
  run (fun _ => 0) 2 race_last (race_session demo_scanned demo_correct demo_newer) =
    Done (HandleClient_start (raced demo_scanned [to_write (trim demo_newer); to_write demo_correct] StateWriting) []) /\
  content (TargetDevFd (raced demo_scanned [to_write demo_correct; to_write (trim demo_newer)] StateWriting)) !! 4%nat = Some Byte.x02 /\
  content (TargetDevFd (raced demo_scanned [to_write (trim demo_newer); to_write demo_correct] StateWriting)) !! 4%nat = Some Byte.x01.
Proof.
  split; [|split; vm_compute; reflexivity].
  refine (proj2 (fullscan_block_overtakes (fun _ => 0) 2 demo_scanned demo_correct demo_newer _ eq_refl _ _)).
  - split; [reflexivity|vm_compute; reflexivity].
  - apply (bool_decide_unpack _). vm_compute. exact I.
  - split; [apply (bool_decide_unpack _); vm_compute; exact I|]. vm_compute. lia.
Defined.
