(* ===== verification/SessionReplication.v ===== *)
(** * A replication under every schedule of the session

    The blocks of a replication pass through the replication queue to the
    replication workers, and the writes that the client sends after
    [ReplicationCompleted] through the write queue to the write worker.  The main
    goroutine waits for the replication workers in between.  In every
    interleaving the replica is the old one with some of the blocks applied, in the
    order in which the workers have written them, and then, after all the blocks,
    with a prefix of the writes, in the order in which they were sent. *)
From S2P Require Import Prelude GoInt GoMonad GoChan Utils BlockDev Blocks Networking.
From S2P Require Import Journal JournalSpec Server ServerReplay ServerJournal ServerProps ServerPaths.
From S2P Require Import Session SessionSafety SessionScan SessionStream SessionDrain SessionFullScan.
Open Scope Z_scope.

Definition start_copy : Packet := CreateInfoPacket PacketTypeInfoStartReplication.
Definition copied : Packet := CreateInfoPacket PacketTypeInfoReplicationCompleted.
Definition repl_block (b : BlockInfo) : Packet :=
  {| PacketType := PacketTypePayloadReplicationBlock; Payload := PReplicationBlockInfo b |}.

(** The packets of a replication: [bs] and then [ws]. *)
Definition replication (bs : list BlockInfo) (ws : list WriteInfo) : list Packet :=
  start_copy :: (repl_block <$> bs) ++ copied :: (write_packet <$> ws).

Section Replication.
Context (xxhash : list byte -> Z) (nw : nat) (Hnw : (0 < nw)%nat).
Context (v0 : Server) (bs : list BlockInfo) (ws : list WriteInfo).
#[local] Abbreviation R := (content (TargetDevFd v0)).
Context (Hbs : Forall (writable (length R)) bs) (Hws : Forall (direct v0) ws).

(** ** The invariant *)

(** The replica after the blocks [bd] and the writes [wd]. *)
Definition copy_after (bd : list BlockInfo) (wd : list WriteInfo) : list byte :=
  apply_writes (to_write ∘ trim <$> wd) (apply_writes (to_write <$> bd) R).

Definition holds (bd : list BlockInfo) (wd : list WriteInfo) (s : Session) : Prop :=
  target_ok (srv s) /\ content (TargetDevFd (srv s)) = copy_after bd wd.

Record untouched (s : Session) : Prop := {
  ut_journal : cbuf (journalQueue s) = [];
  ut_correct : correctPc s = None /\ cbuf (correctQueue s) = [];
  ut_term : cbuf (TermChan s) = [] /\ cclosed (TermChan s) = false;
}.

Definition unwritten (s : Session) : Prop := writePc s = WIdle /\ cbuf (writeQueue s) = [].

(** The main goroutine is about to queue [mid]. *)
Definition hands_on (mid : list BlockInfo) (s : Session) : Prop :=
  match mainPc s with
  | MLoop => mid = []
  | MSend QReplication p => exists b, mid = [b] /\ p = repl_block b
  | _ => False
  end.

(** Blocks or writes are applied, in the hands of the workers, queued, on the way into the
    queue, or not yet decoded.  The workers write the blocks they hold in any order. *)
Inductive copying (s : Session) : Prop :=
| copy_request :
    mainPc s = MLoop -> decoder s = (inl <$> replication bs ws) -> cbuf (replicationQueue s) = [] ->
    replicating s = [] -> unwritten s -> holds [] [] s -> copying s
| copy_wait :
    mainPc s = MStartReplication -> decoder s = (inl <$> tail (replication bs ws)) ->
    cbuf (replicationQueue s) = [] -> replicating s = [] -> unwritten s -> holds [] [] s -> copying s
| copy_blocks bd hd q mid todo :
    hands_on mid s -> bs ≡ₚ bd ++ hd ++ q ++ mid ++ todo ->
    decoder s = (inl <$> (repl_block <$> todo) ++ copied :: (write_packet <$> ws)) ->
    cbuf (replicationQueue s) = (repl_block <$> q) -> replicating s = (repl_block <$> hd) ->
    replicationWorkers s = nw -> unwritten s -> holds bd [] s -> copying s
| copy_drain bd hd q :
    mainPc s = MReplicationCompleted -> bs ≡ₚ bd ++ hd ++ q -> decoder s = (inl <$> (write_packet <$> ws)) ->
    cbuf (replicationQueue s) = (repl_block <$> q) -> replicating s = (repl_block <$> hd) ->
    (replicationWorkers s = 0%nat -> q = []) -> unwritten s -> holds bd [] s -> copying s
| copy_post bd wd fl q mp todo :
    in_main mp s -> in_worker fl s -> ws = wd ++ fl ++ q ++ mp ++ todo ->
    decoder s = (inl <$> (write_packet <$> todo)) -> cbuf (writeQueue s) = (write_packet <$> q) ->
    replicationWorkers s = 0%nat -> replicating s = [] -> state (srv s) = StateWriting ->
    bd ≡ₚ bs -> holds bd wd s -> copying s.

Definition copy_inv (s : Session) : Prop := untouched s /\ copying s.

Lemma unseen_untouched s s' : unseen s s' -> untouched s -> untouched s'.
Proof using. intros [H1 H2 H3 H4 H5 H6 H7 H8 H9 H10 H11 H12] [A1 A2 A3]. split; by rewrite ?H5, ?H6, ?H8, ?H11. Qed.

(** What the steps of the other goroutines leave. *)
Lemma unseen_holds s s' bd wd : unseen s s' -> holds bd wd s -> holds bd wd s'.
Proof using. intros U [T C]. unfold holds, target_ok in *. by rewrite (un_target _ _ U). Qed.
Lemma unseen_unwritten s s' : unseen s s' -> unwritten s -> unwritten s'.
Proof using. intros U [H1 H2]. split; by rewrite ?(un_write _ _ U), ?(un_writes _ _ U). Qed.

Lemma unseen_copying s s' :
  unseen s s' -> replicationWorkers s' = replicationWorkers s -> copying s -> copying s'.
Proof using.
  intros U Hw C. pose proof (unseen_holds s s') as Kh. pose proof (unseen_unwritten s s' U) as Ku.
  assert (Kh' : forall bd wd, holds bd wd s -> holds bd wd s') by (intros; by apply Kh). clear Kh.
  pose proof U as [H1 H2 H3 H4 H5 H6 H7 H8 H9 H10 H11 H12].
  destruct C as [C1 C2 C3 Cr C4 C5|C1 C2 C3 Cr C4 C5|bd hd q mid todo C1 C2 C3 C4 Cr C5 C6 C7|bd hd q C1 C2 C3 C4 Cr C5 C6 C7|
    bd wd fl q mp todo C1 C2 C3 C4 C5 C6 Cr C7 Cp C8].
  - apply copy_request; rewrite ?H1, ?H2, ?H7, ?H12; auto.
  - apply copy_wait; rewrite ?H1, ?H2, ?H7, ?H12; auto.
  - apply (copy_blocks _ bd hd q mid todo); unfold hands_on; rewrite ?H1, ?H2, ?H7, ?H12, ?Hw; auto.
  - apply (copy_drain _ bd hd q); rewrite ?H1, ?H2, ?H7, ?H12, ?Hw; auto.
  - apply (copy_post _ bd wd fl q mp todo); unfold in_main, in_worker; rewrite ?H1, ?H2, ?H3, ?H4, ?H10, ?H12, ?Hw; auto.
Qed.

(** ** Writing a block *)

Lemma length_copy_after bd wd :
  Forall (writable (length R)) bd -> Forall (direct v0) wd -> length (copy_after bd wd) = length R.
Proof using.
  intros Hb Hw. assert (H1 : length (apply_writes (to_write <$> bd) R) = length R).
  { apply length_apply_writes, Forall_fmap. eapply Forall_impl; [exact Hb|]. by intros b (_ & _ & ?). }
  unfold copy_after. rewrite length_apply_writes; rewrite H1; [done|].
  apply Forall_fmap. eapply Forall_impl; [exact Hw|]. by intros w [_ ?].
Qed.

Lemma copy_block b v :
  target_ok v -> writable (length (content (TargetDevFd v))) b ->
  handleReplicationPacket (repl_block b) v =
    (Ret tt, replica (apply_write (content (TargetDevFd v)) (to_write b)) v).
Proof using.
  intros T Hb. unfold handleReplicationPacket. cbn [Payload repl_block]. eapply ignore_Ret.
  pose proof (target_WriteAt v T (content (TargetDevFd v)) eq_refl b Hb) as E. by rewrite replica_id in E.
Qed.

Lemma replica_ok c v : target_ok v -> length c = length (content (TargetDevFd v)) -> target_ok (replica c v).
Proof using. intros [H1 H2] Hl. split; [done|]. unfold dev_size in *. cbn. by rewrite Hl. Qed.

Lemma writable_prefix bd l : bs ≡ₚ bd ++ l -> Forall (writable (length R)) bd.
Proof using Hbs. intros E. rewrite E in Hbs. by apply Forall_app in Hbs as [? _]. Qed.

Lemma writable_all bd : bd ≡ₚ bs -> Forall (writable (length R)) bd.
Proof using Hbs. intros E. by rewrite E. Qed.

(** A worker writes the block it holds. *)
Lemma block_written i s s' bd hd rest :
  replication_write_step i s = Done s' -> replicating s = (repl_block <$> hd) -> bs ≡ₚ bd ++ hd ++ rest ->
  holds bd [] s ->
  exists b v, s' = set_replicating (repl_block <$> delete i hd) (upd_srv (fun _ => v) s) /\
    hd !! i = Some b /\ bs ≡ₚ (bd ++ [b]) ++ delete i hd ++ rest /\ holds (bd ++ [b]) [] s'.
Proof using Hbs.
  intros E Hr Hp [T Hc]. unfold replication_write_step in E. rewrite Hr, list_lookup_fmap in E.
  destruct (hd !! i) as [b|] eqn:Hi; [|done]. cbn [fmap option_fmap option_map] in E.
  assert (Hp' : bs ≡ₚ (bd ++ [b]) ++ delete i hd ++ rest).
  { rewrite Hp. rewrite (delete_Permutation hd i b Hi) at 1. by rewrite <- app_assoc. }
  pose proof (writable_prefix _ _ Hp') as [Hbd [Hb _]%Forall_cons]%Forall_app.
  pose proof (length_copy_after bd [] Hbd ltac:(constructor)) as Hl. rewrite <- Hc in Hl. rewrite <- Hl in Hb.
  unfold on_srv in E. rewrite copy_block in E by done. cbn [replicating upd_srv] in E. rewrite Hr, <- list_fmap_delete in E.
  injection E as <-. exists b. eexists. split; [reflexivity|]. split_and!; [done..|].
  assert (Hf : fits (length (content (TargetDevFd (srv s)))) (to_write b)) by (by destruct Hb as (_ & _ & ?)).
  split; cbn [srv upd_srv set_replicating].
  - apply replica_ok; [done|]. by apply length_apply_write.
  - cbn. rewrite Hc. unfold copy_after. cbn. by rewrite fmap_app, apply_writes_app.
Qed.

Lemma replication_write_inv i s s' : copy_inv s -> replication_write_step i s = Done s' -> copy_inv s'.
Proof using Hbs.
  intros [U C] E. assert (Hno : replicating s = [] -> False) by (intros H; unfold replication_write_step in E; by rewrite H in E).
  destruct C as [C1 C2 C3 Cr C4 C5|C1 C2 C3 Cr C4 C5|bd hd q mid todo C1 C2 C3 C4 Cr C5 C6 C7|bd hd q C1 C2 C3 C4 Cr C5 C6 C7|
    bd wd fl q mp todo C1 C2 C3 C4 C5 C6 Cr C7 Cp C8]; [by destruct Hno..| | |by destruct Hno].
  - destruct (block_written i s s' bd hd (q ++ mid ++ todo) E Cr C2 C7) as (b & v & -> & _ & Hp & Hh).
    split; [by destruct U|]. by apply (copy_blocks _ (bd ++ [b]) (delete i hd) q mid todo).
  - destruct (block_written i s s' bd hd q E Cr C2 C7) as (b & v & -> & _ & Hp & Hh).
    split; [by destruct U|]. by apply (copy_drain _ (bd ++ [b]) (delete i hd) q).
Qed.

(** A worker without a block takes one. *)
Lemma block_taken s s' b q :
  replication_step s = Done s' -> cbuf (replicationQueue s) = (repl_block <$> b :: q) ->
  exists c, s' = set_replicating (replicating s ++ [repl_block b]) (set_queue QReplication c s) /\ cbuf c = (repl_block <$> q).
Proof using.
  intros E Hq. unfold replication_step in E. destruct (replicationWorkers s); [done|]. destruct (_ <? _)%nat; [done|].
  unfold chan_recv in E. rewrite Hq in E. cbn [abind fmap list_fmap] in E. injection E as <-. by eexists.
Qed.

Lemma replication_inv s s' : session_inv s -> copy_inv s -> replication_step s = Done s' -> copy_inv s'.
Proof using Hbs.
  intros I [U C] E.
  assert (K : cbuf (replicationQueue s) = [] -> holds [] [] s -> untouched s' /\
    (unseen s s' /\ cclosed (replicationQueue s) = true)).
  { intros Hb [[Hh _] _]. destruct (unseen_replication s s' Hb Hh E) as (H1 & _ & H3).
    split; [by apply (unseen_untouched s)|done]. }
  destruct C as [C1 C2 C3 Cr C4 C5|C1 C2 C3 Cr C4 C5|bd hd q mid todo C1 C2 C3 C4 Cr C5 C6 C7|bd hd q C1 C2 C3 C4 Cr C5 C6 C7|
    bd wd fl q mp todo C1 C2 C3 C4 C5 C6 Cr C7 Cp C8].
  - destruct (K C3 C5) as (_ & _ & Hc). pose proof (si_closed _ I QReplication) as Ho. rewrite C1 in Ho.
    cbn in Ho. congruence.
  - destruct (K C3 C5) as (U' & Hu & _). split; [done|]. pose proof Hu as [H1 H2 H3 H4 H5 H6 H7 H8 H9 H10 H11 H12].
    apply copy_wait; rewrite ?H1, ?H2, ?H7, ?H12; [done..| |]; [by apply (unseen_unwritten s)|by apply (unseen_holds s)].
  - destruct q as [|b q].
    { assert (Hh : healthy (TargetDevFd (srv s))) by apply C7.
      destruct (unseen_replication s s' C4 Hh E) as (_ & _ & Hc).
      pose proof (si_closed _ I QReplication) as Ho. cbn in Ho. rewrite Hc in Ho.
      unfold hands_on in C1. by destruct (mainPc s) as [|[] ?| | | | | | | | | |]. }
    destruct (block_taken s s' b q E C4) as (c & -> & Hc).
    split; [by destruct U|]. apply (copy_blocks _ bd (hd ++ [b]) q mid todo); try done; [by rewrite C2, <- (app_assoc hd)|].
    cbn. by rewrite Cr, fmap_app.
  - destruct q as [|b q].
    + assert (Hh : healthy (TargetDevFd (srv s))) by apply C7.
      destruct (unseen_replication s s' C4 Hh E) as (Hu & _).
      split; [by apply (unseen_untouched s)|]. pose proof Hu as [H1 H2 H3 H4 H5 H6 H7 H8 H9 H10 H11 H12].
      apply (copy_drain _ bd hd []); rewrite ?H1, ?H2, ?H7, ?H12; [done..| |]; [by apply (unseen_unwritten s)|by apply (unseen_holds s)].
    + destruct (block_taken s s' b q E C4) as (c & -> & Hc).
      split; [by destruct U|]. apply (copy_drain _ bd (hd ++ [b]) q); try done; [by rewrite C2, <- (app_assoc hd)| |].
      * cbn. by rewrite Cr, fmap_app.
      * cbn. intros H0. by specialize (C5 H0).
  - unfold replication_step in E. by rewrite C6 in E.
Qed.

(** ** The write worker *)

Lemma write_inv s s' : copy_inv s -> write_step s = Done s' -> copy_inv s'.
Proof using Hbs Hws.
  intros [U C] E. assert (Hno : unwritten s -> False) by (intros [H1 H2]; by apply (idle_write s s')).
  destruct C as [| | | |bd wd fl q mp todo C1 C2 C3 C4 C5 C6 Cr C7 Cp [T Hc]]; [by destruct Hno..|].
  unfold in_worker in C2. destruct (writePc s) as [|data off] eqn:Ew.
  - subst fl. unfold write_step in E. rewrite Ew in E. unfold chan_recv in E. rewrite C5 in E.
    destruct q as [|w q]; [cbn in E; by destruct (cclosed _)|]. cbn [abind fmap list_fmap] in E.
    assert (Hw : direct v0 w) by (rewrite C3, !Forall_app, Forall_cons in Hws; tauto).
    cbn [srv set_queue Payload write_packet] in E. rewrite C7 in E. cbn [negb bool_decide] in E.
    rewrite bool_decide_eq_true_2 in E by done. cbn [negb] in E. rewrite slice_trim in E by apply Hw. injection E as <-.
    split; [by destruct U|]. apply (copy_post _ bd wd [w] q mp todo); try done. by exists w.
  - destruct C2 as (w & -> & -> & ->).
    assert (Hw : direct v0 w) by (rewrite C3, !Forall_app, Forall_cons in Hws; tauto).
    assert (Hwd : Forall (direct v0) wd) by (rewrite C3, !Forall_app in Hws; tauto).
    pose proof (length_copy_after bd wd (writable_all bd Cp) Hwd) as Hl. rewrite <- Hc in Hl.
    destruct (write_lands v0 w s T Hw Hl Ew) as [Hl' E']. rewrite E' in E. injection E as <-.
    split; [by destruct U|]. apply (copy_post _ bd (wd ++ [w]) [] q mp todo); try done; [by rewrite C3, <- app_assoc|].
    split; [apply replica_ok; [done|by rewrite Hl']|]. cbn. rewrite Hc. unfold copy_after.
    by rewrite fmap_app, apply_writes_app.
Qed.
(** ** The main goroutine *)

Lemma open_term s : untouched s -> ChanHasTerminated (TermChan s) = false.
Proof using. intros [_ _ [H1 H2]]. unfold ChanHasTerminated, chan_recv. by rewrite H1, H2. Qed.

(** It reads the next packet. *)
Lemma reads s p l :
  untouched s -> mainPc s = MLoop -> decoder s = inl p :: l -> main_step nw s = dispatch p (set_decoder l s).
Proof using. intros U Hm Hd. unfold main_step. by rewrite Hm, (open_term s U), Hd. Qed.

Lemma send_queued q p s s' :
  send_queue q p s = Done s' ->
  exists c, cbuf c = cbuf (get_queue q s) ++ [p] /\ s' = set_mainPc MLoop (set_queue q c s).
Proof using.
  intros (c & E & [= <-])%abind_Done. unfold chan_send in E. destruct (cclosed _); [done|].
  destruct (_ <? _)%nat; [|done]. injection E as <-. eexists. split; [|reflexivity]. done.
Qed.

Lemma blocks_inv s s' bd hd q mid todo :
  untouched s -> hands_on mid s -> bs ≡ₚ bd ++ hd ++ q ++ mid ++ todo ->
  decoder s = (inl <$> (repl_block <$> todo) ++ copied :: (write_packet <$> ws)) ->
  cbuf (replicationQueue s) = (repl_block <$> q) -> replicating s = (repl_block <$> hd) -> replicationWorkers s = nw ->
  unwritten s -> holds bd [] s -> main_step nw s = Done s' -> copy_inv s'.
Proof using Hnw.
  intros U C1 C2 C3 C4 Cr C5 C6 C7 E. unfold hands_on in C1.
  destruct (mainPc s) as [|[] p| | | | | | | | | |] eqn:Hm; try done.
  - subst mid. destruct todo as [|b todo]; cbn [fmap list_fmap app] in C3; rewrite (reads s _ _ U Hm C3) in E.
    + unfold dispatch in E. cbn in E. apply abind_Done in E as (s1 & E1 & [= <-]). apply close_queue_Done in E1 as ->.
      split; [by destruct U|]. apply (copy_drain _ bd hd q); try done; [by rewrite C2, !app_nil_r|]. cbn. rewrite C5. lia.
    + injection E as <-. split; [by destruct U|]. apply (copy_blocks _ bd hd q [b] todo); try done. by exists b.
  - destruct C1 as (b & -> & ->). unfold main_step in E. rewrite Hm in E.
    apply send_queued in E as (c & Hb & ->). split; [by destruct U|]. apply (copy_blocks _ bd hd (q ++ [b]) [] todo); try done.
    + rewrite C2. by rewrite <- !app_assoc.
    + cbn. rewrite Hb. cbn. by rewrite C4, fmap_app.
Qed.

Lemma post_inv s s' bd wd fl q mp todo :
  untouched s -> in_main mp s -> in_worker fl s -> ws = wd ++ fl ++ q ++ mp ++ todo ->
  decoder s = (inl <$> (write_packet <$> todo)) -> cbuf (writeQueue s) = (write_packet <$> q) ->
  replicationWorkers s = 0%nat -> replicating s = [] -> state (srv s) = StateWriting -> bd ≡ₚ bs -> holds bd wd s ->
  main_step nw s = Done s' -> copy_inv s'.
Proof using.
  intros U C1 C2 C3 C4 C5 C6 Cr C7 Cp C8 E. unfold in_main in C1.
  destruct (mainPc s) as [|[] p| | | | | | | | | |] eqn:Hm; try done.
  - subst mp. destruct todo as [|w todo]; cbn [fmap list_fmap] in C4.
    { unfold main_step in E. by rewrite Hm, (open_term s U), C4 in E. }
    rewrite (reads s _ _ U Hm C4) in E. unfold dispatch in E. cbn in E. rewrite C7 in E. injection E as <-.
    split; [by destruct U|]. apply (copy_post _ bd wd fl q [w] todo); try done. by exists w.
  - destruct C1 as (w & -> & ->). unfold main_step in E. rewrite Hm in E.
    apply send_queued in E as (c & Hb & ->). split; [by destruct U|]. apply (copy_post _ bd wd fl (q ++ [w]) [] todo); try done.
    + by rewrite C3, <- !app_assoc.
    + cbn. rewrite Hb. cbn. by rewrite C5, fmap_app.
Qed.

Lemma copy_main_inv s s' : session_inv s -> copy_inv s -> main_step nw s = Done s' -> copy_inv s'.
Proof using Hnw.
  intros I [U C] E.
  destruct C as [C1 C2 C3 Cr C4 C5|C1 C2 C3 Cr C4 C5|bd hd q mid todo C1 C2 C3 C4 Cr C5 C6 C7|bd hd q C1 C2 C3 C4 Cr C5 C6 C7|
    bd wd fl q mp todo C1 C2 C3 C4 C5 C6 Cr C7 Cp C8].
  - rewrite (reads s _ _ U C1 C2) in E. unfold dispatch in E. cbn in E.
    apply abind_Done in E as (s1 & E1 & [= <-]). apply close_queue_Done in E1 as ->. split; [by destruct U|]. by apply copy_wait.
  - unfold main_step in E. rewrite C1 in E. destruct (_ =? _)%nat; [|done]. injection E as <-.
    split; [by destruct U|]. by apply (copy_blocks _ [] [] [] [] bs).
  - by apply (blocks_inv s s' bd hd q mid todo).
  - unfold main_step in E. rewrite C1 in E. destruct (Nat.eqb_spec (replicationWorkers s) 0) as [H0|]; [|done].
    injection E as <-. pose proof (si_repl _ I) as Hl. rewrite H0, Cr, length_fmap in Hl.
    assert (hd = []) as -> by (apply nil_length_inv; lia). rewrite (C5 H0), !app_nil_r in C2. destruct C6 as [W1 W2].
    split; [by destruct U|]. apply (copy_post _ bd [] [] [] [] ws); try done. unfold in_worker; cbn. by rewrite W1.
  - by apply (post_inv s s' bd wd fl q mp todo).
Qed.
(** ** Every schedule *)

Lemma copying_healthy s : copying s -> healthy (TargetDevFd (srv s)).
Proof using.
  by intros [? ? ? ? ? [[? _] _]|? ? ? ? ? [[? _] _]|? ? ? ? ? ? ? ? ? ? ? ? [[? _] _]|? ? ? ? ? ? ? ? ? ? [[? _] _]|
    ? ? ? ? ? ? ? ? ? ? ? ? ? ? ? [[? _] _]].
Qed.

Lemma copy_step e s s' :
  e <> EShutdown -> session_inv s -> copy_inv s -> step xxhash nw e s = Done s' -> copy_inv s'.
Proof using Hnw Hbs Hws.
  intros He I C E. pose proof C as [U C']. pose proof (copying_healthy s C') as Hh.
  destruct e as [| | | | |i|e|k e|]; try done; cbn [step] in E.
  - by apply (copy_main_inv s).
  - destruct (unseen_journal s s' (ut_journal _ U) E). split; [by apply (unseen_untouched s)|by apply (unseen_copying s)].
  - destruct (ut_correct _ U) as [Hn Hq]. by destruct (idle_correct s s' Hn Hq).
  - by apply (write_inv s).
  - by apply (replication_inv s).
  - by apply (replication_write_inv i s).
  - destruct (unseen_hash xxhash nw e s s' Hh E). split; [by apply (unseen_untouched s)|by apply (unseen_copying s)].
  - destruct (unseen_stray xxhash k e s s' Hh E). split; [by apply (unseen_untouched s)|by apply (unseen_copying s)].
Qed.

Lemma copy_run es s s' :
  EShutdown ∉ es -> session_inv s -> copy_inv s -> run xxhash nw es s = Done s' -> copy_inv s'.
Proof using Hnw Hbs Hws.
  revert s. induction es as [|e es IH]; intros s Hes I C H; cbn [run] in H; [by injection H as <-|].
  apply not_elem_of_cons in Hes as [He Hes]. apply abind_Done in H as (s1 & E & H).
  apply (IH s1); [done|by eapply step_inv| |done]. by apply (copy_step e s).
Qed.

(** At rest everything is on the replica. *)
Lemma copy_settled s :
  copy_inv s -> server_idle s -> exists bd, bd ≡ₚ bs /\ content (TargetDevFd (srv s)) = copy_after bd ws.
Proof using.
  intros [_ C] (S1 & S2 & S3 & S4 & S5).
  destruct C as [C1 C2 C3 Cr C4 C5|C1 C2 C3 Cr C4 C5|bd hd q mid todo C1 C2 C3 C4 Cr C5 C6 C7|bd hd q C1 C2 C3 C4 Cr C5 C6 C7|
    bd wd fl q mp todo C1 C2 C3 C4 C5 C6 Cr C7 Cp [_ C8]].
  - by rewrite S2 in C2.
  - by rewrite S1 in C1.
  - rewrite S2 in C3. by destruct todo.
  - by rewrite S1 in C1.
  - unfold in_main in C1. rewrite S1 in C1. unfold in_worker in C2. rewrite S4 in C2. subst mp fl.
    rewrite S2 in C4. rewrite S5 in C5. destruct todo; [|done]. destruct q; [|done].
    rewrite !app_nil_r in C3. exists bd. by rewrite C8, C3.
Qed.

(** ** The replication can be finished *)

Definition copy_left (s : Session) : nat :=
  length (decoder s) * (7 + nw) + 2 * length (cbuf (replicationQueue s)) + length (replicating s) + replicationWorkers s +
  2 * length (cbuf (writeQueue s)) + match writePc s with WIdle => 0 | _ => 1 end +
  match mainPc s with MSend _ _ => 4 | MStartReplication => nw + 2 | MReplicationCompleted => 1 | _ => 0 end.

(** A step that goes on. *)
Definition goes_on (s : Session) : Prop :=
  exists e s', e <> EShutdown /\ step xxhash nw e s = Done s' /\ (copy_left s' < copy_left s)%nat.

Ltac goes_by := eexists; split; [done|]; split; [reflexivity|]; unfold copy_left; cbn.

(** The workers have blocks to write, or to take. *)
Lemma block_goes_on s bd hd q rest :
  cbuf (replicationQueue s) = (repl_block <$> q) -> replicating s = (repl_block <$> hd) -> hd ++ q <> [] ->
  (0 < replicationWorkers s)%nat -> bs ≡ₚ bd ++ hd ++ rest -> holds bd [] s -> goes_on s.
Proof using Hnw Hbs.
  intros Hq Hr Hn Hw Hp Hh. destruct hd as [|b hd].
  - destruct q as [|b q]; [done|]. exists EReplication. cbn [step]. unfold replication_step.
    destruct (replicationWorkers s) as [|n] eqn:En; [lia|]. rewrite Hr. cbn [length fmap list_fmap]. cbn [Nat.ltb Nat.leb].
    unfold chan_recv. rewrite Hq. cbn [abind fmap list_fmap]. goes_by. rewrite Hq, Hr, En. cbn. lia.
  - assert (E : exists s', replication_write_step 0 s = Done s').
    { destruct Hh as [T Hc]. unfold replication_write_step. rewrite Hr. cbn [fmap list_fmap lookup list_lookup].
      assert (Hb : Forall (writable (length R)) (bd ++ [b])) by (apply (writable_prefix _ (hd ++ rest)); by rewrite Hp, <- app_assoc).
      apply Forall_app in Hb as [Hbd [Hb _]%Forall_cons].
      pose proof (length_copy_after bd [] Hbd ltac:(constructor)) as Hl. rewrite <- Hc in Hl. rewrite <- Hl in Hb.
      unfold on_srv. rewrite copy_block by done. by eexists. }
    destruct E as (s' & E). exists (EReplWrite 0), s'. split; [done|]. split; [exact E|].
    destruct (block_written 0 s s' bd (b :: hd) rest E Hr Hp Hh) as (x & v & -> & _). unfold copy_left. cbn.
    rewrite Hr. cbn. change (delete 0%nat (b :: hd)) with hd. destruct (mainPc s); lia.
Qed.

(** A worker sees the closed queue. *)
Lemma worker_leaves s :
  cbuf (replicationQueue s) = [] -> replicating s = [] -> cclosed (replicationQueue s) = true -> (0 < replicationWorkers s)%nat ->
  healthy (TargetDevFd (srv s)) -> goes_on s.
Proof using Hnw.
  intros Hq Hr Hc Hw Hh.
  exists EReplication. cbn [step]. unfold replication_step. destruct (replicationWorkers s) as [|n] eqn:En; [lia|].
  rewrite Hr. cbn [length Nat.ltb Nat.leb].
  unfold chan_recv. rewrite Hq, Hc. cbn [abind]. destruct (n =? 0)%nat.
  - unfold on_srv, ignore, bind, catch, on_target, zoom, Sync. cbn [srv set_workers].
    rewrite sys_unit_healthy by done. goes_by. rewrite Hq, Hr, En. lia.
  - goes_by. rewrite Hq, Hr, En. lia.
Qed.

Lemma post_goes_on s bd wd fl q mp todo :
  session_inv s -> untouched s -> in_main mp s -> in_worker fl s -> ws = wd ++ fl ++ q ++ mp ++ todo ->
  decoder s = (inl <$> (write_packet <$> todo)) -> cbuf (writeQueue s) = (write_packet <$> q) ->
  state (srv s) = StateWriting -> bd ≡ₚ bs -> holds bd wd s -> server_idle s \/ goes_on s.
Proof using Hnw Hbs Hws.
  intros I U C1 C2 C3 C4 C5 C6 Cp [T Hc]. unfold in_worker in C2. destruct (writePc s) as [|data off] eqn:Ew.
  2:{ right. destruct C2 as (w & -> & -> & ->). exists EWrite. cbn [step].
      assert (Hw : direct v0 w) by (rewrite C3, !Forall_app, Forall_cons in Hws; tauto).
      assert (Hwd : Forall (direct v0) wd) by (rewrite C3, !Forall_app in Hws; tauto).
      pose proof (length_copy_after bd wd (writable_all bd Cp) Hwd) as Hl. rewrite <- Hc in Hl.
      destruct (write_lands v0 w s T Hw Hl Ew) as [_ E]. rewrite E. goes_by. rewrite Ew. lia. }
  subst fl. destruct q as [|w q].
  2:{ right. exists EWrite. cbn [step]. unfold write_step, chan_recv. rewrite Ew, C5. cbn [abind fmap list_fmap].
      cbn [srv set_queue Payload write_packet]. rewrite bool_decide_eq_true_2 by done. cbn [negb].
      assert (Hw : direct v0 w) by (rewrite C3, !Forall_app, Forall_cons in Hws; tauto).
      rewrite slice_trim by apply Hw. goes_by. rewrite C5, Ew. cbn. lia. }
  unfold in_main in C1. destruct (mainPc s) as [|[] p| | | | | | | | | |] eqn:Hm; try done.
  - subst mp. destruct todo as [|w todo]; [left; by rewrite C4, C5 || split_and!|]. right. exists EMain. cbn [step].
    rewrite !fmap_cons in C4. rewrite (reads s _ _ U Hm C4). unfold dispatch. cbn. rewrite C6. goes_by.
    rewrite C4, Hm. cbn. lia.
  - right. destruct C1 as (w & -> & ->). exists EMain. cbn [step]. unfold main_step. rewrite Hm. unfold send_queue.
    assert (Ho : open (get_queue QWrite s)) by (unfold open; by rewrite (si_closed _ I), Hm).
    destruct (send_cases (write_packet w) _ Ho) as [[_ Hf]|[-> _]].
    { rewrite (si_cap _ I) in Hf. cbn in Hf. rewrite C5 in Hf. cbn in Hf. lia. }
    cbn. goes_by. rewrite C5, Hm. cbn. lia.
Qed.

Lemma copy_progress s : session_inv s -> copy_inv s -> server_idle s \/ goes_on s.
Proof using Hnw Hbs Hws.
  intros I [U C]. pose proof (copying_healthy s C) as Hh.
  destruct C as [C1 C2 C3 Cr C4 C5|C1 C2 C3 Cr C4 C5|bd hd q mid todo C1 C2 C3 C4 Cr C5 C6 C7|bd hd q C1 C2 C3 C4 Cr C5 C6 C7|
    bd wd fl q mp todo C1 C2 C3 C4 C5 C6 Cr C7 Cp C8].
  - right. exists EMain. cbn [step]. unfold replication in C2. rewrite fmap_cons in C2. rewrite (reads s _ _ U C1 C2). unfold dispatch. cbn.
    assert (Ho : cclosed (replicationQueue s) = false) by (pose proof (si_closed _ I QReplication) as H; by rewrite C1 in H).
    unfold close_queue, chan_close. cbn. rewrite Ho. goes_by. rewrite C1, C2. cbn. lia.
  - right. destruct (Nat.eqb_spec (replicationWorkers s) 0) as [H0|H0].
    + exists EMain. cbn [step]. unfold main_step. rewrite C1, H0. goes_by. rewrite C1, C3, H0. lia.
    + apply worker_leaves; [done|done| |lia|done]. pose proof (si_closed _ I QReplication) as H. by rewrite C1 in H.
  - right. destruct (decide (hd ++ q = [])) as [[-> ->]%app_eq_nil|Hn].
    2:{ apply (block_goes_on s bd hd q (q ++ mid ++ todo)); try done. lia. }
    exists EMain. cbn [step]. unfold hands_on in C1. destruct (mainPc s) as [|[] p| | | | | | | | | |] eqn:Hm; try done.
    + destruct todo as [|b todo]; rewrite ?fmap_cons in C3; cbn [app] in C3; rewrite ?fmap_nil, ?app_nil_l, ?fmap_cons in C3; rewrite (reads s _ _ U Hm C3); unfold dispatch; cbn.
      * assert (Ho : cclosed (replicationQueue s) = false) by (pose proof (si_closed _ I QReplication) as H; by rewrite Hm in H).
        unfold close_queue, chan_close. cbn. rewrite Ho. goes_by. rewrite C3, Hm. cbn. lia.
      * goes_by. rewrite C3, Hm. cbn. lia.
    + destruct C1 as (b & -> & ->). unfold main_step. rewrite Hm. unfold send_queue.
      assert (Ho : open (get_queue QReplication s)) by (unfold open; by rewrite (si_closed _ I), Hm).
      destruct (send_cases (repl_block b) _ Ho) as [[_ Hf]|[-> _]].
      { rewrite (si_cap _ I) in Hf. cbn in Hf. rewrite C4 in Hf. cbn in Hf. lia. }
      cbn. goes_by. rewrite C4, Hm. cbn. lia.
  - right. destruct (decide (hd ++ q = [])) as [[-> ->]%app_eq_nil|Hn].
    2:{ apply (block_goes_on s bd hd q q); try done.
        destruct (Nat.eqb_spec (replicationWorkers s) 0) as [H0|H0]; [|lia]. exfalso. apply Hn.
        pose proof (si_repl _ I) as Hl. rewrite H0, Cr, length_fmap in Hl. rewrite (C5 H0), app_nil_r.
        apply nil_length_inv. lia. }
    destruct (Nat.eqb_spec (replicationWorkers s) 0) as [H0|H0].
    + exists EMain. cbn [step]. unfold main_step. rewrite C1, H0. goes_by. rewrite C1, C4, H0. cbn. lia.
    + apply worker_leaves; [done|done| |lia|done]. pose proof (si_closed _ I QReplication) as H. by rewrite C1 in H.
  - by apply (post_goes_on s bd wd fl q mp todo).
Qed.

Lemma copy_can_finish s : session_inv s -> copy_inv s -> leads xxhash nw server_idle s.
Proof using Hnw Hbs Hws.
  intros I C. apply (leads_measure xxhash nw copy_left (fun s => session_inv s /\ copy_inv s)); [|done].
  clear s I C. intros s [I C]. destruct (copy_progress s I C) as [?|(e & s' & He & E & Hlt)]; [by left|]. right.
  exists e, s'. split_and!; [done|done|by eapply step_inv|by apply (copy_step e s)|by right].
Qed.
End Replication.
