(* ===== verification/ClientOutput.v ===== *)
(** * What the client sends in a scan is what the server expects

    The phases of the client's scan ([stage]) against the packets the server can
    journal, replay and write ([valid]): corrections and buffered writes that fit
    the journal and the replica, then the end of the scan, then direct writes. *)
From S2P Require Import Prelude GoInt GoMonad GoChan Utils BlockDev Blocks Image Networking.
From S2P Require Import RingBuffer Pause Client ClientFacts ClientProps ClientSession ClientSafety ClientSends.
From S2P Require Import ClientScan ClientFlush ClientSteady ClientRun.
From S2P Require Import Journal JournalCodec JournalSlots JournalSpec JournalOps.
From S2P Require Import Server ServerReplay ServerJournal ServerProps ServerPaths Session SessionSafety SessionScan SessionStream.
Open Scope Z_scope.

(** A packet that the journal [h] takes for section [x] and that lies inside a
    disk of [n] bytes. *)
Definition takes (h : Header) (n : nat) (x : section) (p : Packet) : Prop :=
  exists b, pkt_block p = Some (x, Some b) /\ sendable b /\ 12 + Size b <= slotSize h x /\ IsValid b = true /\
    fits n (to_write (trim b)).

Section Output.
Context (v0 : Server) (j0 : Journal).
#[local] Abbreviation R := (content (TargetDevFd v0)).
#[local] Abbreviation takes_at := (takes (header j0) (length R)).

Lemma takes_journal x p : takes_at x p -> journal_packet p.
Proof using.
  intros (b & E & _). split; [|unfold well_typed; by rewrite E].
  unfold pkt_block in E. destruct (Z.eqb_spec (PacketType p) PacketTypePayloadBufferWrite); [by left|].
  destruct (Z.eqb_spec (PacketType p) PacketTypePayloadCorrectBlock); [by right|done].
Qed.

Lemma takes_block x p : takes_at x p -> exists b, (forall y, blocks_of y [p] = if bool_decide (y = x) then [b] else []) /\
  wf_block b /\ fits (length R) (to_write b).
Proof using.
  intros (b & E & Hs & _ & _ & Hf). exists (trim b). split_and!; [|by apply trim_wf|done].
  intros y. unfold blocks_of. cbn. rewrite E. by case_bool_decide.
Qed.

Lemma blocks_of_takes x y ps :
  Forall (takes_at x) ps -> blocks_of y ps = if bool_decide (y = x) then blocks_of x ps else [].
Proof using.
  induction 1 as [|p ps Hp Hps IH]; [by case_bool_decide|].
  destruct (takes_block x p Hp) as (b & Hb & _).
  rewrite !(blocks_of_app _ [p] ps), IH, Hb, (Hb x). rewrite (bool_decide_eq_true_2 (x = x)) by done.
  by case_bool_decide.
Qed.

Lemma length_blocks_takes x ps : Forall (takes_at x) ps -> length (blocks_of x ps) = length ps.
Proof using.
  induction 1 as [|p ps Hp Hps IH]; [done|]. destruct (takes_block x p Hp) as (b & Hb & _).
  rewrite (blocks_of_app _ [p] ps), Hb, bool_decide_eq_true_2 by done. cbn. by rewrite IH.
Qed.

(** The buffered writes among packets, up to the end of the scan. *)
Fixpoint buffered (ps : list Packet) : nat :=
  match ps with
  | [] => 0%nat
  | p :: ps =>
      if PacketType p =? PacketTypeInfoHashingCompleted then 0%nat
      else ((if (PacketType p =? PacketTypePayloadBufferWrite)%Z then 1 else 0) + buffered ps)%nat
  end.

Lemma buffered_app ps qs : (buffered ps <= buffered (ps ++ qs))%nat.
Proof using. induction ps as [|p ps IH]; cbn; [lia|]. case_match; lia. Qed.

Lemma buffered_takes x ps qs :
  Forall (takes_at x) ps ->
  buffered (ps ++ qs) = (match x with BufWrites => length ps | CorrBlocks => 0 end + buffered qs)%nat.
Proof using.
  induction 1 as [|p ps Hp Hps IH]; [by destruct x|]. cbn. rewrite IH. destruct Hp as (b & E & _). unfold pkt_block in E.
  destruct (Z.eqb_spec (PacketType p) PacketTypePayloadBufferWrite) as [->|]; [|destruct (Z.eqb_spec (PacketType p)
    PacketTypePayloadCorrectBlock) as [->|]; [|done]]; injection E as <- _; cbn; lia.
Qed.

Lemma takes_good cs bs :
  Forall (takes_at CorrBlocks) cs -> Forall (takes_at BufWrites) bs ->
  Z.of_nat (length cs) <= slotCount (header j0) CorrBlocks ->
  Z.of_nat (length bs) <= slotCount (header j0) BufWrites -> good v0 j0 (cs ++ bs).
Proof using.
  intros Hc Hb Lc Lb.
  assert (Hx : forall y, blocks_of y (cs ++ bs) = match y with BufWrites => blocks_of BufWrites bs | CorrBlocks => blocks_of CorrBlocks cs end).
  { intros y. rewrite blocks_of_app, (blocks_of_takes CorrBlocks y cs Hc), (blocks_of_takes BufWrites y bs Hb).
    destruct y; repeat case_bool_decide; try done. by rewrite app_nil_r. }
  assert (Hok : forall x p, takes_at x p -> pkt_ok (header j0) p)
    by (intros x p (b & E & H1 & H2 & H3 & _); unfold pkt_ok; by rewrite E).
  assert (Hw : forall x ps, Forall (takes_at x) ps -> Forall (fun b => wf_block b /\ fits (length R) (to_write b)) (blocks_of x ps)).
  { intros x ps. induction 1 as [|p ps Hp Hps IH]; [constructor|]. destruct (takes_block x p Hp) as (b & Eb & Hbw).
    rewrite (blocks_of_app _ [p] ps), Eb, bool_decide_eq_true_2 by done. by constructor. }
  split.
  - apply Forall_app. split; eapply Forall_impl; [exact Hc|apply Hok|exact Hb|apply Hok].
  - apply Forall_app. split; eapply Forall_impl; [exact Hc|apply takes_journal|exact Hb|apply takes_journal].
  - intros x. rewrite Hx. destruct x; by rewrite length_blocks_takes.
  - intros x. rewrite a_sec_append_all, Hx. destruct x; cbn; by apply Hw.
Qed.

(** ** Corrections *)

Context (xxhash : list byte -> Z) (S0 : list byte) (t : TargetInfo) (n : nat) (Ht : wf_target t n).
Context (Hlen : length R = length S0) (Hsize : Z.of_nat (length S0) < 2 ^ 63).
#[local] Abbreviation offs := (block_offsets (dev_size (TargetDevFd v0)) HashedSpaceBase).
#[local] Abbreviation len o := (block_len (Z.of_nat (length R)) o).
Context (Hcs : Forall (fun o => 12 + len o <= slotSize (header j0) CorrBlocks) offs).
Context (Hbs : 12 + PageSize t <= slotSize (header j0) BufWrites).
Context (Hcc : Z.of_nat (length offs) <= slotCount (header j0) CorrBlocks).

Lemma offs_in o : o ∈ offs -> 0 <= o < Z.of_nat (length R).
Proof using Hlen Hsize.
  intros Hin. unfold dev_size, HashedSpaceBase, HashedBlockSize in Hin.
  apply block_offsets_elem in Hin as (i & Hi & -> & Hlt); lia.
Qed.

Lemma correct_takes W o time :
  o ∈ offs -> Forall (fits (length S0)) W -> takes_at CorrBlocks (correct_packet (src S0 W time) o (len o)).
Proof using Hlen Hsize Hcs.
  intros Ho HW. pose proof (offs_in o Ho) as Hr. rewrite Forall_forall in Hcs. specialize (Hcs o Ho).
  assert (Hl : 0 < len o <= 262144 /\ o + len o <= Z.of_nat (length R))
    by (unfold block_len, HashedSpaceBase, HashedBlockSize; lia).
  assert (Hs : length (sub (Z.to_nat o) (Z.to_nat (len o)) (src S0 W time)) = Z.to_nat (len o))
    by (rewrite length_sub; [lia|rewrite src_length by done; lia]).
  eexists. split; [reflexivity|]. unfold sendable, IsValid, trim, fits, to_write; cbn.
  rewrite length_take, Hs. cbn in Hcs. split_and!; unfold is_u64, is_u32; lia.
Qed.

Lemma corrections_takes W items :
  (forall ot, ot ∈ items -> ot.1 ∈ offs) -> Forall (fits (length S0)) W ->
  Forall (takes_at CorrBlocks) (corrections xxhash S0 R W items).
Proof using Hlen Hsize Hcs.
  intros Hi HW. apply Forall_forall. intros p (ot & -> & [_ Hin]%list_elem_of_filter)%list_elem_of_fmap.
  apply correct_takes; auto.
Qed.

Lemma corrections_length W items rest :
  (fst <$> items) ++ rest ≡ₚ offs -> Z.of_nat (length (corrections xxhash S0 R W items)) <= slotCount (header j0) CorrBlocks.
Proof using Hcc.
  clear Hlen Hsize. intros Hp%Permutation_length. rewrite length_app, length_fmap in Hp. unfold corrections. rewrite length_fmap.
  pose proof (length_filter (fun ot => differs xxhash S0 R W ot = true) items). lia.
Qed.

(** ** Buffered writes *)

Lemma carries_sendable p e :
  carries t p e -> wf_entry t e ->
  exists w, p = write_packet w /\ sendable w /\ Size w <= PageSize t /\ IsValid w = true /\ to_write (trim w) = entry_write e.
Proof using Ht.
  clear Hlen Hsize Hcc Hbs. intros (w & -> & Ho & Hs & Hd & Hp) [Hu Hl]. pose proof (wt_page _ _ Ht) as Hpg. exists w.
  split; [done|]. unfold is_u32 in Hu. split; [|split; [lia|]; split].
  - unfold sendable. rewrite Ho, Hs, Hp. unfold KernelLogicalSectorSize. split_and!; unfold is_u64, is_u32; width_tac.
  - unfold IsValid. rewrite Hs. apply negb_true_iff, Z.eqb_neq. lia.
  - unfold to_write, trim, entry_write; cbn. by rewrite Ho, Hs, Nat2Z.id, Hd.
Qed.

Lemma batch_takes ps log :
  Forall2 (carries t) ps log -> Forall (wf_entry t) log -> Forall (fits (length S0)) (entry_write <$> log) ->
  Forall (takes_at BufWrites) ps.
Proof using Ht Hbs Hlen.
  induction 1 as [|p e ps log Hp Hps IH]; intros Hw Hf; [constructor|]. cbn in Hf.
  apply Forall_cons in Hw as [Hwe Hw]. apply Forall_cons in Hf as [Hfe Hf]. constructor; [|by apply IH].
  destruct (carries_sendable p e Hp Hwe) as (w & -> & H1 & H2 & H3 & H4). exists w. split_and!; try done; [lia|].
  by rewrite H4, Hlen.
Qed.

Lemma batch_direct ps log :
  Forall2 (carries t) ps log -> Forall (wf_entry t) log -> Forall (fits (length S0)) (entry_write <$> log) ->
  exists ws, ps = (write_packet <$> ws) /\ Forall (direct v0) ws /\ to_write ∘ trim <$> ws = entry_write <$> log.
Proof using Ht Hlen.
  clear Hsize Hcc Hbs.
  induction 1 as [|p e ps log Hp Hps IH]; intros Hw Hf; [by exists []|]. cbn in Hf.
  apply Forall_cons in Hw as [Hwe Hw]. apply Forall_cons in Hf as [Hfe Hf].
  destruct (IH Hw Hf) as (ws & -> & Hd & E). destruct (carries_sendable p e Hp Hwe) as (w & -> & H1 & H2 & H3 & H4).
  exists (w :: ws). split; [done|]. split; [constructor; [|done]|cbn; by rewrite H4, E].
  split; [done|]. by rewrite H4, Hlen.
Qed.

(** ** The phases of the scan *)

Context (base : list Packet).

(** What has been sent: corrections [W items], then the entries [log1], then, if
    [ended], the end of the scan and the entries [log2]. *)
Record output (T : list write) (cps : list Packet) (W : list write) (items : list (Z * nat))
  (log1 : list RingBuffer.entry) (log2 : option (list RingBuffer.entry)) : Prop := {
  op_items : exists rest, (fst <$> items) ++ rest ≡ₚ offs /\ (log2 <> None -> rest = []);
  op_times : Forall (fun ot => (ot.2 <= length W)%nat) items;
  op_packets : exists out1 out2, Forall2 (carries t) out1 log1 /\ Forall2 (carries t) out2 (default [] log2) /\
    cps = corrections xxhash S0 R W items ++ out1 ++ match log2 with None => [] | Some _ => end_of_scan :: out2 end;
  op_wf1 : Forall (wf_entry t) log1;
  op_wf2 : Forall (wf_entry t) (default [] log2);
  op_prefix : log2 <> None -> W `prefix_of` (entry_write <$> log1);
  op_all : W `prefix_of` T /\ (entry_write <$> log1 ++ default [] log2) `prefix_of` T;
}.

Lemma output_good T cps W items log1 log2 :
  Forall (fits (length S0)) T -> Z.of_nat (buffered cps) <= slotCount (header j0) BufWrites ->
  output T cps W items log1 log2 ->
  exists out1 ws, good v0 j0 (corrections xxhash S0 R W items ++ out1) /\ Forall2 (carries t) out1 log1 /\
    Forall (direct v0) ws /\ to_write ∘ trim <$> ws = entry_write <$> default [] log2 /\
    cps = (corrections xxhash S0 R W items ++ out1) ++
      match log2 with None => [] | Some _ => completed :: (write_packet <$> ws) end.
Proof using Ht Hlen Hsize Hcs Hbs Hcc.
  intros HT Hbc [(rest & Hi & _) Htm (out1 & out2 & H1 & H2 & Hcps) Hw1 Hw2 _ [[T1 HW] [T2 Hl]]].
  assert (HWf : Forall (fits (length S0)) W) by (rewrite HW in HT; by apply Forall_app in HT as [? _]).
  assert (Hf : Forall (fits (length S0)) (entry_write <$> log1) /\ Forall (fits (length S0)) (entry_write <$> default [] log2)).
  { rewrite Hl, fmap_app in HT. apply Forall_app in HT as [HT _]. by apply Forall_app. }
  destruct Hf as [Hf1 Hf2]. destruct (batch_direct out2 _ H2 Hw2 Hf2) as (ws & -> & Hd & Ed).
  assert (Hcor : Forall (takes_at CorrBlocks) (corrections xxhash S0 R W items)).
  { apply corrections_takes; [|done]. intros ot Hin. rewrite <- Hi, elem_of_app. left.
    by apply list_elem_of_fmap_2. }
  pose proof (batch_takes out1 log1 H1 Hw1 Hf1) as Hout. exists out1, ws. split_and!; [|done|done|done|
    rewrite Hcps, <- app_assoc; by destruct log2].
  apply takes_good; [done|done|by apply (corrections_length W items rest)|].
  rewrite Hcps, (buffered_takes CorrBlocks _ _ Hcor), (buffered_takes BufWrites _ _ Hout) in Hbc. lia.
Qed.

(** So the server can take it all; and the end of the scan is in it only when
    [log2] says so. *)
Lemma output_valid T cps W items log1 log2 :
  Forall (fits (length S0)) T -> Z.of_nat (buffered cps) <= slotCount (header j0) BufWrites ->
  output T cps W items log1 log2 -> valid v0 j0 cps /\ (completed ∈ cps -> log2 <> None).
Proof using Ht Hlen Hsize Hcs Hbs Hcc.
  intros HT Hbc O. destruct (output_good T cps W items log1 log2 HT Hbc O) as (out1 & ws & G & _ & Hd & _ & Hcps).
  rewrite Hcps. clear Hbc.
  split.
  - eexists. split; [exact G|]. destruct log2; [right; by exists ws|left; by rewrite app_nil_r].
  - intros Hin ->. rewrite app_nil_r in Hin. pose proof (gd_typed _ _ _ G) as Hj. rewrite Forall_forall in Hj.
    by apply completed_not_journal, Hj.
Qed.

(** The client has sent all there is: no entry of the ring is pending and the monitor is not
    in a batch. *)
Definition client_drained (s : CSession) : Prop :=
  biLength (buffer_info (kernel (cl s))) = 0 /\
  match monitorPc s with MEntries _ _ => False | _ => True end.

Lemma given_up_new s cps : given_up base s -> csent (cl s) = base ++ cps -> new_scan ∈ cps.
Proof using. intros (_ & _ & H) E. by rewrite E, drop_app_length in H. Qed.

Lemma steady_drained R' order fin T W items o1 o2 l1 l2 es i W2 s :
  steady xxhash S0 R' order base fin t n W T items o1 o2 l1 l2 es i W2 s -> client_drained s ->
  (entry_write <$> l1 ++ l2) = T.
Proof using.
  intros [P1 P2 P3 P4 P5 P6 P7 P8 P9 P10 P11 P12 P13 P14 P15 P16 P17 P18 P19 P20 P21 P22] [He Hm].
  unfold monitor_at in P22. assert (i = length es) as -> by (by destruct (monitorPc s)).
  rewrite drop_all, app_nil_r in P20. destruct P21 as (a & Ra & _ & _ & Hw).
  pose proof (rr_length _ _ _ _ Ra) as HL.
  rewrite He in HL. assert (Hl : a_lost a = false) by (clear -HL; destruct (a_lost a); [lia|done]).
  rewrite Hl in HL. assert (Hp : a_pending a = []) by (apply nil_length_inv; clear -HL; lia).
  rewrite <- (Hw Hl), Hp in P20. by rewrite P20, app_nil_r.
Qed.

Lemma stage_output order T s cps :
  stage xxhash S0 R order base t n T s -> csent (cl s) = base ++ cps -> order ≡ₚ offs ->
  new_scan ∈ cps \/
  (Forall (fits (length S0)) T /\ content (UnderDevFile (cl s)) = apply_writes T S0 /\
   exists W items log1 log2, output T cps W items log1 log2 /\
    (log2 <> None -> incoming s = [] /\ (client_drained s -> (entry_write <$> log1 ++ default [] log2) = T))).
Proof using.
  intros St E Ho. destruct St as [H|[(W & W2 & items & es & i & ps & -> & F)|[(todo & q & fl & dn & I)|H]]].
  - left. by eapply given_up_new.
  - right. destruct F as [F1 F2 F3 F4 F5 F6 F7 F8 F9 F10 F11 F12 F13 F14 F15 F16 F17]. split; [done|]. split; [by rewrite F2|].
    rewrite E in F11. apply app_inv_head in F11. exists W, items, (take i es), None. split; [|done].
    split; cbn; try done.
    + exists []. by rewrite app_nil_r, F9.
    + exists ps, []. rewrite app_nil_r. by split_and!.
    + by apply Forall_take.
    + split; [by apply prefix_app_r|]. rewrite app_nil_r, <- F13. apply prefix_app_r.
      rewrite <- (take_drop i es) at 2. rewrite fmap_app. by apply prefix_app_r.
  - right. destruct I as [I1 I2 I3 I4 I5 I6 I7 I8 I9 I10 I11 I12 I13 I14]. split; [done|]. split; [by rewrite I2|].
    rewrite E in I7. apply app_inv_head in I7. exists T, dn, [], None. split; [|done]. split; cbn; try done.
    + exists ((fst <$> fl) ++ q ++ todo). by rewrite I9.
    + by apply Forall_app in I8 as [_ ?].
    + exists [], []. by rewrite !app_nil_r.
    + split; [done|]. apply prefix_nil.
  - right. destruct H as (W & items & o1 & o2 & l1 & l2 & es & i & W2 & P).
    pose proof (steady_drained _ _ _ _ _ _ _ _ _ _ _ _ _ _ P) as Hdr.
    destruct P as [P1 P2 P3 P4 P5 P6 P7 P8 P9 P10 P11 P12 P13 P14 P15 P16 P17 P18 P19 P20 P21 P22]. split; [done|]. split; [by rewrite P2|].
    rewrite E in P13. apply app_inv_head in P13.
    assert (Hall : (entry_write <$> l1 ++ l2) `prefix_of` T).
    { rewrite P20, !fmap_app, (app_assoc (entry_write <$> l1)), <- app_assoc. by apply prefix_app_r. }
    assert (HW : W `prefix_of` T) by (etrans; [exact P16|]; etrans; [|exact Hall]; rewrite fmap_app; by apply prefix_app_r).
    unfold announcement in P13. destruct (listenPc s) eqn:Hl; try done.
    + exists W, items, l1, (Some l2). split; [|done]. split; cbn; try done.
      * exists []. by rewrite app_nil_r, P10.
      * by exists o1, o2.
    + destruct P12 as (_ & -> & ->). exists W, items, l1, None. split; [|done]. split; cbn; try done.
      * exists []. by rewrite app_nil_r, P10.
      * by exists o1, [].
Qed.

(** As long as the client has received nothing, it has sent nothing. *)
Lemma stage_unread order T s :
  stage xxhash S0 R order base t n T s -> (length order + 2 <= length (incoming s))%nat -> csent (cl s) = base.
Proof using.
  clear Hlen Hsize. intros St Hl. destruct St as [(Hi & _)|[(W & W2 & items & es & i & ps & _ & F)|[(todo & q & fl & dn & I)|H]]].
  - rewrite Hi in Hl. cbn in Hl. lia.
  - rewrite (fl_incoming _ _ _ _ _ _ _ _ _ _ _ _ _ _ F) in Hl. cbn in Hl. lia.
  - destruct I as [I1 I2 I3 I4 I5 I6 I7 I8 I9 I10 I11 [_ I12] I13 I14].
    apply Permutation_length in I9. rewrite !length_app, !length_fmap in I9.
    assert (Hs : forall l, length (ClientScan.stream xxhash R l) = S (length l))
      by (intros l; unfold ClientScan.stream; rewrite length_app, length_fmap; cbn; lia).
    assert (K : length dn = 0%nat).
    { unfold working_at, idle_at in I12. destruct I12 as [[_ Hp]|(_ & _ & _ & Hp)]; destruct (listenPc s); try done.
      - rewrite Hp, Hs in Hl. lia.
      - destruct Hp as (o & todo' & -> & _ & Hp). rewrite Hp, Hs in Hl. cbn in I9. lia.
      - destruct Hp as [_ Hp]. rewrite Hp in Hl. cbn in Hl. lia.
      - rewrite Hp in Hl. cbn [length] in Hl. rewrite Hs in Hl. lia.
      - rewrite Hp, Hs in Hl. lia.
      - destruct Hp as [_ Hp]. rewrite Hp in Hl. cbn in Hl. lia.
      - destruct Hp as [_ Hp]. rewrite Hp in Hl. cbn in Hl. lia. }
    apply nil_length_inv in K as ->. by rewrite I7, app_nil_r.
  - destruct H as (W & items & o1 & o2 & l1 & l2 & es & i & W2 & P).
    rewrite (st_incoming _ _ _ _ _ _ _ _ _ _ _ _ _ _ _ _ _ _ _ P) in Hl. cbn in Hl. lia.
Qed.
End Output.
