(* ===== verification/ClientDrain.v ===== *)
(** * After a scan the client catches up

    Once the writes to the source pause, the monitor empties the ring and its
    batch: from every state after a scan some schedule leads to one in which
    nothing is pending, unless the ring has overflown and another scan begins. *)
From S2P Require Import Prelude GoInt GoMonad GoChan Utils BlockDev Blocks Image Networking Journal Pause.
From S2P Require Import RingBuffer Client ClientFacts ClientProps ClientSession ClientSafety ClientSends.
From S2P Require Import ClientScan ClientFlush ClientSteady ClientRun ClientOutput.
Open Scope Z_scope.

Section Drain.
Context (xxhash : list byte -> Z) (S0 R : list byte) (offs : list Z) (base : list Packet).
Context (fin : Packet) (ti : TargetInfo) (rn : nat) (Ht : wf_target ti rn).
Abbreviation given_up := (given_up base).
Abbreviation in_steady := (in_steady xxhash S0 R offs base fin ti rn).
Abbreviation reaches := (reaches xxhash S0 ti).

(** Steps of the monitor that are left. *)
Definition pending (s : CSession) : nat :=
  4 * Z.to_nat (biLength (buffer_info (kernel (cl s)))) +
  match monitorPc s with
  | MEntries b k => Z.to_nat (biLength b - k) + 3
  | MWaiting => 3
  | MWait => 2
  | _ => 1
  end.

Definition over (T : list write) (s : CSession) : Prop := in_steady T s /\ listenPc s = LReceive.

Lemma monitor_listens pick s s' : monitor_step pick s = Done s' -> listenPc s' = listenPc s.
Proof using. intros E. by destruct (other_step (fun _ => 0) (CMonitor pick) s s' ltac:(done) E). Qed.

Lemma drained_or_not s : client_drained s \/ ~ client_drained s.
Proof using.
  unfold client_drained. destruct (decide (biLength (buffer_info (kernel (cl s))) = 0)); [|right; by intros []].
  destruct (monitorPc s); [left|left|left|right; by intros []|left]; done.
Qed.

(** The monitor can always take a step. *)
Lemma monitor_progress T s :
  in_steady T s -> ~ client_drained s ->
  exists s', monitor_step false s = Done s' /\ (given_up s' \/ (pending s' < pending s)%nat).
Proof using Ht.
  intros I Hn. pose proof I as (W & items & out1 & out2 & log1 & log2 & es & i & W2 & P).
  pose proof P as [P1 P2 P3 P4 P5 P6 P7 P8 P9 P10 P11 P12 P13 P14 P15 P16 P17 P18 P19 P20 P21 P22].
  destruct P1 as (He & Hio & Htm). destruct P4 as (C1 & C2 & C3). destruct P21 as (a & Ra & Ha & Wa & Hw).
  assert (T' : ChanHasTerminated (TermChan s) = false) by (unfold TermChan, terminated; by rewrite Htm).
  unfold monitor_free in P5. unfold monitor_at in P22. unfold monitor_step, pending at 2. unfold client_drained in Hn.
  destruct (monitorPc s) as [| | |b k|] eqn:Hm.
  - unfold WaitIfPaused, chan_recv. destruct (cbuf (MonitorPauseContr (cl s))) as [|[] l] eqn:Eb; [| |done];
      rewrite ?C1, T'; cbn; (eexists; split; [reflexivity|]); right; unfold pending; cbn; lia.
  - unfold waitUntilResumed, chan_recv. destruct (cbuf (MonitorPauseContr (cl s))) as [|[] l] eqn:Eb; [done| |done].
    rewrite T'. cbn. eexists. split; [reflexivity|]. right. unfold pending; cbn. lia.
  - unfold on_cl at 1. rewrite ServeIOCTL_ok, executeIOCTL_ok by done.
    pose proof (bdr_read_length (kernel (cl s))) as Hrd.
    destruct (bdr_buffer_read_routine (kernel (cl s))) as [b k'] eqn:Er. cbn [fst snd] in *.
    assert (Eb : b = buffer_info (kernel (cl s))) by (by injection Er as <- _). rewrite <- Eb in *.
    destruct (HasNewWrites b) eqn:En; cbn [negb].
    + destruct (CheckOverflow b) eqn:Eo; change (CheckOverflow b) with (is_overflown b) in Eo.
      * unfold on_cl, StartHashing. cbn [cl set_cl]. rewrite start_ok by done. eexists. split; [reflexivity|]. left.
        apply (given_up_sent base (corrections xxhash S0 R W items ++ out1 ++ announcement fin out2 s)); [done|cbn; by destruct (listenPc s)|].
        cbn. by rewrite P13, <- !app_assoc.
      * eexists. split; [reflexivity|]. right. unfold HasNewWrites in En. apply negb_true_iff, Z.eqb_neq in En.
        pose proof (rr_length _ _ _ _ Ra) as HL. rewrite <- Eb in HL.
        unfold pending; cbn. rewrite Hrd by done. lia.
    + exfalso. apply Hn. split; [|done]. unfold HasNewWrites in En. by apply negb_false_iff, Z.eqb_eq in En.
  - destruct P22 as (-> & Hi & Hb). pose proof Hb as (_ & _ & Hlen).
    destruct (Z.ltb_spec (Z.of_nat i) (biLength b)) as [Hlt|Hge].
    2:{ eexists. split; [reflexivity|]. right. unfold pending; cbn. lia. }
    unfold on_cl at 1. rewrite (IsPaused_same _ (conj C1 (conj C2 C3))).
    replace (match cbuf (MonitorPauseContr (cl s)) with Paused :: _ => true | _ => false end) with false
      by (by destruct (cbuf _) as [|[] ?]).
    destruct (lookup_lt_is_Some_2 es i) as [e Hie]; [lia|].
    rewrite (drop_S _ _ _ Hie) in P19. apply Forall_cons in P19 as [We _]. rewrite <- Ha in Hie, Hb.
    destruct (send_held ti rn Ht (cl s) b i a e (conj He (conj Hio Htm)) P9 Ra Hb Hie We) as (p & Ep & Hc).
    unfold on_cl. cbn [cl set_cl]. rewrite Ep. eexists. split; [reflexivity|]. right. unfold pending; cbn. lia.
  - done.
Qed.

Lemma steady_drains T s :
  over T s -> reaches (fun s' => given_up s' \/ (over T s' /\ client_drained s')) s.
Proof using Ht.
  remember (pending s) as m eqn:Em. revert s Em. induction m as [m IH] using lt_wf_ind. intros s -> [I Hl].
  destruct (drained_or_not s) as [Hd|Hd]; [apply reaches_here; by right|].
  destruct (monitor_progress T s I Hd) as (s1 & E & H).
  apply (reaches_step _ _ _ _ (CMonitor false) s s1); [done..|].
  destruct (steady_monitor xxhash S0 R offs base fin ti rn Ht T s s1 false I E) as [Hg|I1]; [apply reaches_here; by left|].
  destruct H as [Hg|Hlt]; [apply reaches_here; by left|]. apply (IH _ Hlt s1 eq_refl). split; [done|].
  by rewrite (monitor_listens false s s1 E).
Qed.

End Drain.

Section Scan.
Context (xxhash : list byte -> Z) (S0 R : list byte) (offs : list Z) (base : list Packet).
Context (ti : TargetInfo) (rn : nat) (Ht : wf_target ti rn).
Context (Hlen : length R = length S0) (Hsize : Z.of_nat (length S0) < 2 ^ 63).
Context (Hoffs : Forall (fun o => 0 <= o < Z.of_nat (length R)) offs).

(** From every point of a scan the client gets to where it has sent everything. *)
Lemma stage_drains T s :
  stage xxhash S0 R offs base ti rn T s ->
  reaches xxhash S0 ti (fun s' => given_up base s' \/
    (over xxhash S0 R offs base end_of_scan ti rn T s' /\ client_drained s')) s.
Proof using Ht Hlen Hsize Hoffs.
  intros St. eapply reaches_bind; [by apply (stage_finishes xxhash S0 R offs base ti rn Ht Hlen Hsize Hoffs T)|].
  intros s1 [H|H]; [apply reaches_here; by left|by apply steady_drains].
Qed.
End Scan.
