(* ===== verification/ClientReplication.v ===== *)
(** * A replication on the client in every schedule

    [InitReplication] reads the blocks of the source in any order and sends them,
    while the source is written to and the monitor is held; the writes stay in the
    ring.  Then it announces the end and lets the monitor go, which sends the
    writes as after a scan ([ClientSteady]).  Each block is sent once, as it was
    at some moment of the replication. *)
From S2P Require Import Prelude GoInt GoMonad GoChan Utils BlockDev Blocks Image Networking Journal Pause.
From S2P Require Import RingBuffer Client ClientFacts ClientProps ClientSession ClientSafety ClientSends.
From S2P Require Import ClientScan ClientFlush ClientSteady ClientRun.
From S2P Require Import Server ServerReplay ServerJournal ServerPaths Session SessionStream SessionReplication ClientOutput ClientDrain.
Open Scope Z_scope.

(** A client whose source device works. *)
Definition source_ok (c : Client) : Prop :=
  connected c /\ healthy (UnderDevFile c) /\ dev_size (UnderDevFile c) < 2 ^ 63.

Definition replication_packet (c : list byte) (o : Z) : Packet :=
  let n := Z.of_nat (length c) in
  {| PacketType := PacketTypePayloadReplicationBlock;
     Payload := PReplicationBlockInfo
       {| Offset := o; Size := block_len n o;
          Data := sub (Z.to_nat o) (Z.to_nat (block_len n o)) c |} |}.

Lemma replicate_block_ok c o :
  source_ok c -> 0 <= o < dev_size (UnderDevFile c) ->
  replicate_block (dev_size (UnderDevFile c)) HashedSpaceBase o c =
  (Ret true, set_net (csent c ++ [replication_packet (content (UnderDevFile c)) o]) [] c).
Proof.
  intros ((He & Hi & Ht) & Hh & Hs) Ho. unfold replicate_block.
  rewrite !(bind_Ret _ _ _ _ _ (CheckTermination_up c Ht)).
  set (n := dev_size (UnderDevFile c)) in *.
  change (u32 HashedSpaceBase) with HashedSpaceBase.
  assert (Hsz : (if n <? u64 (o + HashedSpaceBase) then u32 (n - o) else HashedSpaceBase) = block_len n o).
  { unfold block_len. unfold HashedSpaceBase, HashedBlockSize in *.
    rewrite u64_small by width_tac. destruct (_ <? _) eqn:E; [|lia].
    rewrite u32_small by (apply Z.ltb_lt in E; width_tac). lia. }
  rewrite Hsz. erewrite bind_Ret.
  2:{ apply read_block_ok; unfold block_len; [done|unfold HashedSpaceBase, HashedBlockSize; lia|lia|].
      fold n. lia. }
  cbn [not_EOF]. rewrite (bind_Ret _ _ _ _ _ (CheckTermination_up c Ht)).
  unfold SendReplicationBlock. by rewrite (bind_Ret _ _ _ _ _ (SendPacket_ok _ c He)).
Qed.

(** ** The phases *)

Section Copy.
Context (xxhash : list byte -> Z) (S0 : list byte) (base : list Packet).
Context (ti : TargetInfo) (rn : nat) (Ht : wf_target ti rn).
Context (Hsize : Z.of_nat (length S0) < 2 ^ 63).
#[local] Abbreviation n := (Z.of_nat (length S0)).
#[local] Abbreviation offs := (block_offsets n HashedSpaceBase).

(** The block read when the first [ot.2] of the writes [T] had been made. *)
Definition block_seen (T : list write) (ot : Z * nat) : BlockInfo :=
  {| Offset := ot.1; Size := block_len n ot.1;
     Data := sub (Z.to_nat ot.1) (Z.to_nat (block_len n ot.1)) (src S0 T ot.2) |}.
Definition blocks_seen (T : list write) (items : list (Z * nat)) : list Packet := repl_block <$> (block_seen T <$> items).

(** [items] have been sent, [todo] not yet. *)
Record copying (T : list write) (todo : list Z) (items : list (Z * nat)) (s : CSession) : Prop := {
  cy_conn : connected (cl s);
  cy_dev : UnderDevFile (cl s) = {| content := apply_writes T S0; faults := [] |};
  cy_fits : Forall (fits (length S0)) T;
  cy_contr : cinv (cl s);
  cy_monitor : monitor_held s;
  cy_repl : replicator s = Some (n, todo);
  cy_hashers : hashers s = None;
  cy_listen : listenPc s = LReceive;
  cy_incoming : incoming s = [];
  cy_target : cTarget (cl s) = ti;
  cy_offs : (fst <$> items) ++ todo ≡ₚ offs;
  cy_times : Forall (fun ot => (ot.2 <= length T)%nat) items;
  cy_sent : csent (cl s) = base ++ blocks_seen T items;
  cy_ring : ring_has ti rn T (kernel (cl s));
}.

(** All blocks have been sent when the writes were [T1]. *)
Definition all_seen (T1 : list write) (items : list (Z * nat)) : Prop :=
  (fst <$> items) ≡ₚ offs /\ Forall (fun ot => (ot.2 <= length T1)%nat) items.
Definition following (T1 : list write) (items : list (Z * nat)) : list write -> CSession -> Prop :=
  in_steady xxhash S0 S0 [] (base ++ blocks_seen T1 items) copied ti rn.

(** Before and after the end of the replication; the ring may overflow later. *)
Definition copy_stage (T : list write) (s : CSession) : Prop :=
  (exists todo items, copying T todo items s) \/
  (exists T1 items, T1 `prefix_of` T /\ all_seen T1 items /\
    (given_up (base ++ blocks_seen T1 items) s \/ following T1 items T s)).

Lemma blocks_seen_app T T2 items :
  Forall (fun ot => (ot.2 <= length T)%nat) items -> blocks_seen (T ++ T2) items = blocks_seen T items.
Proof using.
  intros H. unfold blocks_seen. f_equal. apply list_fmap_ext. intros i ot Hi. rewrite Forall_lookup in H.
  unfold block_seen. by rewrite src_app by (by apply (H i)).
Qed.

Lemma offs_range o : o ∈ offs -> 0 <= o < n.
Proof using Hsize.
  intros Hin. unfold HashedSpaceBase, HashedBlockSize in Hin.
  apply block_offsets_elem in Hin as (i & Hi & -> & Hlt); lia.
Qed.

(** ** Steps *)

Lemma copying_source T todo items s bio :
  copying T todo items s -> undisturbed S0 ti (CSource bio) ->
  copying (T ++ (seg_write <$> bio)) todo items (set_cl (write_source bio (cl s)) s).
Proof using Ht.
  intros [C1 C2 C3 C4 C5 C6 C7 C8 C9 C10 C11 C12 C13 C14] [Hw Hb]. split; try done.
  - cbn. rewrite C2. cbn. by rewrite apply_writes_app.
  - by apply Forall_app.
  - eapply Forall_impl; [exact C12|]. intros ot H. cbn in H |- *. rewrite length_app. lia.
  - cbn. by rewrite blocks_seen_app.
  - cbn [cl set_cl]. rewrite kernel_write_source, C10. apply ring_has_put; [|done|done].
    by destruct (wt_page _ _ Ht).
Qed.

(** A worker sends a block. *)
Lemma copying_block T todo items i o s :
  copying T todo items s -> todo !! i = Some o ->
  exists c, replicate_step i s = Done (set_replicator (Some (n, delete i todo)) (set_cl c s)) /\
    copying T (delete i todo) (items ++ [(o, length T)]) (set_replicator (Some (n, delete i todo)) (set_cl c s)).
Proof using Hsize.
  intros [C1 C2 C3 C4 C5 C6 C7 C8 C9 C10 C11 C12 C13 C14] Hi.
  assert (Hl : dev_size (UnderDevFile (cl s)) = n) by (rewrite C2; unfold dev_size; cbn; by rewrite length_apply_writes).
  assert (Ho : 0 <= o < n).
  { apply offs_range. rewrite <- C11, elem_of_app. right. by eapply list_elem_of_lookup_2. }
  assert (Hsrc : source_ok (cl s)) by (split; [done|]; rewrite C2 in *; split; [done|lia]).
  pose proof (replicate_block_ok (cl s) o Hsrc) as E. rewrite Hl in E. specialize (E Ho).
  pose proof C1 as (He & Hio & Htm). eexists. split.
  - unfold replicate_step. rewrite C6. destruct todo as [|x todo]; [done|]. rewrite Hi. unfold on_cl. rewrite E. reflexivity.
  - split; try done.
    + rewrite fmap_app, <- app_assoc. cbn. rewrite <- C11, <- delete_Permutation by exact Hi. done.
    + apply Forall_app. split; [done|]. by apply Forall_singleton.
    + cbn. rewrite C13, C2. unfold blocks_seen. rewrite !fmap_app, app_assoc. do 2 f_equal. cbn.
      unfold replication_packet, repl_block, block_seen, src. cbn [fst snd content]. rewrite length_apply_writes by done.
      by rewrite firstn_all.
Qed.

(** The last step announces the end and resumes the monitor. *)
Lemma copying_ends T items i s s' :
  copying T [] items s -> replicate_step i s = Done s' -> all_seen T items /\ following T items T s'.
Proof using.
  intros [C1 C2 C3 C4 C5 C6 C7 C8 C9 C10 C11 C12 C13 C14] E. rewrite app_nil_r in C11. split; [done|].
  destruct C1 as (He & Hio & Htm). unfold replicate_step in E. rewrite C6 in E. unfold on_cl in E.
  rewrite (bind_Ret _ _ _ _ _ (SendPacket_ok _ _ He)) in E. erewrite bind_Ret in E by done.
  rewrite resume_ok in E by done. injection E as <-.
  destruct C14 as (a & Ra & Wa & Ha).
  exists [], [], [], [], [], [], (a_held a), (length (a_held a)), T. split; try done.
  - unfold monitor_held in C5. unfold monitor_free; cbn. destruct (monitorPc s); try done;
      destruct (cbuf _) as [|[] [|]]; done.
  - cbn. by rewrite C8.
  - cbn. unfold announcement; cbn. by rewrite C8, C13.
  - by rewrite drop_all.
  - by rewrite drop_all.
  - by exists a.
  - unfold monitor_held in C5. unfold monitor_at; cbn. by destruct (monitorPc s).
  - by left.
Qed.

Lemma copy_stage_step T s e s' :
  copy_stage T s -> undisturbed S0 ti e -> cstep xxhash e s = Done s' -> copy_stage (T ++ sources [e]) s'.
Proof using Ht Hsize.
  intros [(todo & items & C)|(T1 & items & Hp & Ha & Hs)] He E.
  2:{ right. exists T1, items. split; [by apply prefix_app_r|]. split; [done|].
      destruct Hs as [Hs|Hs]; [left; by eapply given_up_step|]. by apply (steady_stage xxhash S0 S0 [] _ copied ti rn Ht T s). }
  pose proof C as [C1 C2 C3 C4 C5 C6 C7 C8 C9 C10 C11 C12 C13 C14].
  destruct e as [| |j|pick|i| |bio]; cbn [sources mbind list_bind]; rewrite ?app_nil_r; cbn [cstep] in E.
  - unfold listen_step in E. rewrite C8 in E. unfold receive, terminated in E. destruct C1 as (_ & _ & Htm).
    by rewrite Htm, C9 in E.
  - unfold hash_read_step in E. by rewrite C7 in E.
  - unfold hash_send_step in E. by rewrite C7 in E.
  - left. exists todo, items. destruct (held_monitor pick s s' C1 C4 C5 E) as (p & -> & Hp & Hm). by split.
  - destruct todo as [|x todo].
    { right. destruct (copying_ends T items i s s' C E) as [Ha Hf]. exists T, items. split_and!; [done|done|by right]. }
    destruct ((x :: todo) !! i) as [o|] eqn:Hi.
    2:{ unfold replicate_step in E. by rewrite C6, Hi in E. }
    destruct (copying_block T (x :: todo) items i o s C Hi) as (c & E' & C'). rewrite E' in E. injection E as <-.
    left. by eexists _, _.
  - done.
  - left. injection E as <-. exists todo, items. by apply copying_source.
Qed.

Lemma copy_stage_run es T s s' :
  copy_stage T s -> Forall (undisturbed S0 ti) es -> crun xxhash es s = Done s' -> copy_stage (T ++ sources es) s'.
Proof using Ht Hsize. apply (run_keeps xxhash S0 ti copy_stage), copy_stage_step. Qed.
(** ** The replication can be finished *)

Lemma following_listens T1 items T s : following T1 items T s -> listenPc s = LReceive.
Proof using.
  intros (W & its & o1 & o2 & l1 & l2 & es & i & W2 & P). pose proof (st_listen _ _ _ _ _ _ _ _ _ _ _ _ _ _ _ _ _ _ _ P) as Hl.
  destruct (listenPc s); try done. by destruct Hl as [? _].
Qed.

(** The blocks that are left are sent. *)
Lemma copying_finishes T todo items s :
  copying T todo items s ->
  reaches xxhash S0 ti (fun s' => exists items', all_seen T items' /\ following T items' T s') s.
Proof using Hsize.
  remember (length todo) as k eqn:Hk. revert todo items s Hk. induction k as [|k IH]; intros todo items s Hk C.
  - apply eq_sym, nil_length_inv in Hk as ->. pose proof C as [C1 C2 C3 C4 C5 C6 C7 C8 C9 C10 C11 C12 C13 C14].
    destruct C1 as (He & _).
    assert (E : exists s', replicate_step 0 s = Done s').
    { unfold replicate_step. rewrite C6. unfold on_cl. rewrite (bind_Ret _ _ _ _ _ (SendPacket_ok _ _ He)).
      erewrite bind_Ret by done. rewrite resume_ok by done. by eexists. }
    destruct E as (s' & E). apply (reaches_step _ _ _ _ (CReplicate 0) s s'); [done..|]. apply reaches_here.
    destruct (copying_ends T items 0 s s' C E). by exists items.
  - destruct todo as [|o todo]; [done|].
    destruct (copying_block T (o :: todo) items 0 o s C eq_refl) as (c & E & C').
    eapply (reaches_step _ _ _ _ (CReplicate 0)); [done|done|exact E|]. eapply IH; [|exact C'].
    change (delete 0%nat (o :: todo)) with todo. cbn in Hk. lia.
Qed.

Lemma given_up_since l s : given_up (base ++ l) s -> given_up base s.
Proof using.
  intros (H1 & H2 & H3). split_and!; [done|done|]. rewrite length_app, <- drop_drop in H3.
  rewrite <- (take_drop (length l) (drop (length base) _)), elem_of_app. by right.
Qed.

(** And then all writes, unless the ring has overflown. *)
Lemma copy_drains T s :
  copy_stage T s ->
  reaches xxhash S0 ti (fun s' => given_up base s' \/ (replicator s' = None /\ client_drained s')) s.
Proof using Ht Hsize.
  assert (K : forall T1 items s, all_seen T1 items -> following T1 items T s ->
    reaches xxhash S0 ti (fun s' => given_up base s' \/ (replicator s' = None /\ client_drained s')) s).
  { clear s. intros T1 items s Ha Hf. eapply reaches_bind.
    - apply (steady_drains xxhash S0 S0 [] (base ++ blocks_seen T1 items) copied ti rn Ht T). split; [exact Hf|].
      by eapply following_listens.
    - intros s' [Hg|[[Hs _] Hd]]; apply reaches_here.
      + left. by eapply given_up_since.
      + right. split; [|done]. destruct Hs as (W & its & o1 & o2 & l1 & l2 & es & i & W2 & P). by destruct P. }
  intros [(todo & items & C)|(T1 & items & Hp & Ha & [Hs|Hs])].
  - eapply reaches_bind; [by apply (copying_finishes T todo items)|]. intros s' (items' & Ha & Hf). by apply (K T items').
  - apply reaches_here. left. by eapply given_up_since.
  - by apply (K T1 items).
Qed.

(** ** The start *)

(** [Run] with [--full-replicate] on a client that is connected. *)
Lemma Run_copies ir c dials s :
  connected c -> contr_ok (MonitorPauseContr c) -> UnderDevFile c = {| content := S0; faults := [] |} ->
  cTarget c = ti -> (exists a, ring_rel (Z.to_nat (PageSize ti)) rn (kernel c) a) -> base = csent c ++ [start_copy] ->
  ClientSession.Run false true ir c [] dials = Done s -> copying [] offs [] s.
Proof using.
  intros Hc Hp Hd Hti (a & Ra) Hb. unfold ClientSession.Run, Run_start, FullReplicate.
  rewrite (bind_Ret _ _ _ _ _ (start_ok _ _ _ Hc Hp)). cbn [ret].
  assert (Hh : healthy (UnderDevFile c)) by (by rewrite Hd).
  unfold catch, zoom. cbn [UnderDevFile set_net set_cstate set_contr set_kernel]. rewrite GetDeviceSize_healthy by done.
  rewrite Hd. intros [= <-]. destruct Hc as (He & Hi & Htm).
  split; try done.
  - cbn. by rewrite app_nil_r, Hb.
  - exists a_reset. split; [cbn; by eapply reset_refines|]. split; [constructor|done].
Qed.
End Copy.
