(* ===== verification/System.v ===== *)
(** * The client and the server, connected

    The two daemons as one system: what one sends arrives, in order, at the
    other.  A schedule interleaves the goroutines of both, the signals and the
    writes to the source. *)
From S2P Require Import Prelude GoInt GoMonad GoChan Utils BlockDev Blocks Networking.
From S2P Require Import RingBuffer Pause Client ClientFacts ClientSession ClientSafety ClientSends.
From S2P Require Import Journal JournalSpec Server ServerReplay ServerJournal ServerProps Session SessionSafety.
From S2P Require Import ClientScan ClientFlush ClientSteady ClientRun SessionScan SessionStream ClientOutput.
Open Scope Z_scope.

Record System := mkSystem {
  server : Session;
  client : CSession;
}.

Inductive sys_event :=
| SServer (e : event)
| SClient (e : cevent).

(** The packets that a step has added to what was sent. *)
Definition added (before after : list Packet) : list Packet := drop (length before) after.

Section System.
Context (xxhash : list byte -> Z) (nw : nat).

Definition sys_step (e : sys_event) (x : System) : attempt System :=
  match e with
  | SServer e =>
      abind (step xxhash nw e (server x)) (fun s =>
        Done (mkSystem s (arrive (RPacket <$> added (sent (srv (server x))) (sent (srv s))) (client x))))
  | SClient e =>
      abind (cstep xxhash e (client x)) (fun c =>
        Done (mkSystem (arrived (added (csent (cl (client x))) (csent (cl c))) (server x)) c))
  end.

Fixpoint sys_run (es : list sys_event) (x : System) : attempt System :=
  match es with
  | [] => Done x
  | e :: es => abind (sys_step e x) (sys_run es)
  end.

Definition client_events (es : list sys_event) : list cevent :=
  omap (fun e => match e with SClient e => Some e | _ => None end) es.

(** The writes to the source in a schedule. *)
Definition sys_sources (es : list sys_event) : list write := sources (client_events es).

Lemma sys_run_app es1 es2 x y z : sys_run es1 x = Done y -> sys_run es2 y = Done z -> sys_run (es1 ++ es2) x = Done z.
Proof using.
  revert x. induction es1 as [|e es1 IH]; intros x; cbn; [by intros [= ->]|].
  intros (x1 & E & E1)%abind_Done E2. rewrite E. by apply IH.
Qed.

Lemma sys_run_snoc es e x z :
  sys_run (es ++ [e]) x = Done z -> exists y, sys_run es x = Done y /\ sys_step e y = Done z.
Proof using.
  revert x. induction es as [|e1 es IH]; intros x; cbn.
  - intros (y & E & [= <-])%abind_Done. by exists x.
  - intros (x1 & E & E1)%abind_Done. rewrite E. by apply IH.
Qed.

Lemma client_events_app es1 es2 : client_events (es1 ++ es2) = client_events es1 ++ client_events es2.
Proof using. apply omap_app. Qed.

(** ** A scan that the client has requested *)

(** The client has reset the ring when the source was [S0], has asked for a scan
    and waits; [W0] has been written since.  The server has its journal [j0] and
    has nothing else to do; the journal has slots for a page and for every block
    of the disk, and nothing fails. *)
Record requested (S0 : list byte) (t : TargetInfo) (n : nat) (W0 : list write) (j0 : Journal)
  (x : System) : Prop := {
  rq_conn : connected (cl (client x));
  rq_dev : UnderDevFile (cl (client x)) = {| content := apply_writes W0 S0; faults := [] |};
  rq_fits : Forall (fits (length S0)) W0;
  rq_contr : cinv (cl (client x));
  rq_monitor : monitor_held (client x);
  rq_repl : replicator (client x) = None;
  rq_hashers : hashers (client x) = None;
  rq_listen : listenPc (client x) = LReceive;
  rq_incoming : incoming (client x) = [];
  rq_queue : ClientSession.hashQueue (client x) = make_chan HashPacketQueueSize;
  rq_target : cTarget (cl (client x)) = t;
  rq_wf : wf_target t n;
  rq_ring : ring_has t n W0 (kernel (cl (client x)));
  rq_size : Z.of_nat (length S0) < 2 ^ 63;
  rq_still : still (server x);
  rq_prep : preparing (srv (server x)) (server x);
  rq_writes : no_writes (server x);
  rq_journal : SJournal (srv (server x)) = Some j0;
  rq_inv : journal_inv (jstate (srv (server x)) j0);
  rq_device : target_ok (srv (server x));
  rq_send : sendFaults (srv (server x)) = [];
  rq_info : exists nfo, ClientInfo (srv (server x)) = Some nfo /\
    DeviceSize nfo = dev_size (TargetDevFd (srv (server x)));
  rq_len : length (content (TargetDevFd (srv (server x)))) = length S0;
  rq_corr : Forall (fun o => 12 + block_len (dev_size (TargetDevFd (srv (server x)))) o <= slotSize (header j0) CorrBlocks)
    (block_offsets (dev_size (TargetDevFd (srv (server x)))) HashedSpaceBase);
  rq_blocks : Z.of_nat (length (block_offsets (dev_size (TargetDevFd (srv (server x)))) HashedSpaceBase)) <=
    slotCount (header j0) CorrBlocks;
  rq_page : 12 + PageSize t <= slotSize (header j0) BufWrites;
}.

(** Schedules without signals, with writes that lie inside the source. *)
Definition sys_undisturbed (S0 : list byte) (t : TargetInfo) (e : sys_event) : Prop :=
  match e with
  | SServer e => e <> EShutdown
  | SClient e => undisturbed S0 t e
  end.
End System.
