(* ===== verification/ClientScanProps.v ===== *)
(** * What a scan sends from the client *)
From S2P Require Import Prelude GoInt GoMonad GoChan Utils BlockDev Blocks Image Networking Journal Pause.
From S2P Require Import RingBuffer RingBufferProps Client ClientFacts ClientProps ClientSession ClientSafety.
From S2P Require Import ClientSessionProps ClientSends ClientScan ClientFlush ClientSteady ClientRun.
Open Scope Z_scope.

(** C10: a scan on the client, in every schedule of the listener, the workers
    and the paused monitor, and with writes reaching the source and the kernel's
    ring at any moment: when the workers are done ([es]), every hash packet was
    compared exactly once, each with the block as the source had it after some of
    the writes, and exactly the blocks whose hashes differed were sent; the ring
    is read next, and when its entries are sent ([es']), the packets that follow
    the corrections carry exactly the writes since the reset up to that read, in
    their order, whatever was written meanwhile.  From every point of every
    schedule the client goes on until it has announced the end of the scan,
    unless the ring has overflown and it has requested a new scan. *)
Theorem client_scan_any_schedule xxhash S0 R offs t n W0 s0 es s :
  announced xxhash S0 R offs t n W0 s0 -> Forall (undisturbed S0 t) es -> crun xxhash es s0 = Done s ->
  (listenPc s = LSendBuffer ->
   let W := W0 ++ sources es in
   (exists items, (fst <$> items) ≡ₚ offs /\ Forall (fun ot => (ot.2 <= length W)%nat) items /\
      csent (cl s) = csent (cl s0) ++ corrections xxhash S0 R W items) /\
   (forall es' s', Forall (undisturbed S0 t) es' -> crun xxhash (CListen :: es') s = Done s' ->
      listenPc s' = LResume ->
      exists items batch ps, (fst <$> items) ≡ₚ offs /\ Forall (fun ot => (ot.2 <= length W)%nat) items /\
        csent (cl s') = csent (cl s0) ++ corrections xxhash S0 R W items ++ ps /\
        Forall2 (carries t) ps batch /\ entry_write <$> batch = W)) /\
  (exists es' s', Forall (undisturbed S0 t) es' /\ sources es' = [] /\ crun xxhash es' s = Done s' /\
     (given_up (csent (cl s0)) s' \/ scan_ended (csent (cl s0)) s')).
Proof.
  intros A Hq E. split; [|by apply (scan_ends xxhash S0 R offs t n W0 s0 s es)].
  intros Hl W. split; [by apply (scan_compared xxhash S0 R offs t n W0 s0 s es)|].
  intros es' s' Hq' E' Hl'.
  destruct (scan_flushed xxhash S0 R offs t n W0 s0 s es A Hq E es' s' Hl Hq' E' Hl')
    as (items & batch & ps & _ & H1 & H2 & H3 & H4 & _ & H5).
  by exists items, batch, ps.
Qed.

(** A source of eight bytes, whose replica is all zero, and a ring of three
    entries with pages of two bytes. *)
Definition demo_S0 : list byte :=
  [Byte.x01; Byte.x02; Byte.x03; Byte.x04; Byte.x05; Byte.x06; Byte.x07; Byte.x08].
Definition demo_R : list byte := replicate 8 Byte.x00.
Definition demo_target_info : TargetInfo := mkTargetInfo 2 10 30 1.
Definition demo_announced : CSession :=
  mkCSession
    {| cTarget := demo_target_info;
       UnderDevFile := {| content := demo_S0; faults := [] |};
       kernel := demo_ring; MonitorPauseContr := mkChan [Paused] 1 false;
       cstate := StateHashing; csent := []; encFaults := []; ioctlFaults := []; termIn := None |}
    (info PacketTypeInfoStartHashing :: stream be_get demo_R [0]) []
    (make_chan HashPacketQueueSize) LReceive None MWait None.

Lemma demo_is_announced : announced be_get demo_S0 demo_R [0] demo_target_info 3 [] demo_announced.
Proof.
  split; try done.
  - exists a_reset. split; [exact demo_ring_rel|]. split; [constructor|done].
  - apply Forall_singleton. vm_compute. by split.
Qed.

(** The write reaches the source after its block was read; the ring is read and
    its only entry sent. *)
Definition demo_bio : list segment := [mkSegment 0 [Byte.xcc; Byte.xdd] 1 1].
Definition demo_scan_run : list cevent :=
  [CListen; CMonitor false; CListen; CListen; CListen; CHashRead; CSource demo_bio;
   CListen; CHashSend 0; CHashRead; CListen].
Definition demo_flush_run : list cevent := [CListen; CListen].

Lemma demo_undisturbed_scan : Forall (undisturbed demo_S0 demo_target_info) demo_scan_run.
Proof.
  unfold demo_scan_run. repeat (apply Forall_cons_2; [try exact I|]); [|apply Forall_nil_2].
  split; apply Forall_singleton; [vm_compute; lia|]. split; cbn; try lia. width_tac.
Qed.

Lemma client_scan_any_schedule_witness :
  exists s s', crun be_get demo_scan_run demo_announced = Done s /\ listenPc s = LSendBuffer /\
    crun be_get (CListen :: demo_flush_run) s = Done s' /\ listenPc s' = LResume /\
    exists items batch ps, (fst <$> items) ≡ₚ [0] /\ Forall (fun ot => (ot.2 <= 1)%nat) items /\
      csent (cl s') = [] ++ corrections be_get demo_S0 demo_R [(0%nat, [Byte.xdd])] items ++ ps /\
      Forall2 (carries demo_target_info) ps batch /\ entry_write <$> batch = [(0%nat, [Byte.xdd])].
Proof.
  destruct (crun be_get demo_scan_run demo_announced) as [s| |] eqn:E;
    [|vm_compute in E; discriminate|vm_compute in E; discriminate].
  pose proof E as E1. vm_compute in E1. injection E1 as E1.
  assert (Hl : listenPc s = LSendBuffer) by (rewrite <- E1; reflexivity).
  destruct (crun be_get (CListen :: demo_flush_run) s) as [s'| |] eqn:E';
    [|rewrite <- E1 in E'; vm_compute in E'; discriminate|rewrite <- E1 in E'; vm_compute in E'; discriminate].
  assert (Hl' : listenPc s' = LResume)
    by (rewrite <- E1 in E'; vm_compute in E'; injection E' as <-; reflexivity).
  exists s, s'. split; [reflexivity|]. split; [exact Hl|]. split; [exact E'|]. split; [exact Hl'|].
  refine (proj2 (proj1 (client_scan_any_schedule be_get demo_S0 demo_R [0] demo_target_info 3 []
    demo_announced demo_scan_run s demo_is_announced demo_undisturbed_scan E) Hl) demo_flush_run s' _ E' Hl').
  repeat constructor.
Defined.
