(* ===== verification/EndToEnd.v ===== *)
(** * Client and server together

    A full replication copies the source; a scan brings the replica to the state
    the source has when it ends, although the source is written to all the time;
    a block the server cannot read stays as it is. *)
From S2P Require Import Prelude GoInt GoMonad GoChan Utils BlockDev Blocks Image Networking.
From S2P Require Import Journal JournalCodec JournalSlots JournalSpec JournalOps JournalCheck.
From S2P Require Import RingBuffer RingBufferProps Pause Client ClientFacts ClientProps ClientSession ClientSafety.
From S2P Require Import ClientSessionProps ClientScan ClientFlush ClientRun ClientReplication ClientScanProps.
From S2P Require Import Server ServerReplay ServerJournal ServerProps.
From S2P Require Import Session SessionSafety SessionScan SessionStream SessionScanProps.
Open Scope Z_scope.

(** ** Full replication *)

Lemma replicate_blocks_ok c order l :
  source_ok c -> Forall (fun o => 0 <= o < dev_size (UnderDevFile c)) order ->
  replicate_blocks (dev_size (UnderDevFile c)) HashedSpaceBase order (set_net l [] c) =
  (Ret tt, set_net (l ++ (replication_packet (content (UnderDevFile c)) <$> order)) [] c).
Proof.
  intros Hc. revert l. induction order as [|o order IH]; intros l Ho; cbn [replicate_blocks fmap list_fmap].
  { by rewrite app_nil_r. }
  apply Forall_cons in Ho as [Ho Hos].
  assert (Hc' : source_ok (set_net l [] c)) by (destruct Hc as ((_ & Hi & Ht) & Hh & Hs); done).
  rewrite (bind_Ret _ _ _ _ _ (replicate_block_ok (set_net l [] c) o Hc' Ho)).
  change (set_net (csent (set_net l [] c) ++ _) [] (set_net l [] c))
    with (set_net (l ++ [replication_packet (content (UnderDevFile c)) o]) [] c).
  rewrite IH by done. by rewrite <- app_assoc.
Qed.

(** The replication workers of the server on a list of packets. *)
Fixpoint handleReplicationPackets (ps : list Packet) : M Server unit :=
  match ps with
  | [] => ret tt
  | p :: ps => handleReplicationPacket p ;;; handleReplicationPackets ps
  end.

Definition block_write (c : list byte) (o : Z) : write :=
  part c (Z.to_nat o) (Z.to_nat (block_len (Z.of_nat (length c)) o)).

Lemma handle_replication s c d order :
  target_ok s -> length c = length (content (TargetDevFd s)) -> length d = length c ->
  Forall (fun o => 0 <= o < Z.of_nat (length c)) order ->
  handleReplicationPackets (replication_packet c <$> order) (replica d s) =
  (Ret tt, replica (apply_writes (block_write c <$> order) d) s).
Proof.
  intros T Hc. revert d. induction order as [|o order IH]; intros d Hd Ho; [done|].
  apply Forall_cons in Ho as [Ho Hos]. cbn [fmap list_fmap handleReplicationPackets].
  assert (Hf : fits (length d) (block_write c o)).
  { rewrite Hd. destruct (part_fits c (Z.to_nat o) (Z.to_nat (block_len (Z.of_nat (length c)) o))); [done|lia]. }
  rewrite (bind_Ret _ _ _ tt (replica (apply_write d (block_write c o)) s)).
  - rewrite IH; [done|by rewrite length_apply_write|done].
  - unfold handleReplicationPacket, replication_packet. cbn [Payload].
    eapply ignore_Ret.
    set (b := {| Offset := o; Size := block_len (Z.of_nat (length c)) o; Data := _ |}).
    apply (target_WriteAt s T d ltac:(congruence) b). split_and!; cbn; [lia| |exact Hf].
    unfold sub. rewrite length_take, length_drop. unfold block_len, HashedSpaceBase, HashedBlockSize. lia.
Qed.

Lemma blocks_copy (c d : list byte) order :
  length d = length c -> Z.of_nat (length c) < 2 ^ 63 ->
  order ≡ₚ block_offsets (Z.of_nat (length c)) HashedSpaceBase ->
  apply_writes (block_write c <$> order) d = c.
Proof.
  intros Hd Hn Hp. unfold HashedSpaceBase, HashedBlockSize in *.
  set (os := (fun o => (Z.to_nat o, Z.to_nat (block_len (Z.of_nat (length c)) o))) <$> order).
  replace (block_write c <$> order) with ((fun on => part c on.1 on.2) <$> os)
    by (unfold os; by rewrite <- list_fmap_compose).
  apply copy_parts; [done| |].
  - intros p Hlt.
    destruct (block_offsets_cover (Z.of_nat (length c)) (1024 * 256 * 1) ltac:(lia) ltac:(lia) ltac:(lia)
      (Z.of_nat p) ltac:(lia)) as (o & [Ho Hr] & _).
    exists (Z.to_nat o), (Z.to_nat (block_len (Z.of_nat (length c)) o)). split.
    + unfold os. apply (list_elem_of_fmap_2 (fun o => (Z.to_nat o, Z.to_nat (block_len (Z.of_nat (length c)) o)))).
      by rewrite Hp.
    + apply block_offsets_elem in Ho as (i & Hi & -> & Hlt'); [|lia..].
      unfold block_len, HashedSpaceBase, HashedBlockSize. lia.
  - intros o n (o' & [= -> ->] & Ho')%list_elem_of_fmap. rewrite Hp in Ho'.
    apply block_offsets_elem in Ho' as (i & Hi & -> & Hlt'); lia.
Qed.

(** A full replication of a source that is not written to copies it: the
    blocks the client sends, in any order its workers produce, overwrite every
    byte of a replica of the same size with the byte of the source; the client
    ends in [StateWriting] with the monitor running. *)
Theorem full_replication_copies c s order :
  source_ok c -> contr_ok (MonitorPauseContr c) -> target_ok s ->
  length (content (TargetDevFd s)) = length (content (UnderDevFile c)) ->
  order ≡ₚ block_offsets (dev_size (UnderDevFile c)) HashedSpaceBase ->
  exists c' ps s', InitReplication order c = (Ret tt, c') /\
    csent c' = csent c ++ ps ++ [CreateInfoPacket PacketTypeInfoReplicationCompleted] /\
    cstate c' = Client.StateWriting /\ cbuf (MonitorPauseContr c') = [Running] /\
    handleReplicationPackets ps s = (Ret tt, s') /\
    content (TargetDevFd s') = content (UnderDevFile c).
Proof.
  intros Hc Hp T Hl Ho. pose proof Hc as (Hcn & Hh & Hs). pose proof Hcn as (He & Hi & Ht).
  set (src := content (UnderDevFile c)).
  assert (Hos : Forall (fun o => 0 <= o < dev_size (UnderDevFile c)) order).
  { apply Forall_forall. intros o Hin. rewrite Ho in Hin. unfold HashedSpaceBase, HashedBlockSize in Hin.
    assert (0 <= dev_size (UnderDevFile c)) by (unfold dev_size; lia).
    apply block_offsets_elem in Hin as (i & Hi' & -> & Hlt); lia. }
  set (ps := replication_packet src <$> order).
  set (c1 := set_net (csent c ++ ps) [] c).
  set (c2 := set_net (csent c1 ++ [CreateInfoPacket PacketTypeInfoReplicationCompleted]) [] c1).
  exists (set_contr (mkChan [Running] 1 false) (set_cstate Client.StateWriting c2)), ps,
    (replica (apply_writes (block_write src <$> order) (content (TargetDevFd s))) s).
  split_and!.
  - unfold InitReplication.
    rewrite (bind_Ret _ _ _ (inl (dev_size (UnderDevFile c))) c).
    2:{ apply catch_Ret. unfold zoom. rewrite GetDeviceSize_healthy by done. f_equal. by destruct c. }
    assert (E : c = set_net (csent c) [] c) by (rewrite <- He; by destruct c).
    rewrite E at 2. rewrite (bind_Ret _ _ _ _ _ (replicate_blocks_ok c order (csent c) Hc Hos)).
    fold src ps c1. rewrite (bind_Ret _ _ _ tt c2) by (by apply SendPacket_ok).
    erewrite bind_Ret by done. unfold on_contr, lift_unit, Resume.
    cbn [MonitorPauseContr set_cstate c2 c1 set_net]. by rewrite request_ok.
  - cbn. by rewrite <- app_assoc.
  - done.
  - done.
  - rewrite <- (replica_id s) at 1. by apply handle_replication.
  - cbn. apply blocks_copy; [done|exact Hs|exact Ho].
Qed.

Definition demo_source : Client :=
  {| cTarget := mkTargetInfo 2 10 30 1;
     UnderDevFile := {| content := replicate 8 Byte.x11 ++ replicate 8 Byte.x22; faults := [] |};
     kernel := demo_ring; MonitorPauseContr := NewPauseController; cstate := Client.StateReplicating; csent := [];
     encFaults := []; ioctlFaults := []; termIn := None |}.

Lemma full_replication_copies_witness :
  exists c' ps s', InitReplication [0] demo_source = (Ret tt, c') /\
    csent c' = csent demo_source ++ ps ++ [CreateInfoPacket PacketTypeInfoReplicationCompleted] /\
    cstate c' = Client.StateWriting /\ cbuf (MonitorPauseContr c') = [Running] /\
    handleReplicationPackets ps demo_server = (Ret tt, s') /\
    content (TargetDevFd s') = content (UnderDevFile demo_source).
Proof.
  apply (full_replication_copies demo_source demo_server [0]);
    [done|split_and!; cbn; [done|done|lia]|exact demo_target_ok|reflexivity|].
  vm_compute. reflexivity.
Defined.

(** ** A scan *)

Section FuzzyScan.
Context (xxhash : list byte -> Z).
Context (S0 R : list byte) (W : list write).
Context (Hlen : length R = length S0) (Hsize : Z.of_nat (length S0) < 2 ^ 63).
Context (HW : Forall (fits (length S0)) W).
#[local] Abbreviation look_of := (look_of R).
#[local] Abbreviation differs := (differs xxhash S0 R W).
#[local] Abbreviation corrections := (corrections xxhash S0 R W).

Context (items : list (Z * nat)).
Context (Hitems : (fst <$> items) ≡ₚ block_offsets (Z.of_nat (length R)) HashedSpaceBase).

Lemma items_elem ot :
  ot ∈ items -> exists i, 0 <= i /\ ot.1 = i * HashedSpaceBase /\ ot.1 < Z.of_nat (length R).
Proof using Hitems Hlen Hsize.
  intros Hin. apply (list_elem_of_fmap_2 fst) in Hin. rewrite Hitems in Hin.
  apply block_offsets_elem in Hin; [done|..]; unfold HashedSpaceBase, HashedBlockSize; lia.
Qed.

Lemma items_cover p :
  (p < length S0)%nat -> exists l, l ∈ (look_of <$> items) /\ (l_off l <= p < l_off l + l_len l)%nat.
Proof using Hitems Hlen Hsize.
  intros Hp.
  destruct (block_offsets_cover (Z.of_nat (length R)) HashedSpaceBase) with (p := Z.of_nat p)
    as (o & [Ho Hr] & _); [unfold HashedSpaceBase, HashedBlockSize; lia..|lia|].
  rewrite <- Hitems in Ho. apply list_elem_of_fmap in Ho as (ot & -> & Hin).
  exists (look_of ot). split; [by apply list_elem_of_fmap_2|].
  destruct (items_elem ot Hin) as (i & Hi & E & Hlt). unfold look_of; cbn [l_off l_len].
  unfold block_len, HashedSpaceBase, HashedBlockSize in *. lia.
Qed.

Lemma blocks_of_corrections :
  (forall ot, ot ∈ items -> Z.of_nat (length (seen S0 W (look_of ot))) = block_len (Z.of_nat (length R)) ot.1) ->
  (to_write <$> blocks_of CorrBlocks (corrections items)) =
    ((fun ot => (l_off (look_of ot), seen S0 W (look_of ot))) <$> filter (fun ot => differs ot = true) items) /\
  blocks_of BufWrites (corrections items) = [].
Proof using Hlen.
  intros Hl. unfold corrections.
  assert (Hl' : Forall (fun ot => Z.of_nat (length (seen S0 W (look_of ot))) =
      block_len (Z.of_nat (length R)) ot.1) (filter (fun ot => differs ot = true) items)).
  { apply Forall_forall. intros ot [_ Hin]%list_elem_of_filter. by apply Hl. }
  induction Hl' as [|ot l Hot Hl' [IH1 IH2]]; [done|].
  unfold blocks_of in *. cbn [fmap list_fmap omap list_omap]. cbn. split; [|exact IH2].
  apply (f_equal2 cons); [|exact IH1]. unfold to_write, trim, seen, look_of in *; cbn in *. f_equal.
  apply take_ge. lia.
Qed.

Lemma seen_length ot :
  ot ∈ items -> Z.of_nat (length (seen S0 W (look_of ot))) = block_len (Z.of_nat (length R)) ot.1.
Proof using Hitems Hlen Hsize HW.
  intros Hin. destruct (items_elem ot Hin) as (i & Hi & E & Hlt).
  unfold seen, look_of; cbn [l_off l_len l_time].
  assert (0 <= block_len (Z.of_nat (length R)) ot.1 <= Z.of_nat (length R) - ot.1)
    by (unfold block_len, HashedSpaceBase, HashedBlockSize in *; lia).
  rewrite length_sub; [lia|]. rewrite src_length by done.
  unfold HashedSpaceBase, HashedBlockSize in *. lia.
Qed.

(** No collision of [xxhash] between a block of the replica and the same block
    of the source at some moment of the scan. *)
Definition no_collision : Prop :=
  forall o t, (t <= length W)%nat -> o ∈ block_offsets (Z.of_nat (length R)) HashedSpaceBase ->
    let l := look_of (o, t) in
    xxhash (seen S0 W l) = xxhash (sub (l_off l) (l_len l) R) -> seen S0 W l = sub (l_off l) (l_len l) R.

Lemma corrections_correct :
  Forall (fun ot => (ot.2 <= length W)%nat) items -> no_collision ->
  corrects S0 W R (look_of <$> items) (to_write <$> blocks_of CorrBlocks (corrections items)).
Proof using Hitems Hlen Hsize HW.
  intros Ht Hn. destruct (blocks_of_corrections seen_length) as [-> _]. split.
  - intros w (ot & -> & [_ Hin]%list_elem_of_filter)%list_elem_of_fmap.
    exists (look_of ot). split; [by apply list_elem_of_fmap_2|done].
  - intros l (ot & -> & Hin)%list_elem_of_fmap. destruct (differs ot) eqn:Ed.
    + left. apply (list_elem_of_fmap_2 (fun ot => (l_off (look_of ot), seen S0 W (look_of ot)))).
      by apply list_elem_of_filter.
    + right. unfold ClientScan.differs in Ed. apply negb_false_iff, Z.eqb_eq in Ed. symmetry.
      destruct ot as [o t]. rewrite Forall_forall in Ht. apply Hn; [by apply (Ht (o, t))| |done].
      rewrite <- Hitems. by apply (list_elem_of_fmap_2 fst items (o, t)).
Qed.
End FuzzyScan.

(** ** The packets of the ring *)

Section Buffer.
Context (t : TargetInfo).

Lemma carries_write p e :
  carries t p e -> wf_entry t e ->
  blocks_of CorrBlocks [p] = [] /\ to_write <$> blocks_of BufWrites [p] = [entry_write e].
Proof using.
  intros (w & -> & Ho & Hs & Hd & _) _. split; [done|]. unfold blocks_of. cbn. unfold to_write, trim, entry_write.
  cbn. rewrite Ho, Hs, Nat2Z.id. by rewrite Hd.
Qed.

Lemma blocks_of_cons x p ps : blocks_of x (p :: ps) = blocks_of x [p] ++ blocks_of x ps.
Proof using. apply (omap_app _ [p] ps). Qed.

Lemma batch_writes ps batch :
  Forall2 (carries t) ps batch -> Forall (wf_entry t) batch ->
  blocks_of CorrBlocks ps = [] /\ to_write <$> blocks_of BufWrites ps = entry_write <$> batch.
Proof using.
  induction 1 as [|p e ps batch Hp Hps IH]; intros Hw; [done|]. apply Forall_cons in Hw as [He Hw].
  destruct (carries_write p e Hp He) as [H1 H2]. destruct (IH Hw) as [I1 I2].
  rewrite !(blocks_of_cons _ p ps), H1, I1. split; [done|]. rewrite fmap_app, H2, I2. done.
Qed.
End Buffer.

Lemma no_collision_prefix xxhash S0 R L T :
  L `prefix_of` T -> no_collision xxhash S0 R T -> no_collision xxhash S0 R L.
Proof.
  intros [X ->] H o time Ht Ho. specialize (H o time).
  assert (E : seen S0 (L ++ X) (look_of R (o, time)) = seen S0 L (look_of R (o, time)))
    by (unfold seen, look_of; cbn [l_time fst snd]; by rewrite src_app).
  cbn zeta in H. rewrite E in H. apply H; [rewrite length_app; lia|done].
Qed.

(** Replaying the corrections of a scan and then the packets of the entries
    [log1], of which the first carry the writes [W] of the scan. *)
Lemma replay_converges xxhash S0 R (t : TargetInfo) W items out1 log1 :
  length R = length S0 -> Z.of_nat (length S0) < 2 ^ 63 -> Forall (fits (length S0)) (entry_write <$> log1) ->
  (fst <$> items) ≡ₚ block_offsets (Z.of_nat (length R)) HashedSpaceBase ->
  Forall (fun ot => (ot.2 <= length W)%nat) items -> W `prefix_of` (entry_write <$> log1) ->
  Forall2 (carries t) out1 log1 -> Forall (wf_entry t) log1 -> no_collision xxhash S0 R (entry_write <$> log1) ->
  apply_writes (a_replay (a_append_all (corrections xxhash S0 R W items ++ out1) a_empty)) R =
  apply_writes (entry_write <$> log1) S0.
Proof.
  intros Hlen Hsize HL Hitems Ht [X HX] Hc Hwf Hcol. set (L := entry_write <$> log1) in *.
  assert (E : corrections xxhash S0 R W items = corrections xxhash S0 R L items)
    by (rewrite HX; symmetry; by apply corrections_app).
  rewrite E. clear E.
  assert (HtL : Forall (fun ot => (ot.2 <= length L)%nat) items).
  { eapply Forall_impl; [exact Ht|]. intros ot H. cbn in H |- *. rewrite HX, length_app. lia. }
  destruct (batch_writes t out1 log1 Hc Hwf) as [B1 B2]. fold L in B2.
  destruct (blocks_of_corrections xxhash S0 R L Hlen items (seen_length S0 R L Hlen Hsize HL items Hitems)) as [_ Hb].
  unfold a_replay, a_append_all. cbn [a_blocks a_writes a_empty app].
  unfold blocks_of in *. rewrite !omap_app. fold (blocks_of CorrBlocks (corrections xxhash S0 R L items)).
  fold (blocks_of BufWrites (corrections xxhash S0 R L items)). unfold blocks_of in *.
  rewrite Hb, B1, app_nil_r. cbn [app]. rewrite B2.
  apply (fuzzy_scan S0 L R (look_of R <$> items)); [done|done| | |].
  - apply (items_cover S0 R Hlen Hsize items Hitems).
  - intros l (ot & -> & Hin)%list_elem_of_fmap.
    destruct (items_elem S0 R Hlen Hsize items Hitems ot Hin) as (i & H0 & Eo & Hlt).
    unfold look_of; cbn [l_off]. unfold HashedSpaceBase, HashedBlockSize in *. lia.
  - by apply corrections_correct.
Qed.


(** ** A scan of an eight-byte disk *)

Definition demo_v : Server :=
  {| TargetDevFd := {| content := demo_R; faults := [] |};
     JournalDev := jdev demo_empty; SJournal := Some (jrn demo_empty);
     ClientInfo := Some {| DeviceSize := 8; iWriteInfoSize := 12; BufferByteSize := 48 |};
     Connected := true; sent := []; sendFaults := []; state := StateHashing |}.

Definition demo_sent : list Packet :=
  [correct_packet demo_S0 0 8;
   {| PacketType := PacketTypePayloadBufferWrite;
      Payload := PWriteInfo {| Offset := 0; Size := 1; Data := [Byte.xdd; Byte.x00] |} |}].

Lemma demo_scan_ready : scan_ready demo_v (jrn demo_empty) a_empty demo_sent.
Proof.
  split.
  - reflexivity.
  - apply check_jrel_sound. vm_compute. reflexivity.
  - done.
  - reflexivity.
  - reflexivity.
  - repeat constructor; vm_compute; repeat constructor; done.
  - repeat constructor; by left || right.
  - intros []; vm_compute; discriminate.
  - intros []; apply (bool_decide_unpack _); vm_compute; exact I.
Qed.

Lemma demo_no_collision : no_collision be_get demo_S0 demo_R [(0%nat, [Byte.xdd])].
Proof.
  intros o t Ht Ho. change (block_offsets (Z.of_nat (length demo_R)) HashedSpaceBase) with [0] in Ho.
  apply list_elem_of_singleton in Ho as ->. destruct t as [|[|t]]; [| |cbn in Ht; lia]; vm_compute; discriminate.
Qed.

Definition demo_server_run : list event := [EMain; EMain; EJournal; EMain; EMain; EMain; EJournal; EJournal; EMain].


(** ** A block the server cannot read *)

(** The packet of a failed read: no size, no hash. *)
Definition failed_hash (o : Z) : Packet :=
  {| PacketType := PacketTypePayloadHash; Payload := PHashInfo {| hOffset := o; hSize := 0; hHash := 0 |} |}.

(** What the client answers. *)
Definition empty_correction (o : Z) : Packet :=
  {| PacketType := PacketTypePayloadCorrectBlock;
     Payload := PCorrectBlockInfo {| Offset := o; Size := 0; Data := [] |} |}.

Lemma read_block_empty o c : 0 <= o < 2 ^ 63 -> read_block 0 o c = (Ret ([], None), c).
Proof.
  intros Ho. unfold read_block, zoom, bind. rewrite i64_small by done. unfold ReadAt.
  destruct (Z.ltb_spec o 0); [lia|]. cbn. unfold ret. f_equal. by destruct c.
Qed.

(** C34: a block of the replica that the server cannot read is not repaired by a
    scan: the server announces the error and still sends a hash packet, of size
    0; the client answers it with an empty correct block; and applying that
    block writes nothing.  The reader that met the error takes no further
    block. *)
Theorem unreadable_block_unrepaired xxhash v o k e fs s :
  faults (TargetDevFd v) = Fault k e :: fs -> e <> IoEOF -> 0 <= o < 2 ^ 63 -> sendFaults v = [] ->
  xxhash [] <> 0 -> connected (cl s) -> hashers s = Some [] -> hashQueue s = mkChan [failed_hash o] 8 false ->
  (exists x v1 v2, hash_read HashedSpaceBase o v = (Ret (ReadFailed x), v1) /\
     hash_send x v1 = (Ret true, v2) /\
     sent v2 = sent v ++ [CreateInfoPacket PacketTypeErrHash; failed_hash o]) /\
  (exists s1 s2, cstep xxhash CHashRead s = Done s1 /\ cstep xxhash (CHashSend 0) s1 = Done s2 /\
     csent (cl s2) = csent (cl s) ++ [empty_correction o]) /\
  (forall c, apply_writes (to_write <$> blocks_of CorrBlocks [empty_correction o]) c = c).
Proof.
  intros Hf He Ho Hs Hx (Hc & Hio & Ht) Hh Hq. split_and!.
  - unfold hash_read, on_target, zoom, bind. rewrite i64_small by lia.
    unfold ReadAt. destruct (Z.ltb_spec o 0); [lia|].
    assert (Hn : (0 < Z.to_nat HashedSpaceBase)%nat) by (unfold HashedSpaceBase, HashedBlockSize; lia).
    generalize dependent (Z.to_nat HashedSpaceBase). intros [|n] Hn; [lia|].
    unfold syscall. rewrite Hf. destruct e as [|m|m e]; [done|..];
      (eexists _, _, _; split_and!; [reflexivity| |]; [unfold hash_send, ignore, bind, catch, SendPacket, map_err, Encode;
        cbn; rewrite Hs; cbn; reflexivity|cbn; by rewrite <- app_assoc]).
  - cbn [cstep]. unfold hash_read_step. rewrite Hh, Hq. cbn. unfold on_cl.
    rewrite read_block_empty by done. cbn. eexists. eexists. split; [reflexivity|].
    unfold hash_send_step; cbn. destruct (Z.eqb_spec (xxhash []) 0); [done|]. unfold on_cl, SendCorrectBlock.
    rewrite SendPacket_ok by done. by split.
  - intros c. change (splice (Z.to_nat o) [] c = c). unfold splice. cbn [length app].
    rewrite Nat.add_0_r. apply take_drop.
Qed.

Definition demo_unreadable : Server :=
  set_target {| content := demo_R; faults := [Fault 0 (ErrMsg "input/output error")] |} demo_v.

Definition demo_failed : CSession :=
  set_hashers (Some []) (set_hashQueue (mkChan [failed_hash 0] 8 false) (run_of demo_client [])).

Lemma unreadable_block_unrepaired_witness :
  (exists x v1 v2, hash_read HashedSpaceBase 0 demo_unreadable = (Ret (ReadFailed x), v1) /\
     hash_send x v1 = (Ret true, v2) /\
     sent v2 = [CreateInfoPacket PacketTypeErrHash; failed_hash 0]) /\
  (exists s1 s2, cstep any_hash CHashRead demo_failed = Done s1 /\
     cstep any_hash (CHashSend 0) s1 = Done s2 /\ csent (cl s2) = [empty_correction 0]) /\
  (forall c, apply_writes (to_write <$> blocks_of CorrBlocks [empty_correction 0]) c = c).
Proof.
  apply (unreadable_block_unrepaired any_hash demo_unreadable 0 0 (ErrMsg "input/output error") [] demo_failed);
    [reflexivity|discriminate|lia|reflexivity|discriminate|exact demo_connected|reflexivity|reflexivity].
Defined.
