(* ===== verification/FullScan.v ===== *)
(** * A full scan

    With [--full-scan] the correct blocks do not go through the journal but
    straight to the replica ([HandleCorrectPackets]).  A full scan of a source
    that is not written to makes the replica equal to it; what happens to writes
    made meanwhile is in [SessionPaths]. *)
From S2P Require Import Prelude GoInt GoMonad GoChan BlockDev Blocks Image Networking Journal.
From S2P Require Import RingBuffer Client ClientFacts ClientSession ClientScan ClientFlush ClientRun ClientScanProps.
From S2P Require Import JournalSpec Server ServerReplay ServerJournal ServerProps.
From S2P Require Import Session SessionSafety SessionScan SessionFullScan EndToEnd.
Open Scope Z_scope.

(** The session of the server when the corrections [ps] are on their way to it,
    followed by the end of the scan: [h], [jw], [rw] and [st] are what the hashing
    goroutine, a journal worker, the workers of a replication and the goroutines of
    earlier scans still do. *)
Definition correcting_session (v : Server) (h : hash_pc) (jw : bool) (rw : nat) (st : list (bool * hash_job))
    (ps : list Packet) : Session :=
  mkSession v (inl <$> (ps ++ [completed])) (make_chan 0) (make_chan 0)
    (make_chan WritePacketQueueSize) (make_chan JournalPacketQueueSize)
    (make_chan CorrectPacketQueueSize) (make_chan ReplicationPacketQueueSize)
    MLoop WIdle h jw rw None [] st.

Lemma correcting_start v h jw rw st bs :
  healthy (TargetDevFd v) -> state v = Server.StateDestroyingReplica ->
  session_inv (correcting_session v h jw rw st (correct_block <$> bs)) /\
  full_inv (content (TargetDevFd v)) bs (correcting_session v h jw rw st (correct_block <$> bs)).
Proof.
  intros Hh Hs. split.
  - split; try done; [by intros []|intros []; cbn; lia|by intros []| |cbn; lia]. unfold journal_needed. cbn. by rewrite Hs.
  - split; [by split|]. exists [], [], [], [], bs, [completed]. split; cbn; auto; try done.
    unfold healthy in Hh. by destruct (TargetDevFd v) as [c f]; cbn in *; subst.
Qed.

Section FullScan.
Context (xxhash : list byte -> Z) (S0 R : list byte).
Context (Hlen : length R = length S0) (Hsize : Z.of_nat (length S0) < 2 ^ 63).
Context (items : list (Z * nat)).
Context (Hitems : (fst <$> items) ≡ₚ block_offsets (Z.of_nat (length R)) HashedSpaceBase).

(** The blocks of the corrections of a source that is not written to. *)
Definition corrected (ot : Z * nat) : CorrectBlockInfo :=
  let n := block_len (Z.of_nat (length R)) ot.1 in
  {| Offset := ot.1; Size := n; Data := sub (Z.to_nat ot.1) (Z.to_nat n) (src S0 [] ot.2) |}.
Definition differing : list (Z * nat) := filter (fun ot => differs xxhash S0 R [] ot = true) items.

Lemma corrections_blocks : corrections xxhash S0 R [] items = correct_block <$> (corrected <$> differing).
Proof using. unfold corrections. by rewrite <- list_fmap_compose. Qed.

Lemma corrected_writable : Forall (writable (length R)) (corrected <$> differing).
Proof using Hlen Hsize Hitems.
  apply Forall_fmap, Forall_forall. intros ot [_ Hin]%list_elem_of_filter.
  pose proof (seen_length S0 R [] Hlen Hsize ltac:(constructor) items Hitems ot Hin) as Hl.
  destruct (items_elem S0 R Hlen Hsize items Hitems ot Hin) as (i & Hi & E & Hlt).
  unfold seen, look_of in Hl. cbn [l_off l_len l_time] in Hl.
  split_and!; cbn [corrected compose Offset Size Data]; [unfold HashedSpaceBase, HashedBlockSize in *; lia|exact Hl|].
  unfold fits, to_write; cbn [fst snd corrected Offset Data]. unfold block_len, HashedSpaceBase, HashedBlockSize in *. lia.
Qed.

Lemma corrected_copies :
  Forall (fun ot => (ot.2 <= 0)%nat) items -> no_collision xxhash S0 R [] ->
  apply_writes (to_write <$> (corrected <$> differing)) R = S0.
Proof using Hlen Hsize Hitems.
  intros Ht Hcol. assert (HW : Forall (fits (length S0)) []) by constructor.
  pose proof (corrections_correct xxhash S0 R [] Hlen Hsize HW items Hitems Ht Hcol) as C.
  destruct (blocks_of_corrections xxhash S0 R [] Hlen items (seen_length S0 R [] Hlen Hsize HW items Hitems)) as [Eb _].
  rewrite Eb in C.
  rewrite <- list_fmap_compose. rewrite <- (app_nil_r (_ <$> _)).
  apply (fuzzy_scan S0 [] R (look_of R <$> items)); [done|done|by apply items_cover| |exact C].
  intros l (ot & -> & Hin)%list_elem_of_fmap.
  destruct (items_elem S0 R Hlen Hsize items Hitems ot Hin) as (i & H0 & Eo & Hlt).
  unfold look_of; cbn [l_off]. unfold HashedSpaceBase, HashedBlockSize in *. lia.
Qed.
End FullScan.

(** C14: a full scan of a source that is not written to copies it.  In every schedule
    of the client's goroutines, when the hashes are compared, the corrections sent
    and the ring is read, and in every schedule of the server's goroutines on what
    the client has sent: when the server has read it all, the queue of correct
    blocks is empty and the worker has written the block it has last received, the
    replica, which was written without the journal, equals
    the source, whatever it was before, and the server is back to direct writes;
    and from every point of every schedule the server gets there.  The hash
    function must not collide between a block of the replica and the same block of
    the source. *)
Theorem full_scan_copies xxhash numWorkers S0 offs t n cs0 ec1 cs1 ec2 cs cps v h jw rw st es s :
  announced xxhash S0 (content (TargetDevFd v)) offs t n [] cs0 ->
  offs ≡ₚ block_offsets (dev_size (TargetDevFd v)) HashedSpaceBase ->
  Forall (undisturbed S0 t) ec1 -> sources ec1 = [] -> crun xxhash ec1 cs0 = Done cs1 -> listenPc cs1 = LSendBuffer ->
  Forall (undisturbed S0 t) ec2 -> crun xxhash (CListen :: ec2) cs1 = Done cs -> listenPc cs = LResume ->
  csent (cl cs) = csent (cl cs0) ++ cps -> no_collision xxhash S0 (content (TargetDevFd v)) [] ->
  target_ok v -> state v = Server.StateDestroyingReplica -> EShutdown ∉ es ->
  run xxhash numWorkers es (correcting_session v h jw rw st cps) = Done s ->
  (settled s -> content (TargetDevFd (srv s)) = S0 /\ state (srv s) = Server.StateWriting) /\
  exists es' s', (EShutdown ∉ es') /\ run xxhash numWorkers es' s = Done s' /\ settled s'.
Proof.
  intros A Hoffs Hq1 Hn E1 Hl1 Hq2 E2 Hl2 Hs Hcol T Hst Hes Er. set (R := content (TargetDevFd v)) in *.
  pose proof (an_len _ _ _ _ _ _ _ _ A) as Hlen. pose proof (an_size _ _ _ _ _ _ _ _ A) as Hsize.
  destruct (scan_flushed xxhash S0 R offs t n [] cs0 cs1 ec1 A Hq1 E1 ec2 cs Hl1 Hq2 E2 Hl2)
    as (items & batch & ps & _ & Hi & Ht & Hc & Hcar & _ & Hb).
  rewrite Hn in Hc, Ht, Hb. apply fmap_nil_inv in Hb as ->. apply Forall2_nil_inv_r in Hcar as ->.
  cbn [app length] in Hc, Ht. rewrite app_nil_r, Hs in Hc. apply app_inv_head in Hc.
  assert (Hitems : (fst <$> items) ≡ₚ block_offsets (Z.of_nat (length R)) HashedSpaceBase) by (by rewrite Hi).
  rewrite corrections_blocks in Hc. subst cps.
  set (bs := corrected S0 R <$> differing xxhash S0 R items) in *.
  assert (Hbs : Forall (writable (length R)) bs) by (by apply corrected_writable).
  destruct (correcting_start v h jw rw st bs) as [I0 F0]; [apply T|done|]. fold R in F0.
  assert (HR : Z.of_nat (length R) < 2 ^ 63) by (by rewrite Hlen).
  pose proof (full_run xxhash numWorkers R bs HR Hbs es _ s Hes F0 Er) as F.
  split.
  - intros Hset. destruct (full_settled R bs s F Hset) as [Hcont Hw]. split; [|done]. rewrite Hcont.
    by apply (corrected_copies xxhash S0 R Hlen Hsize items Hitems Ht Hcol).
  - apply (full_can_finish xxhash numWorkers R bs HR Hbs); [|done]. by eapply run_session_inv.
Qed.

(** ** The disk of eight bytes, left alone *)

Definition quiet_run : list cevent :=
  [CListen; CMonitor false; CListen; CListen; CListen; CHashRead; CListen; CHashSend 0; CHashRead; CListen].

Definition quiet_server : Server := set_state Server.StateDestroyingReplica demo_v.

Lemma quiet_no_collision : no_collision be_get demo_S0 demo_R [].
Proof. exact (no_collision_prefix be_get demo_S0 demo_R [] _ (prefix_nil _) demo_no_collision). Qed.

(** The correct block is received before the last packet of the client and written
    after it, beside a journal worker that an earlier scan has left. *)
Definition quiet_flush : list cevent := [].
Definition quiet_server_run : list event := [EMain; EMain; ECorrect; EHash HEnd; EMain; EJournal; EMain; ECorrect].
Definition quiet_job : hash_pc := HRunning (mkJob [] 2 [] [] 2 [] 2).

Lemma full_scan_copies_witness :
  exists cs1 cs s, crun be_get quiet_run demo_announced = Done cs1 /\
    crun be_get (CListen :: quiet_flush) cs1 = Done cs /\
    run be_get 2 quiet_server_run (correcting_session quiet_server quiet_job true 0 [] (csent (cl cs))) = Done s /\
    content (TargetDevFd (srv s)) = demo_S0.
Proof.
  destruct (crun be_get quiet_run demo_announced) as [cs1| |] eqn:E1;
    [|vm_compute in E1; discriminate|vm_compute in E1; discriminate].
  pose proof E1 as V1. vm_compute in V1. injection V1 as V1.
  assert (Hl1 : listenPc cs1 = LSendBuffer) by (rewrite <- V1; reflexivity).
  destruct (crun be_get (CListen :: quiet_flush) cs1) as [cs| |] eqn:E2;
    [|rewrite <- V1 in E2; vm_compute in E2; discriminate|rewrite <- V1 in E2; vm_compute in E2; discriminate].
  pose proof E2 as V2. rewrite <- V1 in V2. vm_compute in V2. injection V2 as V2.
  assert (Hl2 : listenPc cs = LResume) by (rewrite <- V2; reflexivity).
  destruct (run be_get 2 quiet_server_run (correcting_session quiet_server quiet_job true 0 [] (csent (cl cs))))
    as [s| |] eqn:E; [|rewrite <- V2 in E; vm_compute in E; discriminate|rewrite <- V2 in E; vm_compute in E; discriminate].
  exists cs1, cs, s. split; [reflexivity|]. split; [exact E2|]. split; [exact E|].
  assert (F : settled s) by (rewrite <- V2 in E; vm_compute in E; injection E as <-; repeat split).
  assert (T : target_ok quiet_server) by (split; [reflexivity|vm_compute; reflexivity]).
  clear V1 V2.
  refine (proj1 (proj1 (full_scan_copies be_get 2 demo_S0 [0] demo_target_info 3 demo_announced quiet_run cs1 quiet_flush
    cs (csent (cl cs)) quiet_server quiet_job true 0 [] quiet_server_run s demo_is_announced _ _ eq_refl E1 Hl1
    _ E2 Hl2 eq_refl quiet_no_collision T eq_refl _ E) F)); [vm_compute; reflexivity|repeat constructor|repeat constructor|].
  apply (bool_decide_unpack _). vm_compute. exact I.
Defined.
