(* ===== verification/SystemTracked.v ===== *)
(** * The schedules of the two daemons

    [tracked] ties a state of the joint system to the packets that either daemon
    has sent: the client is where a client that heard [sps] can be, the server
    where one that heard [cps] can be.  Every schedule keeps it, and for a server
    that has handled everything it gives the contents of the replica. *)
From S2P Require Import Prelude GoInt GoMonad GoChan Utils BlockDev Blocks Image Networking.
From S2P Require Import RingBuffer Pause Client ClientFacts ClientSession ClientSafety ClientSends.
From S2P Require Import Journal JournalSpec Server ServerReplay ServerJournal ServerProps ServerPaths Session SessionSafety.
From S2P Require Import ClientScan ClientFlush ClientSteady ClientRun SessionScan SessionStream SessionDrain.
From S2P Require Import ClientOutput EndToEnd System.
Open Scope Z_scope.

Lemma app_same {A} (l x : list A) : l = l ++ x -> x = [].
Proof. intros E%(f_equal length). rewrite length_app in E. apply nil_length_inv. lia. Qed.

(** The server's hashes, as far as they have been sent, and how they can go on. *)
Lemma served_stream xxhash v0 j0 cps s sps :
  served xxhash v0 j0 cps s -> sent (srv s) = sent v0 ++ sps ->
  exists order rest, order ≡ₚ block_offsets (dev_size (TargetDevFd v0)) HashedSpaceBase /\
    sps ++ rest = start_of_scan :: (hash_packet xxhash (content (TargetDevFd v0)) <$> order) ++ [completed] /\
    (rest = [] -> hashPc s = HNone) /\ (preparing v0 s -> sps = []).
Proof.
  intros [_ [(P & _ & _)|[I H]]] Hs.
  - assert (Hv : sent (srv s) = sent v0) by (destruct P as [? ? Hv|? ? Hv|? ? Hv|? ? Hv]; by rewrite Hv).
    rewrite Hv in Hs. apply app_same in Hs as ->. eexists _, _. split; [reflexivity|].
    split; [reflexivity|]. done.
  - assert (Hp : preparing v0 s -> False).
    { intros P. unfold hashing in H. assert (Hv : sent (srv s) = sent v0) by (destruct P as [? ? Hv|? ? Hv|? ? Hv|? ? Hv]; by rewrite Hv).
      rewrite Hv in H. destruct (hashPc s) as [| |j].
      - destruct H as (dn & _ & E). apply (f_equal length) in E. rewrite length_app in E. cbn in E. lia.
      - done.
      - destruct H as (_ & _ & _ & dn & rs & wk & _ & _ & _ & E). apply (f_equal length) in E. rewrite length_app in E. cbn in E. lia. }
    unfold hashing in H. destruct (hashPc s) as [| |j].
    + destruct H as (dn & Hd & E). rewrite Hs in E. apply app_inv_head in E. exists dn, []. rewrite app_nil_r. by split_and!.
    + done.
    + destruct H as (_ & _ & _ & dn & rs & wk & _ & _ & Hd & E). rewrite Hs in E. apply app_inv_head in E as ->.
      set (left := rs ++ wk ++ j_reading j ++ j_tasks j) in *.
      exists (dn ++ left), ((hash_packet xxhash (content (TargetDevFd v0)) <$> left) ++ [completed]).
      split; [done|]. split; [by rewrite (fmap_app _ dn), <- (app_assoc (_ <$> dn))|].
      split; [|done]. intros Hn. apply app_eq_nil in Hn as [_ Hn]. done.
Qed.

Section Tracked.
Context (xxhash : list byte -> Z).
Context (S0 : list byte) (t : TargetInfo) (n : nat) (W0 : list write) (j0 : Journal) (x0 : System).
Context (Rq : requested S0 t n W0 j0 x0).
#[local] Abbreviation v0 := (srv (server x0)).
#[local] Abbreviation c0 := (client x0).
#[local] Abbreviation base := (csent (cl c0)).

(** The client has given the scan up because its ring has overflown, or it has sent
    more buffered writes than the journal has slots. *)
Definition overfull (cps : list Packet) : Prop := slotCount (header j0) BufWrites < Z.of_nat (buffered cps).
Definition lost (cps : list Packet) : Prop := new_scan ∈ cps \/ overfull cps.

Lemma lost_app cps y : lost cps -> lost (cps ++ y).
Proof using. intros [H|H]; [left; apply elem_of_app; by left|right]. unfold overfull in *. pose proof (buffered_app cps y). lia. Qed.

(** The system after the schedule [es]: [cps] and [sps] have been sent since. *)
Record tracked (es : list sys_event) (cps sps : list Packet) (x : System) : Prop := {
  tk_csent : csent (cl (client x)) = base ++ cps;
  tk_sent : sent (srv (server x)) = sent v0 ++ sps;
  tk_linked : linked (client x);
  tk_run : crun xxhash (client_events es) (arrive (RPacket <$> sps) c0) = Done (client x);
  tk_server : lost cps \/ served xxhash v0 j0 cps (server x);
}.

Lemma announced_of sps rest order :
  order ≡ₚ block_offsets (dev_size (TargetDevFd v0)) HashedSpaceBase ->
  sps ++ rest = start_of_scan :: (hash_packet xxhash (content (TargetDevFd v0)) <$> order) ++ [completed] ->
  announced xxhash S0 (content (TargetDevFd v0)) order t n W0 (arrive (RPacket <$> sps ++ rest) c0).
Proof using Rq.
  intros Ho Hs. destruct Rq. split; try done.
  - cbn. rewrite rq_incoming, Hs. cbn. rewrite fmap_app. unfold ClientScan.stream. f_equal.
    by rewrite <- list_fmap_compose.
  - apply Forall_forall. intros o Hin. rewrite Ho in Hin. unfold dev_size, HashedSpaceBase, HashedBlockSize in Hin.
    apply block_offsets_elem in Hin as (i & Hi & -> & Hlt); lia.
Qed.

Lemma linked_start sps : linked (arrive (RPacket <$> sps) c0).
Proof using Rq.
  destruct Rq. split; cbn; [|by rewrite rq_listen]. rewrite rq_incoming. cbn. apply Forall_fmap, Forall_forall.
  intros p _. by exists p.
Qed.

(** What the client has sent, whatever the schedule was, when the server [s] has
    sent [sps]. *)
Lemma client_view evs c cps sps cps0 s :
  let T := W0 ++ sources evs in
  crun xxhash evs (arrive (RPacket <$> sps) c0) = Done c -> csent (cl c) = base ++ cps ->
  Forall (undisturbed S0 t) evs -> served xxhash v0 j0 cps0 s -> sent (srv s) = sent v0 ++ sps ->
  lost cps \/
  (valid v0 j0 cps /\ (completed ∈ cps -> hashPc s = HNone) /\ (preparing v0 s -> cps = []) /\
   Forall (fits (length S0)) T /\ content (UnderDevFile (cl c)) = apply_writes T S0 /\
   exists W items log1 log2, output v0 xxhash S0 t T cps W items log1 log2 /\
     Z.of_nat (buffered cps) <= slotCount (header j0) BufWrites /\
     (log2 <> None -> client_drained c -> (entry_write <$> log1 ++ default [] log2) = T)).
Proof using Rq.
  intros T K4 K1 Hq K5 K2.
  destruct (served_stream xxhash v0 j0 cps0 s sps K5 K2) as (order & rest & Ho & Hs & Hn & Hp).
  pose proof (announced_of sps rest order Ho Hs) as A.
  destruct (crun_arrive (RPacket <$> rest) xxhash _ _ _ (linked_start sps) K4) as [E _].
  rewrite arrive_arrive, <- fmap_app in E.
  pose proof (client_scan_run _ _ _ _ _ _ _ _ _ _ A Hq E) as St. cbn [cl arrive set_incoming] in St.
  pose proof (rq_len _ _ _ _ _ _ Rq) as Hlen. pose proof (rq_size _ _ _ _ _ _ Rq) as Hsize.
  destruct (stage_output v0 xxhash S0 t n base order _ (arrive (RPacket <$> rest) c) cps St K1 Ho)
    as [H|(HT & Hdev & W & items & l1 & l2 & O & Hi)]; [by left; left|].
  destruct (decide (Z.of_nat (buffered cps) <= slotCount (header j0) BufWrites)) as [Hroom|Hroom];
    [right|left; right; unfold overfull; lia].
  destruct (output_valid v0 j0 xxhash S0 t n (rq_wf _ _ _ _ _ _ Rq) Hlen Hsize (rq_corr _ _ _ _ _ _ Rq)
    (rq_page _ _ _ _ _ _ Rq) (rq_blocks _ _ _ _ _ _ Rq) _ _ _ _ _ _ HT Hroom O) as [Hv Hc].
  split; [done|]. split; [|split; [|split; [done|split; [exact Hdev|]]]].
  - intros Hin. apply Hn. destruct (Hi (Hc Hin)) as [Hi' _]. cbn in Hi'.
    apply app_eq_nil in Hi' as [_ Hi']. by apply fmap_nil_inv in Hi'.
  - intros P. rewrite (Hp P) in *. cbn [app] in Hs.
    assert (L : csent (cl (arrive (RPacket <$> rest) c)) = base).
    { apply (stage_unread v0 xxhash S0 t n base order _ _ St). cbn. rewrite Hs, length_app, length_fmap. cbn.
      rewrite length_app, length_fmap. cbn. lia. }
    cbn in L. rewrite K1 in L. by apply symmetry, app_same in L.
  - exists W, items, l1, l2. split; [done|]. split; [done|]. intros Hl Hd. destruct (Hi Hl) as [_ H]. by apply H.
Qed.

Lemma client_undisturbed es : Forall (sys_undisturbed S0 t) es -> Forall (undisturbed S0 t) (client_events es).
Proof using. induction 1 as [|e es He Hes IH]; [constructor|]. destruct e; cbn; [done|by constructor]. Qed.

Context (nw : nat) (Hnw : (0 < nw)%nat).

Lemma tracked_start : tracked [] [] [] x0.
Proof using Rq.
  destruct Rq. split; try by rewrite app_nil_r.
  - split; [by rewrite rq_incoming|by rewrite rq_listen].
  - cbn. by rewrite arrive_nil.
  - right. split; [done|]. left. done.
Qed.

Lemma served_arrives cps x s : served xxhash v0 j0 cps s -> (preparing v0 s -> x = []) -> served xxhash v0 j0 (cps ++ x) (arrived x s).
Proof using.
  intros [St [(P & Hw & ->)|[I H]]] Hx.
  - rewrite (Hx P). split; [by destruct St|]. left. split; [|done].
    unfold arrived. cbn. rewrite app_nil_r. by destruct s.
  - split; [by destruct St|]. right. split; [by apply stream_arrived|done].
Qed.

(** A step of the server. *)
Lemma tracked_server es cps sps x e x' :
  tracked es cps sps x -> Forall (sys_undisturbed S0 t) es -> e <> EShutdown ->
  sys_step xxhash nw (SServer e) x = Done x' ->
  exists sps', tracked (es ++ [SServer e]) cps sps' x'.
Proof using Rq Hnw.
  intros [K1 K2 K3 K4 K5] Hq He E. cbn in E. apply abind_Done in E as (s & E & [= <-]).
  destruct (step_sends xxhash nw e _ _ E) as [y Hy]. unfold added. rewrite Hy, drop_app_length.
  destruct (crun_arrive (RPacket <$> y) xxhash _ _ _ (linked_start sps) K4) as [E' L'].
  exists (sps ++ y). split; cbn.
  - done.
  - by rewrite Hy, K2, <- app_assoc.
  - destruct K3 as [K3 K3']. split; [|done]. cbn. apply Forall_app. split; [done|].
    apply Forall_fmap, Forall_forall. intros p _. by exists p.
  - rewrite client_events_app. cbn. rewrite app_nil_r, fmap_app, <- arrive_arrive. exact E'.
  - destruct K5 as [K5|K5]; [by left|].
    destruct (client_view _ _ cps sps cps (server x) K4 K1 (client_undisturbed es Hq) K5 K2) as [O|(Hv & Hc & _)];
      [by left|]. right.
    destruct (rq_info _ _ _ _ _ _ Rq) as (nfo & Hi & Hd).
    by apply (served_step xxhash nw v0 j0 nfo (rq_journal _ _ _ _ _ _ Rq) (rq_inv _ _ _ _ _ _ Rq)
      (rq_device _ _ _ _ _ _ Rq) (rq_send _ _ _ _ _ _ Rq) Hnw Hi Hd cps e (server x) s).
Qed.

Lemma crun_snoc es e s s1 s2 :
  crun xxhash es s = Done s1 -> cstep xxhash e s1 = Done s2 -> crun xxhash (es ++ [e]) s = Done s2.
Proof using.
  revert s. induction es as [|e1 es IH]; intros s; cbn; [by intros [= ->] ->|].
  intros (s3 & E1 & E2)%abind_Done E. rewrite E1. by apply IH.
Qed.

(** A step of the client. *)
Lemma tracked_client es cps sps x e x' :
  tracked es cps sps x -> Forall (sys_undisturbed S0 t) (es ++ [SClient e]) -> sys_step xxhash nw (SClient e) x = Done x' ->
  exists cps', tracked (es ++ [SClient e]) cps' sps x'.
Proof using Rq.
  intros [K1 K2 K3 K4 K5] Hq E. cbn in E. apply abind_Done in E as (c & E & [= <-]).
  destruct (cstep_sends xxhash e _ _ E) as [y Hy]. unfold added. rewrite Hy, drop_app_length.
  assert (R : crun xxhash (client_events (es ++ [SClient e])) (arrive (RPacket <$> sps) c0) = Done c)
    by (rewrite client_events_app; by apply (crun_snoc _ e _ (client x))).
  assert (Hcs : csent (cl c) = base ++ (cps ++ y)) by (by rewrite Hy, K1, <- app_assoc).
  exists (cps ++ y). split; cbn; [done|done|by eapply cstep_linked|exact R|].
  destruct K5 as [K5|K5]; [left; by apply lost_app|].
  destruct (client_view _ _ (cps ++ y) sps cps (server x) R Hcs (client_undisturbed _ Hq) K5 K2)
    as [O|(_ & _ & O & _)]; [by left|].
  right. apply served_arrives; [done|]. intros P. specialize (O P). by apply app_eq_nil in O as [_ ?].
Qed.

(** Every schedule is tracked. *)
Lemma run_tracked es x :
  Forall (sys_undisturbed S0 t) es -> sys_run xxhash nw es x0 = Done x ->
  exists cps sps, tracked es cps sps x.
Proof using Rq Hnw.
  revert x. induction es as [|e es IH] using rev_ind; intros x Hq E.
  { injection E as <-. exists [], []. apply tracked_start. }
  apply sys_run_snoc in E as (y & E & Es). pose proof Hq as [Hq1 [Hq2 _]%Forall_cons]%Forall_app.
  destruct (IH y Hq1 E) as (cps & sps & K). destruct e as [e|e].
  - destruct (tracked_server es cps sps y e x K Hq1 Hq2 Es) as (sps' & K').
    by exists cps, sps'.
  - destruct (tracked_client es cps sps y e x K Hq Es) as (cps' & K'). by exists cps', sps.
Qed.
End Tracked.

(** ** The replica follows the source *)

Lemma good_split v j ps qs (a b : list Packet) :
  good v j ps -> good v j qs -> ps ++ completed :: a = qs ++ completed :: b -> ps = qs /\ a = b.
Proof.
  intros [_ Hp _ _] [_ Hq _ _] E. revert qs Hq E. induction Hp as [|p ps Hp Hps IH]; intros [|q qs] Hq.
  - by intros [= ->].
  - intros [= <- _]. apply Forall_cons in Hq as [Hq _]. by apply completed_not_journal in Hq.
  - intros [= -> _]. by apply completed_not_journal in Hp.
  - intros [= <- E]. apply Forall_cons in Hq as [_ Hq]. by destruct (IH qs Hq E) as [-> ->].
Qed.

(** An idle server has journalled, replayed and written what has arrived. *)
Lemma idle_replica xxhash v0 j0 cps s :
  served xxhash v0 j0 cps s -> server_idle s ->
  exists ps ws, good v0 j0 ps /\ cps = ps ++ completed :: (write_packet <$> ws) /\
    content (TargetDevFd (srv s)) = replica_after v0 ps ws.
Proof.
  intros [_ H] (Hm & Hd & Hst & Hw & Hq). destruct H as [(P & _)|[I _]].
  - exfalso. destruct P as [_ Hd'|Hm'|Hm'|_ _ Hv]; [by rewrite Hd in Hd'|congruence|congruence|].
    by rewrite Hv in Hst.
  - destruct I as [jd q todo _ (j & _ & _ & _ & _ & Hs & _)|? ? ? ? Hm'|? ? ? Hm'|
      ps wd fl q mp todo Hg Hm' Hw' _ _ Hq' Hd' Hc _ _ _ Hcont]; [congruence|congruence|congruence|].
    unfold in_main in Hm'. rewrite Hm in Hm'. subst mp. unfold in_worker in Hw'. rewrite Hw in Hw'. subst fl.
    rewrite Hq' in Hq. cbn in Hq. apply fmap_nil_inv in Hq as ->. rewrite Hd in Hd'.
    symmetry in Hd'. apply fmap_nil_inv in Hd' as ->. rewrite !app_nil_r in Hc. cbn in Hc. rewrite ?app_nil_r in Hc.
    by exists ps, wd.
Qed.

(** What the corrections and entries of a client make of the replica. *)
Lemma output_replica xxhash S0 t n W0 j0 x0 T cps W items l1 l2 ps ws :
  requested S0 t n W0 j0 x0 -> Forall (fits (length S0)) T -> Z.of_nat (buffered cps) <= slotCount (header j0) BufWrites ->
  no_collision xxhash S0 (content (TargetDevFd (srv (server x0)))) T ->
  output (srv (server x0)) xxhash S0 t T cps W items l1 l2 ->
  good (srv (server x0)) j0 ps -> cps = ps ++ completed :: (write_packet <$> ws) ->
  l2 <> None /\
  replica_after (srv (server x0)) ps ws = apply_writes (entry_write <$> l1 ++ default [] l2) S0.
Proof.
  intros Rq HT Hroom Hcol O Gp Hcps. set (v0 := srv (server x0)) in *.
  pose proof (rq_len _ _ _ _ _ _ Rq) as Hlen. pose proof (rq_size _ _ _ _ _ _ Rq) as Hsize.
  destruct (output_valid v0 j0 xxhash S0 t n (rq_wf _ _ _ _ _ _ Rq) Hlen Hsize (rq_corr _ _ _ _ _ _ Rq)
    (rq_page _ _ _ _ _ _ Rq) (rq_blocks _ _ _ _ _ _ Rq) _ _ _ _ _ _ HT Hroom O) as [_ Hend].
  assert (Hl2 : l2 <> None) by (apply Hend; rewrite Hcps, elem_of_app, elem_of_cons; auto).
  destruct (output_good v0 j0 xxhash S0 t n (rq_wf _ _ _ _ _ _ Rq) Hlen Hsize (rq_corr _ _ _ _ _ _ Rq)
    (rq_page _ _ _ _ _ _ Rq) (rq_blocks _ _ _ _ _ _ Rq) _ _ _ _ _ _ HT Hroom O)
    as (out1 & ws' & G & Hc & Hd & Ew & Hcps').
  destruct l2 as [l2|]; [|done]. change (default [] (Some l2)) with l2 in *. rewrite Hcps in Hcps'.
  destruct (good_split v0 j0 _ _ _ _ Gp G Hcps') as [-> Ews].
  assert (Eww : to_write ∘ trim <$> ws = entry_write <$> l2).
  { rewrite <- Ew. clear -Ews. revert ws' Ews. induction ws as [|w ws IH]; intros [|w' ws'] [=]; [done|].
    cbn. subst. f_equal. by apply IH. }
  destruct O as [(rest & Hi & Hrest) Ht _ Hw1 _ Hpre [_ Hall]]. rewrite (Hrest Hl2), app_nil_r in Hi.
  split; [done|]. unfold replica_after. rewrite Eww, fmap_app, apply_writes_app. f_equal. cbn in Hall.
  assert (Hl1 : (entry_write <$> l1) `prefix_of` T) by (etrans; [|exact Hall]; rewrite fmap_app; by apply prefix_app_r).
  apply (replay_converges xxhash S0 _ t W items out1 l1); try done; [|by apply Hpre|by eapply no_collision_prefix].
  destruct Hl1 as [X HX]. rewrite HX in HT. by apply Forall_app in HT as [? _].
Qed.

(** What [tracked] says of a server that is idle. *)
Lemma tracked_replica xxhash S0 t n W0 j0 x0 es cps sps x :
  requested S0 t n W0 j0 x0 -> tracked xxhash j0 x0 es cps sps x -> Forall (sys_undisturbed S0 t) es ->
  no_collision xxhash S0 (content (TargetDevFd (srv (server x0)))) (W0 ++ sys_sources es) ->
  server_idle (server x) ->
  lost j0 cps \/
  ((exists W, W `prefix_of` (W0 ++ sys_sources es) /\ content (TargetDevFd (srv (server x))) = apply_writes W S0) /\
   (client_drained (client x) ->
    content (TargetDevFd (srv (server x))) = content (UnderDevFile (cl (client x))))).
Proof.
  intros Rq [K1 K2 K3 K4 K5] Hq Hcol Hidle. destruct K5 as [K5|K5]; [by left|].
  destruct (client_view xxhash S0 t n W0 j0 x0 Rq _ _ cps sps cps (server x) K4 K1 (client_undisturbed _ _ es Hq)
    K5 K2) as [H|(Hv & _ & _ & HT & Hdev & W & items & l1 & l2 & O & Hroom & Hdr)]; [by left|]. right.
  set (v0 := srv (server x0)) in *. set (T := W0 ++ sources (client_events es)) in *.
  destruct (idle_replica xxhash v0 j0 cps (server x) K5 Hidle) as (ps & ws & Gp & Hcps & Hcont).
  destruct (output_replica xxhash S0 t n W0 j0 x0 T cps W items l1 l2 ps ws Rq HT Hroom Hcol O Gp Hcps) as [Hl2 Hr].
  fold v0 in Hr. rewrite Hcont, Hr. destruct (op_all _ _ _ _ _ _ _ _ _ _ O) as [_ Hall].
  split; [by exists (entry_write <$> l1 ++ default [] l2)|].
  intros Hdrained. by rewrite Hdev, (Hdr Hl2 Hdrained).
Qed.

(** ** Tests for concrete runs *)

(** Idle and drained, as a test. *)
Definition check_idle (x : System) : bool :=
  match mainPc (server x), decoder (server x), state (srv (server x)), writePc (server x),
    cbuf (writeQueue (server x)), monitorPc (client x) with
  | MLoop, [], StateWriting, WIdle, [], MWait => biLength (buffer_info (kernel (cl (client x)))) =? 0
  | _, _, _, _, _, _ => false
  end.

Lemma check_idle_sound x : check_idle x = true -> server_idle (server x) /\ client_drained (client x).
Proof.
  unfold check_idle, server_idle, client_drained. intros H. repeat case_match; try done.
  apply Z.eqb_eq in H. by split_and!.
Qed.

(** A scan that is not lost, as a test. *)
Definition check_kept (slots : Z) (ps : list Packet) : bool :=
  forallb (fun p => negb (PacketType p =? PacketTypeCmdStartHashing)) ps && (Z.of_nat (buffered ps) <=? slots).

Lemma check_kept_sound slots ps : check_kept slots ps = true -> (new_scan ∉ ps) /\ Z.of_nat (buffered ps) <= slots.
Proof.
  intros [H Hb%Z.leb_le]%andb_true_iff. split; [|done]. intros Hin. rewrite forallb_forall in H.
  apply list_elem_of_In, H in Hin. discriminate Hin.
Qed.

Lemma not_lost j ps : check_kept (slotCount (header j) BufWrites) ps = true -> ~ lost j ps.
Proof. intros [H1 H2]%check_kept_sound [H|H]; [done|]. unfold overfull in H. lia. Qed.
