(* ===== verification/SystemDrain.v ===== *)
(** * The two daemons catch up

    When the writes to the source pause, the joint system can always come to rest
    with the replica equal to the source: the server ends the hashing job, the
    client ends the scan and sends what is pending, the server handles it. *)
From S2P Require Import Prelude GoInt GoMonad GoChan Utils BlockDev Blocks Image Networking.
From S2P Require Import RingBuffer Pause Client ClientFacts ClientSession ClientSafety ClientSends.
From S2P Require Import Journal JournalSpec Server ServerReplay ServerJournal ServerProps ServerPaths Session SessionSafety.
From S2P Require Import ClientScan ClientFlush ClientSteady ClientRun SessionScan SessionStream SessionDrain.
From S2P Require Import ClientOutput ClientDrain EndToEnd System SystemTracked.
Open Scope Z_scope.

(** ** One daemon alone *)

Section Alone.
Context (xxhash : list byte -> Z) (nw : nat).

Lemma run_servers es x s :
  (EShutdown ∉ es) -> run xxhash nw es (server x) = Done s ->
  exists l, sys_run xxhash nw (SServer <$> es) x = Done (mkSystem s (arrive (RPacket <$> l) (client x))) /\
    sent (srv s) = sent (srv (server x)) ++ l.
Proof using.
  revert x. induction es as [|e es IH]; intros x Hes; cbn [run fmap list_fmap sys_run].
  { intros [= <-]. exists []. rewrite app_nil_r, arrive_nil. by destruct x. }
  intros (s1 & E & E')%abind_Done. apply not_elem_of_cons in Hes as [He Hes].
  destruct (step_sends xxhash nw e _ _ E) as [y Hy]. unfold sys_step at 1. rewrite E. cbn [abind].
  unfold added. rewrite Hy, drop_app_length.
  destruct (IH (mkSystem s1 (arrive (RPacket <$> y) (client x))) Hes E') as (l & -> & Hl).
  exists (y ++ l). cbn in *. rewrite arrive_arrive, <- fmap_app, Hl, Hy, <- app_assoc. done.
Qed.

Lemma arrived_nil s : arrived [] s = s.
Proof using. unfold arrived. cbn. rewrite app_nil_r. by destruct s. Qed.

Lemma arrived_arrived l1 l2 s : arrived l2 (arrived l1 s) = arrived (l1 ++ l2) s.
Proof using. unfold arrived. cbn. by rewrite fmap_app, app_assoc. Qed.

Lemma run_clients es x c :
  crun xxhash es (client x) = Done c ->
  exists l, sys_run xxhash nw (SClient <$> es) x = Done (mkSystem (arrived l (server x)) c) /\
    csent (cl c) = csent (cl (client x)) ++ l.
Proof using.
  revert x. induction es as [|e es IH]; intros x; cbn [crun fmap list_fmap sys_run].
  { intros [= <-]. exists []. rewrite app_nil_r, arrived_nil. by destruct x. }
  intros (c1 & E & E')%abind_Done. destruct (cstep_sends xxhash e _ _ E) as [y Hy].
  unfold sys_step at 1. rewrite E. cbn [abind]. unfold added. rewrite Hy, drop_app_length.
  destruct (IH (mkSystem (arrived y (server x)) c1) E') as (l & -> & Hl).
  exists (y ++ l). cbn in *. rewrite arrived_arrived, Hl, Hy, <- app_assoc. done.
Qed.
End Alone.

Lemma servers_quiet S0 t es : (EShutdown ∉ es) -> Forall (sys_undisturbed S0 t) (SServer <$> es) /\ sys_sources (SServer <$> es) = [].
Proof.
  intros H. split.
  - apply Forall_fmap, Forall_forall. intros e He. cbn. intros ->. done.
  - induction es as [|e es IH]; [done|]. apply not_elem_of_cons in H as [_ H]. by apply IH.
Qed.

Lemma client_events_clients es : client_events (SClient <$> es) = es.
Proof. induction es as [|e es IH]; [done|]. cbn. by f_equal. Qed.

Lemma clients_quiet S0 t es : ClientRun.quiet S0 t es ->
  Forall (sys_undisturbed S0 t) (SClient <$> es) /\ sys_sources (SClient <$> es) = [].
Proof.
  intros [H1 H2]. split; [by apply Forall_fmap|]. unfold sys_sources. by rewrite client_events_clients.
Qed.

(** ** The three phases *)

Section Phases.
Context (xxhash : list byte -> Z) (S0 : list byte) (t : TargetInfo) (n : nat) (W0 : list write) (j0 : Journal) (x0 : System).
Context (Rq : requested S0 t n W0 j0 x0) (nw : nat) (Hnw : (0 < nw)%nat).
#[local] Abbreviation v0 := (srv (server x0)).
#[local] Abbreviation c0 := (client x0).
#[local] Abbreviation base := (csent (cl c0)).
#[local] Abbreviation tracked := (tracked xxhash j0 x0).
#[local] Abbreviation lost := (lost j0).

(** More steps without writes and signals. *)
Definition still_on (es es' : list sys_event) : Prop :=
  Forall (sys_undisturbed S0 t) es' /\ sys_sources es' = [].

Lemma sources_still es es' : still_on es es' -> sys_sources (es ++ es') = sys_sources es.
Proof using. intros [_ H]. unfold sys_sources in *. rewrite client_events_app. unfold sources in *. by rewrite bind_app, H, app_nil_r. Qed.

(** A run that goes on is tracked as before. *)
Lemma tracked_on es es' x x' :
  Forall (sys_undisturbed S0 t) es -> sys_run xxhash nw es x0 = Done x ->
  still_on es es' -> sys_run xxhash nw es' x = Done x' ->
  Forall (sys_undisturbed S0 t) (es ++ es') /\
  sys_run xxhash nw (es ++ es') x0 = Done x' /\ exists cps sps, tracked (es ++ es') cps sps x'.
Proof using Rq Hnw.
  intros Hq E Hs E'. destruct Hs as [Hs1 Hs2].
  assert (Hq' : Forall (sys_undisturbed S0 t) (es ++ es')) by (by apply Forall_app).
  assert (E2 : sys_run xxhash nw (es ++ es') x0 = Done x') by (by eapply sys_run_app).
  split_and!; try done. exact (run_tracked xxhash S0 t n W0 j0 x0 Rq nw Hnw _ x' Hq' E2).
Qed.

(** The server ends the hashing job. *)
Lemma phase_hash es cps sps x :
  tracked es cps sps x ->
  lost cps \/
  exists es' s l, (EShutdown ∉ es') /\
    sys_run xxhash nw (SServer <$> es') x = Done (mkSystem s (arrive (RPacket <$> l) (client x))) /\
    scanned xxhash v0 j0 cps s.
Proof using Rq Hnw.
  intros [K1 K2 K3 K4 [K5|K5]]; [by left|]. right. destruct (rq_info _ _ _ _ _ _ Rq) as (nfo & Hi & Hd).
  destruct (served_scanned xxhash nw v0 j0 nfo (rq_journal _ _ _ _ _ _ Rq) (rq_inv _ _ _ _ _ _ Rq)
    (rq_device _ _ _ _ _ _ Rq) (rq_send _ _ _ _ _ _ Rq) Hnw Hi Hd cps (server x) K5) as (es' & s & Hes & E & H).
  destruct (run_servers xxhash nw es' x s Hes E) as (l & E' & _). by exists es', s, l.
Qed.

Lemma scanned_sent cps s sps :
  scanned xxhash v0 j0 cps s -> sent (srv s) = sent v0 ++ sps ->
  exists order, order ≡ₚ block_offsets (dev_size (TargetDevFd v0)) HashedSpaceBase /\
    sps = start_of_scan :: (hash_packet xxhash (content (TargetDevFd v0)) <$> order) ++ [completed].
Proof using.
  intros (_ & _ & H & Hh) E. unfold hashing in H. rewrite Hh in H. destruct H as (dn & Hd & Hs).
  exists dn. split; [done|]. rewrite Hs in E. by apply app_inv_head in E.
Qed.

(** The client ends the scan and sends what is pending. *)
Lemma phase_client es cps sps x :
  tracked es cps sps x -> Forall (sys_undisturbed S0 t) es -> scanned xxhash v0 j0 cps (server x) ->
  exists es' c l, ClientRun.quiet S0 t es' /\
    sys_run xxhash nw (SClient <$> es') x = Done (mkSystem (arrived l (server x)) c) /\
    csent (cl c) = base ++ (cps ++ l) /\ (new_scan ∈ cps ++ l \/ (completed ∈ cps ++ l /\ client_drained c)).
Proof using Rq.
  clear Hnw. intros [K1 K2 K3 K4 K5] Hq Sc. destruct (scanned_sent cps (server x) sps Sc K2) as (order & Ho & Hs).
  assert (Hs' : sps ++ [] = start_of_scan :: (hash_packet xxhash (content (TargetDevFd v0)) <$> order) ++ [completed])
    by (by rewrite app_nil_r).
  pose proof (announced_of xxhash S0 t n W0 j0 x0 Rq sps [] order Ho Hs') as A. rewrite app_nil_r in A.
  pose proof (client_scan_run _ _ _ _ _ _ _ _ _ _ A (client_undisturbed S0 t es Hq) K4) as St.
  cbn [cl arrive set_incoming] in St. pose proof A as [A1 A2 A3 A4 A5 A6 A7 A8 A9 A10 A11 A12 A13 A14 A15 A16].
  destruct (stage_drains xxhash S0 _ order base t n A12 A14 A15 A16 _ _ St) as (es' & c & Qs & E & H).
  destruct (run_clients xxhash nw es' x c E) as (l & E' & Hl). exists es', c, l.
  assert (Hc : csent (cl c) = base ++ (cps ++ l)) by (by rewrite Hl, K1, <- app_assoc).
  split_and!; [done|done|done|]. destruct H as [H|[[I Hr] Hd]].
  - left. by apply (given_up_new base c).
  - right. split; [|done]. pose proof (steady_ended _ _ _ _ _ _ _ _ _ I Hr) as He. unfold scan_ended in He.
    by rewrite Hc, drop_app_length in He.
Qed.

Lemma scanned_arrived cps l s : scanned xxhash v0 j0 cps s -> scanned xxhash v0 j0 (cps ++ l) (arrived l s).
Proof using. intros ([] & I & H & Hh). split_and!; [done|by apply stream_arrived|done|done]. Qed.

(** The server handles the rest, and sends nothing more. *)
Lemma phase_settle es cps sps x :
  tracked es cps sps x -> Forall (sys_undisturbed S0 t) es ->
  scanned xxhash v0 j0 cps (server x) -> completed ∈ cps ->
  lost cps \/
  exists es' s, (EShutdown ∉ es') /\ sys_run xxhash nw (SServer <$> es') x = Done (mkSystem s (client x)) /\ server_idle s.
Proof using Rq.
  clear Hnw. intros [K1 K2 K3 K4 K5] Hq Sc Hin. destruct K5 as [K5|K5]; [by left|].
  destruct (client_view xxhash S0 t n W0 j0 x0 Rq _ _ cps sps cps (server x) K4 K1 (client_undisturbed _ _ es Hq)
    K5 K2) as [H|(Hv & _)]; [by left|]. right.
  destruct (settles xxhash nw v0 j0 (rq_device _ _ _ _ _ _ Rq) cps (server x) Hv Hin Sc) as (es' & s & Hes & E & Sc' & Hi).
  destruct (run_servers xxhash nw es' x s Hes E) as (l & E' & Hl).
  assert (Hnil : l = []).
  { rewrite K2, <- app_assoc in Hl. destruct (scanned_sent _ _ _ Sc K2) as (o1 & Ho1 & ->).
    destruct (scanned_sent _ _ _ Sc' Hl) as (o2 & Ho2 & E2). apply (f_equal length) in E2.
    rewrite length_app in E2. cbn in E2. rewrite !length_app, !length_fmap in E2. cbn in E2.
    rewrite (Permutation_length Ho1), (Permutation_length Ho2) in E2. apply nil_length_inv. lia. }
  subst l. rewrite arrive_nil in E'. by exists es', s.
Qed.

Lemma still_servers es es' : (EShutdown ∉ es') -> still_on es (SServer <$> es').
Proof using. apply servers_quiet. Qed.
Lemma still_clients es es' : ClientRun.quiet S0 t es' -> still_on es (SClient <$> es').
Proof using. apply clients_quiet. Qed.
Lemma still_app es es1 es2 : still_on es es1 -> still_on (es ++ es1) es2 -> still_on es (es1 ++ es2).
Proof using.
  intros [H1 H2] [H3 H4]. split; [by apply Forall_app|]. unfold sys_sources in *. rewrite client_events_app.
  unfold sources in *. by rewrite bind_app, H2, H4.
Qed.

(** At rest, or the scan is lost. *)
Definition rests (x : System) : Prop :=
  lost (added base (csent (cl (client x)))) \/ (server_idle (server x) /\ client_drained (client x)).

Lemma tracked_added es cps sps x : tracked es cps sps x -> lost cps -> rests x.
Proof using. intros K H. left. rewrite (tk_csent _ _ _ _ _ _ _ K). unfold added. by rewrite drop_app_length. Qed.

Lemma comes_to_rest es x :
  Forall (sys_undisturbed S0 t) es -> sys_run xxhash nw es x0 = Done x ->
  exists es' x', still_on es es' /\ sys_run xxhash nw es' x = Done x' /\ rests x'.
Proof using Rq Hnw.
  intros Hq E. destruct (run_tracked xxhash S0 t n W0 j0 x0 Rq nw Hnw es x Hq E) as (cps & sps & K).
  destruct (phase_hash es cps sps x K) as [H|(es1 & s1 & l1 & Hes1 & E1 & Sc1)].
  { exists [], x. split_and!; [done|done|by eapply tracked_added]. }
  set (x1 := mkSystem s1 _) in *. pose proof (still_servers es es1 Hes1) as S1.
  destruct (tracked_on es _ x x1 Hq E S1 E1) as (Hq1 & F1 & cps1 & sps1 & K1).
  assert (cps1 = cps) as ->.
  { pose proof (tk_csent _ _ _ _ _ _ _ K1) as H1. rewrite (tk_csent _ _ _ _ _ _ _ K : csent (cl (client x1)) = _) in H1.
    by apply app_inv_head in H1. }
  destruct (phase_client _ cps sps1 x1 K1 Hq1 Sc1) as (es2 & c2 & l2 & Qs2 & E2 & Hc2 & H2).
  set (x2 := mkSystem (arrived l2 s1) c2) in *. pose proof (still_clients (es ++ (SServer <$> es1)) es2 Qs2) as S2.
  destruct (tracked_on _ _ x1 x2 Hq1 F1 S2 E2) as (Hq2 & F2 & cps2 & sps2 & K2).
  assert (cps2 = cps ++ l2) as ->.
  { pose proof (tk_csent _ _ _ _ _ _ _ K2) as H3. cbn [client x2] in H3. rewrite Hc2 in H3. by apply app_inv_head in H3. }
  pose proof (still_app _ _ _ S1 S2) as S12. pose proof (sys_run_app _ _ _ _ _ _ _ E1 E2) as E12.
  destruct H2 as [H2|[H2 Hd]]; [eexists _, x2; split_and!; [done|done|by eapply tracked_added; [|left]]|].
  destruct (phase_settle _ _ _ _ K2 Hq2 (scanned_arrived _ l2 _ Sc1) H2) as [H3|(es3 & s3 & Hes3 & E3 & Hi)].
  { eexists _, x2. split_and!; [done|done|by eapply tracked_added]. }
  eexists ((SServer <$> es1) ++ (SClient <$> es2) ++ (SServer <$> es3)), (mkSystem s3 c2). split_and!.
  - rewrite app_assoc. apply still_app; [done|]. by apply still_servers.
  - rewrite app_assoc. by eapply sys_run_app.
  - by right.
Qed.
End Phases.
