(* ===== verification/SystemProps.v ===== *)
(** * What the two daemons do together *)
From S2P Require Import Prelude GoInt GoMonad GoChan Utils BlockDev Blocks Image Networking.
From S2P Require Import RingBuffer Pause Client ClientFacts ClientSession ClientSafety ClientSends.
From S2P Require Import Journal JournalSpec Server ServerReplay ServerJournal ServerProps ServerPaths Session SessionSafety.
From S2P Require Import ClientScan ClientFlush ClientSteady ClientRun SessionScan SessionStream SessionDrain.
From S2P Require Import ClientOutput ClientDrain RingBufferProps JournalCheck ClientScanProps EndToEnd System SystemTracked SystemDrain.
Open Scope Z_scope.


(** C2: the two daemons catch up.  From the request of a scan on, after any
    schedule of both daemons and of the writes to the source: if the source is
    left alone from then on, some schedule brings the system to rest, with the
    replica equal to the source, unless the ring has overflown and the client has
    asked for another scan, or the journal has overflown.  So no interleaving can
    lead the two into a state from which they never converge.  A write to the source
    enters the ring and the device in one step. *)
Theorem system_catches_up xxhash nw S0 t n W0 j0 x0 es x :
  (0 < nw)%nat -> requested S0 t n W0 j0 x0 -> Forall (sys_undisturbed S0 t) es ->
  no_collision xxhash S0 (content (TargetDevFd (srv (server x0)))) (W0 ++ sys_sources es) ->
  sys_run xxhash nw es x0 = Done x ->
  exists es' x', Forall (sys_undisturbed S0 t) es' /\ sys_sources es' = [] /\ sys_run xxhash nw es' x = Done x' /\
    (lost j0 (added (csent (cl (client x0))) (csent (cl (client x')))) \/
     (server_idle (server x') /\ client_drained (client x') /\
      content (TargetDevFd (srv (server x'))) = content (UnderDevFile (cl (client x'))))).
Proof.
  intros Hnw Rq Hq Hcol E.
  destruct (comes_to_rest xxhash S0 t n W0 j0 x0 Rq nw Hnw es x Hq E) as (es' & x' & Hs & E' & H).
  exists es', x'. split_and!; [apply Hs|apply Hs|done|]. destruct H as [H|[Hi Hd]]; [by left|].
  destruct (tracked_on xxhash S0 t n W0 j0 x0 Rq nw Hnw es es' x x' Hq E Hs E') as (Hq' & _ & cps & sps & K).
  rewrite <- (sources_still S0 t es es' Hs) in Hcol.
  destruct (tracked_replica xxhash S0 t n W0 j0 x0 _ cps sps x' Rq K Hq' Hcol Hi) as [H|[_ H]].
  - left. rewrite (tk_csent _ _ _ _ _ _ _ K). unfold added. by rewrite drop_app_length.
  - right. split_and!; [done|done|by apply H].
Qed.

(** ** An eight-byte disk, two writes *)

Definition demo_requested : System :=
  mkSystem
    (HandleClient_start (set_state StateWriting demo_v) [inl (CreateInfoPacket PacketTypeCmdStartHashing)])
    (set_incoming [] demo_announced).

Lemma demo_is_requested : requested demo_S0 demo_target_info 3 [] (jrn demo_empty) demo_requested.
Proof.
  split; try (lazymatch goal with |- context [block_offsets] => fail | |- journal_inv _ => fail | _ => done end).
  - exists a_reset. split; [exact demo_ring_rel|]. split; [constructor|done].
  - by apply prep_request.
  - apply (check_jrel_sound _ a_empty). vm_compute. reflexivity.
  - by exists {| DeviceSize := 8; iWriteInfoSize := 12; BufferByteSize := 48 |}.
  - change (block_offsets _ _) with [0]. apply Forall_singleton. vm_compute. discriminate.
  - vm_compute. discriminate.
Qed.

Definition demo_bio2 : list segment := [mkSegment 0 [Byte.xee; Byte.xff] 0 2].

(** The first write comes during the scan, the second one after it. *)
Definition demo_system_run : list sys_event :=
  (SServer <$> [EMain; EMain; EMain; EHash HStart]) ++
  (SClient <$> [CListen; CMonitor false; CListen]) ++
  (SServer <$> [EHash HTake; EHash (HRead 0); EHash (HHash 0); EHash (HSend 0); EHash HEnd]) ++
  (SClient <$> [CListen; CListen; CHashRead; CSource demo_bio; CListen; CHashSend 0]) ++
  (SServer <$> [EMain; EMain; EJournal]) ++
  (SClient <$> [CHashRead; CListen; CListen; CListen; CListen; CListen; CListen; CSource demo_bio2;
                CMonitor false; CMonitor false; CMonitor false; CMonitor false]) ++
  (SServer <$> [EMain; EMain; EMain; EJournal; EJournal; EMain; EMain; EMain; EWrite; EWrite]).

Lemma demo_system_undisturbed : Forall (sys_undisturbed demo_S0 demo_target_info) demo_system_run.
Proof.
  unfold demo_system_run. rewrite !Forall_app, !Forall_fmap.
  split_and!; repeat (apply Forall_cons_2; [first [discriminate|exact I|idtac]|]); try apply Forall_nil_2.
  all: cbn; split; apply Forall_singleton; [vm_compute; lia|split; cbn; try lia; width_tac].
Qed.

Lemma demo_system_no_collision : no_collision be_get demo_S0 demo_R [(0%nat, [Byte.xdd]); (0%nat, [Byte.xee; Byte.xff])].
Proof.
  intros o t Ht Ho. change (block_offsets (Z.of_nat (length demo_R)) HashedSpaceBase) with [0] in Ho.
  apply list_elem_of_singleton in Ho as ->. destruct t as [|[|[|t]]]; [| | |cbn in Ht; lia]; vm_compute; discriminate.
Qed.


(** The middle of the scan: the first write is pending in the ring. *)
Definition demo_half_run : list sys_event := Eval cbv in take 16 demo_system_run.

Lemma demo_half_sources : sys_sources demo_half_run = [(0%nat, [Byte.xdd])].
Proof. reflexivity. Qed.

Lemma demo_half_undisturbed : Forall (sys_undisturbed demo_S0 demo_target_info) demo_half_run.
Proof. change demo_half_run with (take 16 demo_system_run). apply Forall_take, demo_system_undisturbed. Qed.

Lemma demo_half_no_collision : no_collision be_get demo_S0 demo_R (sys_sources demo_half_run).
Proof.
  rewrite demo_half_sources. refine (no_collision_prefix _ _ _ _ _ _ demo_system_no_collision).
  by exists [(0%nat, [Byte.xee; Byte.xff])].
Qed.

Lemma system_catches_up_witness :
  exists x es' x', sys_run be_get 2 demo_half_run demo_requested = Done x /\
    sys_run be_get 2 es' x = Done x' /\
    (lost (jrn demo_empty) (added (csent (cl (client demo_requested))) (csent (cl (client x')))) \/
     (server_idle (server x') /\ client_drained (client x') /\
      content (TargetDevFd (srv (server x'))) = content (UnderDevFile (cl (client x'))))).
Proof.
  assert (C : match sys_run be_get 2 demo_half_run demo_requested with Done _ => true | _ => false end = true)
    by (vm_compute; reflexivity).
  destruct (sys_run be_get 2 demo_half_run demo_requested) as [x| |] eqn:E; [|discriminate C|discriminate C].
  pose proof (system_catches_up be_get 2 demo_S0 demo_target_info 3 [] (jrn demo_empty) demo_requested
    demo_half_run x Nat.lt_0_2 demo_is_requested demo_half_undisturbed
    demo_half_no_collision E) as H.
  destruct H as (es' & x' & _ & _ & E' & H). exists x, es', x'. split_and!; [reflexivity|exact E'|exact H].
Defined.

(** ** A scan that follows an overflow

    The first scan of a session starts when the server has nothing to do.  A
    later one need not: the client asks for it when its ring has overflown, and
    the write worker of the server may still hold a write then. *)

Definition one_byte (b : byte) : list segment := [mkSegment 0 [b; Byte.x00] 0 1].

(** A first scan, of a source that is left alone. *)
Definition first_scan : list sys_event :=
  (SServer <$> [EMain; EMain; EMain; EHash HStart; EHash HTake; EHash (HRead 0); EHash (HHash 0); EHash (HSend 0); EHash HEnd]) ++
  (SClient <$> [CListen; CListen; CListen; CListen; CListen; CHashRead; CHashSend 0]) ++
  (SServer <$> [EMain; EMain; EJournal]) ++
  (SClient <$> [CHashRead; CListen; CListen; CListen; CListen]) ++
  (SServer <$> [EMain; EJournal; EMain]).

(** A write that reaches the write worker; then the old byte is written, more
    often than the ring has entries, and the monitor finds the overflow. *)
Definition write_and_undo : list sys_event :=
  (SClient <$> [CSource (one_byte Byte.xee); CMonitor false; CMonitor false; CMonitor false]) ++
  (SServer <$> [EMain; EMain; EWrite]) ++
  (SClient <$> [CMonitor false; CSource (one_byte Byte.x01); CSource (one_byte Byte.x01);
                CSource (one_byte Byte.x01); CSource (one_byte Byte.x01); CMonitor false; CMonitor false]).

(** The second scan, which finds nothing to correct; then the worker writes. *)
Definition second_scan : list sys_event :=
  (SServer <$> [EMain; EMain; EMain; EHash HStart; EHash HTake; EHash (HRead 0); EHash (HHash 0); EHash (HSend 0); EHash HEnd]) ++
  (SClient <$> [CListen; CListen; CListen; CListen; CListen; CHashRead; CHashSend 0; CHashRead;
                CListen; CListen; CListen; CListen]) ++
  (SServer <$> [EMain; EJournal; EMain; EWrite]).

Definition overflow_run : list sys_event := first_scan ++ write_and_undo ++ second_scan.

Lemma overflow_run_undisturbed : Forall (sys_undisturbed demo_S0 demo_target_info) overflow_run.
Proof.
  unfold overflow_run, first_scan, write_and_undo, second_scan. rewrite !Forall_app, !Forall_fmap.
  split_and!; repeat (apply Forall_cons_2; [first [discriminate|exact I|idtac]|]); try apply Forall_nil_2.
  all: cbn; split; apply Forall_singleton; [vm_compute; lia|split; cbn; try lia; width_tac].
Qed.

Lemma overflow_run_no_collision : no_collision be_get demo_S0 demo_R (sys_sources overflow_run).
Proof.
  assert (E : sys_sources overflow_run =
    [(0%nat, [Byte.xee]); (0%nat, [Byte.x01]); (0%nat, [Byte.x01]); (0%nat, [Byte.x01]); (0%nat, [Byte.x01])]) by reflexivity.
  rewrite E. intros o t Ht Ho. change (block_offsets (Z.of_nat (length demo_R)) HashedSpaceBase) with [0] in Ho.
  apply list_elem_of_singleton in Ho as ->. cbn in Ht. do 6 (destruct t as [|t]; [vm_compute; discriminate|]). lia.
Qed.

Definition differ (x : System) : bool :=
  negb (bool_decide (content (TargetDevFd (srv (server x))) = content (UnderDevFile (cl (client x))))).

(** C37: a scan after an overflow can leave the replica different from the source for
    good.  In the joint system, without any fault or collision and with room in the
    journal: the write worker takes a write, the source gets the old byte back in
    writes that overflow the ring, and the client asks for a second scan; the
    server hashes the block before its worker writes, the hashes agree, and then
    the worker puts the stale byte on the replica.  Nothing is pending at either
    side after that.  So [replica_follows_source] fails without its hypothesis that
    the client has not asked for another scan. *)
Theorem rescan_diverges :
  exists S0 t n j0 x0 es x,
    requested S0 t n [] j0 x0 /\ Forall (sys_undisturbed S0 t) es /\
    no_collision be_get S0 (content (TargetDevFd (srv (server x0)))) (sys_sources es) /\
    sys_run be_get 2 es x0 = Done x /\
    ~ overfull j0 (added (csent (cl (client x0))) (csent (cl (client x)))) /\
    server_idle (server x) /\ client_drained (client x) /\
    content (TargetDevFd (srv (server x))) <> content (UnderDevFile (cl (client x))).
Proof.
  assert (C : match sys_run be_get 2 overflow_run demo_requested with
              | Done x => check_idle x && differ x &&
                  (Z.of_nat (buffered (added (csent (cl (client demo_requested))) (csent (cl (client x)))))
                   <=? slotCount (header (jrn demo_empty)) BufWrites)
              | _ => false end = true) by (vm_compute; reflexivity).
  destruct (sys_run be_get 2 overflow_run demo_requested) as [x| |] eqn:E; [|discriminate C|discriminate C].
  apply andb_true_iff in C as [[[Hi Hd]%check_idle_sound Hne]%andb_true_iff Hb%Z.leb_le].
  exists demo_S0, demo_target_info, 3%nat, (jrn demo_empty), demo_requested, overflow_run, x.
  split; [exact demo_is_requested|]. split; [exact overflow_run_undisturbed|].
  split; [exact overflow_run_no_collision|]. split; [exact E|]. split; [unfold overfull; lia|].
  split; [exact Hi|]. split; [exact Hd|]. by apply negb_true_iff, bool_decide_eq_false_1 in Hne.
Qed.
