(* ===== verification/Replication.v ===== *)
(** * A full replication of a source that is written to

    With [--full-replicate] the client sends every block of the source, lets the
    writes made meanwhile wait in the ring, and sends them when the blocks are
    through; the server overwrites the replica with the blocks and then with the
    writes.  No hash is compared and no journal is used. *)
From S2P Require Import Prelude GoInt GoMonad GoChan BlockDev Blocks Image Networking.
From S2P Require Import RingBuffer RingBufferProps Pause Client ClientFacts ClientSession ClientScan ClientFlush ClientSteady ClientRun.
From S2P Require Import ClientOutput ClientDrain ClientReplication ClientScanProps.
From S2P Require Import Server ServerReplay ServerProps ServerPaths Session SessionSafety SessionStream SessionDrain.
From S2P Require Import SessionFullScan SessionReplication System EndToEnd SystemTracked SystemProps.
Open Scope Z_scope.

Section Blocks.
Context (S0 : list byte) (Hsize : Z.of_nat (length S0) < 2 ^ 63) (items : list (Z * nat)).
Context (Hitems : (fst <$> items) ≡ₚ block_offsets (Z.of_nat (length S0)) HashedSpaceBase).
Context (T : list write) (HT : Forall (fits (length S0)) T).

Lemma seen_writable : Forall (writable (length S0)) (block_seen S0 T <$> items).
Proof using Hsize Hitems HT.
  apply Forall_fmap, Forall_forall. intros ot Hin.
  pose proof (seen_length S0 S0 T eq_refl Hsize HT items Hitems ot Hin) as Hl.
  destruct (items_elem S0 S0 eq_refl Hsize items Hitems ot Hin) as (i & Hi & E & Hlt).
  unfold seen, look_of in Hl. cbn [l_off l_len l_time] in Hl.
  split_and!; cbn [block_seen compose Offset Size Data]; [unfold HashedSpaceBase, HashedBlockSize in *; lia|exact Hl|].
  unfold fits, to_write; cbn [fst snd block_seen Offset Data]. unfold block_len, HashedSpaceBase, HashedBlockSize in *. lia.
Qed.

(** The blocks, each as it was at some moment, and then all the writes. *)
Lemma copy_converges R bd :
  length R = length S0 -> bd ≡ₚ (block_seen S0 T <$> items) ->
  apply_writes T (apply_writes (to_write <$> bd) R) = apply_writes T S0.
Proof using Hsize Hitems HT.
  intros HR Hbd. rewrite <- apply_writes_app.
  apply (fuzzy_scan S0 T R (look_of S0 <$> items)); [done|done| | |].
  - intros p Hp. by apply (items_cover S0 S0 eq_refl Hsize items Hitems p Hp).
  - intros l (ot & -> & Hin)%list_elem_of_fmap.
    destruct (items_elem S0 S0 eq_refl Hsize items Hitems ot Hin) as (i & H0 & Eo & Hlt).
    unfold look_of; cbn [l_off]. unfold HashedSpaceBase, HashedBlockSize in *. lia.
  - split.
    + intros w Hin. rewrite Hbd in Hin. apply list_elem_of_fmap in Hin as (x & -> & (ot & -> & Hin)%list_elem_of_fmap).
      exists (look_of S0 ot). split; [by apply list_elem_of_fmap_2|done].
    + intros l (ot & -> & Hin)%list_elem_of_fmap. left. rewrite Hbd.
      change (to_write (block_seen S0 T ot) ∈ to_write <$> (block_seen S0 T <$> items)).
      by apply list_elem_of_fmap_2, list_elem_of_fmap_2.
Qed.
End Blocks.

(** A client before [Run]: connected, with a source [S0] that can be read. *)
Record ready (S0 : list byte) (n : nat) (c : Client) : Prop := {
  rd_conn : connected c;
  rd_contr : contr_ok (MonitorPauseContr c);
  rd_dev : UnderDevFile c = {| content := S0; faults := [] |};
  rd_size : Z.of_nat (length S0) < 2 ^ 63;
  rd_target : wf_target (cTarget c) n;
  rd_ring : exists a, ring_rel (Z.to_nat (PageSize (cTarget c))) n (kernel c) a;
}.

Lemma replication_start v bs ws :
  target_ok v -> state v <> Server.StateHashing ->
  session_inv (HandleClient_start v (inl <$> replication bs ws)) /\
  forall nw, copy_inv nw v bs ws (HandleClient_start v (inl <$> replication bs ws)).
Proof.
  intros T Hs. split; [by apply start_inv|]. intros nw. split; [by split|]. by apply copy_request.
Qed.

(** What has been sent after the end of a replication. *)
Lemma following_sent xxhash S0 base t n v T1 items T cs :
  wf_target t n -> length (content (TargetDevFd v)) = length S0 -> T1 `prefix_of` T -> all_seen S0 T1 items ->
  following xxhash S0 base t n T1 items T cs ->
  exists ws, Forall (direct v) ws /\ Forall (fits (length S0)) T /\
    csent (cl cs) = base ++ (repl_block <$> (block_seen S0 T <$> items)) ++ copied :: (write_packet <$> ws) /\
    UnderDevFile (cl cs) = {| content := apply_writes T S0; faults := [] |} /\
    (client_drained cs -> to_write ∘ trim <$> ws = T).
Proof.
  intros Ht Hl Hp [_ Hti] F. pose proof (following_listens _ _ _ _ _ _ _ _ _ F) as Hlisten.
  destruct F as (W & its & o1 & o2 & l1 & l2 & es & i & W2 & P). pose proof (steady_drained _ _ _ _ _ _ _ _ _ _ _ _ _ _ _ _ _ _ _ P) as Hdr.
  destruct P as [P1 P2 P3 P4 P5 P6 P7 P8 P9 P10 P11 P12 P13 P14 P15 P16 P17 P18 P19 P20 P21 P22 P23].
  apply Permutation_nil_r, fmap_nil_inv in P10 as ->. destruct P23 as [->|Hf]; [|done]. apply Forall2_nil_inv_l in P14 as ->.
  assert (Hf2 : Forall (fits (length S0)) (entry_write <$> l2)).
  { rewrite P20, !fmap_app in P3. cbn in P3. rewrite !Forall_app in P3. tauto. }
  destruct (batch_direct v S0 t n Ht Hl o2 l2 P15 P18 Hf2) as (ws & -> & Hd & E).
  exists ws. split_and!; try done.
  - rewrite P13. unfold announcement. rewrite Hlisten. cbn. rewrite <- app_assoc. f_equal.
    destruct Hp as [T2 ->]. by rewrite <- (blocks_seen_app S0 T1 T2 items Hti).
  - intros D. rewrite E. by apply Hdr.
Qed.

(** C6: a full replication of a source that is written to converges.  From
    [Run] on, in every schedule of the client's goroutines and of the writes to the
    source, and in every schedule of the server's goroutines on the packets that
    the client has sent: when [InitReplication] has ended, the server has handled
    all it was sent and nothing is pending at the client, the replica is equal to
    the source, whatever it was before and in whatever order the blocks were read and
    the replication workers of the server have written them;
    the server can always get there, and once the writes pause the client can
    always finish.  Unless the ring has overflown after the replication, and the
    client has asked for a scan.  The devices and the connection do not fail; no
    hash function and no journal is involved. *)
Theorem full_replication_converges xxhash nw S0 n ir c dials cs0 ec cs cps v es s :
  ready S0 n c -> ClientSession.Run false true ir c [] dials = Done cs0 ->
  Forall (undisturbed S0 (cTarget c)) ec -> crun xxhash ec cs0 = Done cs -> csent (cl cs) = csent c ++ cps ->
  (0 < nw)%nat -> target_ok v -> length (content (TargetDevFd v)) = length S0 -> state v <> Server.StateHashing ->
  EShutdown ∉ es -> run xxhash nw es (HandleClient_start v (inl <$> cps)) = Done s ->
  (exists ec' cs', Forall (undisturbed S0 (cTarget c)) ec' /\ sources ec' = [] /\ crun xxhash ec' cs = Done cs' /\
     (new_scan ∈ added (csent c) (csent (cl cs')) \/ (replicator cs' = None /\ client_drained cs'))) /\
  (replicator cs = None -> ~ new_scan ∈ cps ->
    (server_idle s -> client_drained cs -> content (TargetDevFd (srv s)) = content (UnderDevFile (cl cs))) /\
    exists es' s', (EShutdown ∉ es') /\ run xxhash nw es' s = Done s' /\ server_idle s').
Proof.
  intros [R1 R2 R3 R4 R5 R6] E0 Hq E Hs Hnw T Hl Hst Hes Er. set (base := csent c ++ [start_copy]).
  pose proof (Run_copies S0 base (cTarget c) n ir c dials cs0 R1 R2 R3 eq_refl R6 eq_refl E0) as C0.
  pose proof (copy_stage_run xxhash S0 base (cTarget c) n R5 R4 ec [] cs0 cs (or_introl (ex_intro _ _ (ex_intro _ _ C0))) Hq E) as St.
  cbn [app] in St. split.
  - destruct (copy_drains xxhash S0 base (cTarget c) n R5 R4 _ cs St) as (ec' & cs' & [Q1 Q2] & E' & H).
    exists ec', cs'. split_and!; [done..|]. destruct H as [H|H]; [left|by right].
    by destruct (given_up_since (csent c) [start_copy] cs' H) as (_ & _ & ?).
  - intros Hr Hn. destruct St as [(todo & items & C)|(T1 & items & Hp & Ha & [H|H])].
    + by rewrite (cy_repl _ _ _ _ _ _ _ _ C) in Hr.
    + exfalso. apply Hn. apply given_up_since in H. destruct (given_up_since (csent c) [start_copy] cs H) as (_ & _ & H').
      by rewrite Hs, drop_app_length in H'.
    + destruct (following_sent xxhash S0 base (cTarget c) n v T1 items _ cs R5 Hl Hp Ha H) as (ws & Hd & HT & Hc & Hsrc & Hdr).
      set (bs := block_seen S0 (sources ec) <$> items) in *. destruct Ha as [Hi _].
      assert (cps = replication bs ws) as ->.
      { apply (app_inv_head (csent c)). rewrite <- Hs, Hc. unfold base. by rewrite <- app_assoc. }
      assert (Hb : Forall (writable (length (content (TargetDevFd v)))) bs) by (rewrite Hl; by apply seen_writable).
      destruct (replication_start v bs ws T Hst) as [I0 K0].
      pose proof (copy_run xxhash nw Hnw v bs ws Hb Hd es _ s Hes I0 (K0 nw) Er) as K.
      split; [|apply (copy_can_finish xxhash nw Hnw v bs ws Hb Hd s); [by eapply run_session_inv|done]].
      intros Hidle Hdrained. destruct (copy_settled nw v bs ws s K Hidle) as (bd & Hp' & ->). rewrite Hsrc. unfold copy_after.
      rewrite (Hdr Hdrained). cbn [content]. by apply (copy_converges S0 R4 items).
Qed.

(** ** A disk of eight bytes *)

Definition demo_client : Client :=
  {| cTarget := demo_target_info; UnderDevFile := {| content := demo_S0; faults := [] |};
     kernel := demo_ring; MonitorPauseContr := NewPauseController; cstate := Client.StateWriting;
     csent := []; encFaults := []; ioctlFaults := []; termIn := None |}.

Lemma demo_client_ready : ready demo_S0 3 demo_client.
Proof. split; try done; [split; cbn; [done|]; lia|exists a_reset; exact demo_ring_rel]. Qed.

(** A write before the block is read and one after it; then the monitor sends both. *)
Definition demo_copy_run : list cevent :=
  [CSource demo_bio; CMonitor false; CReplicate 0; CSource demo_bio2; CReplicate 0;
   CMonitor false; CMonitor false; CMonitor false; CMonitor false; CMonitor false].
Definition demo_copy_server : list event :=
  [EMain; EMain; EMain; EMain; EReplication; EMain; EReplWrite 0; EReplication; EReplication; EMain;
   EMain; EMain; EWrite; EMain; EWrite; EMain; EWrite; EWrite].

Lemma demo_copy_undisturbed : Forall (undisturbed demo_S0 demo_target_info) demo_copy_run.
Proof.
  repeat (apply Forall_cons_2; [first [exact I|idtac]|]); try apply Forall_nil_2.
  all: cbn; split; apply Forall_singleton; [vm_compute; lia|split; cbn; try lia; width_tac].
Qed.

Lemma full_replication_converges_witness :
  exists cs0 cs s, ClientSession.Run false true false demo_client [] [] = Done cs0 /\
    crun be_get demo_copy_run cs0 = Done cs /\
    run be_get 2 demo_copy_server (HandleClient_start (set_state Server.StateWriting demo_v) (inl <$> csent (cl cs))) = Done s /\
    content (TargetDevFd (srv s)) = content (UnderDevFile (cl cs)).
Proof.
  destruct (ClientSession.Run false true false demo_client [] []) as [cs0| |] eqn:E0;
    [|vm_compute in E0; discriminate|vm_compute in E0; discriminate].
  assert (V0 : ClientSession.Run false true false demo_client [] [] = Done cs0) by exact E0. vm_compute in V0. injection V0 as V0.
  destruct (crun be_get demo_copy_run cs0) as [cs| |] eqn:E1;
    [|rewrite <- V0 in E1; vm_compute in E1; discriminate|rewrite <- V0 in E1; vm_compute in E1; discriminate].
  pose proof E1 as V1. rewrite <- V0 in V1. vm_compute in V1. injection V1 as V1.
  destruct (run be_get 2 demo_copy_server (HandleClient_start (set_state Server.StateWriting demo_v) (inl <$> csent (cl cs))))
    as [s| |] eqn:E2; [|rewrite <- V1 in E2; vm_compute in E2; discriminate|rewrite <- V1 in E2; vm_compute in E2; discriminate].
  exists cs0, cs, s. split; [reflexivity|]. split; [exact E1|]. split; [exact E2|].
  assert (Hx : check_idle (mkSystem s cs) = true) by (rewrite <- V1 in *; vm_compute in E2; injection E2 as <-; reflexivity).
  apply check_idle_sound in Hx as [Hi Hd].
  assert (Hr : replicator cs = None) by (rewrite <- V1; reflexivity).
  assert (Hn : ~ new_scan ∈ csent (cl cs)).
  { intros H%(list_elem_of_fmap_2 PacketType). rewrite <- V1 in H. revert H. apply (bool_decide_unpack _). vm_compute. exact I. }
  assert (T : target_ok (set_state Server.StateWriting demo_v)) by (split; [reflexivity|vm_compute; reflexivity]).
  assert (Hes : EShutdown ∉ demo_copy_server) by (apply (bool_decide_unpack _); vm_compute; exact I).
  clear V0 V1.
  refine (proj1 (proj2 (full_replication_converges be_get 2 demo_S0 3 false demo_client [] cs0 demo_copy_run cs (csent (cl cs))
    (set_state Server.StateWriting demo_v) demo_copy_server s demo_client_ready E0 demo_copy_undisturbed E1 eq_refl Nat.lt_0_2 T
    eq_refl _ Hes E2) Hr Hn) Hi Hd). discriminate.
Defined.
