(* ===== verification/Args.v ===== *)
(** * Required command-line arguments

    The shape both [ValidateArgs] share: collect the missing arguments in order
    and report them together.  What [pflag] parses is given. *)
From S2P Require Import Prelude GoInt GoMonad.
Open Scope Z_scope.

Definition DefaultPath : string := "required".
Definition DefaultPort : Z := 0.

(** A required argument: [nil], or a pointer to a value, equal to its default
    when the flag was not given. *)
Inductive arg :=
| AString (v : option string)
| AInt (v : option Z).

Definition missing (a : arg) : bool :=
  match a with
  | AString None | AInt None => true
  | AString (Some s) => bool_decide (s = DefaultPath)
  | AInt (Some n) => n =? DefaultPort
  end.

(** [append(missingArgs, name)] for each missing argument in turn. *)
Definition missingArgs (args : list (arg * string)) : list string :=
  foldl (fun acc x => if missing x.1 then acc ++ [x.2] else acc) [] args.

(** [strings.Join(l, ", ")]. *)
Fixpoint Join (l : list string) : string :=
  match l with
  | [] => ""
  | [s] => s
  | s :: l => s +:+ ", " +:+ Join l
  end.

Definition validate (args : list (arg * string)) : option error :=
  if (0 <? length (missingArgs args))%nat
  then Some (ErrMsg ("missing required arguments: " +:+ Join (missingArgs args)))
  else None.

(** ** Facts *)

Lemma missingArgs_eq args : missingArgs args = snd <$> filter (fun x => missing x.1 = true) args.
Proof.
  unfold missingArgs. enough (H : forall acc,
    foldl (fun acc x => if missing x.1 then acc ++ [x.2] else acc) acc args =
    acc ++ (snd <$> filter (fun x => missing x.1 = true) args)) by apply H.
  induction args as [|[a s] args IH]; intros acc; cbn [foldl].
  - by rewrite app_nil_r.
  - rewrite IH, filter_cons. cbn [fst snd]. destruct (missing a); case_decide; try done.
    by rewrite <- app_assoc.
Qed.

(** A required argument is given. *)
Definition given (a : arg) : Prop :=
  match a with
  | AString v => exists s, v = Some s /\ s <> DefaultPath
  | AInt v => exists n, v = Some n /\ n <> DefaultPort
  end.

Lemma missing_false a : missing a = false <-> given a.
Proof.
  destruct a as [[s|]|[n|]]; cbn.
  - rewrite bool_decide_eq_false. split; [eauto|by intros (? & [= <-] & ?)].
  - split; [done|by intros (? & ? & _)].
  - rewrite Z.eqb_neq. split; [eauto|by intros (? & [= <-] & ?)].
  - split; [done|by intros (? & ? & _)].
Qed.

Lemma validate_spec args :
  (validate args = None <-> Forall (fun x => given x.1) args) /\
  (forall e, validate args = Some e ->
     e = ErrMsg ("missing required arguments: " +:+
                 Join (snd <$> filter (fun x => missing x.1 = true) args))%string).
Proof.
  unfold validate. rewrite missingArgs_eq. split.
  - rewrite length_fmap. destruct (filter _ args) as [|x l] eqn:E; cbn.
    + split; [|done]. intros _. apply Forall_forall. intros x Hx. apply missing_false.
      apply not_true_iff_false. intros Hm.
      assert (Hin : x ∈ filter (fun x => missing x.1 = true) args) by (by apply list_elem_of_filter).
      rewrite E in Hin. by apply not_elem_of_nil in Hin.
    + split; [done|]. intros H.
      assert (Hin : x ∈ filter (fun x => missing x.1 = true) args) by (rewrite E; by left).
      apply list_elem_of_filter in Hin as [Hm Hin]. rewrite Forall_forall in H.
      apply H, missing_false in Hin. congruence.
  - intros e. by destruct (_ <? _)%nat; [intros [= <-]|].
Qed.
