(* ===== verification/ClientConfig.v ===== *)
(** * The client's configuration ([client/config.go]) *)
From S2P Require Import Prelude GoInt GoMonad Args.
Open Scope Z_scope.

Record Config := mkConfig {
  CharDevicePath : string;
  UnderDevicePath : string;
  IpAddress : string;
  Port : Z;
  Verbose : bool;
  Debug : bool;
  NoPrint : bool;
  InitialReplication : bool;
  FullReplicate : bool;
  FullScan : bool;
  Benchmark : bool;
}.

Definition ValidateArgs (charDevicePath underDevicePath ipAddress : option string) (port : option Z)
  : option error :=
  validate [(AString charDevicePath, "--control-device (character device path)"%string);
            (AString underDevicePath, "--source-device (underlying device path)"%string);
            (AString ipAddress, "--address (IP address)"%string);
            (AInt port, "--port (port)"%string)].

(** [NewConfig] on the flags as parsed: [--no-replication] is stored in
    [InitialReplication] and then negated. *)
Definition NewConfig (parsed : Config) : Config :=
  {| CharDevicePath := CharDevicePath parsed; UnderDevicePath := UnderDevicePath parsed;
     IpAddress := IpAddress parsed; Port := Port parsed; Verbose := Verbose parsed;
     Debug := Debug parsed; NoPrint := NoPrint parsed;
     InitialReplication := negb (InitialReplication parsed);
     FullReplicate := FullReplicate parsed; FullScan := FullScan parsed;
     Benchmark := Benchmark parsed |}.

(** Whether a message reaches the standard output. *)
Definition prints (c : Config) : bool := negb (NoPrint c).
Definition prints_verbose (c : Config) : bool := negb (NoPrint c) && (Verbose c || Debug c).
Definition prints_debug (c : Config) : bool := negb (NoPrint c) && Debug c.

Example missing_all :
  ValidateArgs (Some "required"%string) None (Some "10.0.0.1"%string) (Some 0) =
  Some (ErrMsg "missing required arguments: --control-device (character device path), --source-device (underlying device path), --port (port)").
Proof. reflexivity. Qed.
