(* ===== verification/ServerConfig.v ===== *)
(** * The server's configuration ([server/config.go]) *)
From S2P Require Import Prelude GoInt GoMonad Args ClientConfig.
Open Scope Z_scope.

Record Config := mkConfig {
  Port : Z;
  IpAddress : string;
  TargetDevPath : string;
  JournalPath : string;
  Verbose : bool;
  Debug : bool;
  NoPrint : bool;
  Benchmark : bool;
}.

Definition ValidateArgs (targetDevicePath : option string) (port : option Z)
  (ipAddress journalPath : option string) : option error :=
  validate [(AString targetDevicePath, "--target-device (target device path)"%string);
            (AInt port, "--port (port to listen on)"%string);
            (AString ipAddress, "--address (IP address to listen on)"%string);
            (AString journalPath, "--journal (path to a device to store journal)"%string)].

(** The values [pflag] registers for the flags, and [NewConfig] on the flags the
    command line sets: [pflag] leaves the others at their defaults. *)
Definition defaults : Config :=
  {| Port := DefaultPort; IpAddress := DefaultPath; TargetDevPath := DefaultPath;
     JournalPath := DefaultPath; Verbose := false; Debug := false; NoPrint := false;
     Benchmark := false |}.

Inductive flag :=
| FPort (n : Z) | FAddress (s : string) | FTargetDevice (s : string) | FJournal (s : string)
| FVerbose (b : bool) | FDebug (b : bool) | FNoPrint (b : bool) | FBenchmark (b : bool).

Definition set_flag (c : Config) (f : flag) : Config :=
  {| Port := match f with FPort n => n | _ => Port c end;
     IpAddress := match f with FAddress s => s | _ => IpAddress c end;
     TargetDevPath := match f with FTargetDevice s => s | _ => TargetDevPath c end;
     JournalPath := match f with FJournal s => s | _ => JournalPath c end;
     Verbose := match f with FVerbose b => b | _ => Verbose c end;
     Debug := match f with FDebug b => b | _ => Debug c end;
     NoPrint := match f with FNoPrint b => b | _ => NoPrint c end;
     Benchmark := match f with FBenchmark b => b | _ => Benchmark c end |}.

Definition NewConfig (given : list flag) : Config := foldl set_flag defaults given.

(** Whether a message reaches the standard output. *)
Definition prints (c : Config) : bool := negb (NoPrint c).
Definition prints_verbose (c : Config) : bool := negb (NoPrint c) && (Verbose c || Debug c).
Definition prints_debug (c : Config) : bool := negb (NoPrint c) && Debug c.

(** [--no-print] silences every level, [--debug] implies [--verbose]. *)
Lemma prints_levels c :
  (prints_debug c = true -> prints_verbose c = true) /\ (prints_verbose c = true -> prints c = true).
Proof. unfold prints, prints_verbose, prints_debug. by destruct (NoPrint c), (Verbose c), (Debug c). Qed.

(** What [main] does with a configuration in which a required flag is missing:
    [ValidateArgs] on it fails. *)
Definition validate_config (c : Config) : option error :=
  ValidateArgs (Some (TargetDevPath c)) (Some (Port c)) (Some (IpAddress c)) (Some (JournalPath c)).

Lemma NewConfig_rejected given :
  (forall n, FPort n ∉ given) -> validate_config (NewConfig given) <> None.
Proof.
  intros H E. assert (P : Port (NewConfig given) = DefaultPort).
  { clear E. unfold NewConfig. assert (G : forall c, Port c = DefaultPort -> Port (foldl set_flag c given) = DefaultPort);
      [|by apply G].
    induction given as [|f given IH]; intros c Hc; [done|]. cbn [foldl].
    apply IH; [intros n Hn; apply (H n); by right|].
    destruct f; cbn; try done. exfalso. apply (H n). by left. }
  unfold validate_config, ValidateArgs in E. apply (proj1 (proj1 (validate_spec _))) in E.
  rewrite !Forall_cons in E. cbn in E. rewrite P in E. naive_solver.
Qed.

(** Both daemons accept their arguments exactly when every required one is
    given and different from its default, and otherwise name the missing ones
    in order. *)
Theorem ValidateArgs_spec a b c d n m :
  (ClientConfig.ValidateArgs a b c n = None <->
     given (AString a) /\ given (AString b) /\ given (AString c) /\ given (AInt n)) /\
  (ServerConfig.ValidateArgs a m c d = None <->
     given (AString a) /\ given (AInt m) /\ given (AString c) /\ given (AString d)).
Proof.
  unfold ClientConfig.ValidateArgs, ServerConfig.ValidateArgs.
  split; (etrans; [apply validate_spec|]); rewrite !Forall_cons, Forall_nil; cbn [fst]; tauto.
Qed.
