(* ===== verification/Bench.v ===== *)
(** * Benchmark counters ([benchmark.go])

    The counters both daemons record into, the report they print and the
    timers.  A point in time and a duration are nanoseconds ([int64]); byte and
    event counts are [uint64], all with wrap-around.  What the clock shows is an
    argument ([now]); what is printed is the list of lines. *)
From S2P Require Import Prelude GoInt GoFmt.
From stdpp Require Import pretty.
Open Scope Z_scope.

Record BenchmarkStats := mkStats {
  Up : bool;
  StartTime : Z;
  TotalBytesWritten : Z;
  TotalPacketsSent : Z;
  HashingTime : Z;
  HashingBytes : Z;
  BufferOverflows : Z;
  ReconnectionEvents : Z;
  WritingTime : Z;
}.

Definition NewBenchmarkStats (now : Z) (up : bool) : BenchmarkStats := mkStats up now 0 0 0 0 0 0 0.

Inductive record_op :=
| RecordWrite (duration bytes : Z)
| RecordHashing (duration bytes : Z)
| RecordBufferOverflow
| RecordReconnection.

(** The four [Record] methods; without [Up] they return at once. *)
Definition record (o : record_op) (bs : BenchmarkStats) : BenchmarkStats :=
  if negb (Up bs) then bs
  else match o with
  | RecordWrite duration bytes =>
      mkStats (Up bs) (StartTime bs) (u64 (TotalBytesWritten bs + bytes)) (u64 (TotalPacketsSent bs + 1))
        (HashingTime bs) (HashingBytes bs) (BufferOverflows bs) (ReconnectionEvents bs)
        (i64 (u64 (WritingTime bs + duration)))
  | RecordHashing duration bytes =>
      mkStats (Up bs) (StartTime bs) (TotalBytesWritten bs) (TotalPacketsSent bs)
        (i64 (u64 (HashingTime bs + duration))) (u64 (HashingBytes bs + bytes))
        (BufferOverflows bs) (ReconnectionEvents bs) (WritingTime bs)
  | RecordBufferOverflow =>
      mkStats (Up bs) (StartTime bs) (TotalBytesWritten bs) (TotalPacketsSent bs) (HashingTime bs)
        (HashingBytes bs) (u64 (BufferOverflows bs + 1)) (ReconnectionEvents bs) (WritingTime bs)
  | RecordReconnection =>
      mkStats (Up bs) (StartTime bs) (TotalBytesWritten bs) (TotalPacketsSent bs) (HashingTime bs)
        (HashingBytes bs) (BufferOverflows bs) (u64 (ReconnectionEvents bs + 1)) (WritingTime bs)
  end.

Definition records (os : list record_op) (bs : BenchmarkStats) : BenchmarkStats :=
  foldl (fun bs o => record o bs) bs os.

(** ** The report *)

(** The lines of [PrintStats] on the replication and on the hashing. *)
Definition replication_lines (bs : BenchmarkStats) : list string :=
  if 0 <? TotalBytesWritten bs then
    let writingSeconds := Seconds (WritingTime bs) in
    (if fpos writingSeconds then
       let throughputMBs := fdiv (fdiv (float64_of (TotalBytesWritten bs)) writingSeconds) (float64_of 1000000) in
       let throughputMiBs := fdiv (fdiv (float64_of (TotalBytesWritten bs)) writingSeconds) (float64_of 1048576) in
       ["Replication throughput: " +:+ fmt_f2 throughputMBs +:+ " MB/s (" +:+ fmt_f2 throughputMiBs +:+ " MiB/s)"]
     else ["Replication throughput: N/A (writing time too small to measure)"])%string ++
    [("Total data transferred: " +:+ fmt_f2 (fdiv (float64_of (TotalBytesWritten bs)) (float64_of 1000000000)) +:+
      " GB (" +:+ fmt_f2 (fdiv (float64_of (TotalBytesWritten bs)) (float64_of 1073741824)) +:+ " GiB)")%string] ++
    [if 0 <? TotalPacketsSent bs then ("Packets sent: " +:+ pretty (TotalPacketsSent bs) +:+ " ")%string
     else "Packets sent: 0"%string]
  else [].

Definition hashed_line (bs : BenchmarkStats) : string :=
  "Total data hashed: " +:+ fmt_f2 (fdiv (float64_of (HashingBytes bs)) (float64_of 1000000000)) +:+
  " GB (" +:+ fmt_f2 (fdiv (float64_of (HashingBytes bs)) (float64_of 1073741824)) +:+ " GiB)".

Definition hashing_lines (bs : BenchmarkStats) : list string :=
  if 0 <? HashingBytes bs then
    let hashingSeconds := Seconds (HashingTime bs) in
    if fpos hashingSeconds then
      let hashRate := fdiv (float64_of (HashingBytes bs)) hashingSeconds in
      [("Hashing performance: " +:+ fmt_f2 (fdiv hashRate (float64_of 1000000)) +:+ " MB/s (" +:+
        fmt_f2 (fdiv hashRate (float64_of 1048576)) +:+ " MiB/s)")%string;
       ("Total time spent hashing: " +:+ fmt_f2 hashingSeconds +:+ " seconds")%string;
       hashed_line bs]
    else ["Hashing performance: N/A (hashing time too small to measure)"%string; hashed_line bs]
  else [].

(** [PrintStats]; the line break that starts its first line is an empty line. *)
Definition PrintStats (now : Z) (bs : BenchmarkStats) : list string :=
  if negb (Up bs) then []
  else
    let elapsed := Seconds (Since now (StartTime bs)) in
    [""; "--- BDR Performance Statistics ---"; "Running time: " +:+ fmt_f2 elapsed +:+ " seconds"]%string ++
    replication_lines bs ++ hashing_lines bs ++
    ["Buffer overflows: " +:+ pretty (BufferOverflows bs);
     "Reconnection events: " +:+ pretty (ReconnectionEvents bs)]%string.

(** ** [StartStatsPrinting] of both daemons

    The goroutine that prints the report whenever its ticker fires, until
    [TermChan] is closed.  When both are ready, [select] takes either. *)
Inductive printer := PrinterOff | PrinterOn | PrinterStopped.

Definition StartStatsPrinting (benchmark : bool) : printer :=
  if benchmark then PrinterOn else PrinterOff.

(** A turn of its loop, with the lines it prints. *)
Inductive printer_step (bs : BenchmarkStats) (now : Z) (terminated : bool) : printer -> list string -> printer -> Prop :=
| printer_tick : printer_step bs now terminated PrinterOn (PrintStats now bs) PrinterOn
| printer_term : terminated = true -> printer_step bs now terminated PrinterOn [] PrinterStopped.

(** ** [Timer] *)

Record Timer := mkTimer {
  start : Z;
  name : string;
}.

Definition NewTimer (now : Z) (name : string) : Timer := mkTimer now name.
Definition Stop (now : Z) (t : Timer) : Z := Since now (start t).
Definition StopAndPrint (now : Z) (t : Timer) : Z * list string :=
  let elapsed := Since now (start t) in
  (elapsed, ["[BENCHMARK] " +:+ name t +:+ " took " +:+ Duration_String elapsed]%string).

(** ** Facts *)

Definition is_write (o : record_op) : bool := match o with RecordWrite _ _ => true | _ => false end.
Definition written (o : record_op) : Z := match o with RecordWrite _ bytes => bytes | _ => 0 end.
Definition sumZ (l : list Z) : Z := foldr Z.add 0 l.

(** Switched off, nothing is recorded; switched on, packets and bytes are counted
    modulo the width of their counters. *)
Lemma records_down os bs : Up bs = false -> records os bs = bs.
Proof.
  intros H. induction os as [|o os IH] using rev_ind; [done|].
  unfold records in *. rewrite foldl_app, IH. cbn. unfold record. by rewrite H.
Qed.

Lemma records_up os bs :
  Up bs = true -> is_u64 (TotalPacketsSent bs) -> is_u64 (TotalBytesWritten bs) ->
  Up (records os bs) = true /\
  TotalPacketsSent (records os bs) =
    u64 (TotalPacketsSent bs + Z.of_nat (length (filter (fun o => is_write o = true) os))) /\
  TotalBytesWritten (records os bs) = u64 (TotalBytesWritten bs + sumZ (written <$> os)).
Proof.
  revert bs. induction os as [|o os IH]; intros bs Hu Hp Hb.
  - cbn. rewrite !Z.add_0_r, !u64_small by done. done.
  - assert (Hr : Up (record o bs) = true) by (unfold record; rewrite Hu; by destruct o).
    assert (Hp' : TotalPacketsSent (record o bs) =
      u64 (TotalPacketsSent bs + if is_write o then 1 else 0)).
    { unfold record. rewrite Hu. destruct o; cbn; rewrite ?Z.add_0_r; try done; by rewrite u64_small. }
    assert (Hb' : TotalBytesWritten (record o bs) = u64 (TotalBytesWritten bs + written o)).
    { unfold record. rewrite Hu. destruct o; cbn; rewrite ?Z.add_0_r; try done; by rewrite u64_small. }
    assert (B : forall z, is_u64 (u64 z)) by (intros z; apply Z.mod_pos_bound; lia).
    destruct (IH (record o bs) Hr) as (H1 & H2 & H3); [by rewrite Hp'|by rewrite Hb'|].
    cbn [records foldl]. fold (records os (record o bs)). split; [exact H1|].
    rewrite H2, H3, Hp', Hb'. unfold u64. rewrite !Zplus_mod_idemp_l. rewrite filter_cons.
    change (sumZ (written <$> o :: os)) with (written o + sumZ (written <$> os)).
    split; [|f_equal; lia]. f_equal. destruct (is_write o); case_decide; try done; cbn [length]; lia.
Qed.

(** The report of what was recorded depends on nothing else; with the benchmark
    off nothing is printed, at any time and after any recording, and with it on
    the first three and the last two lines always are. *)
Lemma PrintStats_off now now' os : PrintStats now (records os (NewBenchmarkStats now' false)) = [].
Proof. by rewrite records_down. Qed.

Lemma PrintStats_on now os now' :
  exists lines : list string, PrintStats now (records os (NewBenchmarkStats now' true)) =
    [""; "--- BDR Performance Statistics ---";
     "Running time: " +:+ fmt_f2 (Seconds (Since now now')) +:+ " seconds"]%string ++ lines /\
    (2 <= length lines <= 8)%nat.
Proof.
  assert (H : forall bs, Up bs = true -> StartTime bs = now' ->
    Up (records os bs) = true /\ StartTime (records os bs) = now').
  { induction os as [|o os IH]; intros bs H1 H2; [done|]. apply IH; unfold record; rewrite H1; by destruct o. }
  destruct (H (NewBenchmarkStats now' true)) as [H1 H2]; [done|done|].
  unfold PrintStats. rewrite H1, H2. cbn [negb]. eexists. split; [done|].
  unfold replication_lines, hashing_lines. rewrite !length_app.
  repeat case_match; cbn; lia.
Qed.

(** A second of writing 3,000,000 bytes in two packets, and half a second of
    hashing. *)
Example PrintStats_example :
  PrintStats (10 * Second) (records [RecordWrite 400000000 1000000; RecordWrite 600000000 2000000;
    RecordHashing 500000000 1048576; RecordBufferOverflow] (NewBenchmarkStats 0 true)) =
  [""; "--- BDR Performance Statistics ---"; "Running time: 10.00 seconds";
   "Replication throughput: 3.00 MB/s (2.86 MiB/s)"; "Total data transferred: 0.00 GB (0.00 GiB)";
   "Packets sent: 2 "; "Hashing performance: 2.10 MB/s (2.00 MiB/s)";
   "Total time spent hashing: 0.50 seconds"; "Total data hashed: 0.00 GB (0.00 GiB)";
   "Buffer overflows: 1"; "Reconnection events: 0"]%string.
Proof. vm_compute. reflexivity. Qed.

Example timer_example :
  StopAndPrint 2500000 (NewTimer 1000000 "Hash processing") =
  (1500000, ["[BENCHMARK] Hash processing took 1.5ms"]%string).
Proof. vm_compute. reflexivity. Qed.
