(* ===== verification/Report.v ===== *)
(** * What the daemons print about their data

    The [Print] methods of the client's and the network's structures, the
    textual form of a journal and the share of the disk it covers, and the three
    levels of log lines.  What is printed is the list of lines. *)
From S2P Require Import Prelude GoInt GoMonad GoFmt BlockDev GoChan Networking RingBuffer Journal Client.
From S2P Require ClientConfig ServerConfig Bench.
From stdpp Require Import pretty.
Open Scope Z_scope.

(** ** Structures *)

(** [atomic_t] is an [int32]. *)
Record BufferStats := mkBufferStats {
  TotalWrites : Z;
  OverflowCount : Z;
  TotalReads : Z;
}.

Definition BufferStats_Print (b : BufferStats) : string :=
  "BufferStats { TotalWrites: " +:+ pretty (TotalWrites b) +:+ ", OverflowCount: " +:+
  pretty (OverflowCount b) +:+ ", TotalReads: " +:+ pretty (TotalReads b) +:+ " }".

Definition BufferInfo_Print (b : BufferInfo) : string :=
  "BufferInfo { Offset: " +:+ pretty (biOffset b) +:+ ", Length: " +:+ pretty (biLength b) +:+
  ", Last: " +:+ pretty (biLast b) +:+ ", Flags: " +:+ pretty (biFlags b) +:+
  ", MaxWrites: " +:+ pretty (biMaxWrites b) +:+ " }".

Definition TargetInfo_Print (t : TargetInfo) : string :=
  "TargetInfo { PageSize: " +:+ pretty (PageSize t) +:+ ", WriteInfoSize: " +:+
  pretty (tiWriteInfoSize t) +:+ ", BufferByteSize: " +:+ pretty (tiBufferByteSize t) +:+ " }".

Definition InitInfo_Print (i : InitInfo) : string :=
  "InitInfo { DiskSize: " +:+ pretty (DeviceSize i) +:+ ", WriteInfoSize: " +:+
  pretty (iWriteInfoSize i) +:+ ", BufferByteSize: " +:+ pretty (BufferByteSize i) +:+ " }".

Definition WriteInfo_Print (w : WriteInfo) : string :=
  "WriteInfo { Sector: " +:+ pretty (Offset w) +:+ ", Size: " +:+ pretty (Networking.Size w) +:+ ", Data:... }".

Definition HashInfo_Print (h : HashInfo) : string :=
  "HashInfo { Offset: " +:+ pretty (hOffset h) +:+ ", Size: " +:+ pretty (hSize h) +:+ ", Data:... }".

(** ** The journal *)

Definition Journal_String (j : Journal) : list string :=
  let h := header j in
  ["";
   "Actual offsets:";
   "  Write offset: " +:+ pretty (WriteOffset j);
   "  Correct offset: " +:+ pretty (CorrectOffset j);
   "Journal Header:";
   "  Magic: 0x" +:+ fmt_X 16 (magic h);
   "  Buffer Write Section:";
   "    Entry Size: " +:+ pretty (bufWriteByteSize h) +:+ " bytes";
   "    Entry Count: " +:+ pretty (bufWritesCount h);
   "    Start Offset: " +:+ pretty (bufWritesStartOffset h);
   "    Total Size: " +:+ pretty (GetBufWriteSectionByteSize h) +:+ " bytes";
   "  Correct Block Section:";
   "    Block Size: " +:+ pretty (corrBlockByteSize h) +:+ " bytes";
   "    Block Count: " +:+ pretty (corrBlocksCount h);
   "    Start Offset: " +:+ pretty (corrBlocksStartOffset h);
   "    Total Size: " +:+ pretty (GetCorrBlockSectionByteSize h) +:+ " bytes";
   "  Valid: " +:+ (if Header_IsValid h then "true" else "false");
   "  Flags: 0x" +:+ fmt_X 16 (flags h)]%string.

Definition GetJournalCoverPercentage (targetDiskSize : Z) (j : Journal) : float64 :=
  let corrBlockCoverage := GetCorrBlockSectionByteSize (header j) in
  fmul (fdiv (float64_of corrBlockCoverage) (float64_of targetDiskSize)) (float64_of 100).

(** ** Log lines *)

(** [fmt.Println(tag, args)]: [args] is one operand, a slice. *)
Definition log_line (tag : string) (args : list string) : string :=
  Sprintln [tag; "[" +:+ Sprintln args +:+ "]"].

Module ClientLog.
Definition Println (cfg : ClientConfig.Config) (args : list string) : list string :=
  if ClientConfig.prints cfg then [log_line "[INFO]:" args] else [].
Definition VerbosePrintln (cfg : ClientConfig.Config) (args : list string) : list string :=
  if ClientConfig.prints_verbose cfg then [log_line "[VERBOSE]:" args] else [].
Definition DebugPrintln (cfg : ClientConfig.Config) (args : list string) : list string :=
  if ClientConfig.prints_debug cfg then [log_line "[DEBUG]:" args] else [].
End ClientLog.

Module ServerLog.
Definition Println (cfg : ServerConfig.Config) (args : list string) : list string :=
  if ServerConfig.prints cfg then [log_line "[INFO]:" args] else [].
Definition VerbosePrintln (cfg : ServerConfig.Config) (args : list string) : list string :=
  if ServerConfig.prints_verbose cfg then [log_line "[VERBOSE]:" args] else [].
Definition DebugPrintln (cfg : ServerConfig.Config) (args : list string) : list string :=
  if ServerConfig.prints_debug cfg then [log_line "[DEBUG]:" args] else [].
End ServerLog.

(** ** The server's helpers on channels *)

Definition Server_CheckTermination {A} (TermChan : chan A) : bool := ChanHasTerminated TermChan.

(** [WaitUntilChannelEmpty]: the polls of the channel until its length is 0, on
    the channel as each poll finds it; [None] when it is still waiting. *)
Fixpoint WaitUntilChannelEmpty {A} (seen : list (chan A)) : option nat :=
  match seen with
  | [] => None
  | ch :: seen => if (length (cbuf ch) =? 0)%nat then Some 1%nat else S <$> WaitUntilChannelEmpty seen
  end.

(** ** Facts *)

(** It returns as soon as a poll finds the channel empty, and not before. *)
Lemma WaitUntilChannelEmpty_spec {A} (seen : list (chan A)) n :
  WaitUntilChannelEmpty seen = Some n <->
  exists before ch after, seen = before ++ ch :: after /\ n = S (length before) /\ cbuf ch = [] /\
    Forall (fun c => cbuf c <> []) before.
Proof.
  revert n. induction seen as [|c seen IH]; intros n; cbn [WaitUntilChannelEmpty].
  { split; [done|]. by intros ([|] & ? & ? & ? & _). }
  destruct (length (cbuf c) =? 0)%nat eqn:E.
  - apply Nat.eqb_eq, nil_length_inv in E. split.
    + intros [= <-]. by exists [], c, seen.
    + intros ([|c' before] & ch & after & Hs & -> & _ & Hb); simplify_eq/=; [done|]. by inversion Hb.
  - apply Nat.eqb_neq in E. rewrite fmap_Some. split.
    + intros (k & (before & ch & after & -> & -> & Hc & Hb)%IH & ->).
      exists (c :: before), ch, after. split_and!; [done|done|done|]. constructor; [|done].
      intros Hn. by rewrite Hn in E.
    + intros ([|c' before] & ch & after & Hs & -> & Hc & Hb); simplify_eq/=; [by rewrite Hc in E|].
      exists (S (length before)). split; [|done]. apply IH. exists before, ch, after.
      split_and!; [done..|]. by inversion Hb.
Qed.

(** [--no-print] silences every log line of both daemons, and no line is printed
    at a level whose flag is off; the report of the benchmark does not ask. *)
Lemma log_levels cc sc args :
  (ClientConfig.NoPrint cc = true ->
     ClientLog.Println cc args = [] /\ ClientLog.VerbosePrintln cc args = [] /\ ClientLog.DebugPrintln cc args = []) /\
  (ServerConfig.NoPrint sc = true ->
     ServerLog.Println sc args = [] /\ ServerLog.VerbosePrintln sc args = [] /\ ServerLog.DebugPrintln sc args = []) /\
  (ClientConfig.Debug cc = false -> ClientLog.DebugPrintln cc args = []) /\
  (ServerConfig.Debug sc = false -> ServerLog.DebugPrintln sc args = []).
Proof.
  unfold ClientLog.Println, ClientLog.VerbosePrintln, ClientLog.DebugPrintln, ServerLog.Println,
    ServerLog.VerbosePrintln, ServerLog.DebugPrintln, ClientConfig.prints, ClientConfig.prints_verbose,
    ClientConfig.prints_debug, ServerConfig.prints, ServerConfig.prints_verbose, ServerConfig.prints_debug.
  split_and!; intros ->; cbn; try done; by rewrite andb_false_r.
Qed.

Example log_example :
  log_line "[INFO]:" ["Server"; "ready"]%string = "[INFO]: [Server ready]"%string.
Proof. reflexivity. Qed.

(** The percentage counts the 12 bytes of offset and size of each slot as covered,
    so a journal can be said to cover the whole of a disk that it cannot hold:
    1,000 slots hold 262,144,000 bytes, and 100.00 percent is reported of a
    disk of 262,156,000. *)
Example cover_example :
  let h := mkHeader 0 4108 1 4096 CorrectBlockByteSize 1000 8192 0 in
  fmt_f2 (GetJournalCoverPercentage (262156 * 1000) (mkJournal 0 0 0 h)) = "100.00"%string /\
  1000 * HashedSpaceBase < 262156 * 1000.
Proof. split; [vm_compute; reflexivity|reflexivity]. Qed.

(** On an empty disk the share is not a number. *)
Example cover_empty :
  let h := mkHeader 0 4108 1 4096 CorrectBlockByteSize 0 8192 0 in
  fmt_f2 (GetJournalCoverPercentage 0 (mkJournal 0 0 0 h)) = "NaN"%string.
Proof. vm_compute. reflexivity. Qed.
