(* ===== verification/Connections.v ===== *)
(** * The life of the server daemon: [Run], [HandleConnections] and [Close]

    The connection handler accepts one connection after the other and runs
    [HandleClient] on each; the main goroutine waits for a signal, closes
    [TermChan], the connection, the listener and the target, and waits for the
    handler.  The two run beside the goroutines of the current session and
    beside those that ended sessions have left behind: [HandleWritePackets] and
    [HandleCorrectPackets] call [wg.Done()] first, so the [Wait] at the end of
    [HandleClient] does not wait for them, and they go on with what their closed
    queues still hold; and a [HashDisk] waits for its senders only, not for its
    readers.

    A [Daemon] is the server, what [Accept] will return, the place of the
    handler, the sessions that have ended and the place of [Run].  A session
    step runs on the server as it is at that moment ([load]). *)
From S2P Require Import Prelude GoInt GoMonad GoChan Utils BlockDev Blocks Networking Journal Server ServerReplay Session.
Open Scope Z_scope.

(** ** Closed descriptors *)

Definition ErrNetClosed : error := ErrMsg "use of closed network connection".
Definition ErrFileClosed : error := ErrMsg "file already closed".

(** No step makes more than this many calls on a closed descriptor: it gives up
    after the first or the second. *)
Definition closedCalls : nat := 4.

Definition close_dev (d : Dev) : Dev :=
  {| content := content d; faults := replicate closedCalls (Fault 0 ErrFileClosed) |}.

(** ** States *)

(** What [Listener.Accept] returns: a connection is what its client will send
    and the outcomes of the sends on it. *)
Inductive accepted :=
| AcceptConn (packets : list (Packet + error)) (encFaults : list (option error))
| AcceptErr (e : error).

(** Where [HandleConnections] is. *)
Inductive handler_pc :=
| CheckTerm                                 (* top of its loop *)
| Accept                                    (* [Listener.Accept] *)
| Accepted (packets : list (Packet + error)) (encFaults : list (option error))
                                            (* before [ConnMutex.Lock] *)
| Greeting (packets : list (Packet + error))
                                            (* the first two lines of [HandleClient] *)
| Init (packets : list (Packet + error))    (* [HandleClient] up to its goroutines *)
| Serving (s : Session)                     (* [clientWg.Wait()] *)
| HandlerReturned.

(** Where [Run] is, once [CheckJournal] has succeeded. *)
Inductive run_pc :=
| WaitSignal
| Shutdown            (* InitiateShutdown *)
| Closing             (* Close *)
| WaitHandler         (* termWg.Wait() *)
| RunReturned.

(** [connClosed]: the current connection has been closed by [Close]. *)
Record Daemon := mkDaemon {
  server : Server;
  accepts : list accepted;
  handler : handler_pc;
  ended : list Session;
  runPc : run_pc;
  dTermChan : chan unit;
  listenerClosed : bool;
  targetClosed : bool;
  connClosed : bool;
}.

Definition set_handler (v : Server) (h : handler_pc) (d : Daemon) : Daemon :=
  mkDaemon v (accepts d) h (ended d) (runPc d) (dTermChan d) (listenerClosed d) (targetClosed d) (connClosed d).
Definition set_accepts (l : list accepted) (d : Daemon) : Daemon :=
  mkDaemon (server d) l (handler d) (ended d) (runPc d) (dTermChan d) (listenerClosed d) (targetClosed d) (connClosed d).
Definition set_ended (v : Server) (l : list Session) (d : Daemon) : Daemon :=
  mkDaemon v (accepts d) (handler d) l (runPc d) (dTermChan d) (listenerClosed d) (targetClosed d) (connClosed d).
Definition set_runPc (r : run_pc) (d : Daemon) : Daemon :=
  mkDaemon (server d) (accepts d) (handler d) (ended d) r (dTermChan d) (listenerClosed d) (targetClosed d) (connClosed d).
Definition set_dTermChan (c : chan unit) (d : Daemon) : Daemon :=
  mkDaemon (server d) (accepts d) (handler d) (ended d) (runPc d) c (listenerClosed d) (targetClosed d) (connClosed d).
Definition set_connClosed (b : bool) (d : Daemon) : Daemon :=
  mkDaemon (server d) (accepts d) (handler d) (ended d) (runPc d) (dTermChan d) (listenerClosed d) (targetClosed d) b.

(** ** Sessions on the shared server *)

Definition closed_conn (d : Daemon) (v : Server) : Server :=
  if connClosed d then set_sent (sent v) (replicate closedCalls (Some ErrNetClosed)) v else v.
Definition closed_target (d : Daemon) (v : Server) : Server :=
  if targetClosed d then set_target (close_dev (TargetDevFd v)) v else v.

Definition set_TermChan (c : chan unit) (s : Session) : Session :=
  mkSession (srv s) (decoder s) c (hashTermChan s) (writeQueue s) (journalQueue s)
    (correctQueue s) (replicationQueue s) (mainPc s) (writePc s) (hashPc s) (journalWorker s)
    (replicationWorkers s) (correctPc s) (replicating s) (strays s).

Definition load (d : Daemon) (s : Session) : Session :=
  upd_srv (fun _ => closed_target d (closed_conn d (server d))) (set_TermChan (dTermChan d) s).

(** The deferred [SetState(StateDisconnected)] and [CloseClientConn]. *)
Definition CloseClientConn (v : Server) : Server := set_connected false v.
Definition client_gone (v : Server) : Server := CloseClientConn (set_state StateDisconnected v).

Section Steps.
Context (xxhash : list byte -> Z) (numWorkers : nat).

(** A step of the current session; when [HandleClient] has returned the handler
    goes back to its loop. *)
Definition session_step (e : event) (s : Session) (d : Daemon) : attempt Daemon :=
  abind (step xxhash numWorkers e (load d s)) (fun s =>
    Done (match mainPc s with
          | MReturned => set_ended (srv s) (ended d ++ [s]) (set_handler (srv s) CheckTerm d)
          | _ => set_handler (srv s) (Serving s) d
          end)).

(** ** [HandleConnections] *)

Definition handler_step (d : Daemon) : attempt Daemon :=
  match handler d with
  | CheckTerm =>
      Done (set_handler (server d) (if ChanHasTerminated (dTermChan d) then HandlerReturned else Accept) d)
  | Accept =>
      if listenerClosed d then Done (set_handler (server d) HandlerReturned d)
      else
        match accepts d with
        | [] => Blocked
        | AcceptErr _ :: l => Done (set_handler (server d) CheckTerm (set_accepts l d))
        | AcceptConn packets encFaults :: l =>
            Done (set_handler (server d) (Accepted packets encFaults) (set_accepts l d))
        end
  | Accepted packets encFaults =>
      if Connected (server d) then Done (set_handler (server d) CheckTerm d)
      else
        let v := set_connected true (set_sent (sent (server d)) encFaults (server d)) in
        Done (set_connClosed false (set_handler v (Greeting packets) d))
  | Greeting packets =>                     (* s.Conn.RemoteAddr(): [Close] may have reset s.Conn *)
      if connClosed d then Crash
      else Done (set_handler (set_state StateWriting (server d)) (Init packets) d)
  | Init packets =>
      match packets with
      | [] => Blocked
      | decoded :: packets =>
          match HandleClient_init decoded (closed_conn d (server d)) with
          | (Ret true, v) => Done (set_handler v (Serving (HandleClient_start v packets)) d)
          | (Panic, _) => Crash
          | (_, v) => Done (set_handler (client_gone v) CheckTerm d)
          end
      end
  | Serving s => session_step EMain s d
  | HandlerReturned => Blocked
  end.

Definition worker_event (e : event) : bool :=
  match e with EMain | EShutdown => false | _ => true end.

(** ** The goroutines of the ended sessions *)

Definition ended_event (e : event) : bool :=
  match e with EWrite | ECorrect | EStray _ _ => true | _ => false end.

Definition ended_step (e : event) (i : nat) (d : Daemon) : attempt Daemon :=
  match ended d !! i with
  | Some s =>
      if ended_event e then
        abind (step xxhash numWorkers e (load d s)) (fun s =>
          Done (set_ended (srv s) (<[i := s]> (ended d)) d))
      else Blocked
  | None => Blocked
  end.

(** ** [Run] *)

Definition InitiateShutdown (d : Daemon) : Daemon :=
  if ChanHasTerminated (dTermChan d) then d
  else set_dTermChan (mkChan (cbuf (dTermChan d)) (ccap (dTermChan d)) true) d.

(** A closed connection delivers what the decoder has already buffered, then the
    error. *)
Definition cut {A} (buffered : nat) (l : list (A + error)) : list (A + error) :=
  take buffered l ++ [inr ErrNetClosed].

(** [Close]: the connection is there while a client is being served. *)
Definition Close (buffered : nat) (d : Daemon) : Daemon :=
  let '(h, c) := match handler d with
                 | Greeting packets => (Greeting (cut buffered packets), true)
                 | Init packets => (Init (cut buffered packets), true)
                 | Serving s => (Serving (set_decoder (cut buffered (decoder s)) s), true)
                 | h => (h, connClosed d)
                 end in
  mkDaemon (server d) (accepts d) h (ended d) (runPc d) (dTermChan d) true true c.

Definition run_step (buffered : nat) (d : Daemon) : attempt Daemon :=
  match runPc d with
  | Shutdown => Done (set_runPc Closing (InitiateShutdown d))
  | Closing => Done (set_runPc WaitHandler (Close buffered d))
  | WaitHandler =>
      match handler d with HandlerReturned => Done (set_runPc RunReturned d) | _ => Blocked end
  | WaitSignal | RunReturned => Blocked
  end.

(** ** Schedules *)

Inductive devent :=
| DHandler                           (* [HandleConnections], [HandleClient] *)
| DWorker (e : event)                (* a goroutine of the session *)
| DEnded (e : event) (i : nat)       (* a goroutine of an ended session *)
| DSignal                            (* SIGINT or SIGTERM arrives *)
| DRun (buffered : nat).             (* [Run] *)

Definition dstep (e : devent) (d : Daemon) : attempt Daemon :=
  match e with
  | DHandler => handler_step d
  | DWorker e =>
      match handler d with
      | Serving s => if worker_event e then session_step e s d else Blocked
      | _ => Blocked
      end
  | DEnded e i => ended_step e i d
  | DSignal =>
      match runPc d with WaitSignal => Done (set_runPc Shutdown d) | _ => Blocked end
  | DRun buffered => run_step buffered d
  end.

Fixpoint drun (es : list devent) (d : Daemon) : attempt Daemon :=
  match es with
  | [] => Done d
  | e :: es => abind (dstep e d) (drun es)
  end.

Inductive dreachable (d0 : Daemon) : Daemon -> Prop :=
| dreach_refl : dreachable d0 d0
| dreach_step e d d' : dreachable d0 d -> dstep e d = Done d' -> dreachable d0 d'.

Lemma drun_reachable es d0 d d' : dreachable d0 d -> drun es d = Done d' -> dreachable d0 d'.
Proof using.
  revert d. induction es as [|e es IH]; intros d R H; simpl in H; [by injection H as <-|].
  apply abind_Done in H as (d1 & E & H). by apply (IH d1); [eapply dreach_step|].
Qed.
End Steps.

(** The daemon [Run] starts, unless the journal cannot be recovered. *)
Definition Run (conns : list accepted) (v : Server) : option Daemon :=
  match CheckJournal v with
  | (Ret _, v) => Some (mkDaemon v conns CheckTerm [] WaitSignal (make_chan 0) false false false)
  | _ => None
  end.
