(* ===== verification/ConnectionsSafety.v ===== *)
(** * The invariant of the daemon: who is served, which channels are closed *)
From S2P Require Import Prelude GoInt GoMonad GoChan Utils BlockDev Blocks Networking Journal Server ServerReplay ServerProps ServerPaths Session SessionSafety SessionProps Connections.
Open Scope Z_scope.

(** ** No method touches [Connected] *)

Section Connected.
Context (b : bool).
Local Abbreviation I := (fun v : Server => Connected v = b).

Lemma cn_target {A} (m : M Dev A) : preserves I (on_target m).
Proof using. intros v Hv. unfold on_target, zoom. by destruct (m (TargetDevFd v)). Qed.
Lemma cn_journalDev {A} (m : M Dev A) : preserves I (on_journalDev m).
Proof using. intros v Hv. unfold on_journalDev, zoom. by destruct (m (JournalDev v)). Qed.
Lemma cn_journal {A} (m : M JState A) : preserves I (on_journal m).
Proof using. intros v Hv. unfold on_journal. destruct (SJournal v); [|done]. by destruct (m _). Qed.
Lemma cn_Encode p : preserves I (Encode p).
Proof using. intros v Hv. unfold Encode. by destruct (sendFaults v) as [|[] ?]. Qed.
Lemma cn_SetState st : preserves I (SetState st).
Proof using. by intros v Hv. Qed.
End Connected.
#[export] Hint Resolve cn_target cn_journalDev cn_journal cn_Encode cn_SetState : preserves.

Ltac solve_connected :=
  repeat first
    [ progress eauto 2 with preserves
    | apply preserves_bind; [|intros ?] | apply preserves_map_err | apply preserves_catch
    | apply preserves_ignore | apply preserves_if | apply preserves_for_range; intros ?
    | apply preserves_modify; done | case_match | progress unfold SendPacket ].

Section Methods.
Context (b : bool).
Local Abbreviation I := (fun v : Server => Connected v = b).

Lemma cn_handleJournalPacket p : preserves I (handleJournalPacket p).
Proof using.
  unfold handleJournalPacket, journal_overflow, HandleJournalBufferWrite, HandleJournalCorrectBlock,
    WriteBufferWriteToJournal, WriteCorrectBlockToJournal, GetState. solve_connected.
Qed.
Lemma cn_handleCorrectPacket p : preserves I (handleCorrectPacket p).
Proof using. unfold handleCorrectPacket, WriteCorrectBlockToReplica. solve_connected. Qed.
Lemma cn_handleReplicationPacket p : preserves I (handleReplicationPacket p).
Proof using. unfold handleReplicationPacket. solve_connected. Qed.
Lemma cn_HashDisk_start : preserves I HashDisk_start.
Proof using. unfold HashDisk_start, GetState. solve_connected. Qed.
Lemma cn_hash_read n o : preserves I (hash_read n o).
Proof using. unfold hash_read. solve_connected. Qed.
Lemma cn_hash_send r : preserves I (hash_send r).
Proof using. unfold hash_send. solve_connected. Qed.
Lemma cn_HashDisk_end : preserves I HashDisk_end.
Proof using. unfold HashDisk_end. solve_connected. Qed.
Lemma cn_HandleJournalWriting : preserves I HandleJournalWriting.
Proof using. unfold HandleJournalWriting, WriteJournalToReplica, GetState. solve_connected. Qed.
Lemma cn_HandleClient_init d : preserves I (HandleClient_init d).
Proof using.
  unfold HandleClient_init, WaitForInitInfo, CheckValidSizes, CreateJournal, on_local, reject.
  solve_connected.
Qed.
End Methods.
#[export] Hint Resolve cn_handleJournalPacket cn_handleCorrectPacket cn_handleReplicationPacket
  cn_HashDisk_start cn_hash_read cn_hash_send cn_HashDisk_end cn_HandleJournalWriting
  cn_HandleClient_init : preserves.

Lemma effect_connected v v' : job_effect v v' -> Connected v' = Connected v.
Proof.
  intros H. by eapply (preserves_effect (fun x => Connected x = Connected v)); [auto with preserves..|exact H|].
Qed.

(** They leave the state alone too. *)
Lemma effect_state v v' : job_effect v v' -> state v' = state v.
Proof.
  intros H. eapply (preserves_effect (fun x => state x = state v)); [..|exact H|done]; clear v' H.
  - intros o x Hx. unfold hash_read, bind, on_target, zoom.
    destruct (ReadAt _ _ _) as [[[buf [[]|]]|e|] d]; [..|done|done]; cbn; by try case_match.
  - intros r. assert (E : forall p, preserves (fun x => state x = state v) (Encode p))
      by (intros p x Hx; unfold Encode; by destruct (sendFaults x) as [|[] ?]).
    unfold hash_send, SendPacket.
    repeat first [apply preserves_bind; [|intros ?]|apply preserves_ignore|apply preserves_catch|apply E
                 |apply preserves_map_err|case_match|progress eauto 2 with preserves].
Qed.

(** ** What a step of a session does to [Connected] *)

Definition keeps_connected (s s' : Session) : Prop :=
  Connected (srv s') = Connected (srv s) /\ (mainPc s <> MReturned -> mainPc s' <> MReturned).

Lemma keeps_on_srv {A} (m : M Server A) s0 s k s' :
  (forall b, preserves (fun v => Connected v = b) m) -> keeps_connected s0 s ->
  (forall a v, keeps_connected s0 (upd_srv (fun _ => v) s) -> k a (upd_srv (fun _ => v) s) = Done s' ->
     keeps_connected s0 s') ->
  on_srv m s k = Done s' -> keeps_connected s0 s'.
Proof.
  intros Hm [H0 H0'] Hk H.
  pose proof (Hm _ _ H0) as Hv. simpl in Hv.
  apply on_srv_Done in H as [(a & v & E & H)|(e & v & E & ->)]; rewrite E in Hv.
  - by apply (Hk a v).
  - done.
Qed.

Ltac keeps :=
  repeat match goal with
  | H : Done _ = Done _ |- _ => injection H as <-
  | H : abind _ _ = Done _ |- _ => apply abind_Done in H as (? & ? & H)
  | H : on_srv _ _ _ = Done _ |- _ =>
      eapply keeps_on_srv; [..|exact H]; clear H; [intros; eauto with preserves|try done|intros ? ? ? H; cbn beta in H]
  | H : close_queue _ _ = Done _ |- _ => apply close_queue_Done in H; subst
  | H : close_hashTermChan _ = Done _ |- _ => apply close_hashTermChan_Done in H; subst
  | H : Blocked = Done _ |- _ => discriminate H
  | H : Crash = Done _ |- _ => discriminate H
  | H : context [match ?x with _ => _ end] |- _ => destruct x eqn:?
  end; try done.

Section Steps.
Context (xxhash : list byte -> Z) (numWorkers : nat).

Lemma worker_connected e s s' :
  worker_event e = true -> step xxhash numWorkers e s = Done s' -> keeps_connected s s'.
Proof using.
  destruct e as [| | | | |i|e|k e|]; [done|..|done]; intros _ H; cbn [step] in H.
  - unfold journal_step in H. keeps.
  - unfold correct_step in H. keeps.
  - unfold write_step in H. keeps.
  - unfold replication_step in H. keeps.
  - unfold replication_write_step in H. keeps.
  - unfold hash_step in H. destruct (hashPc s) as [| |j]; [done|destruct e; try done; keeps|].
    assert (J : job_step xxhash (ChanHasTerminated (hashTermChan s)) e j s (fun j => set_hashPc (HRunning j)) = Done s' ->
      keeps_connected s s')
      by (intros (v & Hv%effect_connected & [->|(j' & ->)])%job_step_Done; by split).
    destruct e; try exact (J H). keeps.
  - unfold stray_step in H. destruct (strays s !! k) as [[old j]|]; [|done].
    apply job_step_Done in H as (v & Hv%effect_connected & [->|(j' & ->)]); by split.
Qed.

(** The main goroutine leaves [Connected] alone until [HandleClient] returns. *)
Lemma main_connected s s' :
  mainPc s <> MReturn3 -> main_step numWorkers s = Done s' -> keeps_connected s s'.
Proof using.
  intros Hm H. unfold main_step in H. destruct (mainPc s) eqn:Em; try done.
  all: unfold dispatch, main_return, send_queue in H; keeps; try (by split; intros _; simpl).
  destruct H0. by split.
Qed.

(** A step of the session: the last one of [HandleClient], or one that leaves
    [Connected] alone. *)
Lemma step_cases e s s' :
  e <> EShutdown -> mainPc s <> MReturned -> step xxhash numWorkers e s = Done s' ->
  s' = set_mainPc MReturned (upd_srv client_gone s) \/
  (mainPc s' <> MReturned /\ Connected (srv s') = Connected (srv s)).
Proof using.
  intros He Hm H. destruct (decide (e = EMain)) as [->|Hmain].
  - assert (mainPc s = MReturn3 \/ mainPc s <> MReturn3) as [E|E] by (destruct (mainPc s); auto).
    + left. cbn [step] in H. unfold main_step in H. rewrite E in H.
      destruct (hash_idle s); [|done]. by injection H as <-.
    + right. destruct (main_connected s s' E H) as [K1 K2]. auto.
  - right. destruct (worker_connected e s s') as [K1 K2]; [by destruct e|done|]. auto.
Qed.
End Steps.

(** A relation that a change of the server keeps, along a step. *)
Lemma on_srv_frame (R : Session -> Prop) {A} (m : M Server A) s k s' :
  (forall f s, R s -> R (upd_srv f s)) -> R s ->
  (forall a s1, R s1 -> k a s1 = Done s' -> R s') -> on_srv m s k = Done s' -> R s'.
Proof.
  intros HR H0 Hk [(a & v & _ & H)|(e & v & _ & ->)]%on_srv_Done; [apply (Hk a _) in H|]; auto.
Qed.

Ltac frames R :=
  repeat match goal with
  | H : Done _ = Done _ |- _ => injection H as <-
  | H : abind _ _ = Done _ |- _ => apply abind_Done in H as (? & ? & H)
  | H : on_srv _ _ _ = Done _ |- _ =>
      eapply (on_srv_frame R); [..|exact H]; clear H; [done|try done|intros ? ? ? H; cbn beta in H]
  | H : Blocked = Done _ |- _ => discriminate H
  | H : Crash = Done _ |- _ => discriminate H
  | H : context [match ?x with _ => _ end] |- _ => destruct x eqn:?
  end; try done.

(** Setting a session up does not enter [StateHashing]. *)
Lemma nh_journalDev {A} P (m : M Dev A) : preserves (fun v => state v = StateHashing -> P) (on_journalDev m).
Proof. intros v Hv. unfold on_journalDev, zoom. by destruct (m (JournalDev v)). Qed.
#[export] Hint Resolve nh_journalDev : preserves.

Lemma nh_HandleClient_init d : no_hashing (HandleClient_init d).
Proof.
  apply no_hashing_preserves. intros P.
  unfold HandleClient_init, WaitForInitInfo, CheckValidSizes, CreateJournal, on_local, reject. solve_connected.
Qed.

(** ** The invariant of the daemon *)

(** A goroutine of an ended session finds its queues closed. *)
Definition left_behind (s : Session) : Prop :=
  cclosed (writeQueue s) = true /\ cclosed (correctQueue s) = true.

(** The part of the invariant that depends on the server is about its state. *)
Definition inv_at (st : State) (s : Session) : Prop :=
  session_inv (upd_srv (set_state st) s).

(** [Connected] says whether a client is being served; the channels of the
    current session are closed as its place says, so is its journal worker
    there when needed; without a client the state is [StateDisconnected]. *)
Record daemon_inv (d : Daemon) : Prop := {
  di_handler :
    match handler d with
    | Serving s => Connected (server d) = true /\ mainPc s <> MReturned /\ inv_at (state (server d)) s
    | Greeting _ => Connected (server d) = true /\ state (server d) = StateDisconnected
    | Init _ => Connected (server d) = true /\ state (server d) = StateWriting
    | _ => Connected (server d) = false /\ state (server d) = StateDisconnected
    end;
  di_ended : Forall left_behind (ended d);
  di_never_sent : cbuf (dTermChan d) = [];
  di_term : runPc d = WaitSignal \/ runPc d = Shutdown \/ cclosed (dTermChan d) = true;
  di_listener : runPc d = WaitHandler \/ runPc d = RunReturned -> listenerClosed d = true;
}.

(** ** Sessions on another server *)

Lemma load_state d s : state (srv (load d s)) = state (server d).
Proof. unfold load, closed_target, closed_conn. by destruct (targetClosed d), (connClosed d). Qed.
Lemma load_connected d s : Connected (srv (load d s)) = Connected (server d).
Proof. unfold load, closed_target, closed_conn. by destruct (targetClosed d), (connClosed d). Qed.

Lemma session_inv_at s : session_inv s <-> inv_at (state (srv s)) s.
Proof.
  unfold inv_at. split; intros [I1 I2 I3 I4 I5 I6]; split; assumption.
Qed.

Lemma load_inv_at d s : session_inv (load d s) <-> inv_at (state (server d)) s.
Proof.
  rewrite session_inv_at, load_state. unfold inv_at.
  split; intros [I1 I2 I3 I4 I5 I6]; split; assumption.
Qed.

(** ** Preservation *)

Lemma closed_conn_same d v :
  Connected (closed_conn d v) = Connected v /\ state (closed_conn d v) = state v.
Proof. unfold closed_conn. by destruct (connClosed d). Qed.

Lemma left_behind_keeps s s' : worker_keeps s s' -> left_behind s -> left_behind s'.
Proof.
  intros W [H1 H2]. pose proof (wk_closed _ _ W QWrite) as E1. pose proof (wk_closed _ _ W QCorrect) as E2.
  cbn in E1, E2. split; congruence.
Qed.

(** The goroutines that an ended session leaves behind touch the target only. *)
Lemma target_only_write s s' : write_step s = Done s' -> same_session (srv s) (srv s').
Proof.
  assert (S0 : same_session (srv s) (srv s)) by done.
  unfold write_step. destruct (writePc s) as [|data off].
  - intros ([[p|] c] & Er & H)%abind_Done; [|done].
    destruct (negb _); [by injection H as <-|]. destruct (slice _ _ _); [|done]. by injection H as <-.
  - assert (P1 : same_session (srv s) (catch (on_target (WriteAt data off)) (srv s)).2)
      by (apply (preserves_catch _ _ (session_on_target _ _)); done).
    intros [(r & v & E & H)|(e & v & E & ->)]%on_srv_Done; rewrite E in P1; [|done].
    destruct r as [u|e]; [|by injection H as <-]. cbn in H.
    assert (P2 : same_session (srv s) (ignore (on_target Sync) v).2)
      by (apply (preserves_ignore _ _ (session_on_target _ _)); done).
    apply on_srv_Done in H as [(r & v' & E' & H)|(e & v' & E' & ->)]; cbn in E'; rewrite E' in P2; [|done].
    by injection H as <-.
Qed.

Lemma target_only_correct s s' : correct_step s = Done s' -> same_session (srv s) (srv s').
Proof.
  unfold correct_step. destruct (correctPc s) as [p|];
    [|by intros ([[p|] c] & Er & [= <-])%abind_Done]. intros H.
  assert (P : same_session (srv s) (handleCorrectPacket p (srv s)).2).
  { assert (Q : preserves (same_session (srv s)) (handleCorrectPacket p)); [|by apply Q].
    unfold handleCorrectPacket, WriteCorrectBlockToReplica.
    apply preserves_ignore, preserves_map_err, session_on_target. }
  by apply on_srv_Done in H as [(r & v & E & H)|(e & v & E & ->)]; cbn in E; rewrite E in P;
    [injection H as <-|].
Qed.

Section Preservation.
Context (xxhash : list byte -> Z) (numWorkers : nat).

(** They leave [Connected], the state and what the queues say alone. *)
Lemma ended_event_keeps e s s' :
  ended_event e = true -> step xxhash numWorkers e s = Done s' ->
  Connected (srv s') = Connected (srv s) /\ state (srv s') = state (srv s) /\ worker_keeps s s'.
Proof using.
  intros He H. destruct e as [| | | | |i|e|k e|]; try discriminate He; cbn [step] in H.
  - destruct (target_only_correct s s' H) as (_ & ? & _ & _ & ?). split_and!; [done..|by apply correct_step_keeps].
  - destruct (target_only_write s s' H) as (_ & ? & _ & _ & ?). split_and!; [done..|by apply write_step_keeps].
  - pose proof (stray_step_keeps _ _ _ _ _ H) as W. unfold stray_step in H.
    destruct (strays s !! k) as [[old j]|]; [|done].
    apply job_step_Done in H as (v & Hv & [->|(j' & ->)]);
      (split_and!; [by apply effect_connected|by apply effect_state|done]).
Qed.

Lemma session_step_inv e s d d' :
  handler d = Serving s -> e <> EShutdown -> daemon_inv d ->
  session_step xxhash numWorkers e s d = Done d' -> daemon_inv d'.
Proof using.
  intros Hh He [D1 D2 D0 D3 D4] H. rewrite Hh in D1. destruct D1 as (Hc & Hm & I).
  unfold session_step in H. apply abind_Done in H as (s1 & E & H).
  apply load_inv_at in I. pose proof (step_inv _ _ _ _ _ I E) as I1.
  destruct (step_cases _ _ e (load d s) s1 He Hm E) as [->|[Er Hc']].
  - cbn in H. injection H as <-. split; cbn; [done| |done..].
    apply Forall_app. split; [done|]. apply Forall_singleton.
    pose proof (si_closed _ I1 QWrite). pose proof (si_closed _ I1 QCorrect). by split.
  - rewrite load_connected in Hc'. rewrite session_inv_at in I1.
    assert (d' = set_handler (srv s1) (Serving s1) d) as ->
      by (destruct (mainPc s1); by injection H as <-).
    split; cbn; [|done..]. by split; [congruence|].
Qed.

Lemma ended_step_inv e i d d' :
  daemon_inv d -> ended_step xxhash numWorkers e i d = Done d' -> daemon_inv d'.
Proof using.
  intros [D1 D2 D0 D3 D4] H. unfold ended_step in H.
  destruct (ended d !! i) as [s|] eqn:Hi; [|done]. destruct (ended_event e) eqn:Ev; [|done]. apply abind_Done in H as (s1 & E & [= <-]).
  destruct (ended_event_keeps e (load d s) s1 Ev E) as (Hc & Hs & W).
  rewrite load_connected in Hc. rewrite load_state in Hs.
  split; cbn; [|apply Forall_insert; [done|]|done..].
  - rewrite Hc, Hs. destruct (handler d); try done.
  - apply (left_behind_keeps (load d s)); [done|]. rewrite Forall_lookup in D2. by apply (D2 i s).
Qed.

Lemma handler_step_inv d d' :
  daemon_inv d -> handler_step xxhash numWorkers d = Done d' -> daemon_inv d'.
Proof using.
  intros D H. unfold handler_step in H.
  destruct (handler d) as [| |ps fs|ps|ps|s|] eqn:Hh.
  - injection H as <-. destruct D as [D1 D2 D0 D3 D4]. rewrite Hh in D1.
    split; cbn; [|done..]. by destruct (ChanHasTerminated _).
  - destruct (listenerClosed d); [|destruct (accepts d) as [|[] l]; [done|..]];
      injection H as <-; destruct D as [D1 D2 D0 D3 D4]; rewrite Hh in D1; by split.
  - destruct (Connected _) eqn:Hc; injection H as <-; destruct D as [D1 D2 D0 D3 D4]; rewrite Hh in D1.
    + by destruct D1; congruence.
    + split; cbn; by destruct D1.
  - destruct (connClosed d); [done|]. injection H as <-. destruct D as [D1 D2 D0 D3 D4]. rewrite Hh in D1.
    by destruct D1; split.
  - destruct ps as [|p ps]; [done|]. destruct D as [D1 D2 D0 D3 D4]. rewrite Hh in D1. destruct D1 as [D1 D1'].
    destruct (closed_conn_same d (server d)) as [Hc Hs].
    pose proof (cn_HandleClient_init true p (closed_conn d (server d)) ltac:(cbn; congruence)) as K.
    pose proof (nh_HandleClient_init p (closed_conn d (server d))) as K'.
    destruct (HandleClient_init _ _) as [[[]|e|] v] eqn:E; cbn in K, K'; [| | |done]; injection H as <-;
      (split; cbn; [|done..]); [|done..].
    split; [done|]. split; [done|].
    apply (session_inv_at (HandleClient_start v ps)), start_inv. intros ?%K'. congruence.
  - by apply (session_step_inv EMain s d).
  - done.
Qed.

Lemma Close_inv k d : daemon_inv d -> runPc d = Closing -> daemon_inv (set_runPc WaitHandler (Close k d)).
Proof using.
  intros [D1 D2 D0 D3 D4] Hr. unfold Close. rewrite Hr in D3. destruct D3 as [?|[?|Ht]]; [done..|].
  destruct (handler d) as [| |ps fs|ps|ps|s|] eqn:Hh; (split; cbn; [|auto..]); try done.
  destruct D1 as (Hc & Hm & I). split; [done|]. split; [done|].
  destruct I. by split.
Qed.

Lemma run_step_inv k d d' : daemon_inv d -> run_step k d = Done d' -> daemon_inv d'.
Proof using.
  intros D H. unfold run_step in H. destruct (runPc d) eqn:Hr; [done|..|done].
  - injection H as <-. destruct D as [D1 D2 D0 D3 D4]. unfold InitiateShutdown, ChanHasTerminated, chan_recv.
    rewrite D0. destruct (cclosed _) eqn:Hc; split; cbn; auto; by intros [].
  - injection H as <-. by apply Close_inv.
  - destruct (handler d) eqn:Hh; try done. injection H as <-. destruct D as [D1 D2 D0 D3 D4].
    rewrite Hr in D3, D4. split; cbn; auto. destruct D3 as [?|[?|?]]; auto; done.
Qed.

Lemma dstep_inv e d d' : daemon_inv d -> dstep xxhash numWorkers e d = Done d' -> daemon_inv d'.
Proof using.
  intros D H. destruct e as [|e|w i| |k]; cbn [dstep] in H.
  - by eapply handler_step_inv.
  - destruct (handler d) eqn:Hh; try done. destruct (worker_event e) eqn:He; [|done].
    apply (session_step_inv e s d); try done. by intros ->.
  - by eapply ended_step_inv.
  - destruct (runPc d) eqn:Hr; try done. injection H as <-. destruct D as [D1 D2 D0 D3 D4].
    split; cbn; auto. by intros [].
  - by eapply run_step_inv.
Qed.

Lemma daemon_reachable_inv d0 d : daemon_inv d0 -> dreachable xxhash numWorkers d0 d -> daemon_inv d.
Proof using. intros D R. induction R; [done|by eapply dstep_inv]. Qed.
End Preservation.
