(* ===== verification/ConnectionsProps.v ===== *)
(** * Properties of the daemon: one client at a time, what ended sessions leave
    behind *)
From S2P Require Import Prelude GoInt GoMonad GoChan Utils BlockDev Blocks Networking Journal Server ServerReplay ServerProps ServerPaths Session SessionSafety SessionProps Connections ConnectionsSafety.
Open Scope Z_scope.

(** ** One client at a time *)

Lemma session_on_journalDev {A} s0 (m : M Dev A) : preserves (same_session s0) (on_journalDev m).
Proof. intros s Hs. unfold on_journalDev, zoom. by destruct (m (JournalDev s)). Qed.
#[export] Hint Resolve session_on_journalDev : preserves.

Lemma CheckJournal_session s0 : preserves (same_session s0) CheckJournal.
Proof.
  unfold CheckJournal, CopyJournalToReplica, WriteCorrectBlockToReplica, WriteBufferWriteToReplica, on_local.
  solve_connected.
Qed.

Lemma daemon_Run_inv conns v d :
  Connected v = false -> state v = StateDisconnected -> Run conns v = Some d -> daemon_inv d.
Proof.
  intros Hc Hs. unfold Run. pose proof (CheckJournal_session v v ltac:(done)) as P.
  destruct (CheckJournal v) as [[[]|e|] v'] eqn:E; [|done..]. intros [= <-].
  destruct P as (_ & P1 & _ & _ & P2). cbn in *.
  split; cbn; [split; congruence|done|done|by left|by intros [|]].
Qed.

(** C11: whatever the clients send, whichever calls fail and however the
    goroutines of the daemon interleave, a signal included: [Connected] says
    exactly whether a client is being served, so an accepted connection never
    finds another one open; the channels of the session being served are closed
    exactly where its main goroutine has closed them, none holds more than its
    capacity, and its journal worker is there when needed; and without a client
    the state is [Disconnected]. *)
Theorem daemon_invariant xxhash numWorkers port target journalDev v conns d0 d :
  NewServer port target journalDev None = Ret v ->
  Run conns v = Some d0 ->
  dreachable xxhash numWorkers d0 d ->
  match handler d with
  | Serving s =>
      Connected (server d) = true /\ mainPc s <> MReturned /\
      session_inv (upd_srv (fun _ => server d) s)
  | Greeting _ | Init _ => Connected (server d) = true
  | CheckTerm | Accept | Accepted _ _ | HandlerReturned =>
      Connected (server d) = false /\ state (server d) = StateDisconnected
  end.
Proof.
  intros Hv H0 R. unfold NewServer in Hv. destruct (OpenFile target) as [[]]; try done. injection Hv as <-.
  apply daemon_reachable_inv in R; [|by apply (daemon_Run_inv _ _ _) in H0].
  destruct R as [D1 _ _ _ _]. destruct (handler d); try done; [by destruct D1..|].
  destruct D1 as (D1 & D2 & D3). split; [done|]. split; [done|].
  destruct D3. by split.
Qed.

(** ** Writes of an ended session *)

(** C33: the goroutine that applies the buffer writes of a session outlives it:
    with a write in hand it puts it on the replica whatever the daemon does by
    then, in the middle of a later scan or after newer writes of a later
    session, and nothing else changes. *)
Theorem ended_session_writes xxhash numWorkers d i s data off :
  ended d !! i = Some s -> writePc s = WRetry data off -> targetClosed d = false ->
  healthy (TargetDevFd (server d)) -> 0 <= off ->
  off + Z.of_nat (length data) <= dev_size (TargetDevFd (server d)) ->
  exists d', dstep xxhash numWorkers (DEnded EWrite i) d = Done d' /\
    TargetDevFd (server d') = poke off data (TargetDevFd (server d)) /\
    handler d' = handler d /\ state (server d') = state (server d) /\
    Connected (server d') = Connected (server d).
Proof.
  intros Hi Hw Ht Hh Ho Hl. cbn [dstep]. unfold ended_step. rewrite Hi. cbn [ended_event step abind].
  unfold write_step. cbn [writePc load upd_srv set_TermChan]. rewrite Hw.
  assert (Et : TargetDevFd (srv (load d s)) = TargetDevFd (server d))
    by (unfold load, closed_target, closed_conn; rewrite Ht; by destruct (connClosed d)).
  pose proof (load_state d s) as Es. pose proof (load_connected d s) as Ec.
  unfold on_srv, catch, on_target, zoom. fold (load d s). rewrite Et.
  rewrite WriteAt_healthy by done. cbn [upd_srv srv].
  unfold ignore, bind, catch, zoom, Sync. cbn [TargetDevFd set_target].
  rewrite sys_unit_healthy by done. cbn [abind].
  eexists. split; [done|]. done.
Qed.

(** Two clients write the same byte one after the other; the write of the first
    lands last. *)
Definition demo_init : Packet :=
  {| PacketType := PacketTypeInfoInit;
     Payload := PInitInfo {| DeviceSize := 16; iWriteInfoSize := 4104; BufferByteSize := 4104 |} |}.
Definition demo_w (x : byte) : Packet :=
  {| PacketType := PacketTypePayloadBufferWrite;
     Payload := PWriteInfo {| Offset := 3; Size := 1; Data := [x] |} |}.
Definition demo_dev (n : nat) : Dev := {| content := replicate n Byte.x00; faults := [] |}.
Definition demo_daemon_server : Server :=
  {| TargetDevFd := demo_dev 16; JournalDev := demo_dev 5000; SJournal := None; ClientInfo := None;
     Connected := false; sent := []; sendFaults := []; state := StateDisconnected |}.
Definition demo_conns : list accepted :=
  [AcceptConn [inl demo_init; inl (demo_w Byte.x0a); inr IoEOF] [];
   AcceptConn [inl demo_init; inl (demo_w Byte.x0b)] []].
Definition demo_daemon : Daemon :=
  mkDaemon demo_daemon_server demo_conns CheckTerm [] WaitSignal (make_chan 0) false false false.
Definition demo_two_sessions : list devent :=
  replicate 7 DHandler ++ [DWorker EWrite] ++ replicate 11 DHandler ++ [DWorker EWrite; DWorker EWrite].
Definition byte3 (d : Daemon) : option byte := content (TargetDevFd (server d)) !! 3%nat.

Lemma demo_two_run :
  exists d, drun no_hash 2 demo_two_sessions demo_daemon = Done d /\
    byte3 d = Some Byte.x0b /\ (writePc <$> ended d !! 0%nat) = Some (WRetry [Byte.x0a] 3).
Proof. eexists. split; [vm_compute; reflexivity|]. by vm_compute. Qed.

Lemma daemon_invariant_witness :
  exists d s, dreachable no_hash 2 demo_daemon d /\ handler d = Serving s /\
    (Connected (server d) = true /\ mainPc s <> MReturned /\ session_inv (upd_srv (fun _ => server d) s)).
Proof.
  destruct (drun no_hash 2 demo_two_sessions demo_daemon) as [d| |] eqn:E;
    [|vm_compute in E; discriminate|vm_compute in E; discriminate].
  assert (R : dreachable no_hash 2 demo_daemon d) by (eapply drun_reachable; [apply dreach_refl|exact E]).
  assert (H : exists s, handler d = Serving s) by (vm_compute in E; injection E as <-; eexists; reflexivity).
  destruct H as [s Hs]. exists d, s. split; [exact R|]. split; [exact Hs|].
  pose proof (daemon_invariant no_hash 2 0 (demo_dev 16) (demo_dev 5000) demo_daemon_server demo_conns
                demo_daemon d eq_refl ltac:(vm_compute; reflexivity) R) as I.
  rewrite Hs in I. exact I.
Defined.

Lemma ended_session_writes_witness :
  exists d s d', dreachable no_hash 2 demo_daemon d /\
    handler d = Serving s /\ byte3 d = Some Byte.x0b /\
    dstep no_hash 2 (DEnded EWrite 0) d = Done d' /\ byte3 d' = Some Byte.x0a.
Proof.
  destruct (drun no_hash 2 demo_two_sessions demo_daemon) as [d| |] eqn:E;
    [|vm_compute in E; discriminate|vm_compute in E; discriminate].
  assert (R : dreachable no_hash 2 demo_daemon d) by (eapply drun_reachable; [apply dreach_refl|exact E]).
  assert (H : exists s e, handler d = Serving s /\ byte3 d = Some Byte.x0b /\ ended d !! 0%nat = Some e /\
      writePc e = WRetry [Byte.x0a] 3 /\ targetClosed d = false /\ faults (TargetDevFd (server d)) = [] /\
      length (content (TargetDevFd (server d))) = 16%nat)
    by (vm_compute in E; injection E as <-; do 2 eexists; repeat split; reflexivity).
  destruct H as (s & e & Hs & Hb & He & Hw & Ht & Hf & Hl).
  destruct (ended_session_writes no_hash 2 d 0 e [Byte.x0a] 3 He Hw Ht Hf ltac:(lia)
              ltac:(unfold dev_size; rewrite Hl; simpl; lia)) as (d' & E' & Et & _).
  exists d, s, d'. split; [exact R|]. split; [exact Hs|]. split; [exact Hb|]. split; [exact E'|].
  unfold byte3. rewrite Et. clear -Hl. unfold poke, set_content. cbn [content].
  destruct (content (TargetDevFd (server d))) as [|? [|? [|? [|? l]]]]; [discriminate Hl..|reflexivity].
Defined.
