(* ===== verification/DaemonSafe.v ===== *)
(** * Where the server panics, and that it panics nowhere else

    A session on a safe journal takes no step into a panic but one: a reader of an
    aborted hashing job can send its error on the closed [resultChan].  It keeps the
    journal safe and hands on no packet it was not sent; so does the daemon from one
    session to the next, with the goroutines of the ended sessions beside it, and it
    has one more panic: [HandleClient] greets a connection that [Close] has taken
    away. *)
From S2P Require Import Prelude GoInt GoMonad GoChan Utils BlockDev Blocks Networking.
From S2P Require Import Journal JournalCodec JournalSlots JournalSpec JournalSafe Server ServerReplay ServerJournal ServerSafe.
From S2P Require Import Session SessionSafety SessionProps Connections ConnectionsSafety ConnectionsProps.
Open Scope Z_scope.

(** ** Attempts that do not panic *)

Definition fine_or {A} (K : Prop) (P : A -> Prop) (r : attempt A) : Prop :=
  match r with Done a => P a | Blocked => True | Crash => K end.
Definition fine {A} : (A -> Prop) -> attempt A -> Prop := fine_or False.

Lemma fine_weaken {A} (K : Prop) (P : A -> Prop) r : fine P r -> fine_or K P r.
Proof. by destruct r. Qed.

Lemma fine_abind {A C} (Q : A -> Prop) (P : C -> Prop) m k :
  fine Q m -> (forall a, Q a -> m = Done a -> fine P (k a)) -> fine P (abind m k).
Proof. destruct m; cbn; auto. Qed.

Lemma recv_fine {A} (c : chan A) : fine (fun _ => True) (chan_recv c).
Proof. unfold chan_recv. destruct (cbuf c); [|done]. by destruct (cclosed c). Qed.

Lemma fine_on_srv {A} (I : Server -> Prop) (m : M Server A) s k :
  calm I m -> I (srv s) ->
  (forall a v, I v -> fine (fun s => I (srv s)) (k a (upd_srv (fun _ => v) s))) ->
  fine (fun s => I (srv s)) (on_srv m s k).
Proof.
  intros Hm Hs Hk. destruct (Hm _ Hs) as [H1 H2]. unfold on_srv.
  destruct (m (srv s)) as [[a|e|] v]; [by apply Hk|done|done].
Qed.

(** ** Packets a session holds *)

(** Decoded later, in a queue, or on the way into one. *)
Definition holds_packet (s : Session) (p : Packet) : Prop :=
  inl p ∈ decoder s \/ (exists q, p ∈ cbuf (get_queue q s)) \/ (exists q, mainPc s = MSend q p).

Definition no_new (s s' : Session) : Prop := forall p, holds_packet s' p -> holds_packet s p.

Lemma no_new_refl s : no_new s s.
Proof. by intros p. Qed.
Lemma no_new_trans s1 s2 s3 : no_new s1 s2 -> no_new s2 s3 -> no_new s1 s3.
Proof. intros H1 H2 p Hp. by apply H1, H2. Qed.

(** A session that differs in other fields only. *)
Definition same_packets (s s' : Session) : Prop :=
  decoder s' = decoder s /\ mainPc s' = mainPc s /\ forall q, get_queue q s' = get_queue q s.

Lemma same_no_new s s' : same_packets s s' -> no_new s s'.
Proof.
  intros (H1 & H2 & H3) p. unfold holds_packet. rewrite H1, H2.
  intros [?|[[q Hq]|?]]; auto. right; left. exists q. by rewrite <- H3.
Qed.

Lemma no_new_queue q c s :
  (forall p, p ∈ cbuf c -> holds_packet s p) -> no_new s (set_queue q c s).
Proof.
  intros Hc p [?|[[q' Hq]|?]]; [by left| |by right; right].
  rewrite get_set_queue in Hq. case_bool_decide; [by apply Hc|]. right; left. by exists q'.
Qed.

Lemma no_new_recv q o c s :
  chan_recv (get_queue q s) = Done (o, c) -> no_new s (set_queue q c s).
Proof.
  intros (_ & _ & Ho)%recv_Done. apply no_new_queue. intros p Hp. right; left. exists q.
  destruct o as [v|]; [rewrite Ho; by right|]. by destruct Ho as (_ & _ & ->).
Qed.

Lemma recv_holds q p c s : chan_recv (get_queue q s) = Done (Some p, c) -> holds_packet s p.
Proof. intros (_ & _ & Ho)%recv_Done. right; left. exists q. rewrite Ho. by left. Qed.

Section NoNew.
Context (s0 : Session).
Local Abbreviation K := (no_new s0).

Lemma kp_srv f s : K s -> K (upd_srv f s).
Proof using. by intros H. Qed.
Lemma kp_writePc w s : K s -> K (set_writePc w s).
Proof using. by intros H. Qed.
Lemma kp_hashPc h s : K s -> K (set_hashPc h s).
Proof using. by intros H. Qed.
Lemma kp_workers j r s : K s -> K (set_workers j r s).
Proof using. by intros H. Qed.
Lemma kp_correctPc x s : K s -> K (set_correctPc x s).
Proof using. by intros H. Qed.
Lemma kp_replicating l s : K s -> K (set_replicating l s).
Proof using. by intros H. Qed.
Lemma kp_strays l s : K s -> K (set_strays l s).
Proof using. by intros H. Qed.
Lemma kp_renew s : K s -> K (renew_hashTermChan s).
Proof using. by intros H. Qed.
Lemma kp_hashTermChan c s : K s -> K (set_hashTermChan c s).
Proof using. by intros H. Qed.
Lemma kp_close q c s : cbuf c = cbuf (get_queue q s) -> K s -> K (set_queue q c s).
Proof using.
  intros E H. eapply no_new_trans; [exact H|]. apply no_new_queue. intros p Hp. right; left. exists q. by rewrite <- E.
Qed.
Lemma kp_new q k s : K s -> K (set_queue q (make_chan k) s).
Proof using. intros H. eapply no_new_trans; [exact H|]. apply no_new_queue. cbn. by intros p ?%not_elem_of_nil. Qed.
Lemma kp_recv q o c s : chan_recv (get_queue q s) = Done (o, c) -> K s -> K (set_queue q c s).
Proof using. intros E H. eapply no_new_trans; [exact H|]. by eapply no_new_recv. Qed.
Lemma kp_mainPc m s : match m with MSend _ p => holds_packet s0 p | _ => True end -> K s -> K (set_mainPc m s).
Proof using.
  intros Hm H p [?|[?|[q Hq]]]; [apply H; by left|apply H; by right; left|].
  cbn in Hq. by subst m.
Qed.
Lemma kp_decoder d s : (forall p, inl p ∈ d -> holds_packet s0 p) -> K s -> K (set_decoder d s).
Proof using.
  intros Hd H p [?|[?|?]]; [by apply Hd|apply H; by right; left|apply H; by right; right].
Qed.
Lemma kp_on_srv {A} (m : M Server A) s k s' :
  on_srv m s k = Done s' -> (forall v, K (upd_srv (fun _ => v) s)) ->
  (forall a v, k a (upd_srv (fun _ => v) s) = Done s' -> K s') -> K s'.
Proof using.
  intros H Hs Hk. apply on_srv_Done in H as [(a & v & _ & H)|(e & v & _ & ->)]; [by eapply Hk|apply Hs].
Qed.
End NoNew.

Create HintDb packets.
#[export] Hint Resolve no_new_refl kp_srv kp_writePc kp_hashPc kp_workers kp_hashTermChan kp_new
  kp_correctPc kp_replicating kp_strays kp_renew : packets.
#[export] Hint Extern 1 (no_new _ (set_queue _ _ _)) => (apply kp_close; [reflexivity|]) : packets.
#[export] Hint Extern 1 (no_new _ (set_queue _ _ _)) =>
  match goal with H : chan_recv _ = Done (_, ?c) |- no_new _ (set_queue _ ?c _) => eapply kp_recv; [exact H|] end : packets.
#[export] Hint Extern 1 (no_new _ (set_mainPc _ _)) => (apply kp_mainPc; [solve [trivial]|]) : packets.

Ltac no_new_step :=
  repeat match goal with
  | H : Done _ = Done _ |- _ => injection H as <-
  | H : Done _ = Blocked |- _ => discriminate H
  | H : Blocked = Done _ |- _ => discriminate H
  | H : Crash = Done _ |- _ => discriminate H
  | H : close_queue _ _ = Done _ |- _ => apply close_queue_Done in H; subst
  | H : close_hashTermChan _ = Done _ |- _ => apply close_hashTermChan_Done in H; subst
  | H : abind (chan_recv _) _ = Done _ |- _ =>
      apply abind_Done in H as ([[?|] ?] & ? & H); cbn beta iota in H
  | H : abind _ _ = Done _ |- _ => apply abind_Done in H as (? & ? & H); cbn beta in H
  | H : on_srv _ _ _ = Done _ |- _ =>
      eapply kp_on_srv; [exact H| |]; clear H; [intros ?|intros ? ? H; cbn beta in H]
  | H : (if ?b then _ else _) = Done _ |- _ => destruct b eqn:?
  | H : match ?x with _ => _ end = Done _ |- _ => destruct x eqn:?
  end.

Section Steps.
Context (xxhash : list byte -> Z) (numWorkers : nat).

Lemma worker_no_new e s s' : e <> EMain -> step xxhash numWorkers e s = Done s' -> no_new s s'.
Proof using.
  intros He H. destruct e as [| | | | |i|e|k e|]; [done|..]; cbn [step] in H.
  - unfold journal_step in H. no_new_step; eauto 6 with packets.
  - unfold correct_step in H. no_new_step; eauto 6 with packets.
  - unfold write_step in H. no_new_step; eauto 8 with packets.
  - unfold replication_step in H. no_new_step; eauto 6 with packets.
  - unfold replication_write_step in H. no_new_step; eauto 6 with packets.
  - unfold hash_step in H. destruct (hashPc s) as [| |j]; [done|no_new_step; eauto 6 with packets|].
    assert (J : job_step xxhash (ChanHasTerminated (hashTermChan s)) e j s (fun j => set_hashPc (HRunning j)) = Done s' ->
      no_new s s') by (intros (v & _ & [->|(j' & ->)])%job_step_Done; auto with packets).
    destruct e; try exact (J H). no_new_step; eauto 6 with packets.
  - unfold stray_step in H. destruct (strays s !! k) as [[old j]|]; [|done].
    apply job_step_Done in H as (v & _ & [->|(j' & ->)]); auto with packets.
  - injection H as <-. unfold shutdown. destruct (ChanHasTerminated _); by apply same_no_new.
Qed.

Lemma main_no_new s s' : main_step numWorkers s = Done s' -> no_new s s'.
Proof using.
  intros H. unfold main_step in H. destruct (mainPc s) as [|q p| | | | | | | | | | ] eqn:Hm.
  2:{ unfold send_queue in H. no_new_step.
      unfold chan_send in H0. no_new_step. apply kp_mainPc; [done|]. apply no_new_queue. cbn.
      intros p' [Hp|Hp%list_elem_of_singleton]%elem_of_app; [right; left; by exists q|].
      subst p'. right; right. by exists q. }
  1:{ assert (D : forall x d, decoder s = x :: d -> no_new s (set_decoder d s)).
      { intros x d E. apply kp_decoder; [|apply no_new_refl]. intros p Hp. left. rewrite E. by right. }
      unfold main_return, dispatch in H.
      destruct (ChanHasTerminated _); [no_new_step; eauto 9 with packets|].
      destruct (decoder s) as [|[p|e] d] eqn:E; [done|..]; specialize (D _ _ eq_refl).
      - assert (C : holds_packet s p) by (left; rewrite E; by left).
        no_new_step; try (apply kp_mainPc; [exact C|exact D]); eauto 9 with packets.
      - no_new_step; eauto 9 with packets. }
  all: no_new_step; eauto 9 with packets.
Qed.
End Steps.

(** ** The hashing goroutines *)

(** A reader that has read nothing sends its error on [resultChan], which the last
    hashing worker has closed. *)
Definition closed_result (term : bool) (i : nat) (j : hash_job) (v : Server) : Prop :=
  term = true /\ j_hashers j = 0%nat /\
  exists offset x, j_reading j !! i = Some offset /\ (hash_read HashedSpaceBase offset v).1 = Ret (ReadFailed x).

(** The step [e] of the session is such a send, of the running [HashDisk] or of
    goroutines an earlier one has left behind. *)
Definition resultChan_closed (e : event) (s : Session) : Prop :=
  match e with
  | EHash (HRead i) =>
      match hashPc s with
      | HRunning j => closed_result (ChanHasTerminated (hashTermChan s)) i j (srv s)
      | _ => False
      end
  | EStray k (HRead i) =>
      match strays s !! k with
      | Some (old, j) => closed_result (old || ChanHasTerminated (hashTermChan s)) i j (srv s)
      | None => False
      end
  | _ => False
  end.

Section HashFine.
Context (numWorkers : nat).

(** Until they are told to stop the hashing workers are all there, and no more
    blocks are being read than there are readers. *)
Definition job_fine (term : bool) (j : hash_job) : Prop :=
  term = true \/ (j_hashers j = numWorkers /\ (length (j_reading j) + j_readers j <= numWorkers)%nat).

Definition hash_fine (s : Session) : Prop :=
  match hashPc s with HRunning j => job_fine (ChanHasTerminated (hashTermChan s)) j | _ => True end /\
  Forall (fun x => job_fine (x.1 || ChanHasTerminated (hashTermChan s)) x.2) (strays s).

Definition hash_same (s s' : Session) : Prop :=
  hashPc s' = hashPc s /\ strays s' = strays s /\ hashTermChan s' = hashTermChan s.

Lemma hash_same_fine s s' : hash_same s s' -> hash_fine s -> hash_fine s'.
Proof using. intros (H1 & H2 & H3). unfold hash_fine. by rewrite H1, H2, H3. Qed.

Lemma hash_fine_told s c : cclosed c = true -> hash_fine (set_hashTermChan c s).
Proof using.
  intros Hc. assert (E : ChanHasTerminated c = true) by (apply terminated_iff; by left).
  split; cbn; rewrite E; [by destruct (hashPc s); [..|left]|]. apply Forall_forall. intros x _. left. by rewrite orb_true_r.
Qed.

Lemma hash_fine_renew s : hash_fine (set_hashPc HStarted (renew_hashTermChan s)).
Proof using. split; [done|]. cbn. apply Forall_forall. intros x (y & -> & _)%list_elem_of_fmap. by left. Qed.

Lemma job_step_keeps_fine xxhash term e j s k s' :
  job_fine term j -> job_step xxhash term e j s k = Done s' ->
  exists v, s' = upd_srv (fun _ => v) s \/ exists j', job_fine term j' /\ s' = k j' (upd_srv (fun _ => v) s).
Proof using.
  intros [->|(H1 & H2)] H.
  - apply job_step_Done in H as (v & _ & [->|(j' & ->)]); exists v; [by left|right; exists j'; by split; [left|]].
  - destruct j as [ts r rd w h rs sd]. cbn in H1, H2. unfold job_step in H.
    assert (K : forall v j', Done (k j' (upd_srv (fun _ => v) s)) = Done s' ->
      j_hashers j' = numWorkers -> (length (j_reading j') + j_readers j' <= numWorkers)%nat ->
      exists v, s' = upd_srv (fun _ => v) s \/ exists j', job_fine term j' /\ s' = k j' (upd_srv (fun _ => v) s)).
    { intros v j' [= <-] Hh Hl. exists v. right. exists j'. by split; [right|]. }
    assert (K0 : forall j', Done (k j' s) = Done s' ->
      j_hashers j' = numWorkers -> (length (j_reading j') + j_readers j' <= numWorkers)%nat ->
      exists v, s' = upd_srv (fun _ => v) s \/ exists j', job_fine term j' /\ s' = k j' (upd_srv (fun _ => v) s)).
    { intros j' E. apply (K (srv s)). by rewrite upd_srv_same. }
    destruct term; [destruct (job_step_Done xxhash true e (mkJob ts r rd w h rs sd) s k s' H) as (v & _ & [->|(j' & ->)]);
      exists v; [by left|right; exists j'; by split; [left|]]|].
    destruct e as [| | |i|i|i|]; try done.
    + destruct r, ts; [done..|]. apply (K0 _ H); [done|]. cbn. rewrite length_app. cbn. lia.
    + destruct (rd !! i) as [o|] eqn:Eo; [|done].
      assert (Hl : (S (length (delete i rd)) = length rd)%nat).
      { rewrite length_delete by (by rewrite Eo). apply lookup_lt_Some in Eo. lia. }
      apply on_srv_Done in H as [(x & v & E & H)|(x & v & E & ->)]; [|exists v; by left].
      destruct x; [|destruct (_ =? _)%nat; [done|]|]; (apply (K v _ H); [done|]; cbn; lia).
    + destruct h, (w !! i); [done..| |done]. by apply (K0 _ H).
    + destruct sd as [|sd]; [done|]. destruct (rs !! i) as [x|]; [|done].
      apply on_srv_Done in H as [(y & v & E & H)|(y & v & E & ->)]; [by apply (K v _ H)|exists v; by left].
Qed.

(** The only panics of these steps. *)
Lemma job_step_crash xxhash term e j s k :
  job_step xxhash term e j s k = Crash ->
  (exists i, e = HRead i /\ exists o, j_reading j !! i = Some o /\
     ((hash_read HashedSpaceBase o (srv s)).1 = Panic \/
      (j_hashers j = 0%nat /\ exists x, (hash_read HashedSpaceBase o (srv s)).1 = Ret (ReadFailed x)))) \/
  exists x, (hash_send x (srv s)).1 = Panic.
Proof using.
  destruct j as [ts r rd w h rs sd]. unfold job_step. destruct e as [| | |i|i|i|]; try done.
  - by destruct term.
  - by destruct r, ts.
  - cbn [j_reading j_hashers]. destruct (rd !! i) as [o|] eqn:Eo; [|done]. unfold on_srv.
    intros H. left. exists i. split; [done|]. exists o. split; [done|].
    destruct (hash_read HashedSpaceBase o (srv s)) as [[y|e|] v]; [right|done|by left].
    destruct y as [|x|]; [done| |done]. destruct (Nat.eqb_spec h 0); [|done]. split; [done|by exists x].
  - destruct h, (w !! i); done.
  - destruct sd; [done|]. destruct (rs !! i) as [x|]; [|done]. destruct term; [done|]. unfold on_srv.
    intros H. right. exists x. by destruct (hash_send x (srv s)) as [[] ?].
Qed.

Lemma stray_hash_fine xxhash k e s s' : hash_fine s -> stray_step xxhash k e s = Done s' -> hash_fine s'.
Proof using.
  intros Hs H. destruct Hs as [Hj Hs]. unfold stray_step in H. destruct (strays s !! k) as [[old j]|] eqn:Ek; [|done].
  pose proof (Forall_lookup_1 _ _ _ _ Hs Ek) as Hk.
  apply job_step_keeps_fine in H as (v & [->|(j' & H' & ->)]); [by split| |done].
  split; [done|]. by apply Forall_insert.
Qed.

Lemma step_hash_fine xxhash e s s' :
  hash_fine s -> step xxhash numWorkers e s = Done s' -> hash_fine s'.
Proof using.
  intros Hs H. destruct e as [| | | | |i|e|k e|]; cbn [step] in H.
  - unfold main_step, main_return, dispatch, send_queue in H.
    no_new_step;
      try (apply on_srv_Done in H as [(a & v & _ & [= <-])|(x & v & _ & ->)]; exact Hs);
      solve [exact Hs|apply (hash_fine_told _ (mkChan _ _ true)); reflexivity|apply hash_fine_renew].
  - apply (hash_same_fine s); [|done]. unfold journal_step in H. frames (hash_same s).
  - apply (hash_same_fine s); [|done]. unfold correct_step in H. frames (hash_same s).
  - apply (hash_same_fine s); [|done]. unfold write_step in H. frames (hash_same s).
  - apply (hash_same_fine s); [|done]. unfold replication_step in H. frames (hash_same s).
  - apply (hash_same_fine s); [|done]. unfold replication_write_step in H. frames (hash_same s).
  - unfold hash_step in H. destruct (hashPc s) as [| |j] eqn:Ej; [done|..].
    + destruct Hs as [_ Hs]. destruct e; try done.
      apply on_srv_Done in H as [(go & v & E & H)|(x & v & E & ->)]; [|split; [cbn; by rewrite Ej|done]].
      destruct go; [|by injection H as <-]. destruct (ClientInfo _); [|done]. injection H as <-. split; [|done]. right. split; [done|].
      cbn. lia.
    + destruct Hs as [Hj Hs]. rewrite Ej in Hj.
      assert (J : job_step xxhash (ChanHasTerminated (hashTermChan s)) e j s (fun j => set_hashPc (HRunning j)) = Done s' ->
        hash_fine s').
      { intros (v & [->|(j' & H' & ->)])%job_step_keeps_fine; [|by split|done]. split; [|done]. cbn. by rewrite Ej. }
      destruct e; try exact (J H). destruct (_ || _); [|done].
      apply on_srv_Done in H as [(x & v & E & [= <-])|(x & v & E & ->)]; [split; [done|]|split; [cbn; by rewrite Ej|done]].
      apply Forall_app_2; [done|]. unfold leftover. destruct (reads_done j); [by constructor|]. by apply Forall_singleton.
  - by eapply stray_hash_fine.
  - injection H as <-. unfold shutdown. by destruct (ChanHasTerminated (TermChan s)).
Qed.

(** An ended session has no running [HashDisk] any more, but maybe goroutines. *)
Lemma ended_hash_fine xxhash e s s' :
  ended_event e = true -> hash_fine s -> step xxhash numWorkers e s = Done s' -> hash_fine s'.
Proof using.
  intros He Hs H. destruct e as [| | | | |i|e|k e|]; try done; cbn [step] in H.
  - apply (hash_same_fine s); [|done]. unfold correct_step in H. frames (hash_same s).
  - apply (hash_same_fine s); [|done]. unfold write_step in H. frames (hash_same s).
  - by eapply stray_hash_fine.
Qed.
End HashFine.

(** Computations that report no error. *)
Definition returns {S A} (m : M S A) : Prop := forall s, (m s).1 = Panic \/ exists a s', m s = (Ret a, s').

Lemma returns_ret {S A} (a : A) : returns (S := S) (ret a).
Proof. intros s. right. by exists a, s. Qed.
Lemma returns_bind {S A C} (m : M S A) (f : A -> M S C) : returns m -> (forall a, returns (f a)) -> returns (bind m f).
Proof.
  intros Hm Hf s. unfold bind. destruct (Hm s) as [H|(a & s' & ->)]; [|apply Hf].
  left. destruct (m s) as [r s']. cbn in H. by subst r.
Qed.
Lemma returns_catch {S A} (m : M S A) : returns (catch m).
Proof. intros s. unfold catch. destruct (m s) as [[a|e|] s']; [right; eauto..|by left]. Qed.
Lemma returns_ignore {S A} (m : M S A) : returns (ignore m).
Proof. apply returns_bind; [apply returns_catch|intros; apply returns_ret]. Qed.
Lemma returns_gets {A} (f : JState -> A) : returns (on_journal (gets f)).
Proof. intros v. unfold on_journal. destruct (SJournal v) as [j|]; [right; eauto|by left]. Qed.

Lemma HashDisk_start_returns v : (HashDisk_start v).1 <> Panic -> exists go v', HashDisk_start v = (Ret go, v').
Proof.
  assert (R : returns HashDisk_start); [|by destruct (R v)].
  unfold HashDisk_start. apply returns_bind; [intros s; right; by do 2 eexists|]. intros st.
  apply returns_bind.
  - destruct (negb _); [|apply returns_ret].
    apply returns_bind; [apply returns_gets|]. intros w. apply returns_bind; [apply returns_gets|]. intros c. apply returns_ignore.
  - intros _. apply returns_bind; [apply returns_catch|]. intros []; apply returns_ret.
Qed.

(** ** Steps of a session *)

Section SessionSteps.
Context (B n : Z) (xxhash : list byte -> Z) (numWorkers : nat).
Local Abbreviation ok := (fun s : Session => armed B n (srv s)).

(** The packets a session holds are sane. *)
Definition sane_session (s : Session) : Prop := forall p, holds_packet s p -> sane B p.

Lemma zero_slice : slice (Data zeroBlock) 0 (Size zeroBlock) = Some [].
Proof using. done. Qed.

(** The write and the correct-block worker, which outlive the session: they
    only need the target. *)
Lemma write_step_fine I s :
  off_target I -> I (srv s) -> sane_session s -> fine (fun s => I (srv s)) (write_step s).
Proof using.
  intros HI Hs Hp. unfold write_step. destruct (writePc s) as [|data off].
  - eapply fine_abind; [apply recv_fine|]. intros [[p|] c] _ E; [|done].
    destruct (negb _); [done|]. specialize (Hp p (recv_holds QWrite _ _ _ E)). unfold sane in Hp.
    destruct (Payload p) as [|w| | | | ]; try done. destruct Hp as [(_ & Hs1 & Hs2) _].
    rewrite slice_Some by (unfold is_u32 in Hs1; lia). done.
  - apply fine_on_srv; [apply calm_catch; by apply calm_target_write|done|]. intros [u|e] v Hv; [|done].
    apply fine_on_srv; [apply calm_ignore; by apply calm_target_sync|done|]. done.
Qed.

Lemma correct_step_fine I s : off_target I -> I (srv s) -> fine (fun s => I (srv s)) (correct_step s).
Proof using.
  intros HI Hs. unfold correct_step. destruct (correctPc s) as [p|].
  - apply fine_on_srv; [by apply calm_handleCorrectPacket|done|done].
  - eapply fine_abind; [apply recv_fine|]. by intros [[p|] c] _ E.
Qed.

Lemma journal_step_fine s : ok s -> sane_session s -> fine ok (journal_step s).
Proof using.
  intros Hs Hp. unfold journal_step. destruct (journalWorker s); [|done].
  eapply fine_abind; [apply recv_fine|]. intros [[p|] c] _ E; [|done].
  apply fine_on_srv; [|done|done]. apply calm_handleJournalPacket, Hp. by eapply (recv_holds QJournal).
Qed.

Lemma replication_step_fine s : ok s -> fine ok (replication_step s).
Proof using.
  intros Hs. unfold replication_step. destruct (replicationWorkers s); [done|]. destruct (_ <? _)%nat; [done|].
  eapply fine_abind; [apply recv_fine|]. intros [[p|] c] _ E; [done|].
  destruct (_ =? _)%nat; [|done].
  apply fine_on_srv; [apply calm_ignore, calm_target_sync, armed_off_target|done|done].
Qed.

Lemma replication_write_fine i s : ok s -> fine ok (replication_write_step i s).
Proof using.
  intros Hs. unfold replication_write_step. destruct (replicating s !! i); [|done].
  apply fine_on_srv; [apply calm_handleReplicationPacket|done|done].
Qed.

(** The steps of the hashing goroutines need the target and the connection only. *)
Lemma job_step_fine I term e j s k :
  off_target I -> (forall p, calm I (Encode p)) -> (forall j s, srv (k j s) = srv s) ->
  I (srv s) -> job_fine numWorkers term j ->
  fine_or (match e with HRead i => closed_result term i j (srv s) | _ => False end) (fun s => I (srv s)) (job_step xxhash term e j s k).
Proof using.
  intros HI HE Hk Hs Hj. destruct (job_step xxhash term e j s k) as [s'| |] eqn:E; [cbn|done|cbn].
  - assert (R : forall v, job_effect (srv s) v -> I v).
    { intros v Hv. apply (preserves_effect I (srv s) v); [..|done|done].
      - intros o u Hu. by apply (calm_hash_read I HashedSpaceBase o HI u Hu).
      - intros x u Hu. by apply (calm_hash_send I x HE u Hu). }
    apply job_step_Done in E as (v & Hv & [->|(j' & ->)]); [|rewrite Hk]; by apply R.
  - apply job_step_crash in E as [(i & -> & o & Ho & H)|(x & H)].
    + destruct H as [H|(Hh & x & Hx)].
      * exfalso. by apply (calm_hash_read I HashedSpaceBase o HI _ Hs).
      * destruct Hj as [->|(H1 & H2)]; [split_and!; [done..|by exists o, x]|].
        apply list_elem_of_lookup_2 in Ho. destruct (j_reading j); [by apply not_elem_of_nil in Ho|]. cbn in H2. lia.
    + exfalso. by apply (calm_hash_send I x HE _ Hs).
Qed.

Lemma hash_step_fine e s :
  ok s -> hash_fine numWorkers s -> fine_or (resultChan_closed (EHash e) s) ok (hash_step xxhash numWorkers e s).
Proof using.
  intros Hs [Hh _]. unfold hash_step, resultChan_closed. destruct (hashPc s) as [| |j]; [done|..].
  - destruct e; try done. apply fine_weaken, fine_on_srv; [apply calm_HashDisk_start|done|]. intros [] v Hv; [|done].
    destruct (ClientInfo _) eqn:E; [done|]. by destruct Hv.
  - assert (J : fine_or (match e with
      HRead i => closed_result (ChanHasTerminated (hashTermChan s)) i j (srv s) | _ => False end) ok
      (job_step xxhash (ChanHasTerminated (hashTermChan s)) e j s (fun j => set_hashPc (HRunning j))))
      by (apply job_step_fine; [apply armed_off_target|apply armed_Encode|done..]).
    destruct e as [| | |i|i|i|]; try exact J.
    destruct (_ || _); [|done]. apply fine_weaken, fine_on_srv; [apply calm_HashDisk_end|done|done].
Qed.

Lemma stray_step_fine I k e s :
  off_target I -> (forall p, calm I (Encode p)) -> I (srv s) -> hash_fine numWorkers s ->
  fine_or (resultChan_closed (EStray k e) s) (fun s => I (srv s)) (stray_step xxhash k e s).
Proof using.
  intros HI HE Hs [_ Hh]. unfold stray_step, resultChan_closed.
  destruct (strays s !! k) as [[old j]|] eqn:Ek; [|done].
  apply (Forall_lookup_1 _ _ _ _ Hh) in Ek. by apply (job_step_fine I).
Qed.

Lemma main_step_armed s s' : ok s -> main_step numWorkers s = Done s' -> ok s'.
Proof using.
  intros Hs H. unfold main_step, main_return, dispatch, send_queue in H. destruct (mainPc s).
  5:{ destruct (journalWorker s); [done|]. pose proof (calm_HandleJournalWriting B n _ Hs) as [H1 _].
      apply on_srv_Done in H as [(a & v & E & [= <-])|(e & v & E & ->)]; cbn in E; rewrite E in H1; exact H1. }
  all: no_new_step; exact Hs.
Qed.

Lemma step_fine e s :
  session_inv s -> ok s -> sane_session s -> hash_fine numWorkers s ->
  fine_or (resultChan_closed e s) ok (step xxhash numWorkers e s).
Proof using.
  intros I Hs Hp Hh. destruct e as [| | | | |i|e|k e|]; cbn [step].
  - destruct (main_step numWorkers s) as [s'| |] eqn:E; [by apply (main_step_armed s)|done|].
    apply main_step_crash in E as [_ E]; [|done].
    pose proof (calm_HandleJournalWriting B n _ Hs) as [_ H2]. unfold bind in H2.
    by destruct (HandleJournalWriting (srv s)) as [[] ?].
  - by apply fine_weaken, journal_step_fine.
  - apply fine_weaken, correct_step_fine; [apply armed_off_target|done].
  - apply fine_weaken, write_step_fine; [apply armed_off_target|done|done].
  - by apply fine_weaken, replication_step_fine.
  - by apply fine_weaken, replication_write_fine.
  - by apply hash_step_fine.
  - apply stray_step_fine; [apply armed_off_target|apply armed_Encode|done..].
  - unfold shutdown. by destruct (ChanHasTerminated _).
Qed.
End SessionSteps.

(** ** Steps of the daemon *)

Section DaemonSteps.
Context (B n : Z) (HB : is_u64 B) (Hn : GetHeaderByteSize <= n < 2 ^ 63).
Context (xxhash : list byte -> Z) (numWorkers : nat).

Definition sane_stream (ps : list (Packet + error)) : Prop := forall p, inl p ∈ ps -> sane B p.
Definition sane_conn (a : accepted) : Prop :=
  match a with AcceptConn ps _ => sane_stream ps | AcceptErr _ => True end.

(** What the server satisfies: a safe journal while a client is served. *)
Definition served (h : handler_pc) : Server -> Prop :=
  match h with Serving _ => armed B n | _ => parked B n end.

Record guarded (d : Daemon) : Prop := {
  gd_server : served (handler d) (server d);
  gd_accepts : Forall sane_conn (accepts d);
  gd_handler : match handler d with
               | Accepted ps _ | Greeting ps | Init ps => sane_stream ps
               | Serving s => sane_session B s /\ hash_fine numWorkers s
               | _ => True
               end;
  gd_ended : Forall (fun s => sane_session B s /\ hash_fine numWorkers s) (ended d);
}.

(** The two panics of the server.  [HandleClient] asks the connection for its
    address after a signal's [Close] has set it to nil; and a reader of a hashing
    job that has been told to stop sends an error on the closed [resultChan]. *)
Definition known_panic (d : Daemon) (e : devent) : Prop :=
  match e with
  | DHandler => match handler d with Greeting _ => connClosed d = true | _ => False end
  | DWorker e => match handler d with Serving s => resultChan_closed e (load d s) | _ => False end
  | DEnded e i =>
      match ended d !! i with Some s => ended_event e = true /\ resultChan_closed e (load d s) | None => False end
  | _ => False
  end.

Lemma served_off_target h : off_target (served h).
Proof using. destruct h; (apply armed_off_target || apply parked_off_target). Qed.

Lemma served_Encode h p : calm (served h) (Encode p).
Proof using. destruct h; (apply armed_Encode || apply calm_parked_Encode). Qed.

Lemma hash_fine_load d s : hash_fine numWorkers s -> hash_fine numWorkers (load d s).
Proof using. by intros H. Qed.

Lemma served_load h d s : served h (server d) -> served h (srv (load d s)).
Proof using.
  intros H. unfold load, closed_target, closed_conn. cbn.
  assert (Hc : served h (if connClosed d
    then set_sent (sent (server d)) (replicate closedCalls (Some ErrNetClosed)) (server d) else server d)).
  { destruct (connClosed d); [|done]. destruct h; destruct H; by split. }
  destruct (targetClosed d); [by apply served_off_target|done].
Qed.

Lemma sane_load d s : sane_session B s -> sane_session B (load d s).
Proof using. by intros H. Qed.
Lemma sane_no_new s s' : no_new s s' -> sane_session B s -> sane_session B s'.
Proof using. intros H Hs p Hp. by apply Hs, H. Qed.
Lemma sane_cut k ps : sane_stream ps -> sane_stream (cut k ps).
Proof using.
  intros H p [Hp|Hp%list_elem_of_singleton]%elem_of_app; [|done].
  apply H. by eapply elem_of_take in Hp as (i & Hi & _); apply list_elem_of_lookup_2 in Hi.
Qed.
Lemma parked_gone v : parked B n v -> parked B n (client_gone v).
Proof using. by intros []. Qed.

Lemma step_no_new e s s' : step xxhash numWorkers e s = Done s' -> no_new s s'.
Proof using.
  destruct (decide (e = EMain)) as [->|He]; [apply main_no_new|by apply worker_no_new].
Qed.

Lemma session_step_guarded e s d :
  handler d = Serving s -> daemon_inv d -> guarded d ->
  fine_or (resultChan_closed e (load d s)) guarded (session_step xxhash numWorkers e s d).
Proof using.
  intros Hh D [G1 G2 G3 G4].
  assert (I : session_inv (load d s)).
  { apply load_inv_at. pose proof (di_handler _ D) as H. rewrite Hh in H. apply H. }
  rewrite Hh in G1, G3. destruct G3 as [G3 G5]. unfold session_step.
  pose proof (step_fine B n xxhash numWorkers e (load d s) I (served_load (Serving s) d s G1) (sane_load d s G3) G5) as F.
  destruct (step xxhash numWorkers e (load d s)) as [s1| |] eqn:E; [|done|exact F]. cbn in F.
  pose proof (sane_no_new _ _ (step_no_new _ _ _ E) (sane_load d s G3)) as S1.
  pose proof (step_hash_fine _ _ _ _ _ (hash_fine_load d s G5) E) as S2. cbn [abind fine_or].
  destruct (mainPc s1); (split; cbn; [|done|done|]); try done.
  - by apply armed_parked.
  - by apply Forall_app_2; [|apply Forall_singleton].
Qed.

Lemma ended_step_guarded e i d :
  daemon_inv d -> guarded d -> fine_or (known_panic d (DEnded e i)) guarded (ended_step xxhash numWorkers e i d).
Proof using.
  intros D [G1 G2 G3 G4]. unfold ended_step, known_panic. destruct (ended d !! i) as [s|] eqn:Hi; [|done].
  destruct (Forall_lookup_1 _ _ _ _ G4 Hi) as [Hs Hf].
  destruct (ended_event e) eqn:He; [|done].
  pose proof (served_load _ d s G1) as L. pose proof (served_off_target (handler d)) as O.
  assert (F : fine_or (resultChan_closed e (load d s)) (fun s => served (handler d) (srv s))
    (step xxhash numWorkers e (load d s))).
  { destruct e as [| | | | |j|h|k h|]; try done; cbn [step].
    - by apply fine_weaken, correct_step_fine.
    - by apply fine_weaken, (write_step_fine B).
    - apply (stray_step_fine xxhash numWorkers (served (handler d))); [done|apply served_Encode|done..]. }
  destruct (step xxhash numWorkers e (load d s)) as [s1| |] eqn:E; [|done|by split]. cbn in F.
  cbn [abind fine_or]. split; cbn; [done|done|done|]. apply Forall_insert; [done|]. split.
  - apply (sane_no_new (load d s)); [|by apply sane_load]. by apply (step_no_new e).
  - eapply ended_hash_fine; [exact He|by apply hash_fine_load|exact E].
Qed.

Lemma handler_step_guarded d :
  daemon_inv d -> guarded d -> fine_or (known_panic d DHandler) guarded (handler_step xxhash numWorkers d).
Proof using HB Hn.
  intros D G. pose proof G as [G1 G2 G3 G4]. unfold handler_step, known_panic.
  destruct (handler d) as [| |ps fs|ps|ps|s|] eqn:Hh; cbn [served] in G1.
  - split; cbn; [by destruct (ChanHasTerminated _)|done|by destruct (ChanHasTerminated _)|done].
  - destruct (listenerClosed d); [by split|]. destruct (accepts d) as [|[ps fs|e] l] eqn:Ha; [done|..];
      apply Forall_cons in G2 as [Gc Gl]; by split.
  - destruct (Connected _); [by split|]. split; cbn; try done. by destruct G1.
  - destruct (connClosed d); [done|]. split; cbn; try done. by destruct G1.
  - destruct ps as [|x ps]; [done|].
    assert (P : parked B n (closed_conn d (server d))).
    { unfold closed_conn. destruct (connClosed d); [|done]. by destruct G1. }
    pose proof (HandleClient_init_safe B n HB Hn x _ P ltac:(intros p ->; apply G3; by left)) as F.
    assert (Hps : sane_stream ps) by (intros p Hp; apply G3; by right).
    destruct (HandleClient_init _ _) as [[[]|e|] v]; cbn in F.
    + split; cbn; try done. split; [|by split].
      intros p [?|[[[] ?%not_elem_of_nil]|[q ?]]]; try done. by apply Hps.
    + split; cbn; try done. by apply parked_gone.
    + split; cbn; try done. by apply parked_gone.
    + done.
  - by apply (session_step_guarded EMain s d).
  - done.
Qed.

Lemma dstep_guarded e d :
  daemon_inv d -> guarded d -> fine_or (known_panic d e) guarded (dstep xxhash numWorkers e d).
Proof using HB Hn.
  intros D G. pose proof G as [G1 G2 G3 G4]. destruct e as [|e|w i| |k]; cbn [dstep].
  - by apply handler_step_guarded.
  - unfold known_panic. destruct (handler d) eqn:Hh; try done. destruct (worker_event e); [|done]. by apply session_step_guarded.
  - by apply ended_step_guarded.
  - destruct (runPc d); done.
  - unfold run_step. destruct (runPc d); try done.
    + unfold InitiateShutdown. destruct (ChanHasTerminated _); by split.
    + unfold Close. destruct (handler d) eqn:Hh; (split; cbn; [done|done| |done]); try done.
      * by apply sane_cut.
      * by apply sane_cut.
      * split; [|apply G3]. destruct G3 as [G3 _]. intros p [Hp|[Hp|Hp]]; [|apply G3; by right; left|apply G3; by right; right].
        assert (S : sane_stream (decoder s)) by (intros p' Hp'; apply G3; by left).
        by apply (sane_cut k _ S).
    + destruct (handler d) eqn:Hh; try done. split; cbn; rewrite ?Hh; done.
Qed.

Lemma drun_panics es d :
  daemon_inv d -> guarded d -> drun xxhash numWorkers es d = Crash ->
  exists es1 e es2 d', es = es1 ++ e :: es2 /\ drun xxhash numWorkers es1 d = Done d' /\ known_panic d' e.
Proof using HB Hn.
  revert d. induction es as [|e es IH]; intros d D G H; [done|]. cbn [drun] in H.
  pose proof (dstep_guarded e d D G) as F. destruct (dstep xxhash numWorkers e d) as [d'| |] eqn:E; [|done|].
  - destruct (IH d' ltac:(by eapply dstep_inv) F H) as (es1 & e' & es2 & d2 & -> & E' & K).
    exists (e :: es1), e', es2, d2. split; [done|]. split; [|done]. cbn. by rewrite E.
  - by exists [], e, es, d.
Qed.

Lemma dreachable_guarded d0 d :
  daemon_inv d0 -> guarded d0 -> dreachable xxhash numWorkers d0 d -> daemon_inv d /\ guarded d.
Proof using HB Hn.
  intros D G R. induction R as [|e d d' R IH E]; [done|]. destruct IH as [D' G'].
  split; [by eapply dstep_inv|]. pose proof (dstep_guarded e d D' G') as F. by rewrite E in F.
Qed.
End DaemonSteps.

(** They are panics: such a step crashes. *)
Lemma closed_result_crashes xxhash term i j s k :
  closed_result term i j (srv s) -> job_step xxhash term (HRead i) j s k = Crash.
Proof.
  intros (_ & Hh & o & x & Ho & Hr). destruct j as [ts r rd w h rs sd]. cbn in *. subst h. rewrite Ho. unfold on_srv.
  destruct (hash_read HashedSpaceBase o (srv s)) as [y v]. cbn in Hr. by subst y.
Qed.

Lemma known_panic_crashes xxhash numWorkers e d : known_panic d e -> dstep xxhash numWorkers e d = Crash.
Proof.
  assert (K : forall e s, resultChan_closed e s -> step xxhash numWorkers e s = Crash /\ worker_event e = true).
  { intros e' s H. unfold resultChan_closed in H. destruct e' as [| | | | | |h|k h|]; try done; destruct h as [| | |i| | |]; try done.
    - destruct (hashPc s) as [| |j] eqn:Ej; try done. cbn [step]. unfold hash_step. rewrite Ej.
      split; [by apply closed_result_crashes|done].
    - destruct (strays s !! k) as [[old j]|] eqn:Ek; [|done]. cbn [step]. unfold stray_step. rewrite Ek.
      split; [by apply closed_result_crashes|done]. }
  destruct e as [|e|e i| |k]; cbn [known_panic dstep]; try done.
  - unfold handler_step. destruct (handler d); try done. by intros ->.
  - destruct (handler d); try done. intros [E ->]%K. unfold session_step. by rewrite E.
  - unfold ended_step. destruct (ended d !! i); [|done]. intros [-> [E _]%K]. by rewrite E.
Qed.

Lemma drun_crash_app xxhash numWorkers es1 e es2 d d' :
  drun xxhash numWorkers es1 d = Done d' -> dstep xxhash numWorkers e d' = Crash ->
  drun xxhash numWorkers (es1 ++ e :: es2) d = Crash.
Proof.
  revert d. induction es1 as [|x es1 IH]; intros d H E; cbn [drun app] in *; [injection H as <-; by rewrite E|].
  apply abind_Done in H as (d1 & E1 & H). rewrite E1. by apply IH.
Qed.

(** ** From the start *)

Lemma readable_body B n d0 d :
  is_u64 B -> GetHeaderByteSize <= n < 2 ^ 63 -> healthy d0 -> dev_size d0 = n -> fits B n ->
  same_body d0 d -> readable (layout B n) d0 -> readable (layout B n) d.
Proof.
  intros HB Hn Hd Hs Hf (_ & Hl & Hb) Hr x i Hi. pose proof (Hr x i Hi) as Hx.
  destruct (created_safe B n HB Hn d0 Hd Hs Hf Hr) as [_ [W _ _ _ _]].
  pose proof (slot_bounds _ _ (proj2 W) x i Hi) as [H1 _].
  replace (sub (Z.to_nat (slot_pos (layout B n) x i)) (Z.to_nat (slotSize (layout B n) x)) (content d))
    with (sub (Z.to_nat (slot_pos (layout B n) x i)) (Z.to_nat (slotSize (layout B n) x)) (content d0)); [done|].
  unfold sub. f_equal. change (GetHeaderByteSize <= slot_pos (layout B n) x i) in H1. unfold GetHeaderByteSize in *.
  replace (Z.to_nat (slot_pos (layout B n) x i))
    with (Z.to_nat 64 + (Z.to_nat (slot_pos (layout B n) x i) - Z.to_nat 64))%nat by lia.
  by rewrite <- !drop_drop, Hb.
Qed.

Lemma Run_guarded B n numWorkers port target journalDev v conns d :
  is_u64 B -> GetHeaderByteSize <= n < 2 ^ 63 -> healthy journalDev -> dev_size journalDev = n ->
  (fits B n -> readable (layout B n) journalDev) -> Forall (sane_conn B) conns ->
  NewServer port target journalDev None = Ret v -> Run conns v = Some d ->
  daemon_inv d /\ guarded B n numWorkers d.
Proof.
  intros HB Hn Hh Hs Hr Hc Hv H0. unfold NewServer in Hv. destruct (OpenFile target) as [[]]; try done. injection Hv as <-.
  split; [by apply (daemon_Run_inv _ _ _) in H0|]. unfold Run in H0.
  match type of H0 with context [CheckJournal ?w] => pose proof (body_CheckJournal journalDev w ltac:(by split_and!)) as K;
    destruct (CheckJournal w) as [[[]|e|] v'] end; [|done..].
  injection H0 as <-. cbn in K. destruct K as [K Kj]. pose proof K as (K1 & K2 & K3).
  split; cbn; [|done..]. split; [done| | |].
  - unfold dev_size in *. by rewrite K2.
  - intros Hf. by apply (readable_body B n journalDev); auto.
  - intros j Hj. congruence.
Qed.

(** C16: the server panics in two situations and in no other.  On a journal device
    whose calls succeed and whose slots can be read under the layout of the
    sessions, with clients that announce the same ring and send blocks as long as
    they say that fit a slot, and whatever else they send, whichever calls of the
    target and of the connections fail, and however the goroutines of the daemon,
    of the session and of the ended sessions interleave with a signal and its
    shutdown: a schedule panics if and only if it reaches one of the two
    [known_panic]s.  The first: [HandleClient] asks its connection for the remote
    address after the [Close] of a shutdown has reset it.  The second: a hashing
    job has been told to stop, its hashing workers have all returned, so that
    [resultChan] is closed, and a reader that was still reading a block fails and
    sends its error.  So no schedule closes a channel twice, sends on a queue that
    is closed, slices out of an array, or misses a journal or the client's
    information when it uses it; and while no shutdown takes the connection away
    and no read of the target fails there is no panic at all. *)
Theorem server_panics_only B port target journalDev v conns d xxhash numWorkers es :
  is_u64 B -> GetHeaderByteSize <= dev_size journalDev < 2 ^ 63 -> healthy journalDev ->
  (fits B (dev_size journalDev) -> readable (layout B (dev_size journalDev)) journalDev) ->
  Forall (sane_conn B) conns ->
  NewServer port target journalDev None = Ret v -> Run conns v = Some d ->
  drun xxhash numWorkers es d = Crash <->
  exists es1 e es2 d', es = es1 ++ e :: es2 /\ drun xxhash numWorkers es1 d = Done d' /\ known_panic d' e.
Proof.
  intros HB Hn Hh Hr Hc Hv H0.
  destruct (Run_guarded B (dev_size journalDev) numWorkers port target journalDev v conns d) as [D G]; try done.
  split; [by eapply drun_panics|]. intros (es1 & e & es2 & d' & -> & E & K).
  eapply drun_crash_app; [exact E|by apply known_panic_crashes].
Qed.

(** The first panic occurs whenever a signal and its [Close] come between the
    acceptance of a connection and its greeting. *)
Lemma RemoteAddr_panics xxhash numWorkers k ps d :
  handler d = Greeting ps -> runPc d = WaitSignal ->
  drun xxhash numWorkers [DSignal; DRun k; DRun k; DHandler] d = Crash.
Proof.
  intros Hh Hr. cbn [drun dstep]. rewrite Hr. cbn [abind drun dstep run_step set_runPc runPc].
  unfold Close, InitiateShutdown, handler_step. cbn. by destruct (ChanHasTerminated (dTermChan d)); cbn; rewrite Hh.
Qed.

(** The second occurs whenever a job has been told to stop while a reader is about
    to read a block that it cannot read, with a block for every hashing worker to
    return on. *)
Lemma abort_panics xxhash numWorkers s j i offset x :
  hashPc s = HRunning j -> cclosed (hashTermChan s) = true -> j_reading j !! i = Some offset ->
  (hash_read HashedSpaceBase offset (srv s)).1 = Ret (ReadFailed x) -> (j_hashers j <= length (j_work j))%nat ->
  run xxhash numWorkers (replicate (j_hashers j) (EHash (HHash 0)) ++ [EHash (HRead i)]) s = Crash.
Proof.
  intros Hh Hc Ho Hr. assert (Ht : ChanHasTerminated (hashTermChan s) = true) by (apply terminated_iff; by left).
  destruct j as [ts r rd w h rs sd]. cbn [j_hashers j_reading j_work] in *.
  revert w s Hh Hc Ht Hr. induction h as [|h IH]; intros w s Hh Hc Ht Hr Hl; cbn [replicate app run step]; unfold hash_step.
  - rewrite Hh, closed_result_crashes; [done|]. split; [done|]. split; [done|]. by exists offset, x.
  - destruct w as [|w0 w]; [cbn in Hl; lia|]. rewrite Hh. cbn [job_step]. rewrite Ht.
    change (delete 0%nat (w0 :: w)) with w. cbn [abind lookup list_lookup].
    apply (IH w); try done. cbn in Hl. lia.
Qed.

(** A device of zeros can be read under every layout, so every new journal device
    will do. *)
Lemma readable_zeros B n d :
  is_u64 B -> GetHeaderByteSize <= n < 2 ^ 63 -> healthy d -> content d = zeros n -> fits B n ->
  readable (layout B n) d.
Proof.
  intros HB Hn Hd Hz Hf x i Hi. unfold fits, GetHeaderByteSize in *. rewrite Hz.
  assert (WL : wf_layout (layout B n) n).
  { assert (Hs : dev_size d = n) by (unfold dev_size; rewrite Hz, length_zeros; lia).
    destruct (NewJournal_layout B WriteInfoSize CorrectBlockByteSize d
      (mkJournal n (B / WriteInfoSize) ((n - GetHeaderByteSize - B) / CorrectBlockByteSize) (layout B n)) d)
      as (_ & W & _); unfold GetHeaderByteSize in *; try done; [by rewrite Hs..| |by rewrite Hs in W].
    rewrite NewJournal_eq by (try done; unfold GetHeaderByteSize; rewrite Hs; lia). by rewrite Hs. }
  pose proof (slot_bounds _ _ WL x i Hi) as [H1 H2]. pose proof (wl_slot _ _ WL x).
  unfold GetHeaderByteSize in *. generalize dependent (slot_pos (layout B n) x i). intros o H1 H2.
  unfold zeros, sub. rewrite drop_replicate, take_replicate.
  rewrite deserialize_eq; rewrite length_replicate; [|lia..].
  assert (E : exists k, (Z.to_nat (slotSize (layout B n) x) `min` (Z.to_nat n - Z.to_nat o) = 12 + k)%nat)
    by (apply Nat.le_sum; lia).
  destruct E as [k ->]. rewrite decide_True; [by eexists|].
  assert (slot_size (replicate (12 + k) Byte.x00) = 0) as -> by (destruct k; reflexivity). lia.
Qed.

(** A new device with a slot for one write.  The first client scans, and its
    second write overflows the journal; a signal comes while the second client is
    being served. *)
Definition safe_dev : Dev := {| content := zeros 4172; faults := [] |}.
Definition safe_target : Dev := {| content := replicate 16 Byte.x00; faults := [] |}.
Definition safe_init : Packet :=
  {| PacketType := PacketTypeInfoInit;
     Payload := PInitInfo {| DeviceSize := 16; iWriteInfoSize := 4104; BufferByteSize := 4108 |} |}.
Definition safe_server : Server :=
  {| TargetDevFd := safe_target; JournalDev := safe_dev; SJournal := None;
     ClientInfo := None; Connected := false; sent := []; sendFaults := []; state := StateDisconnected |}.
Definition safe_conns : list accepted :=
  [AcceptConn [inl safe_init; inl (CreateInfoPacket PacketTypeCmdStartHashing); inl (demo_w Byte.x0a);
     inl (demo_w Byte.x0b); inl (CreateInfoPacket PacketTypeInfoHashingCompleted); inr IoEOF] [];
   AcceptConn [inl safe_init; inl (demo_w Byte.x0c)] []].
Definition safe_schedule : list devent :=
  replicate 8 DHandler ++
  [DWorker (EHash HStart); DWorker (EHash HTake); DWorker (EHash (HRead 0)); DWorker (EHash (HHash 0)); DWorker (EHash (HSend 0)); DWorker (EHash HEnd);
   DHandler; DHandler; DWorker EJournal; DHandler; DHandler; DWorker EJournal;
   DHandler; DWorker EJournal; DHandler] ++
  replicate 10 DHandler ++ [DSignal; DRun 0; DRun 0; DHandler; DHandler].

Lemma safe_conns_sane : Forall (sane_conn 4108) safe_conns.
Proof.
  repeat constructor; intros p Hp; repeat (apply elem_of_cons in Hp as [[= ->]|Hp]);
    try (by apply not_elem_of_nil in Hp); cbn; unfold sendable, is_u64, is_u32; cbn; try done; lia.
Qed.

Lemma safe_dev_size : dev_size safe_dev = 4172.
Proof. unfold dev_size, safe_dev. cbn [content]. rewrite length_zeros. lia. Qed.
Lemma safe_dev_bounds : GetHeaderByteSize <= dev_size safe_dev < 2 ^ 63.
Proof. rewrite safe_dev_size. unfold GetHeaderByteSize. lia. Qed.
Lemma safe_dev_readable : fits 4108 (dev_size safe_dev) -> readable (layout 4108 (dev_size safe_dev)) safe_dev.
Proof. rewrite safe_dev_size. intros Hf. by apply readable_zeros. Qed.

(** A schedule without a panic, and one in which the signal comes between the
    acceptance of the first connection and its greeting. *)
Lemma server_panics_only_witness :
  exists d, Run safe_conns safe_server = Some d /\
    (exists d', drun no_hash 2 safe_schedule d = Done d') /\
    exists es1 e es2 d', replicate 3 DHandler ++ [DSignal; DRun 0; DRun 0; DHandler] = es1 ++ e :: es2 /\
      drun no_hash 2 es1 d = Done d' /\ known_panic d' e.
Proof.
  destruct (Run safe_conns safe_server) as [d|] eqn:E; [|vm_compute in E; discriminate].
  exists d. split; [reflexivity|]. split; [vm_compute in E; injection E as <-; eexists; vm_compute; reflexivity|].
  apply (server_panics_only 4108 0 safe_target safe_dev safe_server safe_conns d no_hash 2).
  - unfold is_u64. lia.
  - exact safe_dev_bounds.
  - reflexivity.
  - exact safe_dev_readable.
  - exact safe_conns_sane.
  - reflexivity.
  - exact E.
  - vm_compute in E. injection E as <-. vm_compute. reflexivity.
Defined.

(** The second panic from the start of a session, on a replica of two blocks: the
    reader of a full scan has read the first block and taken the second; the client
    asks for the scan anew, the hashing worker sees that and returns, and the read
    of the second block fails. *)
Definition failing_session : Session :=
  HandleClient_start
    {| TargetDevFd := {| content := zeros (2 * HashedSpaceBase); faults := [NoFault; Fault 0 (ErrMsg "I/O error")] |};
       JournalDev := {| content := []; faults := [] |}; SJournal := None;
       ClientInfo := Some {| DeviceSize := 2 * HashedSpaceBase; iWriteInfoSize := 4104; BufferByteSize := 4104 |};
       Connected := true; sent := []; sendFaults := []; state := StateWriting |}
    [inl (CreateInfoPacket PacketTypeCmdStartFullScan); inl (CreateInfoPacket PacketTypeCmdStartFullScan)].
Definition failing_schedule : list event :=
  [EMain; EMain; EHash HStart; EHash HTake; EHash (HRead 0); EHash HTake; EMain; EHash (HHash 0); EHash (HRead 0)].

Lemma resultChan_panics : run no_hash 1 failing_schedule failing_session = Crash.
Proof. by vm_compute. Qed.
