(* ===== verification/ConnectionsShutdown.v ===== *)
(** * Shutting the daemon down: when [Run] returns, and when it hangs *)
From S2P Require Import Prelude GoInt GoMonad GoChan Utils BlockDev Blocks Networking Journal Server ServerReplay ServerSafe ServerProps ServerPaths.
From S2P Require Import Session SessionSafety SessionProps SessionPaths Connections ConnectionsSafety ConnectionsProps DaemonSafe.
Open Scope Z_scope.

(** ** A shutdown that hangs *)

(** What a step of another goroutine than the main one and the write worker
    leaves alone. *)
Definition write_same (s s' : Session) : Prop :=
  mainPc s' = mainPc s /\ writePc s' = writePc s /\ writeQueue s' = writeQueue s.

Lemma other_write_same xxhash numWorkers e s s' :
  worker_event e = true -> e <> EWrite -> step xxhash numWorkers e s = Done s' -> write_same s s'.
Proof.
  intros He Hw H. destruct e as [| | | | |i|h|k h|]; try done; cbn [step] in H.
  - unfold journal_step in H. frames (write_same s).
  - unfold correct_step in H. frames (write_same s).
  - unfold replication_step in H. frames (write_same s).
  - unfold replication_write_step in H. frames (write_same s).
  - unfold hash_step in H. destruct (hashPc s) as [| |j]; [done|frames (write_same s)|].
    assert (J : job_step xxhash (ChanHasTerminated (hashTermChan s)) h j s (fun j => set_hashPc (HRunning j)) = Done s' ->
      write_same s s') by (by intros (v & _ & [->|(j' & ->)])%job_step_Done).
    destruct h; try exact (J H). frames (write_same s).
  - unfold stray_step in H. destruct (strays s !! k) as [[old j]|]; [|done].
    by apply job_step_Done in H as (v & _ & [->|(j' & ->)]).
Qed.

(** The main goroutine waits for room in the write queue, and the write worker
    retries a write on the closed target. *)
Definition write_hung (s : Session) : Prop :=
  (exists p, mainPc s = MSend QWrite p) /\
  (exists data off, writePc s = WRetry data off /\ data <> []) /\
  cclosed (writeQueue s) = false /\ (ccap (writeQueue s) <= length (cbuf (writeQueue s)))%nat.

Lemma write_hung_same s s' : write_same s s' -> write_hung s -> write_hung s'.
Proof. intros (H1 & H2 & H3). unfold write_hung. by rewrite H1, H2, H3. Qed.

Lemma write_hung_main numWorkers s : write_hung s -> main_step numWorkers s = Blocked.
Proof.
  intros ((p & Hm) & _ & Ho & Hl). unfold main_step. rewrite Hm. unfold send_queue, chan_send.
  cbn [get_queue]. rewrite Ho. destruct (_ <? _)%nat eqn:E; [|done]. apply Nat.ltb_lt in E. lia.
Qed.

Lemma WriteAt_closed d b off : b <> [] -> exists e, (WriteAt b off (close_dev d)).1 = Err e.
Proof.
  intros Hb. unfold WriteAt. destruct (off <? 0); [by eexists|]. destruct b; [done|].
  cbn. by eexists.
Qed.

(** A step of the session of a daemon whose target is closed. *)
Lemma write_hung_worker xxhash numWorkers d e s s' :
  targetClosed d = true -> worker_event e = true -> write_hung s ->
  step xxhash numWorkers e (load d s) = Done s' -> write_hung s'.
Proof.
  intros Ht He Hs H. assert (Hl : write_hung (load d s)) by done.
  destruct (decide (e = EWrite)) as [->|Hw].
  - cbn [step] in H. unfold write_step in H.
    destruct Hl as (Hm & (data & off & Hw & Hd) & Hc). rewrite Hw in H.
    destruct (WriteAt_closed (TargetDevFd (closed_conn d (server d))) data off Hd) as [e He'].
    unfold on_srv, catch, on_target, zoom in H.
    assert (Et : TargetDevFd (srv (load d s)) = close_dev (TargetDevFd (closed_conn d (server d))))
      by (unfold load, closed_target; by rewrite Ht).
    rewrite Et in H. destruct (WriteAt _ _ _) as [o dv]. cbn in He'. subst o. cbn in H. injection H as <-.
    split; [done|]. split; [by exists data, off|done].
  - apply other_write_same in H; [|done|done]. by apply (write_hung_same (load d s)).
Qed.

(** The handler is where a closing of the descriptors does not reach it: in a
    session that hangs on its write queue, or with a connection that [Close] did
    not find and whose client is silent. *)
Definition unreachable_place (d : Daemon) : Prop :=
  match handler d with
  | Serving s => write_hung s
  | Accepted [] _ => Connected (server d) = false
  | _ => False
  end.

Definition stuck (d : Daemon) : Prop :=
  runPc d = WaitHandler /\ targetClosed d = true /\
  match handler d with
  | Greeting [] => connClosed d = false
  | Init [] => True
  | _ => unreachable_place d
  end.

Lemma unreachable_shutdown xxhash numWorkers k d :
  unreachable_place d -> runPc d = WaitSignal ->
  exists d', drun xxhash numWorkers [DSignal; DRun k; DRun k] d = Done d' /\ stuck d'.
Proof.
  intros H Hr. cbn [drun dstep]. rewrite Hr. cbn [abind drun dstep run_step set_runPc runPc].
  eexists. split; [done|]. unfold stuck, Close, InitiateShutdown, unreachable_place in *. cbn.
  destruct (ChanHasTerminated (dTermChan d)); cbn;
    by destruct (handler d) as [| |[|] ?| | |s|].
Qed.

Lemma stuck_step xxhash numWorkers e d d' :
  stuck d -> dstep xxhash numWorkers e d = Done d' -> stuck d'.
Proof.
  intros (Hr & Ht & Hh) H. unfold stuck. destruct e as [|e|e i| |k]; cbn [dstep] in H.
  - unfold handler_step in H. unfold unreachable_place in Hh.
    destruct (handler d) as [| |[|] fs|[|]|[|]|s|] eqn:E; try done.
    + rewrite Hh in H. injection H as <-. by cbn.
    + rewrite Hh in H. injection H as <-. by cbn.
    + unfold session_step in H. cbn [step] in H.
      by rewrite (write_hung_main numWorkers (load d s)) in H.
  - unfold unreachable_place in Hh. destruct (handler d) as [| |[|] ?|[|]|[|]|s|] eqn:E; try done.
    destruct (worker_event e) eqn:He; [|done].
    unfold session_step in H. apply abind_Done in H as (s1 & E1 & H).
    apply (write_hung_worker xxhash numWorkers d e s s1 Ht He Hh) in E1.
    pose proof E1 as ((p & Em) & _). rewrite Em in H. injection H as <-. by cbn.
  - unfold ended_step in H. destruct (ended d !! i) as [s|]; [|done].
    destruct (ended_event e) eqn:Ev; [|done].
    apply abind_Done in H as (s1 & E1 & [= <-]). cbn. unfold unreachable_place in *.
    destruct (ended_event_keeps _ _ _ _ _ Ev E1) as (Hc & _). rewrite load_connected in Hc.
    split; [done|]. split; [done|]. cbn. destruct (handler d) as [| |[|] ?|[|]|[|]| |]; try done. congruence.
  - by rewrite Hr in H.
  - unfold run_step in H. rewrite Hr in H. unfold unreachable_place in Hh.
    destruct (handler d) as [| |[|] ?|[|]|[|]| |] eqn:E; done.
Qed.

Lemma stuck_run xxhash numWorkers es d d' :
  stuck d -> drun xxhash numWorkers es d = Done d' -> stuck d'.
Proof.
  revert d. induction es as [|e es IH]; intros d S H; cbn [drun] in H; [by injection H as <-|].
  apply abind_Done in H as (d1 & E & H). apply (IH d1); [|done]. by eapply stuck_step.
Qed.


Definition demo_busy_daemon : Daemon :=
  mkDaemon demo_daemon_server [AcceptConn (inl demo_init :: replicate 10 (inl (demo_w Byte.x0a))) []]
    CheckTerm [] WaitSignal (make_chan 0) false false false.
Definition demo_busy : list devent := replicate 7 DHandler ++ [DWorker EWrite] ++ replicate 17 DHandler.


(** ** A shutdown that completes *)

Section Completes.
Context (B n : Z) (HB : is_u64 B) (Hn : GetHeaderByteSize <= n < 2 ^ 63).
Context (xxhash : list byte -> Z) (numWorkers : nat).
Local Abbreviation reaches d d' := (exists es, drun xxhash numWorkers es d = Done d').

Lemma drun_app es1 es2 d d' d'' :
  drun xxhash numWorkers es1 d = Done d' -> drun xxhash numWorkers es2 d' = Done d'' ->
  drun xxhash numWorkers (es1 ++ es2) d = Done d''.
Proof using.
  revert d. induction es1 as [|e es1 IH]; intros d H1 H2; cbn [drun app] in *; [by injection H1 as <-|].
  apply abind_Done in H1 as (d1 & E & H1). rewrite E. cbn [abind]. by apply IH.
Qed.

Lemma reaches_trans d d' d'' : reaches d d' -> reaches d' d'' -> reaches d d''.
Proof using. intros [es1 H1] [es2 H2]. exists (es1 ++ es2). by eapply drun_app. Qed.
Lemma reaches_one e d d' : dstep xxhash numWorkers e d = Done d' -> reaches d d'.
Proof using. intros H. exists [e]. cbn. by rewrite H. Qed.

(** The session of a daemon that is shutting down, on its way out. *)
Record leaving (m : main_pc) (s : Session) (d : Daemon) : Prop := {
  lv_handler : handler d = Serving s;
  lv_pc : mainPc s = m;
  lv_run : runPc d = WaitHandler;
  lv_inv : daemon_inv d;
  lv_guarded : guarded B n numWorkers d;
}.

(** A step of the session to a place [m'] of [HandleClient]. *)
Definition leads (e : event) (m' : main_pc) (Q : Session -> Prop) (s : Session) : Prop :=
  exists s', step xxhash numWorkers e s = Done s' /\ mainPc s' = m' /\ Q s'.

Lemma leaving_step e m m' Q s d :
  leaving m s d -> (e = EMain \/ worker_event e = true) -> m' <> MReturned ->
  leads e m' Q (load d s) -> exists s' d', reaches d d' /\ leaving m' s' d' /\ Q s'.
Proof using HB Hn.
  intros [H1 H2 H3 H4 H5] He Hm (s' & E & Em & HQ).
  assert (S : session_step xxhash numWorkers e s d = Done (set_handler (srv s') (Serving s') d))
    by (unfold session_step; rewrite E; cbn; rewrite Em; by destruct m').
  assert (Ed : exists e', dstep xxhash numWorkers e' d = Done (set_handler (srv s') (Serving s') d)).
  { destruct He as [->|He]; [exists DHandler|exists (DWorker e)]; cbn [dstep].
    - unfold handler_step. by rewrite H1.
    - by rewrite H1, He. }
  destruct Ed as [e' Ed]. exists s', (set_handler (srv s') (Serving s') d).
  split; [by eapply reaches_one|]. split; [|done]. split; try done; [by eapply dstep_inv|].
  pose proof (dstep_guarded B n HB Hn xxhash numWorkers e' d H4 H5) as F. by rewrite Ed in F.
Qed.

Lemma leaving_inv m s d : leaving m s d -> session_inv (load d s).
Proof using.
  intros [H1 _ _ [D _ _ _ _] _]. rewrite H1 in D. apply load_inv_at. by destruct D as (_ & _ & D).
Qed.

Lemma leaving_term m s d : leaving m s d -> cclosed (dTermChan d) = true.
Proof using.
  intros [_ _ H3 [_ _ _ D _] _]. rewrite H3 in D. by destruct D as [|[|]].
Qed.

(** A worker of the session does not panic on what it finds. *)
Lemma leaving_fine m s d e :
  leaving m s d -> fine_or (resultChan_closed e (load d s)) (fun _ => True) (step xxhash numWorkers e (load d s)).
Proof using.
  intros L. pose proof (leaving_inv _ _ _ L) as I. destruct L as [H1 _ _ _ [G1 _ G3 _]]. rewrite H1 in G1, G3.
  destruct G3 as [G3 G5].
  pose proof (step_fine B n xxhash numWorkers e (load d s) I
    (served_load B n (Serving s) d s G1) (sane_load B d s G3) G5) as F.
  by destruct (step xxhash numWorkers e (load d s)).
Qed.

(** *** The steps *)

Lemma loop_leads s :
  session_inv s -> mainPc s = MLoop -> cclosed (TermChan s) = true -> leads EMain MReturn1 (fun _ => True) s.
Proof using.
  intros I Hm Ht.
  pose proof (si_closed _ I QJournal) as C1. pose proof (si_closed _ I QReplication) as C2.
  pose proof (si_term _ I) as C3. cbn in C1, C2, C3. rewrite Hm in C1, C2, C3.
  unfold leads. cbn [step]. unfold main_step. rewrite Hm.
  replace (ChanHasTerminated (TermChan s)) with true by (symmetry; apply terminated_iff; by left).
  unfold main_return, close_hashTermChan, chan_close. rewrite C3. cbn [abind].
  unfold close_queue, chan_close. cbn. rewrite C1. cbn. rewrite C2. cbn. eexists. by split.
Qed.

(** What the replication workers have still to do: a block is received, then
    written, and a worker without one returns. *)
Definition backlog (s : Session) : nat :=
  2 * length (cbuf (replicationQueue s)) + length (replicating s) + replicationWorkers s.

Lemma ignore_returns {S A} (m : M S A) v : (m v).1 <> Panic -> exists v', ignore m v = (Ret tt, v').
Proof using. unfold ignore, bind, catch. destruct (m v) as [[a|e|] v']; eauto. done. Qed.

Lemma target_returns {A} (m : M Dev A) v : (m (TargetDevFd v)).1 <> Panic -> exists v', ignore (on_target m) v = (Ret tt, v').
Proof using. intros H. apply ignore_returns. unfold on_target, zoom. by destruct (m (TargetDevFd v)). Qed.

Lemma handleReplicationPacket_returns p v : exists v', handleReplicationPacket p v = (Ret tt, v').
Proof using.
  unfold handleReplicationPacket. destruct (Payload p); try (by eexists). apply target_returns, WriteAt_no_panic.
Qed.

Lemma replication_leads s :
  session_inv s -> mainPc s = MReturn1 -> replicationWorkers s <> 0%nat ->
  exists e, worker_event e = true /\ leads e MReturn1 (fun s' => (backlog s' < backlog s)%nat) s.
Proof using.
  intros I Hm Hn'. pose proof (si_closed _ I QReplication) as C. cbn in C. rewrite Hm in C.
  unfold leads, backlog. destruct (replicating s) as [|p l] eqn:El.
  - exists EReplication. split; [done|]. cbn [step]. unfold replication_step, chan_recv. rewrite El, C.
    destruct (replicationWorkers s) as [|k] eqn:En; [done|]. cbn [length Nat.ltb Nat.leb].
    destruct (cbuf (replicationQueue s)) as [|p ps] eqn:Eq; cbn [abind].
    + destruct (k =? 0)%nat.
      * unfold on_srv. destruct (target_returns Sync (srv (set_workers (journalWorker s) k s))) as [v' ->]; [apply sys_unit_no_panic|].
        eexists. split; [done|]. cbn. rewrite Eq, Hm, El. split; [done|]. cbn. lia.
      * eexists. split; [done|]. cbn. rewrite Eq, Hm, El. split; [done|]. cbn. lia.
    + eexists. split; [done|]. cbn. rewrite En, Hm. split; [done|]. cbn. lia.
  - exists (EReplWrite 0). split; [done|]. cbn [step]. unfold replication_write_step, on_srv. rewrite El.
    cbn [lookup list_lookup]. destruct (handleReplicationPacket_returns p (srv s)) as [v' ->].
    eexists. split; [done|]. cbn. rewrite Hm, El. split; [done|]. change (delete 0%nat (p :: l)) with l. cbn. lia.
Qed.

(** The journal worker takes the next packet, or finds its queue closed. *)
Lemma journal_leads s :
  session_inv s -> mainPc s = MReturn2 -> step xxhash numWorkers EJournal s <> Crash -> journalWorker s = true ->
  leads EJournal MReturn2 (fun s' =>
    journalWorker s' = false \/ (length (cbuf (journalQueue s')) < length (cbuf (journalQueue s)))%nat) s.
Proof using.
  intros I Hm Hc Hw. pose proof (si_closed _ I QJournal) as C. cbn in C. rewrite Hm in C.
  unfold leads. cbn [step] in *. unfold journal_step, chan_recv in *. rewrite Hw, C in *.
  destruct (cbuf (journalQueue s)) as [|p ps] eqn:Eq; cbn [abind] in *.
  - eexists. split; [done|]. cbn. split; [done|by left].
  - unfold on_srv in *. cbn [srv set_queue] in *.
    destruct (handleJournalPacket p (srv s)) as [[a|e|] v]; [..|done];
      (eexists; split; [done|]; cbn; split; [done|right; cbn; lia]).
Qed.

Lemma return1_leads s :
  session_inv s -> mainPc s = MReturn1 -> replicationWorkers s = 0%nat -> leads EMain MReturn2 (fun _ => True) s.
Proof using.
  intros I Hm Hn'. pose proof (si_closed _ I QCorrect) as C. cbn in C. rewrite Hm in C.
  unfold leads. cbn [step]. unfold main_step, close_queue, chan_close. rewrite Hm, Hn'. cbn.
  rewrite C. cbn. eexists. by split.
Qed.

Lemma return2_leads s :
  session_inv s -> mainPc s = MReturn2 -> journalWorker s = false -> leads EMain MReturn3 (fun _ => True) s.
Proof using.
  intros I Hm Hn'. pose proof (si_closed _ I QWrite) as C. cbn in C. rewrite Hm in C.
  unfold leads. cbn [step]. unfold main_step, close_queue, chan_close. rewrite Hm, Hn'. cbn.
  rewrite C. cbn. eexists. by split.
Qed.

(** What is left of the hashing; a job that has just started counts for more than
    any running one. *)
Definition hash_left (s : Session) (k : nat) : Prop :=
  match hashPc s with HNone => k = 0%nat | HStarted => False | HRunning j => k = S (abort_left j) end.

Lemma start_leads s :
  mainPc s = MReturn3 -> hashPc s = HStarted -> step xxhash numWorkers (EHash HStart) s <> Crash ->
  leads (EHash HStart) MReturn3 (fun s' => exists k, hash_left s' k) s.
Proof using.
  intros Hm Hh Hc. unfold leads, hash_left. cbn [step] in *. unfold hash_step in *. rewrite Hh in *. unfold on_srv in *.
  destruct (HashDisk_start_returns (srv s) ltac:(intros E; by rewrite (surjective_pairing (HashDisk_start (srv s))), E in Hc))
    as (go & v & E).
  rewrite E in *. destruct go; [|eexists; split; [done|]; by split; [|exists 0%nat]].
  destruct (ClientInfo _); [|done]. eexists. split; [done|]. split; [done|]. by eexists.
Qed.

Lemma hashing_leads s j :
  session_inv s -> mainPc s = MReturn3 -> hashPc s = HRunning j ->
  exists e, leads (EHash e) MReturn3 (fun s' => exists k, hash_left s' k /\ (k < S (abort_left j))%nat) s.
Proof using.
  intros I Hm Hh. pose proof (si_term _ I) as C. rewrite Hm in C.
  assert (Ht : ChanHasTerminated (hashTermChan s) = true) by (apply terminated_iff; by left).
  destruct ((j_senders j =? 0)%nat || (hashes_done j && (length (j_results j) =? 0)%nat)) eqn:Eb.
  - exists HEnd. unfold leads. cbn [step]. unfold hash_step. rewrite Hh, Eb. unfold on_srv, HashDisk_end.
    edestruct (ignore_returns (SendPacket (CreateInfoPacket PacketTypeInfoHashingCompleted)) (srv s)) as [v ->].
    { unfold SendPacket, map_err, Encode. by destruct (sendFaults (srv s)) as [|[] ?]. }
    eexists. split; [done|]. split; [done|]. exists 0%nat. split; [done|]. lia.
  - destruct (abort_progress xxhash j s (fun j => set_hashPc (HRunning j)) Eb) as (e & j' & v & He & E & _ & _ & _ & Hl).
    exists e. unfold leads. cbn [step]. unfold hash_step. rewrite Hh, Ht.
    eexists. split; [destruct e; try done; exact E|]. split; [done|]. exists (S (abort_left j')). split; [done|]. lia.
Qed.

(** *** The way out *)

Lemma leave_return1 s d :
  leaving MReturn1 s d -> exists s' d', reaches d d' /\ leaving MReturn2 s' d'.
Proof using HB Hn.
  remember (backlog s) as k eqn:Ek. revert s d Ek.
  induction (lt_wf k) as [k _ IH]; intros s d -> L. pose proof (leaving_inv _ _ _ L) as I.
  pose proof (lv_pc _ _ _ L) as H2. destruct (decide (replicationWorkers s = 0%nat)) as [E|E].
  - destruct (leaving_step EMain MReturn1 MReturn2 (fun _ => True) s d L) as (s' & d' & R & L' & _);
      [by left|done|by apply return1_leads|eauto].
  - destruct (replication_leads (load d s) I H2 E) as (e & He & Hl).
    destruct (leaving_step e MReturn1 MReturn1 (fun s' => (backlog s' < backlog s)%nat) s d L)
      as (s' & d' & R & L' & Hlt); [by right|done|exact Hl|].
    destruct (IH _ Hlt s' d' eq_refl L') as (s2 & d2 & R2 & L2).
    exists s2, d2. split; [by eapply reaches_trans|done].
Qed.

Lemma leave_return2 s d :
  leaving MReturn2 s d -> exists s' d', reaches d d' /\ leaving MReturn3 s' d'.
Proof using HB Hn.
  remember (length (cbuf (journalQueue s))) as k eqn:Ek. revert s d Ek.
  induction (lt_wf k) as [k _ IH]; intros s d -> L. pose proof (leaving_inv _ _ _ L) as I.
  pose proof (lv_pc _ _ _ L) as H2.
  assert (Hret : forall s d, leaving MReturn2 s d -> journalWorker s = false ->
    exists s' d', reaches d d' /\ leaving MReturn3 s' d').
  { intros s1 d1 L1 W. pose proof (leaving_inv _ _ _ L1) as I1. pose proof (lv_pc _ _ _ L1) as H2'.
    destruct (leaving_step EMain MReturn2 MReturn3 (fun _ => True) s1 d1 L1) as (s' & d' & R' & L' & _);
      [by left|done|by apply return2_leads|eauto]. }
  destruct (journalWorker s) eqn:Ew; [|by apply (Hret s)].
  pose proof (leaving_fine _ _ _ EJournal L) as F.
  destruct (leaving_step EJournal MReturn2 MReturn2 (fun s' => journalWorker s' = false \/
      (length (cbuf (journalQueue s')) < length (cbuf (journalQueue s)))%nat) s d L) as (s1 & d1 & R1 & L1 & HQ);
    [by right|done|apply (journal_leads (load d s)); [done..| |done]; intros E; by rewrite E in F|].
  destruct HQ as [W|Hlt]; [destruct (Hret s1 d1 L1 W) as (s' & d' & R' & L')|destruct (IH _ Hlt s1 d1 eq_refl L1) as (s' & d' & R' & L')];
    (exists s', d'; split; [by eapply reaches_trans|done]).
Qed.

Lemma leave_hashing k s d :
  leaving MReturn3 s d -> hash_left s k -> exists s' d', reaches d d' /\ leaving MReturn3 s' d' /\ hashPc s' = HNone.
Proof using HB Hn.
  revert s d. induction (lt_wf k) as [k _ IH]; intros s d L Hk. pose proof (leaving_inv _ _ _ L) as I.
  pose proof (lv_pc _ _ _ L) as H2. unfold hash_left in Hk. destruct (hashPc s) as [| |j] eqn:Eh; [|done|].
  { exists s, d. split; [by exists []|done]. }
  destruct (hashing_leads (load d s) j I H2 Eh) as (e & Hl). subst k.
  destruct (leaving_step (EHash e) MReturn3 MReturn3
      (fun s' => exists k, hash_left s' k /\ (k < S (abort_left j))%nat) s d L)
    as (s1 & d1 & R1 & L1 & k & Hk & Hlt); [by right|done|exact Hl|].
  destruct (IH k Hlt s1 d1 L1 Hk) as (s' & d' & R' & L'). exists s', d'. split; [by eapply reaches_trans|done].
Qed.

Lemma leave_hash s d :
  leaving MReturn3 s d -> exists s' d', reaches d d' /\ leaving MReturn3 s' d' /\ hashPc s' = HNone.
Proof using HB Hn.
  intros L. pose proof (lv_pc _ _ _ L) as H2.
  destruct (hashPc s) as [| |j] eqn:Eh; [apply (leave_hashing 0 s d); [done|unfold hash_left; by rewrite Eh]|
    |apply (leave_hashing (S (abort_left j)) s d); [done|unfold hash_left; by rewrite Eh]].
  pose proof (leaving_fine _ _ _ (EHash HStart) L) as F.
  destruct (leaving_step (EHash HStart) MReturn3 MReturn3 (fun s' => exists k, hash_left s' k) s d L)
    as (s1 & d1 & R1 & L1 & k & Hk); [by right|done|apply (start_leads (load d s)); [done..|]; intros E; by rewrite E in F|].
  destruct (leave_hashing k s1 d1 L1 Hk) as (s' & d' & R' & L'). exists s', d'. split; [by eapply reaches_trans|done].
Qed.

(** The handler outside a session, once the termination channel is closed. *)
Lemma idle_returns d :
  daemon_inv d -> runPc d = WaitHandler ->
  match handler d with CheckTerm | Accept | HandlerReturned => True | _ => False end ->
  exists d', reaches d d' /\ runPc d' = RunReturned.
Proof using.
  intros [_ _ _ D3 D4] Hr Hh. rewrite Hr in D3, D4. destruct D3 as [|[|D3]]; [done..|].
  assert (Hret : handler d = HandlerReturned -> exists d', reaches d d' /\ runPc d' = RunReturned).
  { intros E. eexists. split; [exists [DRun 0]; cbn; unfold run_step; by rewrite Hr, E|done]. }
  destruct (handler d) eqn:E; try done; [| |by apply Hret].
  - eexists. split; [exists [DHandler; DRun 0]; cbn; unfold handler_step; rewrite E|].
    + replace (ChanHasTerminated (dTermChan d)) with true by (symmetry; apply terminated_iff; by left).
      cbn. unfold run_step. cbn. by rewrite Hr.
    + done.
  - eexists. split; [exists [DHandler; DRun 0]; cbn; unfold handler_step; rewrite E, D4 by auto|].
    + cbn. unfold run_step. cbn. by rewrite Hr.
    + done.
Qed.

(** The whole way out of a session. *)
Lemma leave_session s d :
  leaving MLoop s d ->
  exists d', reaches d d' /\ daemon_inv d' /\ runPc d' = WaitHandler /\ handler d' = CheckTerm.
Proof using HB Hn.
  intros L. pose proof (leaving_inv _ _ _ L) as I. pose proof (leaving_term _ _ _ L) as Ht.
  pose proof (lv_pc _ _ _ L) as H2.
  destruct (leaving_step EMain MLoop MReturn1 (fun _ => True) s d L) as (s1 & d1 & R1 & L1 & _);
    [by left|done|by apply loop_leads|].
  destruct (leave_return1 _ _ L1) as (s2 & d2 & R2 & L2).
  destruct (leave_return2 _ _ L2) as (s3 & d3 & R3 & L3).
  destruct (leave_hash _ _ L3) as (s4 & d4 & R4 & L4 & E4).
  pose proof L4 as [Hh Hm Hr D _].
  assert (E : exists d5, dstep xxhash numWorkers DHandler d4 = Done d5 /\ runPc d5 = WaitHandler /\
                handler d5 = CheckTerm).
  { cbn [dstep]. unfold handler_step. rewrite Hh. unfold session_step. cbn [step]. unfold main_step.
    cbn [mainPc load upd_srv set_TermChan]. rewrite Hm. unfold hash_idle. cbn. rewrite E4. cbn.
    eexists. by split. }
  destruct E as (d5 & E & Hr5 & Hh5). exists d5. split; [|split; [by eapply dstep_inv|done]].
  eapply reaches_trans; [exact R1|]. eapply reaches_trans; [exact R2|]. eapply reaches_trans; [exact R3|].
  eapply reaches_trans; [exact R4|]. by eapply reaches_one.
Qed.
End Completes.

(** The handler waits for no client, and its session, if there is one, is between
    two packets. *)
Definition between_packets (d : Daemon) : Prop :=
  match handler d with
  | CheckTerm | Accept | HandlerReturned => True
  | Serving s => mainPc s = MLoop
  | Accepted _ _ | Greeting _ | Init _ => False
  end.

(** C17: a shutdown that meets the daemon between two packets can complete: from
    every state of it that the signal's [Close] leads to, with a replication or a
    scan under way or just started, and whatever its journal, replication, hashing
    and correct-block workers have still to do and whichever calls of the target
    and the connection fail: the session closes its channels, its replication and
    journal workers drain their queues, the hashing stops, the handler sees the
    closed termination channel, and [Run] returns; no step of that schedule
    panics.  As for [server_panics_only] the journal device must work and the
    clients must send blocks that fit their slots.  (A shutdown that meets the
    session in the middle of a packet can hang.) *)
Theorem shutdown_completes B xxhash numWorkers port target journalDev v conns d0 d :
  is_u64 B -> GetHeaderByteSize <= dev_size journalDev < 2 ^ 63 -> healthy journalDev ->
  (fits B (dev_size journalDev) -> readable (layout B (dev_size journalDev)) journalDev) ->
  Forall (sane_conn B) conns ->
  NewServer port target journalDev None = Ret v -> Run conns v = Some d0 ->
  dreachable xxhash numWorkers d0 d -> runPc d = WaitHandler -> between_packets d ->
  exists es d', drun xxhash numWorkers es d = Done d' /\ runPc d' = RunReturned.
Proof.
  intros HB Hn Hh Hrd Hc Hv H0 R Hr Ha.
  destruct (Run_guarded B (dev_size journalDev) numWorkers port target journalDev v conns d0) as [D0 G0]; try done.
  destruct (dreachable_guarded B (dev_size journalDev) HB Hn xxhash numWorkers d0 d D0 G0 R) as [D G].
  unfold between_packets in Ha.
  assert (K : match handler d with CheckTerm | Accept | HandlerReturned => True | _ => False end ->
              exists es d', drun xxhash numWorkers es d = Done d' /\ runPc d' = RunReturned).
  { intros Hh'. destruct (idle_returns xxhash numWorkers d D Hr Hh') as (d' & [es E] & E'). by exists es, d'. }
  destruct (handler d) as [| | | | |s|] eqn:Hs; try done; [by apply K..| |by apply K].
  destruct (leave_session B (dev_size journalDev) HB Hn xxhash numWorkers s d) as (m & R1 & D1 & Hr1 & Hh1); [by split|].
  destruct (idle_returns xxhash numWorkers m D1 Hr1) as (e & R2 & E2); [by rewrite Hh1|].
  destruct (reaches_trans xxhash numWorkers d m e R1 R2) as [es E]. by exists es, e.
Qed.

(** The signal comes when the first client has started a scan and a write waits for
    the journal worker. *)
Definition scan_shutdown : list devent :=
  replicate 8 DHandler ++ [DHandler; DHandler; DSignal; DRun 0; DRun 0].

Lemma shutdown_completes_witness :
  exists d0 d es d', Run safe_conns safe_server = Some d0 /\ drun no_hash 2 scan_shutdown d0 = Done d /\
    (exists s, handler d = Serving s /\ length (cbuf (journalQueue s)) = 1%nat /\ hashPc s = HStarted) /\
    drun no_hash 2 es d = Done d' /\ runPc d' = RunReturned.
Proof.
  destruct (Run safe_conns safe_server) as [d0|] eqn:E0; [|vm_compute in E0; discriminate].
  destruct (drun no_hash 2 scan_shutdown d0) as [d| |] eqn:E;
    [|vm_compute in E0; injection E0 as <-; vm_compute in E; discriminate..].
  assert (H : (exists s, handler d = Serving s /\ length (cbuf (journalQueue s)) = 1%nat /\ hashPc s = HStarted) /\
    runPc d = WaitHandler /\ between_packets d).
  { vm_compute in E0. injection E0 as <-. vm_compute in E. injection E as <-.
    split; [eexists; repeat split; reflexivity|split; reflexivity]. }
  destruct H as (Hs & Hr & Ha).
  assert (K : exists es d', drun no_hash 2 es d = Done d' /\ runPc d' = RunReturned).
  { apply (shutdown_completes 4108 no_hash 2 0 safe_target safe_dev safe_server safe_conns d0 d).
    - unfold is_u64. lia.
    - exact safe_dev_bounds.
    - reflexivity.
    - exact safe_dev_readable.
    - exact safe_conns_sane.
    - reflexivity.
    - exact E0.
    - eapply drun_reachable; [apply dreach_refl|exact E].
    - exact Hr.
    - exact Ha. }
  destruct K as (es & d' & E' & Hd). exists d0, d, es, d'. split; [reflexivity|]. split; [exact E|]. split; [exact Hs|].
  split; [exact E'|exact Hd].
Defined.
