(* ===== verification/Boot.v ===== *)
(** * Starting the two daemons

    From the start of the processes to the request of the first scan: [NewClient],
    [SendInitPacket] and [Run] on the client's side, [HandleConnections] accepting
    the connection and the beginning of [HandleClient] on the server's.  The
    journal device and the replica may hold anything, and the ring of the kernel
    may hold entries that nobody has read. *)
From S2P Require Import Prelude GoInt GoMonad GoChan Utils BlockDev Blocks Networking.
From S2P Require Import RingBuffer Pause Client ClientFacts ClientSession ClientSafety ClientSends.
From S2P Require Import Journal JournalCodec JournalSlots JournalSpec JournalOps Server ServerReplay Session SessionSafety.
From S2P Require Import ClientScan ClientFlush SessionStream SessionDrain ClientOutput EndToEnd Connections System SystemTracked.
Open Scope Z_scope.

(** ** The client *)

Section Boot.
Context (S0 : list byte) (t : TargetInfo) (n : nat).
Context (Ht : wf_target t n) (Hpage : PageSize t <= 4096).
Context (Hsize : Z.of_nat (length S0) < 2 ^ 63).

(** The packets of a client that starts. *)
Definition first_packets : list Packet :=
  [init_packet (Z.of_nat (length S0)) t; CreateInfoPacket PacketTypeCmdStartHashing].

(** [main] of the client up to the start of its goroutines, with a scan first, on
    a target that answers. *)
Definition client_main (rb : bdr_ring_buffer) : option CSession :=
  match NewClient None (inl t) (inl rb) (inr (mkConn [] [])) {| content := S0; faults := [] |} with
  | Ret (c, packets) =>
      match SendInitPacket c with
      | (Ret _, c) => match ClientSession.Run false false true c packets [] with Done s => Some s | _ => None end
      | _ => None
      end
  | _ => None
  end.

(** The client's half of [requested]: it has reset the ring and asked for a scan,
    and waits. *)
Record scan_asked (s : CSession) : Prop := {
  sa_conn : connected (cl s);
  sa_dev : UnderDevFile (cl s) = {| content := S0; faults := [] |};
  sa_contr : cinv (cl s);
  sa_monitor : monitor_held s;
  sa_repl : replicator s = None;
  sa_hashers : hashers s = None;
  sa_listen : listenPc s = LReceive;
  sa_incoming : incoming s = [];
  sa_queue : ClientSession.hashQueue s = make_chan HashPacketQueueSize;
  sa_target : cTarget (cl s) = t;
  sa_ring : ring_has t n [] (kernel (cl s));
}.

Lemma client_boots rb a :
  ring_rel (Z.to_nat (PageSize t)) n rb a ->
  exists s, client_main rb = Some s /\ csent (cl s) = first_packets /\ scan_asked s.
Proof using.
  intros R. unfold client_main, NewClient. cbn [OpenFile sys_unit syscall faults conn_enc conn_in].
  set (c0 := {| cTarget := t; UnderDevFile := _; kernel := rb; MonitorPauseContr := _; cstate := _; csent := [];
                encFaults := []; ioctlFaults := []; termIn := None |}).
  assert (C0 : connected c0) by done.
  assert (E : SendInitPacket c0 = (Ret tt, set_net [init_packet (Z.of_nat (length S0)) t] [] c0)).
  { unfold SendInitPacket. rewrite (bind_Ret _ _ c0 (Z.of_nat (length S0)) c0) by reflexivity.
    rewrite (bind_Ret _ _ c0 t c0) by reflexivity. by rewrite SendPacket_ok. }
  rewrite E. unfold ClientSession.Run, Run_start, StartHashing.
  erewrite bind_Ret by (apply start_ok; [done|split_and!; [done|done|cbn; lia]]). cbn [ret].
  eexists. split; [reflexivity|]. split; [done|]. split; try done; cbn; try lia.
  exists a_reset. split; [by apply (reset_refines _ _ _ a)|]. by split.
Qed.

(** ** The server *)

(** A server that has just started, or whose last client has left: the replica
    has the size of the source, the journal has room for the ring and for every
    block of the disk. *)
Record waiting (d : Daemon) : Prop := {
  wa_handler : handler d = CheckTerm;
  wa_term : dTermChan d = make_chan 0;
  wa_listener : listenerClosed d = false;
  wa_target : targetClosed d = false;
  wa_connected : Connected (Connections.server d) = false;
  wa_device : target_ok (Connections.server d);
  wa_len : length (content (TargetDevFd (Connections.server d))) = length S0;
  wa_jdev : healthy (JournalDev (Connections.server d));
  wa_jsize : GetHeaderByteSize <= dev_size (JournalDev (Connections.server d)) < 2 ^ 63;
  wa_buffer : 0 < tiBufferByteSize t;
  wa_room : tiBufferByteSize t +
    Z.of_nat (length (block_offsets (Z.of_nat (length S0)) HashedSpaceBase)) * CorrectBlockByteSize <=
    dev_size (JournalDev (Connections.server d)) - GetHeaderByteSize;
}.

(** [WaitForInitInfo], [CheckValidSizes] and [CreateJournal] of a server that
    hears from such a client. *)
Lemma server_inits d :
  waiting d ->
  forall v, v = set_state StateWriting (set_connected true (set_sent (sent (Connections.server d)) [] (Connections.server d))) ->
  exists j v', HandleClient_init (inl (init_packet (Z.of_nat (length S0)) t)) v = (Ret true, v') /\
    SJournal v' = Some j /\ journal_inv (jstate v' j) /\ TargetDevFd v' = TargetDevFd v /\ sendFaults v' = [] /\
    (exists nfo, ClientInfo v' = Some nfo /\ DeviceSize nfo = Z.of_nat (length S0)) /\
    slotSize (header j) BufWrites = WriteInfoSize /\ slotSize (header j) CorrBlocks = CorrectBlockByteSize /\
    slotCount (header j) BufWrites = tiBufferByteSize t / WriteInfoSize /\
    Z.of_nat (length (block_offsets (Z.of_nat (length S0)) HashedSpaceBase)) <= slotCount (header j) CorrBlocks.
Proof using.
  intros [Wh Wt Wl Wg Wc [Hd Hs] Wn Hjd Hjs Hb Hr] v ->. set (v0 := Connections.server d) in *.
  set (sec := tiBufferByteSize t) in *. set (jd := JournalDev v0) in *.
  assert (Hsec : 0 < sec <= dev_size jd - GetHeaderByteSize) by (unfold CorrectBlockByteSize, HashedSpaceBase, HashedBlockSize in Hr; lia).
  pose proof (NewJournal_eq sec 4108 262156 jd Hjd Hjs Hsec ltac:(lia) ltac:(lia)) as EJ. cbn zeta in EJ.
  match type of EJ with _ = (Ret ?J, _) => set (j := J) in * end.
  destruct (created_inv sec 4108 262156 jd j jd Hjd Hjs Hsec ltac:(lia) ltac:(lia) EJ) as (EI & I & _ & _).
  set (nfo := {| DeviceSize := Z.of_nat (length S0); iWriteInfoSize := tiWriteInfoSize t; BufferByteSize := sec |}).
  set (v1 := set_clientInfo nfo (set_state StateWriting (set_connected true (set_sent (sent v0) [] v0)))).
  exists (jrn (created j jd)), (set_journal (jdev (created j jd)) (Some (jrn (created j jd))) v1).
  split; [|split_and!; try done; [by exists nfo|]].
  - unfold HandleClient_init. rewrite (bind_Ret _ _ _ (inl tt) v1) by reflexivity.
    rewrite (bind_Ret _ _ _ (inl tt) v1).
    2:{ apply catch_Ret. unfold CheckValidSizes. rewrite (bind_Ret _ _ _ (Some nfo) v1) by reflexivity.
        rewrite (bind_Ret _ _ _ (inl (Z.of_nat (length S0))) v1).
        2:{ apply catch_Ret. unfold on_target, zoom. cbn [v1 TargetDevFd set_clientInfo set_state set_connected set_sent].
            rewrite (GetDeviceSize_healthy _ Hd). unfold dev_size. rewrite Wn. by destruct v0. }
        cbn. by rewrite Z.eqb_refl. }
    rewrite (bind_Ret _ _ _ (inl tt) (set_journal (jdev (created j jd)) (Some (jrn (created j jd))) v1)); [done|].
    apply catch_Ret. unfold CreateJournal. rewrite (bind_Ret _ _ _ (Some nfo) v1) by reflexivity.
    rewrite (bind_Ret _ _ _ j v1).
    2:{ unfold on_journalDev, zoom. cbn [v1 JournalDev set_clientInfo set_state set_connected set_sent BufferByteSize nfo].
        change (u64 WriteInfoSize) with 4108. change (u64 CorrectBlockByteSize) with 262156. fold jd. rewrite EJ.
        by destruct v0. }
    unfold on_local, on_journalDev, zoom, with_journal, bind.
    cbn [v1 JournalDev set_clientInfo set_state set_connected set_sent]. fold jd. rewrite EI. done.
  - change (Z.of_nat (length (block_offsets (Z.of_nat (length S0)) HashedSpaceBase)) <=
      (dev_size jd - GetHeaderByteSize - sec) / 262156).
    apply Z.div_le_lower_bound; [lia|]. change CorrectBlockByteSize with 262156 in Hr. lia.
Qed.

(** A server that waits, and a client that has sent it its first packets: both are
    then where the theorems on the joint system start ([requested]). *)
Lemma boot_requests xxhash nw d l cs :
  waiting d -> scan_asked cs -> accepts d = AcceptConn (inl <$> first_packets) [] :: l ->
  exists d' s j, drun xxhash nw (replicate 5 DHandler) d = Done d' /\
    handler d' = Serving s /\ requested S0 t n [] j (mkSystem s cs) /\
    content (TargetDevFd (srv s)) = content (TargetDevFd (Connections.server d)) /\
    slotCount (header j) BufWrites = tiBufferByteSize t / WriteInfoSize /\ ended d' = ended d.
Proof using Ht Hpage Hsize.
  intros Wt [B1 B2 B3 B4 B5 B6 B7 B8 B9 B10 B11] Ha.
  destruct (server_inits d Wt _ eq_refl) as (j & v & Ei & H1 & H2 & H3 & H4 & H5 & H6 & H7 & H8 & H9).
  pose proof Wt as [Wh Wtm Wl Wg Wc Wd Wn _ _ _ _].
  eexists. exists (HandleClient_start v [inl (CreateInfoPacket PacketTypeCmdStartHashing)]), j.
  split; [|split; [|split; [|split; [cbn; by rewrite H3|split; [done|]]]]].
  - cbn [drun dstep replicate]. unfold handler_step at 1. rewrite Wh, Wtm.
    change (ChanHasTerminated (make_chan 0)) with false. cbn [abind drun dstep].
    unfold handler_step at 1. cbn [handler set_handler listenerClosed accepts]. rewrite Wl, Ha. cbn [abind drun dstep].
    unfold handler_step at 1. cbn [handler set_handler set_accepts Connections.server]. rewrite Wc. cbn [abind drun dstep].
    unfold handler_step at 1. cbn [handler set_handler set_connClosed connClosed first_packets fmap list_fmap abind drun dstep].
    unfold handler_step at 1. cbn [handler set_handler set_connClosed connClosed Connections.server set_accepts].
    unfold closed_conn. cbn [connClosed set_handler set_connClosed Connections.server set_accepts].
    rewrite Ei.
    cbn [abind drun]. reflexivity.
  - reflexivity.
  - assert (Es : dev_size (TargetDevFd v) = Z.of_nat (length S0)).
    { rewrite H3. cbn. unfold dev_size. by rewrite Wn. }
    split; cbn [cl client System.server srv HandleClient_start]; try done.
    + by apply prep_request.
    + unfold target_ok in *. by rewrite H3.
    + destruct H5 as (nfo & Hn & Hd). exists nfo. by rewrite Es.
    + by rewrite H3.
    + rewrite H7. apply Forall_forall. intros o _. unfold block_len, CorrectBlockByteSize. lia.
    + by rewrite Es.
    + rewrite H6. unfold WriteInfoSize. lia.
  - reflexivity.
Qed.

(** The journal has fewer slots for writes than the ring has entries: a slot has a
    longer header than an entry. *)
Lemma journal_smaller_than_ring :
  (0 < n)%nat -> PageSize t = 4096 -> tiBufferByteSize t = Z.of_nat n * tiWriteInfoSize t ->
  tiBufferByteSize t / WriteInfoSize < Z.of_nat n.
Proof using Ht.
  clear S0 Hsize. intros Hn Hp ->. rewrite (wt_entry _ _ Ht), Hp. unfold WriteInfoSize. apply Z.div_lt_upper_bound; lia.
Qed.

(** What the daemons promise from there on: whatever the two do, together with any
    writes to the source, once the server has handled all that has arrived and no
    entry is pending at the client, the replica is equal to the source, unless the
    ring has overflown or more writes were buffered during the scan than the
    journal can hold.  [R] is the replica before. *)
Definition follows (xxhash : list byte -> Z) (nw : nat) (R : list byte) (s : Session) (cs : CSession) : Prop :=
  forall es x, Forall (sys_undisturbed S0 t) es -> no_collision xxhash S0 R (sys_sources es) ->
    sys_run xxhash nw es (mkSystem s cs) = Done x ->
    let sent_since := added (csent (cl cs)) (csent (cl (client x))) in
    new_scan ∉ sent_since -> Z.of_nat (buffered sent_since) <= tiBufferByteSize t / WriteInfoSize ->
    server_idle (System.server x) -> client_drained (client x) ->
    content (TargetDevFd (srv (System.server x))) = content (UnderDevFile (cl (client x))).

Lemma requested_follows xxhash nw j s cs :
  (0 < nw)%nat -> requested S0 t n [] j (mkSystem s cs) ->
  slotCount (header j) BufWrites = tiBufferByteSize t / WriteInfoSize ->
  follows xxhash nw (content (TargetDevFd (srv s))) s cs.
Proof using.
  intros Hnw Rq Hj es x Hq Hcol Ex ss Hnew Hbuf Hi Hd.
  destruct (run_tracked xxhash S0 t n [] j _ Rq nw Hnw es x Hq Ex) as (cps & sps & K).
  assert (Hss : ss = cps) by (unfold ss, added; rewrite (tk_csent _ _ _ _ _ _ _ K); apply drop_app_length).
  rewrite Hss in *. destruct (tracked_replica xxhash S0 t n [] j _ es cps sps x Rq K Hq Hcol Hi) as [[H|H]|[_ H]];
    [done|unfold overfull in H; lia|by apply H].
Qed.

End Boot.

(** ** Pages of four kilobytes, a ring of two entries, a disk of eight bytes, and
    devices full of old data *)

Definition boot_target : TargetInfo := mkTargetInfo 4096 4104 8208 1.
Definition boot_source : list byte := replicate 8 Byte.x07.
Definition boot_server (journalSize : nat) : Server :=
  {| TargetDevFd := {| content := replicate 8 Byte.x5a; faults := [] |};
     JournalDev := {| content := replicate journalSize Byte.x5a; faults := [] |};
     SJournal := None; ClientInfo := None; Connected := false; sent := []; sendFaults := [];
     state := Server.StateDisconnected |}.
Definition boot_daemon (journalSize : nat) : Daemon :=
  mkDaemon (boot_server journalSize) [AcceptConn (inl <$> first_packets boot_source boot_target) []] CheckTerm [] WaitSignal
    (make_chan 0) false false false.

Lemma boot_waiting size : Z.of_nat size = 300000 -> waiting boot_source boot_target (boot_daemon size).
Proof.
  intros Hs. split; try done; cbn -[replicate]; unfold dev_size, boot_server; cbn -[replicate].
  - rewrite length_replicate, Hs. unfold GetHeaderByteSize. lia.
  - rewrite length_replicate, Hs. vm_compute. discriminate.
Qed.

Definition boot_ring : bdr_ring_buffer :=
  mkRing (replicate (2 * 4104)%nat Byte.x33) (mkBufferInfo 0 0 0 0 2).
Lemma boot_ring_rel : ring_rel 4096 2 boot_ring a_reset.
Proof.
  destruct (init_refines 4096 2 (replicate (2 * 4104)%nat Byte.x33)) as (rb & E & R);
    [lia|lia|by rewrite length_replicate|].
  injection E as <-. exact R.
Qed.

(** A write to the source during the scan. *)
Definition boot_bio : list segment := [mkSegment 0 (replicate 4096 Byte.xdd) 0 1].
Definition boot_run : list sys_event :=
  (SServer <$> [EMain; EMain; EMain; EHash HStart]) ++
  (SClient <$> [CListen; CMonitor false; CListen]) ++
  (SServer <$> [EHash HTake; EHash (HRead 0); EHash (HHash 0); EHash (HSend 0); EHash HEnd]) ++
  (SClient <$> [CListen; CListen; CHashRead; CSource boot_bio; CListen; CHashSend 0]) ++
  (SServer <$> [EMain; EMain; EJournal]) ++
  (SClient <$> [CHashRead; CListen; CListen; CListen; CListen; CListen; CListen; CMonitor false; CMonitor false]) ++
  (SServer <$> [EMain; EMain; EMain; EJournal; EJournal; EMain]).

Lemma boot_undisturbed : Forall (sys_undisturbed boot_source boot_target) boot_run.
Proof.
  unfold boot_run. rewrite !Forall_app, !Forall_fmap.
  split_and!; repeat (apply Forall_cons_2; [first [discriminate|exact I|idtac]|]); try apply Forall_nil_2.
  split; apply Forall_singleton; [vm_compute; lia|split; cbn -[replicate]; rewrite ?length_replicate; try lia; width_tac].
Qed.

Lemma boot_no_collision : no_collision be_get boot_source (replicate 8 Byte.x5a) (sys_sources boot_run).
Proof.
  change (sys_sources boot_run) with [(0%nat, [Byte.xdd])]. intros o time Ht Ho.
  change (block_offsets (Z.of_nat (length (replicate 8 Byte.x5a))) HashedSpaceBase) with [0] in Ho.
  apply list_elem_of_singleton in Ho as ->. destruct time as [|[|time]]; [| |cbn in Ht; lia]; vm_compute; discriminate.
Qed.

Definition boot_steps : list devent := replicate 5 DHandler.

(** The run ends with an idle server. *)
Lemma boot_kept :
  match client_main boot_source boot_target boot_ring with
  | Some cs =>
      match drun be_get 1 boot_steps (boot_daemon (Z.to_nat 300000)) with
      | Done d =>
          match handler d with
          | Serving s =>
              match sys_run be_get 1 boot_run (mkSystem s cs) with
              | Done x => check_idle x && check_kept (tiBufferByteSize boot_target / WriteInfoSize)
                                            (added (csent (cl cs)) (csent (cl (client x))))
              | _ => false
              end
          | _ => false
          end
      | _ => false
      end
  | None => false
  end = true.
Proof. vm_compute. reflexivity. Qed.

