(* ===== verification/Startup.v ===== *)
(** * The server from its command line on ([main] in [server/server.go])

    [main] checks the configuration and that both paths name devices, opens the
    target, listens, and runs.  What the files are is given: their modes
    ([os.Stat]) and the devices behind the paths. *)
From S2P Require Import Prelude GoInt GoMonad GoChan Utils BlockDev Blocks Networking.
From S2P Require Import Args ServerConfig Journal Server Client Session ServerReplay ClientSafety Connections Boot.
Open Scope Z_scope.

(** [os.ModeDevice]. *)
Definition ModeDevice : Z := 2 ^ 26.

Section Startup.
Context (stat : string -> error + Z) (device : string -> Dev).

Definition IsDevice (path : string) : error + bool :=
  match stat path with
  | inl e => inl e
  | inr mode => inr (negb (Z.land mode ModeDevice =? 0))
  end.

(** How [main] ends: with a message and status 1 ([log.Fatalf]), by returning
    because the journal could not be recovered, or in the daemon. *)
Inductive main_result :=
| Fatal (msg : string) (e : option error)
| Stopped
| Running (d : Daemon).

Definition check_device (path failed wrong : string) (k : main_result) : main_result :=
  match IsDevice path with
  | inl e => Fatal failed (Some e)
  | inr false => Fatal wrong None
  | inr true => k
  end.

Definition server_main (given : list flag) (listenErr : option error) (conns : list accepted) : main_result :=
  let cfg := ServerConfig.NewConfig given in
  match validate_config cfg with
  | Some e => Fatal "Invalid arguments: " (Some e)
  | None =>
      check_device (TargetDevPath cfg) "Failed to check if there is device on target path"
        "Target has to be a device (e.g. /dev/loop0)"
      (check_device (JournalPath cfg) "Failed to check if there is device on journal path"
        "Journal has to be a device (e.g. /dev/loop0)"
      (match NewServer (Port cfg) (device (TargetDevPath cfg)) (device (JournalPath cfg)) listenErr with
       | Err e => Fatal "Failed to initialize server: " (Some e)
       | Panic => Stopped
       | Ret v => match Connections.Run conns v with Some d => Running d | None => Stopped end
       end))
  end.

(** A daemon runs only on two devices, with every required flag given. *)
Lemma running_on_devices given listenErr conns d :
  server_main given listenErr conns = Running d ->
  let cfg := ServerConfig.NewConfig given in
  validate_config cfg = None /\ listenErr = None /\
  (forall path, path = TargetDevPath cfg \/ path = JournalPath cfg -> IsDevice path = inr true).
Proof using.
  unfold server_main, check_device. intros E. cbn zeta. destruct (validate_config _); [done|].
  destruct (IsDevice (TargetDevPath _)) as [|[|]] eqn:Et; [done| |done].
  destruct (IsDevice (JournalPath _)) as [|[|]] eqn:Ej; [done| |done].
  split; [done|]. split; [|by intros path [-> | ->]].
  unfold NewServer in E. destruct (OpenFile _) as [[| |] ?]; [|done|done]. by destruct listenErr.
Qed.

(** A journal device that no server has written is left alone. *)
Lemma CheckJournal_fresh v :
  healthy (JournalDev v) -> GetHeaderByteSize <= dev_size (JournalDev v) ->
  VerifyMagic (magic (decode_header (sub 0 (Z.to_nat GetHeaderByteSize) (content (JournalDev v))))) = false ->
  CheckJournal v = (Ret tt, v).
Proof using.
  intros Hd Hs Hm. unfold CheckJournal. rewrite (bind_Ret _ _ _ (inr ErrInvalidMagic) v); [done|].
  unfold catch, on_journalDev, zoom, OpenJournal.
  rewrite (bind_Ret _ _ _ tt (JournalDev v)) by (unfold OpenFile, sys_unit; rewrite syscall_healthy; done).
  rewrite (bind_Ret _ _ _ (decode_header (sub 0 (Z.to_nat GetHeaderByteSize) (content (JournalDev v)))) (JournalDev v)).
  2:{ unfold ReadHeader. erewrite bind_Ret by (apply ReadAt_healthy; [done|lia|unfold GetHeaderByteSize in *; lia]). done. }
  rewrite Hm. cbn. by destruct v.
Qed.

(** So [main] on a replica of the size of the source and on such a journal device
    leads to the daemon that the client finds waiting. *)
Lemma main_waits S0 t given conns :
  let cfg := ServerConfig.NewConfig given in
  let target := device (TargetDevPath cfg) in
  let journal := device (JournalPath cfg) in
  validate_config cfg = None -> IsDevice (TargetDevPath cfg) = inr true -> IsDevice (JournalPath cfg) = inr true ->
  healthy target -> dev_size target < 2 ^ 63 -> length (content target) = length S0 ->
  healthy journal -> GetHeaderByteSize <= dev_size journal < 2 ^ 63 ->
  VerifyMagic (magic (decode_header (sub 0 (Z.to_nat GetHeaderByteSize) (content journal)))) = false ->
  0 < tiBufferByteSize t ->
  tiBufferByteSize t + Z.of_nat (length (block_offsets (Z.of_nat (length S0)) HashedSpaceBase)) * CorrectBlockByteSize <=
    dev_size journal - GetHeaderByteSize ->
  exists d, server_main given None conns = Running d /\ waiting S0 t d /\ accepts d = conns /\
    TargetDevFd (Connections.server d) = target.
Proof using.
  intros cfg target journal Hv Ht Hj Hth Hts Htl Hjh Hjs Hm Hb Hr. unfold server_main, check_device. fold cfg.
  rewrite Hv, Ht, Hj. unfold NewServer, OpenFile, sys_unit. rewrite syscall_healthy by done. unfold Connections.Run.
  rewrite CheckJournal_fresh; [|done|apply Hjs|done]. eexists. split; [done|]. by split; [split|].
Qed.
End Startup.
