(* ===== verification/Reconnect.v ===== *)
(** * A lost connection

    The client's listener sees the end of the connection, dials until the server
    answers, introduces itself and asks for a scan; the server's session ends and
    its handler accepts the next connection.  From there on the two are as after
    their start. *)
From S2P Require Import Prelude GoInt GoMonad GoChan Utils BlockDev Blocks Networking.
From S2P Require Import RingBuffer Pause Client ClientFacts ClientSession ClientSafety ClientSessionProps ClientSends.
From S2P Require Import Journal Server ServerReplay Session SessionSafety SessionDrain.
From S2P Require Import ClientScan ClientFlush ClientOutput EndToEnd Connections ConnectionsSafety ConnectionsProps ConnectionsShutdown.
From S2P Require Import System SystemTracked Boot Startup.
Open Scope Z_scope.

Section Reconnect.
Context (S0 : list byte) (t : TargetInfo) (n : nat).
Context (Ht : wf_target t n) (Hpage : PageSize t <= 4096).
Context (Hsize : Z.of_nat (length S0) < 2 ^ 63).
#[local] Abbreviation first_packets := (first_packets S0 t).

(** ** The client *)

(** A client outside a scan whose connection has ended; the ring may hold
    anything. *)
Record client_lost (s : CSession) : Prop := {
  cl_listen : listenPc s = LReceive;
  cl_incoming : hd RTimeout (incoming s) = RError IoEOF;
  cl_term : termIn (cl s) = None;
  cl_ioctl : ioctlFaults (cl s) = [];
  cl_dev : UnderDevFile (cl s) = {| content := S0; faults := [] |};
  cl_contr : cinv (cl s);
  cl_state : cstate (cl s) <> StateReconnecting;
  cl_repl : replicator s = None;
  cl_hashers : hashers s = None;
  cl_queue : ClientSession.hashQueue s = make_chan HashPacketQueueSize;
  cl_monitor : match monitorPc s with MWait | MWaiting => True | _ => False end;
  cl_target : cTarget (cl s) = t;
  cl_ring : exists a, ring_rel (Z.to_nat (PageSize t)) n (kernel (cl s)) a;
}.

Lemma client_reconnects s es ds :
  client_lost s -> dials s = (inl <$> es) ++ inr (mkConn [] []) :: ds ->
  exists s', listens (S (S (length es))) s = Done s' /\ scan_asked S0 t n s' /\
    csent (cl s') = csent (cl s) ++ first_packets.
Proof using.
  intros [C1 C2 C3 C4 C5 C6 C7 C8 C9 C10 C11 C12 (a & C13)] Hd.
  rewrite (reconnect_eq s es (mkConn [] []) ds) by (done || by rewrite C5).
  eexists. split; [reflexivity|]. split.
  - split; cbn; try done.
    exists a_reset. split; [by apply (reset_refines _ _ _ a)|]. by split.
  - cbn. unfold Boot.first_packets. by rewrite C5, C12.
Qed.

(** ** The server *)

(** An ended session of which no goroutine holds a write, a correct block, or a
    block to hash. *)
Definition spent (s : Session) : Prop :=
  writePc s = WIdle /\ writeQueue s = mkChan [] WritePacketQueueSize true /\
  correctPc s = None /\ correctQueue s = mkChan [] CorrectPacketQueueSize true /\ strays s = [].

Lemma spent_blocked xxhash nw e i d s :
  ended d !! i = Some s -> spent s -> ended_step xxhash nw e i d = Blocked.
Proof using.
  intros E (H1 & H2 & H3 & H4 & H5). unfold ended_step. rewrite E.
  destruct e; try done; cbn [ended_event step].
  - unfold correct_step. cbn. by rewrite H3, H4.
  - unfold write_step. cbn. by rewrite H1, H2.
  - unfold stray_step. cbn. by rewrite H5.
Qed.

(** A server whose session is between two packets, its workers idle or gone and its
    queues empty, and whose client is gone. *)
Record session_lost (s : Session) (d : Daemon) : Prop := {
  sn_handler : handler d = Serving s;
  sn_inv : daemon_inv d;
  sn_term : dTermChan d = make_chan 0;
  sn_listener : listenerClosed d = false;
  sn_open : targetClosed d = false;
  sn_main : mainPc s = MLoop;
  sn_decoder : hd (inr IoEOF) (decoder s) = inr IoEOF /\ decoder s <> [];
  sn_hash : hashPc s = HNone;
  sn_journal : journalWorker s = false;
  sn_repl : replicationWorkers s = 0%nat;
  sn_write : writePc s = WIdle /\ writeQueue s = make_chan WritePacketQueueSize;
  sn_correct : correctPc s = None /\ correctQueue s = make_chan CorrectPacketQueueSize;
  sn_strays : strays s = [];
  sn_ended : Forall spent (ended d);
  sn_device : target_ok (Connections.server d);
  sn_len : length (content (TargetDevFd (Connections.server d))) = length S0;
  sn_jdev : healthy (JournalDev (Connections.server d));
  sn_jsize : GetHeaderByteSize <= dev_size (JournalDev (Connections.server d)) < 2 ^ 63;
  sn_buffer : 0 < tiBufferByteSize t;
  sn_room : tiBufferByteSize t +
    Z.of_nat (length (block_offsets (Z.of_nat (length S0)) HashedSpaceBase)) * CorrectBlockByteSize <=
    dev_size (JournalDev (Connections.server d)) - GetHeaderByteSize;
}.

(** The way out of [HandleClient] for such a session: [wq] and [cq] say whether the
    queues of the two workers that outlive it are closed. *)
Record departing (m : main_pc) (wq cq : bool) (s : Session) : Prop := {
  dp_main : mainPc s = m;
  dp_hash : hashPc s = HNone;
  dp_journal : journalWorker s = false;
  dp_repl : replicationWorkers s = 0%nat;
  dp_wpc : writePc s = WIdle;
  dp_write : writeQueue s = mkChan [] WritePacketQueueSize wq;
  dp_cpc : correctPc s = None;
  dp_correct : correctQueue s = mkChan [] CorrectPacketQueueSize cq;
  dp_strays : strays s = [];
}.

Lemma departs_loop nw s l :
  session_inv s -> departing MLoop false false s -> TermChan s = make_chan 0 -> decoder s = inr IoEOF :: l ->
  exists s', main_step nw s = Done s' /\ departing MReturn1 false false s' /\ srv s' = srv s.
Proof using.
  intros I [D1 D2 D3 D4 D5 D6 D8 D7 D9] Htm Hd.
  pose proof (si_closed _ I QJournal) as C1. pose proof (si_closed _ I QReplication) as C2.
  pose proof (si_term _ I) as C3. cbn in C1, C2, C3. rewrite D1 in C1, C2, C3.
  unfold main_step. rewrite D1, Htm, Hd. change (ChanHasTerminated (make_chan 0)) with false.
  assert (EOF : IsConnectionClosed (Some IoEOF) = true) by reflexivity. rewrite EOF.
  unfold main_return, close_hashTermChan, close_queue, chan_close. cbn. rewrite C3. cbn. rewrite C1. cbn. rewrite C2. cbn.
  eexists. split; [done|]. by split.
Qed.

Lemma departs_1 nw s :
  departing MReturn1 false false s ->
  exists s', main_step nw s = Done s' /\ departing MReturn2 false true s' /\ srv s' = srv s.
Proof using.
  intros [D1 D2 D3 D4 D5 D6 D8 D7 D9]. unfold main_step, close_queue, chan_close. rewrite D1, D4. cbn. rewrite D7. cbn.
  eexists. split; [done|]. by split.
Qed.

Lemma departs_2 nw s :
  departing MReturn2 false true s ->
  exists s', main_step nw s = Done s' /\ departing MReturn3 true true s' /\ srv s' = srv s.
Proof using.
  intros [D1 D2 D3 D4 D5 D6 D8 D7 D9]. unfold main_step, close_queue, chan_close. rewrite D1, D3. cbn. rewrite D6. cbn.
  eexists. split; [done|]. by split.
Qed.

Lemma departs_3 nw s :
  departing MReturn3 true true s ->
  exists s', main_step nw s = Done s' /\ departing MReturned true true s' /\
    srv s' = set_connected false (set_state StateDisconnected (srv s)).
Proof using.
  intros [D1 D2 D3 D4 D5 D6 D8 D7 D9]. unfold main_step, hash_idle. rewrite D1, D2. eexists. split; [done|]. by split.
Qed.

(** What the daemon keeps while its session goes. *)
Record keeps (d d' : Daemon) : Prop := {
  kp_accepts : accepts d' = accepts d;
  kp_ended : ended d' = ended d;
  kp_term : dTermChan d' = dTermChan d;
  kp_listener : listenerClosed d' = listenerClosed d;
  kp_open : targetClosed d' = targetClosed d;
  kp_target : TargetDevFd (Connections.server d') = TargetDevFd (Connections.server d);
  kp_journal : JournalDev (Connections.server d') = JournalDev (Connections.server d);
}.

Lemma daemon_keeps_trans d1 d2 d3 : keeps d1 d2 -> keeps d2 d3 -> keeps d1 d3.
Proof using. intros [] []. split; congruence. Qed.

Lemma load_devices d s : targetClosed d = false ->
  TargetDevFd (srv (load d s)) = TargetDevFd (Connections.server d) /\
  JournalDev (srv (load d s)) = JournalDev (Connections.server d).
Proof using. intros H. unfold load, closed_target, closed_conn. rewrite H. by destruct (connClosed d). Qed.

Lemma departs xxhash nw m wq cq s d :
  handler d = Serving s -> targetClosed d = false -> m <> MReturned ->
  (exists s', main_step nw (load d s) = Done s' /\ departing m wq cq s' /\ srv s' = srv (load d s)) ->
  exists s' d', dstep xxhash nw DHandler d = Done d' /\ handler d' = Serving s' /\ departing m wq cq s' /\ keeps d d'.
Proof using.
  intros Hh Ho Hm (s' & E & D & Hs). destruct (load_devices d s Ho) as [L1 L2].
  exists s', (set_handler (srv s') (Serving s') d). split_and!; [|done|done|].
  - cbn [dstep]. unfold handler_step, session_step. rewrite Hh. cbn [step]. rewrite E. cbn [abind].
    rewrite (dp_main _ _ _ _ D). by destruct m.
  - split; cbn; try done; rewrite Hs; done.
Qed.

Lemma load_departing m wq cq s d : departing m wq cq s -> departing m wq cq (load d s).
Proof using. by intros []. Qed.

Lemma session_leaves xxhash nw s d :
  session_lost s d ->
  exists d', drun xxhash nw (replicate 4 DHandler) d = Done d' /\ waiting S0 t d' /\
    accepts d' = accepts d /\ Forall spent (ended d') /\
    TargetDevFd (Connections.server d') = TargetDevFd (Connections.server d).
Proof using.
  intros [H1 H2 H3 H4 H5 H6 [H7 H7'] H8 H9 H10 [H11 H12] [H21 H13] H22 H14 H15 H16 H17 H18 H19 H20].
  assert (I : session_inv (load d s)).
  { destruct H2 as [D _ _ _ _]. rewrite H1 in D. apply load_inv_at. by destruct D as (_ & _ & D). }
  destruct (decoder s) as [|e l] eqn:Ed; [done|]. cbn in H7. subst e.
  assert (D0 : departing MLoop false false s) by (by split).
  destruct (departs xxhash nw MReturn1 false false s d H1 H5) as (s1 & d1 & E1 & Hh1 & D1 & K1);
    [done|by apply (departs_loop nw (load d s) l); [|apply load_departing|..]|].
  destruct (departs xxhash nw MReturn2 false true s1 d1 Hh1) as (s2 & d2 & E2 & Hh2 & D2 & K2);
    [by rewrite (kp_open _ _ K1)|done|by apply departs_1, load_departing|].
  destruct (departs xxhash nw MReturn3 true true s2 d2 Hh2) as (s3 & d3 & E3 & Hh3 & D3 & K3);
    [by rewrite (kp_open _ _ K2), (kp_open _ _ K1)|done|by apply departs_2, load_departing|].
  pose proof (daemon_keeps_trans _ _ _ (daemon_keeps_trans _ _ _ K1 K2) K3) as [K4 K5 K6 K7 K8 K9 K10].
  destruct (departs_3 nw (load d3 s3)) as (s4 & E4 & D4 & Hs4); [by apply load_departing|].
  destruct (load_devices d3 s3) as [L1 L2]; [by rewrite K8|].
  exists (set_ended (srv s4) (ended d3 ++ [s4]) (set_handler (srv s4) CheckTerm d3)). split_and!.
  - cbn [drun replicate]. rewrite E1. cbn [abind]. rewrite E2. cbn [abind]. rewrite E3. cbn [abind dstep].
    unfold handler_step, session_step. rewrite Hh3. cbn [step]. rewrite E4. cbn [abind].
    by rewrite (dp_main _ _ _ _ D4).
  - assert (T : TargetDevFd (srv s4) = TargetDevFd (Connections.server d)) 
      by (transitivity (TargetDevFd (srv (load d3 s3))); [by rewrite Hs4|by rewrite L1]).
    assert (J : JournalDev (srv s4) = JournalDev (Connections.server d)) 
      by (transitivity (JournalDev (srv (load d3 s3))); [by rewrite Hs4|by rewrite L2]).
    split; cbn [handler set_handler set_ended dTermChan listenerClosed targetClosed Connections.server];
      unfold target_ok; rewrite ?T, ?J; try done; [by rewrite K6|by rewrite K7|by rewrite K8|by rewrite Hs4].
  - done.
  - cbn [ended set_ended]. rewrite K5. apply Forall_app. split; [done|]. apply Forall_singleton. by destruct D4.
  - transitivity (TargetDevFd (srv (load d3 s3))); [cbn [Connections.server set_ended]; by rewrite Hs4|by rewrite L1].
Qed.

End Reconnect.

(** ** A client that has come and gone, and comes back *)

Definition again_daemon : Daemon :=
  mkDaemon (boot_server (Z.to_nat 300000))
    [AcceptConn [inl (init_packet 8 boot_target); inr IoEOF] [];
     AcceptConn (inl <$> Boot.first_packets boot_source boot_target) []]
    CheckTerm [] WaitSignal (make_chan 0) false false false.

Definition again_client : CSession :=
  mkCSession
    {| cTarget := boot_target; UnderDevFile := {| content := boot_source; faults := [] |}; kernel := boot_ring;
       MonitorPauseContr := NewPauseController; cstate := Client.StateWriting; csent := [];
       encFaults := []; ioctlFaults := []; termIn := None |}
    [RError IoEOF] [inl (ErrMsg "connection refused"); inr (mkConn [] [])]
    (make_chan HashPacketQueueSize) LReceive None MWait None.

Lemma again_client_lost : client_lost boot_source boot_target 2 again_client.
Proof. split; try done; [split_and!; cbn; [done|done|lia]|]. exists a_reset. exact boot_ring_rel. Qed.

(** What [session_lost] looks at. *)
Lemma again_viewed :
  match drun be_get 1 boot_steps again_daemon with
  | Done d =>
      match handler d with
      | Serving s =>
          let v := Connections.server d in
          Some (mainPc s, decoder s, hashPc s, journalWorker s, replicationWorkers s, (writePc s, writeQueue s, correctPc s, correctQueue s, strays s),
                (ended d, dTermChan d, listenerClosed d, targetClosed d, accepts d),
                (content (TargetDevFd v), faults (TargetDevFd v), faults (JournalDev v), dev_size (JournalDev v)))
      | _ => None
      end
  | _ => None
  end =
  Some (MLoop, [inr IoEOF], HNone, false, 0%nat, (WIdle, make_chan WritePacketQueueSize, None, make_chan CorrectPacketQueueSize, []),
    ([], make_chan 0, false, false, [AcceptConn (inl <$> Boot.first_packets boot_source boot_target) []]),
    (replicate 8 Byte.x5a, [], [], 300000)).
Proof. vm_compute. reflexivity. Qed.

Lemma again_run : Connections.Run (accepts again_daemon) (boot_server (Z.to_nat 300000)) = Some again_daemon.
Proof.
  unfold Connections.Run. rewrite CheckJournal_fresh; [reflexivity|done| |vm_compute; reflexivity].
  change (JournalDev _) with {| content := replicate (Z.to_nat 300000) Byte.x5a; faults := [] |}.
  unfold dev_size. cbn [content]. rewrite length_replicate. unfold GetHeaderByteSize. lia.
Qed.

Lemma again_lost :
  exists d s, drun be_get 1 boot_steps again_daemon = Done d /\ session_lost boot_source boot_target s d /\
    accepts d = [AcceptConn (inl <$> Boot.first_packets boot_source boot_target) []] /\
    content (TargetDevFd (Connections.server d)) = replicate 8 Byte.x5a.
Proof.
  assert (I : forall d, drun be_get 1 boot_steps again_daemon = Done d -> daemon_inv d).
  { intros d E. eapply daemon_reachable_inv; [eapply daemon_Run_inv; [| |exact again_run]; reflexivity|].
    eapply drun_reachable; [apply dreach_refl|exact E]. }
  pose proof again_viewed as V.
  destruct (drun be_get 1 boot_steps again_daemon) as [d| |] eqn:E; [|discriminate V|discriminate V].
  destruct (handler d) as [| | | | |s|] eqn:Hh; try discriminate V.
  injection V as V1 V2 V3 V4 V5 V6 V7 V18 V8 V19 V9 V10 V11 V12 V13 V14 V15 V16 V17.
  exists d, s. split; [reflexivity|]. split; [|split; [exact V13|exact V14]].
  split; [exact Hh|exact (I d eq_refl)|exact V10|exact V11|exact V12|exact V1| |exact V3|exact V4|exact V5|
      split; [exact V6|exact V7]|split; [exact V18|exact V8]|exact V19|rewrite V9; constructor| | |exact V16|rewrite V17; unfold GetHeaderByteSize; lia|
      cbn; lia|rewrite V17; vm_compute; discriminate].
  - rewrite V2. by split.
  - split; [exact V15|]. unfold dev_size. rewrite V14. reflexivity.
  - rewrite V14. reflexivity.
Qed.

