(* ===== verification/ClientProcess.v ===== *)
(** * The client as a process: [main], [Run] and its end ([client.go])

    [main] makes the client, announces its disk and calls [Run], which starts the
    goroutines and waits for a signal or for one of them to end the daemon; then
    it closes the connection, waits for the listener and the monitor, and gives
    back the devices and the mapped ring.  A [Process] is the goroutines with the
    place of [Run]; [prun] is a schedule of all of them.  A call on what has been
    closed fails, and a goroutine that touches the ring when it is no longer
    mapped kills the process. *)
From S2P Require Import Prelude GoInt GoMonad GoChan Utils BlockDev Blocks Networking Journal JournalCodec.
From S2P Require Import Pause RingBuffer Server Connections Client ClientFacts ClientProps ClientSession ClientSafety ClientScan ClientFlush.
Open Scope Z_scope.

(** ** The process *)

(** Where [Run] is. *)
Inductive end_pc :=
| RSelect          (* the [select] on [TermChan] and the signals *)
| RShutdown        (* InitiateShutdown: its [select] *)
| RClose           (* ... which has found [TermChan] open: close it *)
| RCloseConn       (* CloseClientConn *)
| RJoin            (* termWg.Wait() *)
| RRelease         (* CloseResources *)
| RPrint           (* the last output *)
| RReturned.

(** [signalled]: a signal has arrived; [connDown], [released]: the connection, and
    the devices with the mapping, are closed. *)
Record Process := mkProcess {
  session : CSession;
  runAt : end_pc;
  signalled : bool;
  connDown : bool;
  released : bool;
}.

Definition set_session (s : CSession) (p : Process) : Process :=
  mkProcess s (runAt p) (signalled p) (connDown p) (released p).
Definition set_run (r : end_pc) (p : Process) : Process :=
  mkProcess (session p) r (signalled p) (connDown p) (released p).
Definition signal (p : Process) : Process :=
  mkProcess (session p) (runAt p) true (connDown p) (released p).
Definition CloseClientConn (p : Process) : Process :=
  mkProcess (session p) (runAt p) (signalled p) true (released p).
Definition CloseResources (p : Process) : Process :=
  mkProcess (session p) (runAt p) (signalled p) (connDown p) true.

(** The calls of a goroutine on what is closed. *)
Definition ErrBadDescriptor : error := ErrMsg "bad file descriptor".

Definition closed_calls (p : Process) (c : Client) : Client :=
  let c := if connDown p then set_net (csent c) (replicate closedCalls (Some ErrNetClosed)) c else c in
  if released p
  then set_under (close_dev (UnderDevFile c)) (set_kernel (replicate closedCalls (Some ErrBadDescriptor)) (kernel c) c)
  else c.

Definition load (p : Process) : CSession :=
  let s := set_cl (closed_calls p (cl (session p))) (session p) in
  if connDown p then set_incoming [RError ErrNetClosed] s else s.

(** The step reads an entry out of the mapped ring. *)
Definition uses_ring (e : cevent) (s : CSession) : bool :=
  match e, listenPc s, monitorPc s with
  | CListen, LEntries b i, _ => i <? biLength b
  | CMonitor _, _, MEntries b i => i <? biLength b
  | _, _, _ => false
  end.

(** [termWg]: the listener and the monitor. *)
Definition joined (s : CSession) : bool :=
  match listenPc s, monitorPc s with LReturned, MReturned => true | _, _ => false end.

Definition end_step (p : Process) : attempt Process :=
  match runAt p with
  | RSelect => if signalled p || terminated (session p) then Done (set_run RShutdown p) else Blocked
  | RShutdown => Done (set_run (if terminated (session p) then RCloseConn else RClose) p)
  | RClose => abind (close_TermChan (session p)) (fun s => Done (set_run RCloseConn (set_session s p)))
  | RCloseConn => Done (set_run RJoin (CloseClientConn p))
  | RJoin => if joined (session p) then Done (set_run RRelease p) else Blocked
  | RRelease => Done (set_run RPrint (CloseResources p))
  | RPrint => Done (set_run RReturned p)
  | RReturned => Blocked
  end.

Inductive pevent :=
| PSignal
| PRun
| PGo (e : cevent).

(** The process ends with [main]. *)
Definition pstep (xxhash : list byte -> Z) (e : pevent) (p : Process) : attempt Process :=
  match runAt p, e with
  | RReturned, _ => Blocked
  | _, PSignal => Done (signal p)
  | _, PRun => end_step p
  | _, PGo CShutdown => Blocked
  | _, PGo e =>
      if released p && uses_ring e (session p) then Crash
      else abind (cstep xxhash e (load p)) (fun s => Done (set_session s p))
  end.

Fixpoint prun (xxhash : list byte -> Z) (es : list pevent) (p : Process) : attempt Process :=
  match es with
  | [] => Done p
  | e :: es => abind (pstep xxhash e p) (prun xxhash es)
  end.

(** The mode the configuration asks for: [-fullscan], [-fullreplicate],
    [-initialreplication]. *)
Record mode := mkMode {
  scanAll : bool;
  replicateAll : bool;
  scanFirst : bool;
}.

(** [main], with valid arguments: [log.Fatalf] is an error. *)
Definition client_process (m : mode) (charDev : option error) (target : TargetInfo + error)
  (mmap : bdr_ring_buffer + error) (dial : error + connection) (underDev : Dev)
  (attempts : list (error + connection)) : outcome Process :=
  match NewClient charDev target mmap dial underDev with
  | Err e => Err (Errorf_v "Failed to initiate sender: " e)
  | Panic => Panic
  | Ret (c, packets) =>
      match SendInitPacket c with
      | (Err e, _) => Err (Errorf_v "failed to sent init packet: " e)
      | (Panic, _) => Panic
      | (Ret _, c) =>
          match ClientSession.Run (scanAll m) (replicateAll m) (scanFirst m) c packets attempts with
          | Done s => Ret (mkProcess s RSelect false false false)
          | _ => Panic
          end
      end
  end.

(** ** What holds of the client at every time *)

Section Invariant.
Context (t : TargetInfo) (n : nat) (Ht : wf_target t n).
Abbreviation page := (Z.to_nat (PageSize t)).

(** [over]: the daemon is being terminated. *)
Record client_inv (over : bool) (c : Client) : Prop := {
  ci_contr : cinv c;
  ci_target : cTarget c = t;
  ci_ring : exists a, ring_rel page n (kernel c) a;
  ci_over : over = true -> termIn c = Some O;
}.

(** What the kernel tells of the ring: entries inside it, or an overflow; the
    client does not ask any more when it is being terminated. *)
Definition info_ok (over : bool) (b : BufferInfo) : Prop :=
  (HasNewWrites b = true -> CheckOverflow b = false -> wf_info n b) /\
  (over = true -> HasNewWrites b = false).

Section Client.
Context (over : bool).
Abbreviation I := (client_inv over).
Abbreviation sureI := (sure (client_inv over)).

Lemma calm_under_inv {A} (m : M Dev A) : (forall d, (m d).1 <> Panic) -> calm I (zoom UnderDevFile set_under m).
Proof using.
  intros H c [H1 H2 H3 H4]. specialize (H (UnderDevFile c)). unfold zoom.
  by destruct (m (UnderDevFile c)) as [r d].
Qed.

Lemma calm_Encode_inv p : calm I (Encode p).
Proof using. intros c [H1 H2 H3 H4]. unfold Encode. by destruct (encFaults c) as [|[e|] fs]. Qed.

Lemma sure_CheckTermination : sureI (fun b => over = true -> b = true) CheckTermination.
Proof using.
  intros c C. unfold CheckTermination. destruct (termIn c) as [[|k]|] eqn:E.
  - by exists true, c.
  - exists false, (set_termIn (Some k) c). destruct C as [C1 C2 C3 C4].
    split; [done|]. split; [split; try done|]; intros Ho; specialize (C4 Ho); congruence.
  - exists false, c. split; [done|]. split; [done|]. intros Ho. pose proof (ci_over _ _ C Ho). congruence.
Qed.
Hint Resolve calm_Encode_inv : sure.

Lemma sure_term : sureI anything CheckTermination.
Proof using. eapply sure_weaken, sure_CheckTermination. Qed.
Hint Resolve sure_term : sure.

Lemma sure_send_loop fuel p : sureI anything (send_loop fuel p).
Proof using.
  induction fuel as [|fuel IH]; cbn [send_loop]; [auto with sure|].
  apply sure_seq; [auto with sure|]. intros [[]|e]; [auto with sure|].
  apply sure_seq; [auto with sure|]. intros []; auto with sure.
Qed.
Hint Resolve sure_send_loop : sure.

Lemma sure_SendPacket p : sureI anything (SendPacket p).
Proof using. unfold SendPacket. auto with sure. Qed.

Lemma sure_SetState st : sureI anything (SetState st).
Proof using. apply sure_modify. by intros c [H1 H2 H3 H4]. Qed.

Lemma sure_request st : sureI anything (on_contr (lift_unit (request st))).
Proof using.
  intros c [H1 H2 H3 H4]. unfold on_contr, lift_unit. rewrite request_ok by done.
  eexists _, _. split; [reflexivity|]. split; [|done]. by split.
Qed.

Lemma sure_IsPaused : sureI anything (on_contr IsPaused).
Proof using. intros c C. rewrite IsPaused_same by apply C. by eexists _, c. Qed.
End Client.
#[local] Hint Resolve sure_term calm_Encode_inv sure_send_loop sure_SendPacket sure_SetState sure_request sure_IsPaused : sure.

Lemma executeIOCTL_inv cmd c : client_inv false c ->
  (executeIOCTL cmd c).1 <> Panic /\ client_inv false (executeIOCTL cmd c).2 /\
  forall b, (executeIOCTL cmd c).1 = Ret b -> HasNewWrites b = true -> CheckOverflow b = false -> wf_info n b.
Proof using.
  intros [H1 H2 [a H3] H4]. unfold executeIOCTL.
  assert (K : forall fs k a', ring_rel page n k a' -> client_inv false (set_kernel fs k c))
    by (intros fs k a' R; split; [done|done|by exists a'|done]).
  pose proof (read_refines page n (kernel c) a H3) as HR. destruct (bdr_buffer_read_routine (kernel c)) as [b k].
  destruct HR as (R & _ & Ho & Hd). pose proof (reset_refines page n (kernel c) a H3) as R0.
  assert (Hb : HasNewWrites b = true -> CheckOverflow b = false -> wf_info n b).
  { intros _ Hf. change (CheckOverflow b) with (is_overflown b) in Hf. rewrite Ho in Hf. rewrite Hf in Hd.
    destruct (Hd eq_refl) as [_ D]. apply (handed_info t n b (a_pending a) (buffer (kernel c)) _ _ H3); [|done].
    pose proof (rr_room _ _ _ _ H3). unfold a_size in *. lia. }
  destruct (ioctlFaults c) as [|[e|] fs]; destruct cmd; cbn [fst snd];
    (split; [done|split; [eauto|]]); intros ? [= <-]; done.
Qed.

Lemma sure_ServeIOCTL over cmd : sure (client_inv over) (info_ok over) (ServeIOCTL cmd).
Proof using.
  unfold ServeIOCTL. eapply sure_seq; [auto with sure|]. intros k.
  assert (Z : info_ok over zeroBufferInfo) by done.
  destruct over.
  - cbn [ioctl_loop]. eapply sure_bind; [apply sure_CheckTermination|]. intros b Hb. rewrite Hb by done. by apply sure_ret.
  - generalize (S k). clear k. intros fuel. induction fuel as [|fuel IH]; cbn [ioctl_loop]; [by apply sure_ret|].
    apply sure_seq; [auto with sure|]. intros []; [by apply sure_ret|].
    apply (sure_bind _ (fun r => forall b, r = inl b -> info_ok false b)).
    + intros c C. destruct (executeIOCTL_inv cmd c C) as (N & C' & Hb). unfold catch.
      destruct (executeIOCTL cmd c) as [[b|e|] c']; [|..|done]; (eexists _, _; split; [reflexivity|]; split; [done|]).
      * intros b' [= <-]. split; [|done]. by apply Hb.
      * by intros b'.
    + intros [b|e] Hr; [by apply sure_ret, Hr|]. apply sure_seq; [auto with sure|]. intros []; [by apply sure_ret|done].
Qed.

Lemma sure_start over st p : sure (client_inv over) anything (start st p).
Proof using.
  unfold start, ResetBufferIOCTL, ignore, Pause. pose proof (sure_calm _ _ _ (sure_ServeIOCTL over CmdResetBuffer)).
  auto 7 with sure.
Qed.

Lemma sure_read_block over k off : sure (client_inv over) anything (read_block k off).
Proof using.
  intros c C. unfold read_block, bind, zoom.
  assert (E : exists r d, ReadAt (Z.to_nat k) (i64 off) (UnderDevFile c) = (Ret r, d)).
  { unfold ReadAt. destruct (_ <? 0); [eauto|]. destruct (Z.to_nat k); [eauto|].
    destruct (syscall (UnderDevFile c)) as [[] d]; eauto. }
  destruct E as ([got err] & d & ->). eexists _, _. split; [reflexivity|]. split; [|done]. by destruct C.
Qed.
#[local] Hint Resolve sure_start sure_read_block : sure.

Lemma sure_StartHashing over : sure (client_inv over) anything StartHashing.
Proof using. apply sure_start. Qed.

Lemma sure_replicate_block over k b o : sure (client_inv over) anything (replicate_block k b o).
Proof using.
  unfold replicate_block, SendReplicationBlock.
  apply sure_seq; [auto with sure|]. intros []; [auto with sure|].
  apply sure_seq; [auto with sure|]. intros []; [auto with sure|].
  apply sure_seq; [auto with sure|]. intros [buf err]. destruct (not_EOF err); [auto with sure|].
  apply sure_seq; [auto with sure|]. intros []; auto with sure.
Qed.

(** An entry inside the ring can be read; its sending ends, at the latest when
    the daemon is being terminated. *)
Definition no_spin (over : bool) (r : turn) : Prop := over = true -> r <> Spin.

Lemma sure_send_write over fuel p : sure (client_inv over) (no_spin over) (send_write (S fuel) p).
Proof using.
  assert (N : forall r, r <> Spin -> no_spin over r) by (by intros r H _).
  destruct over.
  - cbn [send_write]. apply sure_seq; [auto with sure|]. intros [[]|e]; [by apply sure_ret, N|].
    apply sure_seq; [apply sure_gets|]. intros st. destruct (bool_decide _); [by apply sure_ret, N|].
    eapply sure_bind; [apply sure_CheckTermination|]. intros b ->; [|done]. by apply sure_ret, N.
  - induction (S fuel) as [|k IH]; cbn [send_write]; [by apply sure_ret|].
    apply sure_seq; [auto with sure|]. intros [[]|e]; [by apply sure_ret, N|].
    apply sure_seq; [apply sure_gets|]. intros st. destruct (bool_decide _); [by apply sure_ret, N|].
    apply sure_seq; [auto with sure|]. intros []; [by apply sure_ret, N|done].
Qed.

Lemma sure_process_entry over b i :
  wf_info n b -> 0 <= i < biLength b -> sure (client_inv over) (no_spin over) (process_entry b i).
Proof using Ht.
  intros W Hi c C. destruct (ci_ring _ _ C) as [a R]. pose proof (ring_wf_buffer t n Ht _ a R) as B.
  destruct (byte_offset t n (Buf c) B b W i Hi) as [E Hl]. pose proof (ring_lt n b W i) as Hr.
  pose proof (wt_page _ _ Ht) as Hp. pose proof (wt_entry _ _ Ht) as He. pose proof (wb_len _ _ _ B) as Hb.
  pose proof (wb_max _ _ _ B) as Hm.
  unfold process_entry. rewrite (bind_Ret _ _ c t c) by (unfold gets; by rewrite (ci_target _ _ C)).
  rewrite E. erewrite bind_Ret by reflexivity. erewrite bind_Ret by reflexivity.
  assert (Hs : slice (Buf c) (Z.of_nat (ring n b i) * tiWriteInfoSize t)
    (u64 (Z.of_nat (ring n b i) * tiWriteInfoSize t + tiWriteInfoSize t)) = Some (slot_at t (ring n b i) (Buf c))).
  { rewrite u64_small by (split; nia). rewrite slice_Some by nia. unfold slot_at. do 2 f_equal; nia. }
  rewrite Hs. erewrite bind_Ret by reflexivity. rewrite (read_entry_at t n (Buf c) B _ Hr).
  erewrite bind_Ret by reflexivity. by apply sure_send_write.
Qed.

(** ** The goroutines *)

Definition batch_ok (b : BufferInfo) (i : Z) : Prop := wf_info n b /\ 0 <= i.

Record ring_inv (over : bool) (s : CSession) : Prop := {
  ri_client : client_inv over (cl s);
  ri_listen : match listenPc s with LEntries b i => batch_ok b i | _ => True end;
  ri_monitor : match monitorPc s with MEntries b i => batch_ok b i | _ => True end;
}.

(** A step that keeps the invariant, and panics only if [K]. *)
Definition good_or (K : Prop) (over : bool) (a : attempt CSession) : Prop :=
  match a with Done s => ring_inv over s | Blocked => True | Crash => K end.
Definition good : bool -> attempt CSession -> Prop := good_or False.

(** The listener is about to close the termination channel. *)
Definition at_close (s : CSession) : bool := match listenPc s with LClose _ => true | _ => false end.

Section Steps.
Context (over : bool).

Lemma good_weaken K a : good over a -> good_or K over a.
Proof using. by destruct a. Qed.

Lemma good_on_cl {A} (P : A -> Prop) (m : M Client A) s k :
  sure (client_inv over) P m -> client_inv over (cl s) ->
  (forall a c, client_inv over c -> P a -> good over (k a (set_cl c s))) -> good over (on_cl m s k).
Proof using.
  intros Hm C Hk. destruct (Hm _ C) as (a & c & E & C' & Ha). unfold on_cl. rewrite E. by apply Hk.
Qed.

Lemma ring_cl c s : client_inv over c -> ring_inv over s -> ring_inv over (set_cl c s).
Proof using. by intros C [R1 R2 R3]. Qed.
Lemma ring_listen l s :
  ring_inv over s -> match l with LEntries b i => batch_ok b i | _ => True end -> ring_inv over (set_listen l s).
Proof using. by intros [R1 R2 R3] H. Qed.
Lemma ring_monitor m s :
  ring_inv over s -> match m with MEntries b i => batch_ok b i | _ => True end -> ring_inv over (set_monitor m s).
Proof using. by intros [R1 R2 R3] H. Qed.
Lemma ring_stop s : ring_inv over s -> ring_inv over (InitiateShutdown s).
Proof using. intros [[C1 C2 C3 C4] R2 R3]. by split; [split|..]. Qed.
Hint Resolve ring_cl ring_listen ring_monitor : sure.

Lemma good_close next s :
  ring_inv over s -> cclosed (hashQueue s) = false -> match next with LEntries b i => batch_ok b i | _ => True end ->
  good over (close_hashQueue next s).
Proof using.
  intros R Hc Hn. unfold close_hashQueue, chan_close. rewrite Hc. cbn. apply ring_listen; [|done]. by destruct R.
Qed.

Lemma good_dispatch p s : ring_inv over s -> cclosed (hashQueue s) = false -> good over (listen_dispatch p s).
Proof using.
  intros R Hc. unfold listen_dispatch. destruct (_ =? _); [by apply good_close|].
  destruct (_ =? _); [by apply ring_listen|]. do 2 (destruct (_ =? _); [by apply good_close|]).
  destruct (_ || _); [by apply ring_listen|done].
Qed.

Lemma good_reconnect st s : ring_inv over s -> good over (reconnect_turn st s).
Proof using.
  intros R. unfold reconnect_turn. destruct (terminated s); [by apply ring_listen|].
  destruct (dials s) as [|[e|conn] ds]; [done|by destruct R|].
  assert (R1 : ring_inv over (set_dials ds s)) by (by destruct R).
  eapply good_on_cl; [apply sure_catch, calm_under_inv, GetDeviceSize_no_panic|apply R1|].
  intros r c C _. pose proof (ring_cl c _ C R1) as R2.
  assert (R3 : forall l fs, ring_inv over (set_incoming (conn_in conn) (set_cl (set_net l fs c) (set_cl c (set_dials ds s)))))
    by (intros; destruct R2 as [[C1 C2 C3 C4] ? ?]; by split; [split|..]).
  destruct r as [k|e]; [|done].
  destruct (conn_enc conn) as [|[e|] fs]; [|done|];
    (eapply good_on_cl; [apply sure_if; [apply sure_SetState|apply sure_StartHashing]|apply R3|];
     intros a c' C' _; by apply ring_listen; [apply ring_cl|]).
Qed.

Lemma good_listen s : ring_inv over s -> cchan_inv s -> at_close s = false -> good over (listen_step s).
Proof using Ht.
  intros R C Hcl. unfold at_close in Hcl. pose proof (ri_client _ _ R) as I. pose proof (cc_closed _ C) as Hc. pose proof (ri_listen _ _ R) as Hl.
  unfold listen_step. destruct (listenPc s) as [|st|p| | | | |b i| | | | | |r]; cbn in Hc; [| | | | | | | | | | |done| |done].
  - unfold receive. destruct (terminated s); [by apply good_close|].
    destruct (incoming s) as [|[p| |[]] l]; try done; try (by destruct R).
    + apply good_dispatch; [by destruct R|done].
    + apply ring_listen; [|done]. apply ring_cl; [|by destruct R]. by destruct I.
  - by apply good_reconnect.
  - unfold chan_send. rewrite Hc. destruct (_ <? _)%nat; [|done]. apply ring_listen; [by destruct R|done].
  - destruct (hash_idle s); [|done]. apply ring_listen; [by destruct R|done].
  - destruct (hash_idle s); [|done]. by apply ring_listen.
  - destruct (hash_idle s); [|done]. apply ring_listen; [done|by destruct (terminated s)].
  - eapply good_on_cl; [apply sure_ServeIOCTL|done|]. intros b c Ic [Hb _].
    destruct (HasNewWrites b); [|by apply ring_listen; [apply ring_cl|]]. cbn [negb].
    destruct (CheckOverflow b); [|apply ring_listen; [by apply ring_cl|by split; [apply Hb|]]].
    eapply good_on_cl; [apply sure_StartHashing|done|]. intros [] c' Ic' _.
    apply ring_listen; [|done]. by destruct R.
  - destruct (Z.ltb_spec i (biLength b)) as [Hi|Hi]; [|by apply ring_listen]. destruct Hl as [W Hl].
    eapply good_on_cl; [eapply sure_seq; [apply sure_IsPaused|intros _; by apply (sure_process_entry over b i)]|done|].
    intros r c Ic _. apply ring_listen; [by apply ring_cl|]. destruct r; [split; [done|lia]|done|done].
  - eapply good_on_cl; [apply sure_seq; [apply sure_SetState|intros _; apply sure_request]|done|].
    intros [] c Ic _. by apply ring_listen; [apply ring_cl|].
  - eapply good_on_cl; [apply sure_SendPacket|done|]. intros [] c Ic _.
    apply ring_listen; [|done]. by destruct R.
  - destruct (hash_idle s); [|done]. by apply ring_listen.
  - apply ring_listen; [done|by destruct (terminated s)].
Qed.

(** The second step of [InitiateShutdown] in the listener. *)
Lemma good_listen_close s : ring_inv over s -> at_close s = true -> good_or (terminated s = true) over (listen_step s).
Proof using.
  intros R Hcl. unfold at_close in Hcl. unfold listen_step, close_TermChan. destruct (listenPc s); try done.
  destruct (terminated s); [done|]. apply ring_listen; [by apply ring_stop|by destruct returns].
Qed.

Lemma good_hash_read s : ring_inv over s -> good over (hash_read_step s).
Proof using.
  intros R. unfold hash_read_step. destruct (hashers s) as [items|]; [|done].
  destruct (chan_recv (hashQueue s)) as [[[p|] q]| |] eqn:Er; [| |done|]; cbn [abind].
  - assert (R1 : ring_inv over (set_hashQueue q s)) by (by destruct R).
    assert (K : good over (on_cl StartHashing (set_hashQueue q s) (fun _ s => Done s))).
    { eapply good_on_cl; [apply sure_StartHashing|apply R1|]. intros [] c Ic _. by apply ring_cl. }
    destruct (Payload p) as [| |h| | |]; try exact K.
    eapply good_on_cl; [apply sure_read_block|apply R1|]. intros [buf err] c Ic _. cbn [fst snd].
    destruct (not_EOF err); [|by destruct R].
    eapply good_on_cl; [apply sure_StartHashing|done|]. intros [] c' Ic' _. by destruct R.
  - destruct (_ =? _)%nat; [|done]. by destruct R.
  - unfold chan_recv in Er. destruct (cbuf _); [destruct (cclosed _)|]; done.
Qed.

Lemma good_hash_send xxhash i s : ring_inv over s -> good over (hash_send_step xxhash i s).
Proof using.
  intros R. unfold hash_send_step. destruct (hashers s) as [items|]; [|done].
  destruct (items !! i) as [[h buf]|]; [|done]. destruct (_ =? _); [by destruct R|].
  eapply good_on_cl; [unfold SendCorrectBlock; apply sure_SendPacket|apply R|]. intros [] c Ic _. by destruct R.
Qed.

Lemma good_waited r p s :
  ring_inv over s -> contr_ok p -> good over (Done (monitor_waited r p s)).
Proof using.
  intros R Hp. apply ring_monitor; [|by destruct r as [[]|]]. apply ring_cl; [|done].
  destruct R as [[C1 C2 C3 C4] ? ?]. by split.
Qed.

Lemma good_monitor pick s : ring_inv over s -> good over (monitor_step pick s).
Proof using Ht.
  intros R. pose proof (ri_client _ _ R) as I. pose proof (ri_monitor _ _ R) as Hm. pose proof (ci_contr _ _ I) as Hp.
  unfold monitor_step. destruct (monitorPc s) as [| | |b i|]; [| | | |done].
  - unfold WaitIfPaused. destruct (chan_recv _) as [[o p]| |] eqn:Er; [|by apply good_waited..].
    pose proof (recv_contr _ _ _ Hp Er).
    destruct (_ && _); [by apply good_waited|]. destruct o as [[]|]; by apply good_waited.
  - unfold waitUntilResumed. destruct (chan_recv _) as [[o p]| |] eqn:Er;
      [|destruct (ChanHasTerminated _); [by apply good_waited|done]..].
    pose proof (recv_contr _ _ _ Hp Er).
    destruct (_ && _); [by apply good_waited|]. destruct o as [[]|]; by apply good_waited.
  - eapply good_on_cl; [apply sure_ServeIOCTL|done|]. intros b c Ic [Hb _].
    destruct (HasNewWrites b); [|by apply ring_monitor; [apply ring_cl|]]. cbn [negb].
    destruct (CheckOverflow b); [|apply ring_monitor; [by apply ring_cl|by split; [apply Hb|]]].
    eapply good_on_cl; [apply sure_StartHashing|done|]. intros [] c' Ic' _. by destruct R.
  - destruct (Z.ltb_spec i (biLength b)) as [Hi|Hi]; [|by apply ring_monitor]. destruct Hm as [W Hm].
    eapply good_on_cl; [apply sure_IsPaused|done|]. intros paused c Ic _.
    destruct paused; [by apply ring_monitor; [apply ring_cl|]|].
    eapply good_on_cl; [by apply (sure_process_entry over b i)|done|].
    intros r c' Ic' _. apply ring_monitor; [by apply ring_cl; [|apply ring_cl]|].
    destruct r; [split; [done|lia]|done|done].
Qed.

Lemma good_replicate i s : ring_inv over s -> good over (replicate_step i s).
Proof using.
  intros R. unfold replicate_step. destruct (replicator s) as [[d [|o os]]|]; [| |done].
  - eapply good_on_cl; [unfold Resume; eauto 6 with sure|apply R|]. intros [] c Ic _. by destruct R.
  - destruct (_ !! i) as [o'|]; [|done]. eapply good_on_cl; [apply sure_replicate_block|apply R|].
    intros go c Ic _. by destruct R.
Qed.

(** The environment writes whole segments. *)
Definition event_ok (e : cevent) : Prop :=
  match e with CSource bio => Forall (wf_segment page) bio | _ => True end.

Lemma good_step xxhash e s :
  event_ok e -> ring_inv over s -> cchan_inv s ->
  good_or (e = CListen /\ terminated s = true /\ at_close s = true) over (cstep xxhash e s).
Proof using Ht.
  intros He R C. destruct e as [| |i|pick|i| |bio]; cbn [cstep]; [|apply good_weaken..].
  - destruct (at_close s) eqn:Hcl; [|by apply good_weaken, good_listen].
    pose proof (good_listen_close s R Hcl) as G. destruct (listen_step s); [done|done|by split_and!].
  - by apply good_hash_read.
  - by apply good_hash_send.
  - by apply good_monitor.
  - by apply good_replicate.
  - by apply ring_stop.
  - apply ring_cl; [|done]. destruct (ri_client _ _ R) as [C1 C2 [a C3] C4]. split; try done.
    eexists. cbn. rewrite C2. by apply target_map_refines.
Qed.
End Steps.

(** ** The process *)

Definition past_join (r : end_pc) : bool :=
  match r with RRelease | RPrint | RReturned => true | _ => false end.
Definition stopping (r : end_pc) : bool :=
  match r with RSelect | RShutdown | RClose => false | _ => true end.

Record process_inv (p : Process) : Prop := {
  pi_ring : ring_inv (stopping (runAt p)) (session p);
  pi_chan : cchan_inv (session p);
  pi_join : past_join (runAt p) = true -> joined (session p) = true;
  pi_released : released p = true -> past_join (runAt p) = true;
}.

Lemma closed_calls_inv over p c : client_inv over c -> client_inv over (closed_calls p c).
Proof using. intros [C1 C2 C3 C4]. unfold closed_calls. by destruct (connDown p), (released p). Qed.

Lemma load_inv over p : ring_inv over (session p) -> ring_inv over (load p).
Proof using.
  intros R. unfold load. pose proof (ring_cl over _ _ (closed_calls_inv over p _ (ri_client _ _ R)) R) as H.
  destruct (connDown p); [|done]. by destruct H.
Qed.

Lemma load_chan p : cchan_inv (session p) -> cchan_inv (load p).
Proof using.
  intros [C1 C2 C3]. unfold load, closed_calls. by destruct (connDown p), (released p).
Qed.

(** Those that [Run] has waited for take no more steps. *)
Lemma on_cl_monitor {A} (m : M Client A) s k s' :
  (forall a s1 s2, k a s1 = Done s2 -> monitorPc s2 = monitorPc s1) ->
  on_cl m s k = Done s' -> monitorPc s' = monitorPc s.
Proof using. intros Hk [(a & _ & E)| ->]%on_cl_Done; [by rewrite (Hk _ _ _ E)|done]. Qed.

Lemma workers_monitor xxhash e s s' :
  e <> CListen -> (forall pick, e <> CMonitor pick) -> cstep xxhash e s = Done s' -> monitorPc s' = monitorPc s.
Proof using.
  assert (K : forall (a : unit) s1 s2, Done s1 = Done s2 -> monitorPc s2 = monitorPc s1) by (by intros a s1 s2 [= <-]).
  intros H1 H2. destruct e as [| |i|pick|i| |bio]; cbn [cstep]; [done| | | | | |].
  - unfold hash_read_step. destruct (hashers s) as [items|]; [|done].
    intros ([[p|] q] & _ & E)%abind_Done; [|destruct (_ =? _)%nat; [by injection E as <-|done]].
    destruct (Payload p) as [| |h| | |]; try (by apply (on_cl_monitor _ _ _ _ K) in E).
    apply on_cl_monitor in E; [done|]. intros r s1 s2. destruct (not_EOF _); [by apply on_cl_monitor|by intros [= <-]].
  - unfold hash_send_step. destruct (hashers s) as [items|]; [|done]. destruct (items !! i) as [[h buf]|]; [|done].
    destruct (_ =? _); [by intros [= <-]|]. intros E. by apply (on_cl_monitor _ _ _ _ K) in E.
  - by destruct (H2 pick).
  - unfold replicate_step. destruct (replicator s) as [[d [|o os]]|]; [| |done].
    + apply on_cl_monitor. by intros a s1 s2 [= <-].
    + destruct (_ !! i) as [o'|]; [|done]. apply on_cl_monitor. by intros a s1 s2 [= <-].
  - by intros [= <-].
  - by intros [= <-].
Qed.

Lemma joined_spec s : joined s = true <-> listenPc s = LReturned /\ monitorPc s = MReturned.
Proof using.
  unfold joined. split; [|by intros [-> ->]]. destruct (listenPc s), (monitorPc s); done.
Qed.

Lemma joined_stays xxhash e s s' : joined s = true -> cstep xxhash e s = Done s' -> joined s' = true.
Proof using.
  rewrite !joined_spec. intros [Jl Jm] E. destruct (listen_or_not e) as [->|Hl].
  { cbn in E. unfold listen_step in E. by rewrite Jl in E. }
  rewrite (ok_listen _ _ (other_step xxhash e s s' Hl E)). split; [done|].
  destruct e as [| | |pick| | |]; try (by rewrite (workers_monitor xxhash _ s s' Hl ltac:(done) E)).
  cbn in E. unfold monitor_step in E. by rewrite Jm in E.
Qed.

Definition process_event_ok (e : pevent) : Prop := match e with PGo e => event_ok e | _ => True end.

Definition process_good (K : Prop) (a : attempt Process) : Prop :=
  match a with Done p => process_inv p | Blocked => True | Crash => K end.

(** The step [e] closes the termination channel a second time: the listener, or
    [Run], looked before the other one closed it. *)
Definition double_close (p : Process) (e : pevent) : Prop :=
  terminated (session p) = true /\
  match e with
  | PRun => runAt p = RClose
  | PGo CListen => runAt p <> RReturned /\ at_close (session p) = true
  | _ => False
  end.

Lemma double_close_crashes xxhash p e : double_close p e -> pstep xxhash e p = Crash.
Proof using.
  intros [Ht' H]. destruct e as [| |[]]; try done.
  - unfold pstep, end_step, close_TermChan. by rewrite H, Ht'.
  - destruct H as [Hr Hc]. unfold pstep.
    assert (E : cstep xxhash CListen (load p) = Crash).
    { unfold at_close in Hc. cbn. unfold listen_step, load, close_TermChan. 
      assert (Hl : terminated (set_cl (closed_calls p (cl (session p))) (session p)) = true).
      { revert Ht'. unfold terminated, closed_calls. by destruct (connDown p), (released p). }
      destruct (connDown p); cbn [listenPc set_cl set_incoming]; destruct (listenPc (session p)); try done;
        unfold terminated in *; cbn in *; by rewrite Hl. }
    rewrite E. destruct (runAt p); [..|done]; by destruct (released p && _).
Qed.

Lemma load_terminated p : terminated (load p) = terminated (session p) /\ at_close (load p) = at_close (session p).
Proof using. unfold load, closed_calls, terminated, at_close. by destruct (connDown p), (released p). Qed.

Lemma good_end_step p : process_inv p -> process_good (double_close p PRun) (end_step p).
Proof using.
  intros [R C J L]. unfold end_step. destruct (runAt p) eqn:E; cbn [stopping past_join] in *.
  - destruct (_ || _); [|done]. by split.
  - destruct (terminated (session p)) eqn:Et; split; cbn; try done; try (by intros H; specialize (L H)).
    destruct R as [[C1 C2 C3 C4] ? ?]. split; [split|..]; try done. intros _. unfold terminated in Et.
    by destruct (termIn (cl (session p))) as [[]|].
  - unfold close_TermChan. destruct (terminated (session p)) eqn:Et; [by split|].
    split; cbn; [|by destruct C|done|by intros H; specialize (L H)].
    destruct R as [[C1 C2 C3 C4] ? ?]. by split; [split|..].
  - by split.
  - destruct (joined (session p)) eqn:Ej; [|done]. by split.
  - by split.
  - by split.
  - done.
Qed.

Lemma good_go xxhash e p :
  event_ok e -> process_inv p ->
  process_good (e = CListen /\ terminated (session p) = true /\ at_close (session p) = true) (if released p && uses_ring e (session p) then Crash
                else abind (cstep xxhash e (load p)) (fun s => Done (set_session s p))).
Proof using Ht.
  intros He [R C J L]. destruct (released p && uses_ring e (session p)) eqn:Eu.
  { apply andb_true_iff in Eu as [Er Eu]. destruct (proj1 (joined_spec _) (J (L Er))) as [Jl Jm].
    unfold uses_ring in Eu. rewrite Jl, Jm in Eu. by destruct e. }
  pose proof (good_step _ xxhash e _ He (load_inv _ _ R) (load_chan _ C)) as G.
  destruct (load_terminated p) as [E1 E2]. rewrite E1, E2 in G.
  destruct (cstep xxhash e (load p)) as [s'| |] eqn:E; [|done|exact G]. split; try done.
  - apply load_chan in C. destruct (listen_or_not e) as [->|Hl]; [by apply (listen_chan (load p))|].
    eapply other_chan; [by eapply other_step|done].
  - intros Hj. apply (joined_stays xxhash e (load p) s'); [|done]. specialize (J Hj). revert J. unfold load.
    by destruct (connDown p).
Qed.

Lemma good_pstep xxhash e p :
  process_event_ok e -> process_inv p -> process_good (double_close p e) (pstep xxhash e p).
Proof using Ht.
  intros He P. pose proof (good_end_step p P) as Hr.
  assert (Hs : process_inv (signal p)) by (by destruct P).
  assert (Hg : forall e, event_ok e -> runAt p <> RReturned -> process_good (double_close p (PGo e))
    (if released p && uses_ring e (session p) then Crash
     else abind (cstep xxhash e (load p)) (fun s => Done (set_session s p)))).
  { intros e0 He0 Hn. pose proof (good_go xxhash e0 p He0 P) as G.
    revert G. match goal with |- process_good _ ?a -> _ => destruct a end; [done|done|]. intros (-> & G1 & G2). by split. }
  unfold pstep. destruct (runAt p) eqn:Er; [..|done]; destruct e as [| |[]]; try done; by apply Hg.
Qed.

Lemma pstep_inv xxhash e p p' : process_event_ok e -> process_inv p -> pstep xxhash e p = Done p' -> process_inv p'.
Proof using Ht. intros He P E. pose proof (good_pstep xxhash e p He P) as G. by rewrite E in G. Qed.

Lemma prun_inv xxhash es p p' :
  Forall process_event_ok es -> process_inv p -> prun xxhash es p = Done p' -> process_inv p'.
Proof using Ht.
  intros H. revert p. induction H as [|e es He H IH]; cbn; intros p P E; [by injection E as <-|].
  apply abind_Done in E as (p1 & E1 & E). apply (IH p1); [by eapply pstep_inv|done].
Qed.

Lemma prun_panics xxhash es p :
  Forall process_event_ok es -> process_inv p -> prun xxhash es p = Crash ->
  exists es1 e es2 p', es = es1 ++ e :: es2 /\ prun xxhash es1 p = Done p' /\ double_close p' e.
Proof using Ht.
  intros H. revert p. induction H as [|e es He H IH]; intros p P E; [done|]. cbn [prun] in E.
  pose proof (good_pstep xxhash e p He P) as G. destruct (pstep xxhash e p) as [p1| |] eqn:E1; [|done|].
  - destruct (IH p1 G E) as (es1 & e' & es2 & p2 & -> & E' & D).
    exists (e :: es1), e', es2, p2. split; [done|]. split; [|done]. cbn. by rewrite E1.
  - by exists [], e, es, p.
Qed.

Lemma prun_crash_app xxhash es1 e es2 p p' :
  prun xxhash es1 p = Done p' -> pstep xxhash e p' = Crash -> prun xxhash (es1 ++ e :: es2) p = Crash.
Proof using.
  revert p. induction es1 as [|x es1 IH]; intros p H E; cbn [prun app] in *; [injection H as <-; by rewrite E|].
  apply abind_Done in H as (p1 & E1 & H). rewrite E1. by apply IH.
Qed.

(** [main] up to the [select]: an error, or a process that runs. *)
Lemma client_process_starts m charDev rb a dial underDev attempts :
  ring_rel page n rb a ->
  (exists e, client_process m charDev (inl t) (inl rb) dial underDev attempts = Err e) \/
  exists p, client_process m charDev (inl t) (inl rb) dial underDev attempts = Ret p /\ process_inv p /\
    runAt p = RSelect /\ listenPc (session p) = LReceive /\ dials (session p) = attempts /\
    exists conn, dial = inr conn /\ incoming (session p) = conn_in conn.
Proof using.
  intros R. unfold client_process, NewClient. destruct charDev as [e|]; [eauto|]. destruct dial as [e|conn]; [eauto|].
  assert (Ho : (OpenFile underDev).1 <> Panic) by (unfold OpenFile, sys_unit; by destruct (syscall underDev) as [[] ?]).
  destruct (OpenFile underDev) as [[u|e|] dev]; [|eauto|done].
  match goal with |- context [SendInitPacket ?c] => set (c0 := c) end.
  assert (C0 : client_inv false c0) by (split; [by split_and!; cbn; [..|lia]|done|by exists a|done]).
  assert (S0 : calm (client_inv false) SendInitPacket).
  { apply calm_bind; [apply calm_under_inv, GetDeviceSize_no_panic|]. intros k.
    apply calm_bind; [apply calm_gets|]. intros x. eapply sure_calm, sure_SendPacket. }
  destruct (S0 c0 C0) as [C1 N1]. destruct (SendInitPacket c0) as [[u1|e|] c1]; [|eauto|done]. cbn in C1.
  assert (S1 : sure (client_inv false) anything
    (Run_start (scanAll m) (replicateAll m) (scanFirst m))).
  { unfold Run_start, Client.FullScan, Client.FullReplicate, StartHashing.
    pose proof sure_start. repeat apply sure_if; auto with sure. }
  destruct (S1 c1 C1) as (go & c2 & E & C2 & _). unfold ClientSession.Run. rewrite E. right.
  eexists. split; [reflexivity|]. cbn [runAt session].
  assert (C3 : client_inv false (if go then (catch (zoom UnderDevFile set_under GetDeviceSize) c2).2 else c2)).
  { destruct go; [|done]. by apply (calm_catch _ _ (calm_under_inv false _ GetDeviceSize_no_panic)). }
  split_and!; [|done..|by exists conn]. split; [by split|split; [apply C3|done..]|done|done].
Qed.
End Invariant.
