(* ===== verification/ClientShutdown.v ===== *)
(** * Where the client panics, and that its shutdown completes

    [client_panics_only] follows [main] and [Run] in every schedule, with a signal
    and with writes to the source at any time, to the end of the process: the only
    panic is the second close of the termination channel.  For the shutdown every
    goroutine that [Run] waits for has a rank: once the daemon is being terminated a
    step of the listener, or of a hash worker when the listener waits for it, brings
    the rank down, and so does every step of the monitor. *)
From S2P Require Import Prelude GoInt GoMonad GoChan Utils BlockDev Blocks Networking Journal.
From S2P Require Import Pause RingBuffer Client ClientFacts ClientSession ClientSafety ClientScan ClientFlush ClientProcess.
Open Scope Z_scope.

(** C18: the client panics in one situation and in no other: [InitiateShutdown]
    looks at the termination channel and closes it in two steps, without a lock, so
    that when the listener (which a journal overflow or a refusal of the server
    makes shut down) and [Run] (after a signal) have both looked before one of them
    closes it, the other closes it a second time.  From [main] on, in every mode,
    with any packets and errors from the server, any outcome of the system calls,
    any content of the ring, a signal and writes to the source at any time, a
    schedule of the goroutines and of [Run] panics if and only if it reaches such a
    [double_close]: no other channel is closed twice or sent on when closed, no
    index leaves the ring, and the ring is not touched after [CloseResources] has
    unmapped it. *)
Theorem client_panics_only t n rb a m charDev dial underDev attempts xxhash es :
  wf_target t n -> ring_rel (Z.to_nat (PageSize t)) n rb a -> Forall (process_event_ok t) es ->
  match client_process m charDev (inl t) (inl rb) dial underDev attempts with
  | Ret p =>
      prun xxhash es p = Crash <->
      exists es1 e es2 p', es = es1 ++ e :: es2 /\ prun xxhash es1 p = Done p' /\ double_close p' e
  | Err _ => True
  | Panic => False
  end.
Proof.
  intros Ht R He. destruct (client_process_starts t n m charDev rb a dial underDev attempts R)
    as [[e ->]|(p & -> & P & _)]; [done|].
  split; [by apply (prun_panics t n Ht)|]. intros (es1 & e & es2 & p' & -> & E & D).
  eapply prun_crash_app; [exact E|by apply double_close_crashes].
Qed.

(** The race occurs from every state in which the listener has looked and not yet
    closed the channel and [Run] is about to look. *)
Lemma InitiateShutdown_race xxhash p r :
  listenPc (session p) = LClose r -> runAt p = RShutdown -> terminated (session p) = false ->
  prun xxhash [PRun; PRun; PGo CListen] p = Crash.
Proof.
  intros Hl Hr Ht. cbn [prun].
  assert (E1 : pstep xxhash PRun p = Done (set_run RClose p)) by (unfold pstep, end_step; by rewrite Hr, Ht).
  set (p1 := set_run RClose p) in *.
  assert (E2 : pstep xxhash PRun p1 = Done (set_run RCloseConn (set_session (InitiateShutdown (session p)) p1)))
    by (unfold pstep, end_step, close_TermChan; cbn; by rewrite Ht).
  rewrite E1. cbn [abind]. rewrite E2. cbn [abind]. rewrite double_close_crashes; [done|]. split; [done|]. split; [done|]. unfold at_close. cbn. by rewrite Hl.
Qed.

(** ** Ranks *)

Definition listen_rank (l : listen_pc) : nat :=
  match l with
  | LReturned => 0
  | LReturn | LJournalOverflow => 1
  | LReceive => 2
  | LReconnect _ | LSendHash _ | LStartHashing | LAnnounce | LShutdown | LClose _ => 3
  | LResume => 4
  | LEntries b i => 5 + Z.to_nat (biLength b - i)
  | LSendBuffer => 5
  | LHashingCompleted => 6
  end.

Definition monitor_rank (m : monitor_pc) : nat :=
  match m with
  | MReturned => 0
  | MWait | MWaiting => 1
  | MRead => 2
  | MEntries b i => 2 + Z.to_nat (biLength b - i)
  end.

(** What the hash workers have still to do. *)
Definition hash_work (s : CSession) : nat :=
  match hashers s with
  | None => 0
  | Some items => S (2 * length (cbuf (hashQueue s)) + length items)
  end.

Section Shutdown.
Context (t : TargetInfo) (n : nat) (Ht : wf_target t n) (xxhash : list byte -> Z).

(** A step that calls a method of the client comes to its end. *)
Definition ends (Q : CSession -> Prop) (a : attempt CSession) : Prop := exists s, a = Done s /\ Q s.

Lemma ends_done (Q : CSession -> Prop) s : Q s -> ends Q (Done s).
Proof using. by exists s. Qed.

Lemma ends_call {A} (P : A -> Prop) Q (m : M Client A) s k :
  sure (client_inv t n true) P m -> client_inv t n true (cl s) ->
  (forall a c, client_inv t n true c -> P a -> ends Q (k a (set_cl c s))) -> ends Q (on_cl m s k).
Proof using.
  intros Hm C Hk. destruct (Hm _ C) as (a & c & E & C' & Ha). unfold on_cl. rewrite E. by apply Hk.
Qed.

Lemma over_terminated s : ring_inv t n true s -> terminated s = true.
Proof using. intros R. unfold terminated. by rewrite (ci_over _ _ _ _ (ri_client _ _ _ _ R)). Qed.

(** *** The hash workers *)

Definition works_on (s s' : CSession) : Prop := listenPc s' = listenPc s /\ (hash_work s' < hash_work s)%nat.

Lemma hash_read_ends s items x l :
  ring_inv t n true s -> hashers s = Some items -> cbuf (hashQueue s) = x :: l -> ends (works_on s) (hash_read_step s).
Proof using.
  intros R Eh Eq. pose proof (ri_client _ _ _ _ R) as I. unfold hash_read_step, chan_recv. rewrite Eh, Eq. cbn [abind].
  assert (W : forall s', listenPc s' = listenPc s -> cbuf (hashQueue s') = l ->
    hashers s' = Some items \/ (exists y, hashers s' = Some (items ++ [y])) -> works_on s s').
  { intros s' Hl Hq Hh. split; [done|]. unfold hash_work. rewrite Eh, Eq, Hq.
    destruct Hh as [->|[y ->]]; rewrite ?length_app; cbn; lia. }
  assert (K : forall s', client_inv t n true (cl s') -> listenPc s' = listenPc s -> cbuf (hashQueue s') = l ->
    hashers s' = Some items -> ends (works_on s) (on_cl StartHashing s' (fun _ s => Done s))).
  { intros s' I' Hl Hq Hh. eapply ends_call; [apply sure_StartHashing|done|]. intros [] c _ _. apply ends_done, W; auto. }
  destruct (Payload x) as [| |h| | |]; try (by apply K).
  eapply ends_call; [apply sure_read_block|done|]. intros [buf err] c Ic _. cbn [fst snd].
  destruct (not_EOF err); [by apply K|]. apply ends_done, W; cbn; eauto.
Qed.

Lemma hash_send_ends s y items :
  ring_inv t n true s -> hashers s = Some (y :: items) -> ends (works_on s) (hash_send_step xxhash 0 s).
Proof using.
  intros R Eh. unfold hash_send_step. rewrite Eh. destruct y as [h buf]. cbn [lookup list_lookup delete list_delete].
  assert (W : forall c, works_on s (set_cl c (set_hashers (Some items) s))).
  { intros c. split; [done|]. unfold hash_work. rewrite Eh. cbn. lia. }
  destruct (_ =? _); [apply ends_done, (W (cl s))|].
  eapply ends_call; [unfold SendCorrectBlock; apply sure_SendPacket|apply R|]. intros [] c _ _. apply ends_done, W.
Qed.

(** A step of a goroutine the listener waits for. *)
Definition worker (e : cevent) : Prop := e = CHashRead \/ e = CHashSend 0.

Lemma hash_drain s items :
  ring_inv t n true s -> hashers s = Some items -> cclosed (hashQueue s) = true ->
  exists e, worker e /\ ends (works_on s) (cstep xxhash e s).
Proof using.
  intros R Eh Hc. destruct items as [|y items].
  - exists CHashRead. split; [by left|]. cbn [cstep]. destruct (cbuf (hashQueue s)) as [|x l] eqn:Eq.
    + unfold hash_read_step, chan_recv. rewrite Eh, Eq, Hc. cbn. apply ends_done. split; [done|].
      unfold hash_work. rewrite Eh. cbn. lia.
    + by apply (hash_read_ends s [] x l).
  - exists (CHashSend 0). split; [by right|]. by apply (hash_send_ends s y items).
Qed.

(** *** The listener *)

Definition comes_down (s s' : CSession) : Prop := (listen_rank (listenPc s') < listen_rank (listenPc s))%nat.

(** While the hash workers run, one of them takes a step. *)
Lemma wait_ends s (a : attempt CSession) :
  ring_inv t n true s -> cclosed (hashQueue s) = true ->
  listen_step s = (if hash_idle s then a else Blocked) -> ends (comes_down s) a ->
  exists e, (e = CListen \/ worker e) /\ ends (fun s' => comes_down s s' \/ works_on s s') (cstep xxhash e s).
Proof using.
  intros R Hc El (s' & E & Hd). unfold hash_idle in El. destruct (hashers s) as [items|] eqn:Eh.
  - destruct (hash_drain s items R Eh Hc) as (e & He & s1 & E1 & W). exists e. split; [by right|]. exists s1. auto.
  - exists CListen. split; [by left|]. exists s'. cbn [cstep]. rewrite El. auto.
Qed.

Lemma listener_progress s :
  ring_inv t n true s -> serve_inv s -> at_close s = false -> listenPc s <> LReturned ->
  exists e, (e = CListen \/ worker e) /\ ends (fun s' => comes_down s s' \/ works_on s s') (cstep xxhash e s).
Proof using Ht.
  intros R [C X D] Hcl Hn. unfold at_close in Hcl. pose proof (ri_client _ _ _ _ R) as I. pose proof (cc_closed _ C) as Hc. pose proof (ri_listen _ _ _ _ R) as Hl.
  pose proof (over_terminated s R) as Hover. unfold expects in X.
  assert (L : ends (comes_down s) (listen_step s) -> exists e, (e = CListen \/ worker e) /\
    ends (fun s' => comes_down s s' \/ works_on s s') (cstep xxhash e s)).
  { intros (s' & E & H). exists CListen. split; [by left|]. exists s'. auto. }
  assert (Wt : forall l', (listen_rank l' < listen_rank (listenPc s))%nat -> forall s', listenPc s' = l' -> comes_down s s')
    by (intros l' H s' <-; exact H).
  destruct (listenPc s) as [|st|p| | | | |b i| | | | | |r] eqn:El; cbn in Hc; [| | | | | | | | | | |done| |done].
  - apply L. unfold listen_step, receive. rewrite El, Hover. unfold close_hashQueue, chan_close. rewrite Hc.
    apply ends_done. by apply (Wt LReturn); [cbn; lia|].
  - apply L. unfold listen_step, reconnect_turn. rewrite El, Hover. apply ends_done. by apply (Wt LReceive); [cbn; lia|].
  - destruct X as [Hr _]. destruct (length (cbuf (hashQueue s)) <? ccap (hashQueue s))%nat eqn:Eq.
    + apply L. unfold listen_step, chan_send. rewrite El, Hc, Eq. apply ends_done. by apply (Wt LReceive); [cbn; lia|].
    + rewrite (cc_cap _ C) in Eq. unfold running, hash_idle in Hr. destruct (hashers s) as [items|] eqn:Eh; [|done].
      destruct (cbuf (hashQueue s)) as [|x l] eqn:Ex; [done|].
      destruct (hash_read_ends s items x l R Eh Ex) as (s' & E & W). exists CHashRead. split; [right; by left|].
      exists s'. auto.
  - eapply wait_ends; [done|done|unfold listen_step; by rewrite El|]. apply ends_done. by apply (Wt LReceive); [cbn; lia|].
  - eapply wait_ends; [done|done|unfold listen_step; by rewrite El|]. apply ends_done. by apply (Wt LSendBuffer); [cbn; lia|].
  - eapply wait_ends; [done|done|unfold listen_step; by rewrite El|]. rewrite Hover. apply ends_done.
    by apply (Wt LReturned); [cbn; lia|].
  - apply L. unfold listen_step. rewrite El. eapply ends_call; [apply sure_ServeIOCTL|done|]. intros b c _ [_ Hb].
    rewrite Hb by done. apply ends_done. by apply (Wt LResume); [cbn; lia|].
  - apply L. unfold listen_step. rewrite El. destruct (Z.ltb_spec i (biLength b)) as [Hi|Hi].
    + destruct Hl as [W Hl]. eapply ends_call; [eapply sure_seq; [apply sure_IsPaused|intros _; by apply (sure_process_entry t n Ht true b i)]|done|].
      intros r c _ Hr. apply ends_done. unfold comes_down. rewrite El. cbn. destruct r; [cbn; lia|cbn; lia|by destruct Hr].
    + apply ends_done. by apply (Wt LResume); [cbn; lia|].
  - apply L. unfold listen_step. rewrite El.
    eapply ends_call; [apply sure_seq; [apply sure_SetState|intros _; apply sure_request]|done|].
    intros [] c _ _. apply ends_done. by apply (Wt LAnnounce); [cbn; lia|].
  - apply L. unfold listen_step. rewrite El. eapply ends_call; [apply sure_SendPacket|done|].
    intros [] c _ _. apply ends_done. by apply (Wt LReceive); [cbn; lia|].
  - eapply wait_ends; [done|done|unfold listen_step; by rewrite El|]. apply ends_done. by apply (Wt LReturned); [cbn; lia|].
  - apply L. unfold listen_step. rewrite El, Hover. apply ends_done. by apply (Wt LReceive); [cbn; lia|].
Qed.

(** Once the daemon is being terminated nobody starts to close the channel. *)
Lemma listen_not_close s s' :
  terminated s = true -> at_close s = false -> listen_step s = Done s' -> at_close s' = false.
Proof using.
  intros Hs Hc. assert (K : forall (m : M Client unit) s1 l, (match l with LClose _ => False | _ => True end) ->
    at_close s1 = false -> forall s2, on_cl m s1 (fun _ s => Done (set_listen l (new_hashQueue s))) = Done s2 -> at_close s2 = false).
  { intros m s1 l Hl H1 s2 [(a & _ & [= <-])| ->]%on_cl_Done; [by destruct l|done]. }
  unfold at_close in Hc. unfold listen_step, receive, reconnect_turn.
  destruct (listenPc s) as [|st|p| | | | |b i| | | | | |r] eqn:El; rewrite ?Hs; try done.
  - unfold close_hashQueue. by intros (q & _ & [= <-])%abind_Done.
  - by intros [= <-].
  - by intros (q & _ & [= <-])%abind_Done.
  - destruct (hash_idle s); [by intros [= <-]|done].
  - destruct (hash_idle s); [by intros [= <-]|done].
  - destruct (hash_idle s); [by intros [= <-]|done].
  - intros [(b & _ & E)| ->]%on_cl_Done; [|unfold at_close; cbn; by rewrite El].
    destruct (negb _); [by injection E as <-|]. destruct (CheckOverflow b); [|by injection E as <-].
    apply (K _ _ LReceive) in E; [done|done|]. unfold at_close. cbn. by rewrite El.
  - destruct (_ <? _); [|by intros [= <-]].
    intros [(q & _ & [= <-])| ->]%on_cl_Done; [by destruct q|unfold at_close; cbn; by rewrite El].
  - intros [(q & _ & [= <-])| ->]%on_cl_Done; [done|unfold at_close; cbn; by rewrite El].
  - intros E. apply (K _ _ LReceive) in E; [done|done|]. unfold at_close. by rewrite El.
  - destruct (hash_idle s); [by intros [= <-]|done].
  - by intros [= <-].
Qed.

(** *** The monitor *)

Lemma monitor_ends s :
  ring_inv t n true s -> monitorPc s <> MReturned ->
  ends (fun s' => monitor_rank (monitorPc s') < monitor_rank (monitorPc s))%nat (monitor_step true s).
Proof using Ht.
  intros R Hn. pose proof (ri_client _ _ _ _ R) as I. pose proof (ri_monitor _ _ _ _ R) as Hm.
  assert (Hterm : ChanHasTerminated (TermChan s) = true).
  { unfold TermChan. by rewrite (over_terminated s R). }
  unfold monitor_step. destruct (monitorPc s) as [| | |b i|] eqn:Em; [| | | |done].
  - unfold WaitIfPaused. rewrite Hterm. destruct (chan_recv _) as [[o p]| |]; apply ends_done; cbn; lia.
  - unfold waitUntilResumed. rewrite Hterm. destruct (chan_recv _) as [[o p]| |]; apply ends_done; cbn; lia.
  - eapply ends_call; [apply sure_ServeIOCTL|done|]. intros b c _ [_ Hb]. rewrite Hb by done. apply ends_done. cbn. lia.
  - destruct (Z.ltb_spec i (biLength b)) as [Hi|Hi]; [|apply ends_done; cbn; lia]. destruct Hm as [W Hm].
    eapply ends_call; [apply sure_IsPaused|done|]. intros paused c Ic _. destruct paused; [apply ends_done; cbn; lia|].
    eapply ends_call; [by apply (sure_process_entry t n Ht true b i)|done|]. intros r c' _ Hr.
    apply ends_done. cbn. destruct r; [cbn; lia|cbn; lia|by destruct Hr].
Qed.

(** ** The process *)

(** Steps of the process itself, not of its environment. *)
Definition own (e : pevent) : Prop :=
  match e with PSignal | PGo (CSource _) | PGo CShutdown => False | _ => True end.

Definition brings (p p' : Process) : Prop := exists es, Forall own es /\ prun xxhash es p = Done p'.

Lemma brings_refl p : brings p p.
Proof using. by exists []. Qed.

Lemma brings_step e p p1 p2 : own e -> pstep xxhash e p = Done p1 -> brings p1 p2 -> brings p p2.
Proof using. intros Ho E (es & H & E'). exists (e :: es). split; [by constructor|]. cbn. by rewrite E. Qed.

Lemma brings_trans p1 p2 p3 : brings p1 p2 -> brings p2 p3 -> brings p1 p3.
Proof using.
  intros (es & H & E) L. revert p1 E. induction H as [|e es He H IH]; cbn; intros p1 E; [by injection E as ->|].
  apply abind_Done in E as (q & E & E'). eapply brings_step; eauto.
Qed.

(** [Run] waits for the two goroutines. *)
Record joining (p : Process) : Prop := {
  jn_run : runAt p = RJoin;
  jn_inv : process_inv t n p;
  jn_serve : serve_inv (session p);
  jn_open : at_close (session p) = false;
}.

Lemma load_serve p : serve_inv (session p) -> serve_inv (load p).
Proof using.
  intros [C X D]. pose proof (load_chan p C) as C'. unfold load in *. destruct (connDown p); [|by split].
  split; [done| |done]. unfold expects in *. cbn in *. destruct (listenPc (session p)) as [| | | | | | | | | | | | |[]]; try done; by destruct X.
Qed.

Lemma load_same p : listenPc (load p) = listenPc (session p) /\ monitorPc (load p) = monitorPc (session p) /\
  hash_work (load p) = hash_work (session p).
Proof using. unfold load. by destruct (connDown p). Qed.

Lemma joining_ring p : joining p -> ring_inv t n true (load p).
Proof using. intros [E [R _ _ _] _ _]. rewrite E in R. by apply load_inv. Qed.

Lemma joining_go e p s' :
  joining p -> own (PGo e) -> cstep xxhash e (load p) = Done s' ->
  pstep xxhash (PGo e) p = Done (set_session s' p) /\ joining (set_session s' p).
Proof using Ht.
  intros J Ho E. pose proof (over_terminated _ (joining_ring p J)) as Ht'. destruct J as [Er I V Hcl].
  assert (Hr : released p = false).
  { destruct (released p) eqn:H; [|done]. apply (pi_released _ _ _ I) in H. by rewrite Er in H. }
  assert (Ep : pstep xxhash (PGo e) p = Done (set_session s' p)).
  { unfold pstep. rewrite Er, Hr. destruct e; try done; cbn [andb]; by rewrite E. }
  split; [done|]. split; [done| | |].
  - exact (pstep_inv t n Ht xxhash (PGo e) p _ ltac:(by destruct e) I Ep).
  - apply (creachable_serve xxhash (load p)); [by apply load_serve|]. eapply creach_step; [apply creach_refl|done].
  - destruct (load_terminated p) as [_ E2]. rewrite Hcl in E2. cbn [session set_session].
    destruct (listen_or_not e) as [->|He]; [by apply (listen_not_close (load p))|].
    unfold at_close in *. by rewrite (ok_listen _ _ (other_step xxhash e _ s' He E)).
Qed.

Lemma listener_returns p : joining p -> exists p', brings p p' /\ joining p' /\ listenPc (session p') = LReturned.
Proof using Ht.
  remember (listen_rank (listenPc (session p))) as r eqn:Er. remember (hash_work (session p)) as w eqn:Ew.
  revert w p Er Ew. induction r as [r IHr] using lt_wf_ind. intros w.
  induction w as [w IHw] using lt_wf_ind. intros p Er Ew J.
  assert (Hd : listenPc (session p) = LReturned \/ listenPc (session p) <> LReturned) by (destruct (listenPc (session p)); auto).
  destruct Hd as [Hd|Hd]; [exists p; split; [apply brings_refl|done]|].
  destruct (load_same p) as (El & _ & Eh).
  destruct (listener_progress (load p) (joining_ring p J) (load_serve p (jn_serve _ J))
    ltac:(rewrite (proj2 (load_terminated p)); apply J) ltac:(by rewrite El))
    as (e & He & s' & E & Hs).
  assert (Ho : own (PGo e)) by (destruct He as [->|[->| ->]]; exact I).
  destruct (joining_go e p s' J Ho E) as [Ep J'].
  assert (IH : exists p', brings (set_session s' p) p' /\ joining p' /\ listenPc (session p') = LReturned).
  { destruct Hs as [Hs|[Hs1 Hs2]].
    - unfold comes_down in Hs. rewrite El in Hs. eapply IHr; [|reflexivity|reflexivity|done]. cbn. lia.
    - eapply IHw; [| |reflexivity|done]; cbn; [lia|by rewrite Hs1, El]. }
  destruct IH as (p' & L & H). exists p'. split; [|done]. by eapply brings_step.
Qed.

Lemma monitor_returns p :
  joining p -> listenPc (session p) = LReturned ->
  exists p', brings p p' /\ joining p' /\ joined (session p') = true.
Proof using Ht.
  remember (monitor_rank (monitorPc (session p))) as r eqn:Er. revert p Er.
  induction r as [r IH] using lt_wf_ind. intros p Er J Hl.
  assert (Hd : monitorPc (session p) = MReturned \/ monitorPc (session p) <> MReturned) by (destruct (monitorPc (session p)); auto).
  destruct Hd as [Hd|Hd].
  { exists p. split; [apply brings_refl|]. split; [done|]. by apply joined_spec. }
  destruct (load_same p) as (El & Em & _).
  destruct (monitor_ends (load p) (joining_ring p J) ltac:(by rewrite Em)) as (s' & E & Hs).
  destruct (joining_go (CMonitor true) p s' J I E) as [Ep J'].
  assert (Hl' : listenPc s' = LReturned).
  { rewrite (ok_listen _ _ (monitor_keeps true _ _ E)). by rewrite El. }
  destruct (IH (monitor_rank (monitorPc s')) ltac:(rewrite Em in Hs; lia) (set_session s' p) eq_refl J' Hl') as (p' & L & H).
  exists p'. split; [|done]. by apply (brings_step (PGo (CMonitor true)) p (set_session s' p)).
Qed.

(** [Run] up to the wait, unless it is about to close the closed channel. *)
Lemma run_joins p :
  process_inv t n p -> serve_inv (session p) -> past_join (runAt p) = false -> at_close (session p) = false ->
  (runAt p = RClose -> terminated (session p) = false) ->
  signalled p || terminated (session p) = true -> exists p', brings p p' /\ joining p'.
Proof using Ht.
  intros P V Hj Hcl Hcr Hs.
  assert (K : forall p1 p2, brings p p1 -> process_inv t n p1 -> pstep xxhash PRun p1 = Done p2 ->
    brings p p2 /\ process_inv t n p2).
  { intros p1 p2 L P1 E. split; [eapply brings_trans; [done|]; apply (brings_step PRun p1 p2); [exact I|done|apply brings_refl]|].
    exact (pstep_inv t n Ht xxhash PRun p1 p2 I P1 E). }
  assert (K4 : forall p1, brings p p1 -> process_inv t n p1 -> serve_inv (session p1) -> at_close (session p1) = false ->
    runAt p1 = RCloseConn -> exists p', brings p p' /\ joining p').
  { intros p1 L P1 V1 C1 E. destruct (K p1 (set_run RJoin (CloseClientConn p1)) L P1) as [L2 P2];
      [unfold pstep, end_step; by rewrite E|]. eexists. split; [exact L2|by split]. }
  assert (K3 : forall p1, brings p p1 -> process_inv t n p1 -> serve_inv (session p1) -> at_close (session p1) = false ->
    runAt p1 = RClose -> terminated (session p1) = false -> exists p', brings p p' /\ joining p').
  { intros p1 L P1 [V1 V2 V3] C1 E Et.
    destruct (K p1 (set_run RCloseConn (set_session (InitiateShutdown (session p1)) p1)) L P1) as [L2 P2];
      [unfold pstep, end_step, close_TermChan; by rewrite E, Et|].
    apply (K4 _ L2 P2); [|done|done]. split; [apply P2|done|done]. }
  assert (K2 : forall p1, brings p p1 -> process_inv t n p1 -> serve_inv (session p1) -> at_close (session p1) = false ->
    runAt p1 = RShutdown -> exists p', brings p p' /\ joining p').
  { intros p1 L P1 V1 C1 E. destruct (terminated (session p1)) eqn:Et.
    - destruct (K p1 (set_run RCloseConn p1) L P1) as [L2 P2]; [unfold pstep, end_step; by rewrite E, Et|].
      by apply (K4 _ L2 P2).
    - destruct (K p1 (set_run RClose p1) L P1) as [L2 P2]; [unfold pstep, end_step; by rewrite E, Et|].
      by apply (K3 _ L2 P2). }
  destruct (runAt p) eqn:E; try done.
  - destruct (K p (set_run RShutdown p) (brings_refl p) P) as [L P1]; [unfold pstep, end_step; by rewrite E, Hs|].
    by apply (K2 _ L P1).
  - by apply (K2 p (brings_refl p)).
  - by apply (K3 p (brings_refl p)); auto.
  - by apply (K4 p (brings_refl p)).
  - exists p. split; [apply brings_refl|by split].
Qed.

(** ... and after it. *)
Lemma run_returns p : past_join (runAt p) = true -> exists p', brings p p' /\ runAt p' = RReturned.
Proof using.
  intros H. assert (K : forall p1 p2, pstep xxhash PRun p1 = Done p2 -> brings p1 p2)
    by (intros p1 p2 E; apply (brings_step PRun p1 p2); [exact I|done|apply brings_refl]).
  assert (K2 : forall p1, runAt p1 = RPrint -> brings p1 (set_run RReturned p1))
    by (intros p1 E; apply K; unfold pstep, end_step; by rewrite E).
  destruct (runAt p) eqn:E; try done.
  - exists (set_run RReturned (set_run RPrint (CloseResources p))). split; [|done].
    eapply brings_trans; [apply K; unfold pstep, end_step; by rewrite E|]. by apply K2.
  - exists (set_run RReturned p). split; [by apply K2|done].
  - exists p. split; [apply brings_refl|done].
Qed.

(** The invariants of a process in any schedule. *)
Lemma pstep_serve e p p' : serve_inv (session p) -> pstep xxhash e p = Done p' -> serve_inv (session p').
Proof using.
  intros V. unfold pstep.
  assert (Kg : forall e p', (if released p && uses_ring e (session p) then Crash
      else abind (cstep xxhash e (load p)) (fun s => Done (set_session s p))) = Done p' -> serve_inv (session p')).
  { intros e0 p0. destruct (_ && _); [done|]. intros (s' & E & [= <-])%abind_Done.
    apply (creachable_serve xxhash (load p)); [by apply load_serve|]. eapply creach_step; [apply creach_refl|done]. }
  assert (Kr : forall p', end_step p = Done p' -> serve_inv (session p')).
  { intros p0. unfold end_step. destruct (runAt p); try (by intros [= <-]).
    - destruct (_ || _); [by intros [= <-]|done].
    - unfold close_TermChan. destruct (terminated _); [done|]. intros [= <-].
      destruct V as [C X D]. split; [by destruct C|done|done].
    - destruct (joined _); [by intros [= <-]|done]. }
  destruct (runAt p); [..|done]; (destruct e as [| |[]]; [by intros [= <-]|apply Kr|try apply Kg..]; done).
Qed.

Lemma prun_serve es p p' : serve_inv (session p) -> prun xxhash es p = Done p' -> serve_inv (session p').
Proof using.
  revert p. induction es as [|e es IH]; cbn; intros p V E; [by injection E as <-|].
  apply abind_Done in E as (p1 & E1 & E2). eapply IH; [by eapply pstep_serve|done].
Qed.

(** [Run] or the listener must close the channel a second time. *)
Definition doomed (p : Process) : Prop :=
  (terminated (session p) = true /\ (runAt p = RClose \/ at_close (session p) = true)) \/
  (runAt p = RClose /\ at_close (session p) = true).

Lemma open_brings p :
  process_inv t n p -> serve_inv (session p) -> at_close (session p) = false ->
  (runAt p = RClose -> terminated (session p) = false) -> signalled p || terminated (session p) = true ->
  exists p', brings p p' /\ runAt p' = RReturned.
Proof using Ht.
  intros P V Hcl Hcr Hs. destruct (past_join (runAt p)) eqn:Hj; [by apply run_returns|].
  destruct (run_joins p P V Hj Hcl Hcr Hs) as (p1 & L1 & J1). destruct (listener_returns p1 J1) as (p2 & L2 & J2 & Hl).
  destruct (monitor_returns p2 J2 Hl) as (p3 & L3 & J3 & Hd).
  assert (E : pstep xxhash PRun p3 = Done (set_run RRelease p3))
    by (unfold pstep, end_step; by rewrite (jn_run _ J3), Hd).
  destruct (run_returns (set_run RRelease p3) eq_refl) as (p4 & L4 & H). exists p4. split; [|done].
  eapply brings_trans; [done|]. eapply brings_trans; [done|]. eapply brings_trans; [done|].
  by apply (brings_step PRun p3 (set_run RRelease p3)).
Qed.

(** A listener that is about to close the channel does so first. *)
Lemma listener_closes p :
  process_inv t n p -> at_close (session p) = true -> terminated (session p) = false ->
  exists s', pstep xxhash (PGo CListen) p = Done (set_session s' p) /\ at_close s' = false /\ terminated s' = true.
Proof using.
  intros P Hcl Hs. destruct (load_terminated p) as [E1 E2]. rewrite Hs in E1. rewrite Hcl in E2.
  assert (Hn : past_join (runAt p) = false).
  { destruct (past_join (runAt p)) eqn:E; [|done]. apply (pi_join _ _ _ P), joined_spec in E as [E _].
    unfold at_close in Hcl. by rewrite E in Hcl. }
  assert (Hr : released p = false) by (destruct (released p) eqn:E; [|done]; apply (pi_released _ _ _ P) in E; congruence).
  assert (K : exists s', listen_step (load p) = Done s' /\ at_close s' = false /\ terminated s' = true).
  { unfold at_close in E2. unfold listen_step, close_TermChan. rewrite E1. destruct (listenPc (load p)); try done.
    eexists. split; [done|]. by destruct returns. }
  destruct K as (s' & E & H). exists s'. split; [|done]. unfold pstep. rewrite Hr. cbn [andb].
  change (cstep xxhash CListen) with listen_step. rewrite E. by destruct (runAt p).
Qed.

Lemma shutdown_brings p :
  process_inv t n p -> serve_inv (session p) -> ~ doomed p -> signalled p || terminated (session p) = true ->
  exists p', brings p p' /\ runAt p' = RReturned.
Proof using Ht.
  intros P V Hd Hs. unfold doomed in Hd. destruct (at_close (session p)) eqn:Hcl.
  - destruct (terminated (session p)) eqn:Ht'; [naive_solver|].
    destruct (listener_closes p P Hcl Ht') as (s' & E & Hcl' & Hs').
    destruct (open_brings (set_session s' p)) as (p' & L & H); try done.
    + by apply (pstep_inv t n Ht xxhash (PGo CListen) p).
    + by apply (pstep_serve (PGo CListen) p).
    + cbn. intros Hr. naive_solver.
    + cbn. by rewrite Hs', orb_true_r.
    + exists p'. split; [|done]. by eapply (brings_step (PGo CListen)).
  - apply open_brings; try done. intros Hr. destruct (terminated (session p)); [|done]. naive_solver.
Qed.

End Shutdown.

(** C19: a shutdown of the client completes.  From every state that [main] and the
    goroutines can reach, in whatever the listener, the monitor and the hash
    workers are doing, with any faults and with the writes to the source going on
    before: once a signal has arrived, or the daemon has been ended by one of its
    goroutines, the steps of the process alone lead to the end of [Run], unless it
    is [doomed] to close the termination channel twice (the panic of
    [client_panics_only]: both the listener and [Run] have looked and not closed
    it yet, or one has closed it while the other had looked); and the server has to
    send hashes within a scan only. *)
Theorem client_shutdown_completes t n rb a m conn underDev attempts xxhash es p0 p :
  wf_target t n -> ring_rel (Z.to_nat (PageSize t)) n rb a ->
  hashes_ok false (conn_in conn) = true -> forallb conn_ok attempts = true ->
  client_process m None (inl t) (inl rb) (inr conn) underDev attempts = Ret p0 ->
  Forall (process_event_ok t) es -> prun xxhash es p0 = Done p ->
  signalled p || terminated (session p) = true -> ~ doomed p ->
  exists es' p', Forall own es' /\ prun xxhash es' p = Done p' /\ runAt p' = RReturned.
Proof.
  intros Ht R Hh Hd E0 He E Hs Hnd.
  destruct (client_process_starts t n m None rb a (inr conn) underDev attempts R)
    as [[e E']|(q & E' & P & _ & Hl & Hds & conn' & [= <-] & Hi)]; rewrite E0 in E'; [done|injection E' as <-].
  assert (V : serve_inv (session p0)).
  { split; [apply P| |by rewrite Hds]. unfold expects. rewrite Hl, Hi. by apply hashes_ok_mono. }
  pose proof (prun_inv t n Ht xxhash es p0 p He P E) as G.
  destruct (shutdown_brings t n Ht xxhash p G (prun_serve xxhash es p0 p V E) Hnd Hs) as (p' & (es' & Ho & E2) & H).
  by exists es', p'.
Qed.

(** ** What a shutdown leaves behind *)

(** A client that is stopped when the hashes are compared does not ask the kernel
    for the writes made meanwhile, but still announces that the scan is complete,
    and the server applies the correct blocks without those writes. *)
Lemma stopped_scan_announced t n xxhash s :
  ring_inv t n true s -> listenPc s = LSendBuffer -> encFaults (cl s) = [] ->
  exists s', crun xxhash [CListen; CListen; CListen] s = Done s' /\ listenPc s' = LReceive /\
    kernel (cl s') = kernel (cl s) /\
    csent (cl s') = csent (cl s) ++ [CreateInfoPacket PacketTypeInfoHashingCompleted].
Proof.
  intros R El Hf. pose proof (ri_client _ _ _ _ R) as I. pose proof (ci_over _ _ _ _ I eq_refl) as Ht.
  pose proof (ci_contr _ _ _ _ I) as Hc.
  cbn [crun cstep]. unfold listen_step at 1. rewrite El. unfold on_cl at 1.
  assert (E1 : ServeIOCTL CmdReadBufferInfo (cl s) = (Ret zeroBufferInfo, cl s)).
  { unfold ServeIOCTL. erewrite bind_Ret by reflexivity. cbn [ioctl_loop].
    rewrite (bind_Ret _ _ _ true (cl s)) by (unfold CheckTermination; by rewrite Ht). done. }
  rewrite E1. cbn [HasNewWrites zeroBufferInfo biLength negb Z.eqb abind].
  unfold listen_step at 1. cbn [listenPc set_listen]. unfold on_cl at 1. cbn [cl set_cl set_listen].
  erewrite bind_Ret by reflexivity. unfold on_contr, lift_unit, Resume. cbn [MonitorPauseContr set_cstate].
  rewrite request_ok by done. cbn [abind].
  unfold listen_step at 1. cbn [listenPc set_listen]. unfold on_cl at 1. cbn [cl set_cl set_listen].
  rewrite SendPacket_ok by done. cbn [abind]. eexists. split; [reflexivity|]. done.
Qed.

(** ** A client that is stopped in the middle of a scan

    Pages of two bytes and a ring of two entries; the listener holds a hash, and a
    write has been put into the ring. *)
Definition stop_target : TargetInfo := mkTargetInfo 2 10 20 1.
Definition stop_ring : bdr_ring_buffer := mkRing (replicate 20 Byte.x33) (mkBufferInfo 0 0 0 0 2).
Definition stop_conn : connection :=
  mkConn [] [RPacket (CreateInfoPacket PacketTypeInfoStartHashing);
             RPacket {| PacketType := PacketTypePayloadHash;
                        Payload := PHashInfo {| hOffset := 0; hSize := 4; hHash := 7 |} |}].
Definition stop_dev : Dev := {| content := replicate 4 Byte.x07; faults := [] |}.
Definition stop_events : list pevent :=
  [PGo CListen; PGo CListen; PGo CListen; PGo (CSource [mkSegment 0 [Byte.x01; Byte.x02] 0 2]); PGo (CMonitor false); PSignal].

Lemma stop_ring_rel : ring_rel 2 2 stop_ring a_reset.
Proof.
  destruct (init_refines 2 2 (replicate 20 Byte.x33)) as (rb & E & R); [lia|lia|done|].
  injection E as <-. exact R.
Qed.

Lemma stop_target_wf : wf_target stop_target 2.
Proof. split; cbn; lia. Qed.

Lemma stop_events_ok : Forall (process_event_ok stop_target) stop_events.
Proof. repeat constructor; cbn; try lia; width_tac. Qed.

(** The server refuses the session; a signal comes when the listener has seen the
    termination channel open. *)
Definition refused_conn : connection := mkConn [] [RPacket (CreateInfoPacket PacketTypeErrInit)].
Definition race_events : list pevent :=
  [PGo CListen; PGo CListen; PSignal; PRun; PRun; PGo CListen; PRun].

Lemma client_panics_only_witness :
  match client_process (mkMode false false true) None (inl stop_target) (inl stop_ring) (inr refused_conn) stop_dev [] with
  | Ret p =>
      exists es1 e es2 p', race_events = es1 ++ e :: es2 /\ prun be_get es1 p = Done p' /\ double_close p' e
  | Err _ => True
  | Panic => False
  end.
Proof.
  pose proof (client_panics_only stop_target 2 stop_ring a_reset (mkMode false false true) None (inr refused_conn)
    stop_dev [] be_get race_events stop_target_wf stop_ring_rel ltac:(repeat constructor)) as H.
  destruct (client_process (mkMode false false true) None (inl stop_target) (inl stop_ring) (inr refused_conn) stop_dev [])
    as [p|e|] eqn:E; [|exact H|exact H].
  apply (proj1 H). injection E as <-. vm_compute. reflexivity.
Defined.

Lemma client_shutdown_completes_witness :
  match client_process (mkMode false false true) None (inl stop_target) (inl stop_ring) (inr stop_conn) stop_dev [] with
  | Ret p0 =>
      match prun be_get stop_events p0 with
      | Done p => (exists h, listenPc (session p) = LSendHash h) /\
          exists es' p', Forall own es' /\ prun be_get es' p = Done p' /\ runAt p' = RReturned
      | _ => False
      end
  | _ => False
  end.
Proof.
  destruct (client_process (mkMode false false true) None (inl stop_target) (inl stop_ring) (inr stop_conn) stop_dev [])
    as [p0|e|] eqn:E0; [|discriminate E0..].
  destruct (prun be_get stop_events p0) as [p| |] eqn:E;
    [|injection E0 as <-; vm_compute in E; discriminate E..].
  split; [injection E0 as <-; vm_compute in E; injection E as <-; eexists; reflexivity|].
  apply (client_shutdown_completes stop_target 2 stop_ring a_reset (mkMode false false true) stop_conn stop_dev []
    be_get stop_events p0 p); [exact stop_target_wf|exact stop_ring_rel|reflexivity|reflexivity|exact E0|
    exact stop_events_ok|exact E|..].
  - injection E0 as <-. vm_compute in E. injection E as <-. reflexivity.
  - injection E0 as <-. vm_compute in E. injection E as <-. unfold doomed. cbn. intros [[H _]|[H _]]; discriminate H.
Defined.
